(** * File Consolidator: scanning, selection and merge strategies

    A shallow embedding of the file-tree scan ([UIManager.populate_file_tree]),
    the selection collector ([FileConsolidatorApp._collect_included_files]) and
    the merge strategies of [FileProcessor], followed by the properties that
    the design document states about them.

    Conventions of the embedding.
    - Python [str] is [string]; [str.lower] and [str.strip] act on the ASCII
      range.  Path functions are those of [posixpath] (separator [/]), and
      text files are written with the POSIX line separator.
    - Library calls whose code is not part of the repository are either
      section variables ([fnmatch.fnmatch], [ast.literal_eval]) or read-only
      oracles describing what the operating system returns (directory
      listings, file contents, the cancellation flag as the worker observes
      it).  The [ttk.Treeview] widget is a store of items with the
      behaviour of Tk: items are named by a serial number, and an
      insertion under a parent that the widget does not hold fails.
    - An exception is a value; a function that can raise returns the state
      it reached together with the way it left.
    - Loops that Python bounds by the data ([while parent], the recursion
      over the children of a node) take fuel; the fuel that suffices is
      given with the properties.

    Two points of the source shape the embedding.
    - In FileProcessor.py the statement [def merge_as_pdf] starts at the
      left margin: the class ends before it.  [merge_as_pdf] is a function
      of the module, [merge_as_docx] and [merge_as_pptx] are local to its
      body, and [merge_documents] looks the three names up on [self].
      The three functions are embedded as written; the dispatch is
      embedded over the attributes the object has.
    - [populate_file_tree] ends with a call of [filter_tree], which
      redraws the primary widget from the search text.  [UIManager]
      embeds the scan of lines 302-383, for session texts that denote
      sequences of strings, [FilterTree] embeds [filter_tree], and
      [PopulateFileTree] the whole method, over any value that
      [ast.literal_eval] can give; on sequences of strings the three
      agree.
    - python-docx puts the paragraphs that [add_heading] and
      [add_page_break] make before the section properties that end the
      body of a new document, and [body.append] puts an element after
      them: the body of the merged document is embedded with that
      order.

    The second half of the development covers the code around these
    functions: the window and its dialogs ([Gui], [App]: starting a run,
    the queue of the worker, cancelling), the reports of utils.py
    ([Utils]), the search field, the recent folders, the editor of the
    global patterns and the context menu of UIManager.py, and further
    properties of the merge strategies. *)

From Stdlib Require Import Ascii.
From stdpp Require Import gmap strings list fin_maps pretty.

Open Scope string_scope.
Open Scope list_scope.
Open Scope stdpp_scope.

(* ===================================================================== *)
(** ** Python exceptions                                                  *)
(* ===================================================================== *)

Inductive exc_class :=
  | ValueError | SyntaxError | TypeError | RecursionError | MemoryError
  | AttributeError | OSError | PermissionError | TclError | OtherError.

Global Instance exc_class_eq_dec : EqDecision exc_class.
Proof. solve_decision. Defined.

(** [exc_msg] is what [str(e)] (an f-string [{e}]) prints. *)
Record exn := Exn { exc_cls : exc_class; exc_msg : string }.

(** The result of a call that may raise. *)
Inductive res (A : Type) :=
  | Ok (a : A)
  | Raise (e : exn).
Global Arguments Ok {A} a.
Global Arguments Raise {A} e.

(* ===================================================================== *)
(** ** [str] methods                                                      *)
(* ===================================================================== *)

Module PyStr.

Definition is_upper (c : ascii) : bool :=
  (65 <=? nat_of_ascii c)%nat && (nat_of_ascii c <=? 90)%nat.

Definition lower_char (c : ascii) : ascii :=
  if is_upper c then ascii_of_nat (nat_of_ascii c + 32) else c.

(** [s.lower()] *)
Fixpoint lower (s : string) : string :=
  match s with
  | EmptyString => EmptyString
  | String c s' => String (lower_char c) (lower s')
  end.

(** [s.startswith(p)] *)
Definition startswith (s p : string) : bool := String.prefix p s.

(** [s.endswith(suffix)]: [suffix] is [s] or a tail of [s]. *)
Fixpoint endswith (s suffix : string) : bool :=
  String.eqb s suffix
  || match s with
     | EmptyString => false
     | String _ s' => endswith s' suffix
     end.

(** [s.endswith((a, b, ...))] *)
Definition endswith_any (s : string) (suffixes : list string) : bool :=
  existsb (endswith s) suffixes.

(** The ASCII characters for which [str.isspace] holds. *)
Definition is_space (c : ascii) : bool :=
  let n := nat_of_ascii c in
  ((9 <=? n)%nat && (n <=? 13)%nat) || ((28 <=? n)%nat && (n <=? 32)%nat).

Fixpoint lstrip (s : string) : string :=
  match s with
  | EmptyString => EmptyString
  | String c s' => if is_space c then lstrip s' else s
  end.

Fixpoint rstrip (s : string) : string :=
  match s with
  | EmptyString => EmptyString
  | String c s' =>
      match rstrip s' with
      | EmptyString => if is_space c then EmptyString else String c EmptyString
      | r => String c r
      end
  end.

(** [s.strip()] *)
Definition strip (s : string) : string := rstrip (lstrip s).

(** [s.split(sep)] for a one-character separator: never the empty list. *)
Fixpoint split (sep : ascii) (s : string) : list string :=
  match s with
  | EmptyString => [EmptyString]
  | String c s' =>
      if Ascii.eqb c sep then EmptyString :: split sep s'
      else match split sep s' with
           | h :: t => String c h :: t
           | [] => [String c EmptyString]
           end
  end.

(** Truth value of a string: [bool(s)]. *)
Definition truthy (s : string) : bool := negb (String.eqb s "").

(** Index of the last occurrence of [c] in [s] ([s.rfind(c)]), if any. *)
Fixpoint rfind (c : ascii) (s : string) : option nat :=
  match s with
  | EmptyString => None
  | String a s' =>
      match rfind c s' with
      | Some i => Some (S i)
      | None => if Ascii.eqb a c then Some 0%nat else None
      end
  end.

(** [s[i:]] *)
Definition from (i : nat) (s : string) : string :=
  String.substring i (String.length s - i) s.

(** [s[:i]] *)
Definition upto (i : nat) (s : string) : string := String.substring 0 i s.

End PyStr.

(* ===================================================================== *)
(** ** [os.path] (posixpath)                                              *)
(* ===================================================================== *)

Module OsPath.

(** One step of [os.path.join(a, *p)]: an absolute component resets the
    path, otherwise it is appended after a single separator. *)
Definition join2 (path b : string) : string :=
  if PyStr.startswith b "/" then b
  else if negb (PyStr.truthy path) || PyStr.endswith path "/" then path +:+ b
  else path +:+ "/" +:+ b.

(** [os.path.join(a, *p)] *)
Definition join (a : string) (p : list string) : string := fold_left join2 p a.

(** [os.path.basename(p)]: what follows the last separator. *)
Definition basename (p : string) : string :=
  match PyStr.rfind "/" p with
  | Some i => PyStr.from (S i) p
  | None => p
  end.

(** [os.path.splitext(p)]: the extension starts at the last dot of the
    last component, unless only dots precede it there. *)
Definition splitext (p : string) : string * string :=
  let sep_next := match PyStr.rfind "/" p with Some i => S i | None => 0%nat end in
  match PyStr.rfind "." p with
  | Some dot =>
      if (sep_next <=? dot)%nat
         && existsb (fun i => match String.get i p with
                              | Some c => negb (Ascii.eqb c ".")
                              | None => false
                              end)
                    (seq sep_next (dot - sep_next))
      then (PyStr.upto dot p, PyStr.from dot p)
      else (p, "")
  | None => (p, "")
  end.

End OsPath.

(* ===================================================================== *)
(** ** [ttk.Treeview]                                                     *)
(* ===================================================================== *)

(** The widget is a store of items.  Tk names the items it creates
    [I001], [I002], ... from a serial number kept by each widget; the store
    keeps the number, and [0] stands for the empty string, the name of the
    invisible root.  All insertions of the program are at index ['end'], so
    the children of an item are the items that name it as parent, in the
    order of their creation. *)
Module Tk.

Record item := Item {
  iid : nat;
  parent : nat;
  text : string;
  values : list string;
  tags : list string;
  is_open : bool
}.

Record Treeview := Mk { items : list item; serial : nat }.

Definition empty : Treeview := Mk [] 0.

Definition find (tv : Treeview) (id : nat) : option item :=
  List.find (fun it => Nat.eqb (iid it) id) (items tv).

(** [tree.exists(id)] *)
Definition exists_ (tv : Treeview) (id : nat) : bool :=
  match find tv id with Some _ => true | None => false end.

(** [tree.get_children(id)] *)
Definition get_children (tv : Treeview) (id : nat) : list nat :=
  map iid (List.filter (fun it => Nat.eqb (parent it) id) (items tv)).

Definition hex_digit (n : nat) : string :=
  String.substring n 1 "0123456789ABCDEF".

Fixpoint to_hex (fuel n : nat) : string :=
  match fuel with
  | O => ""
  | S fuel' =>
      if (n <? 16)%nat then hex_digit n
      else to_hex fuel' (n / 16) +:+ hex_digit (n mod 16)
  end.

(** The name [I%03X] of item number [n]. *)
Definition item_name (n : nat) : string :=
  let h := to_hex (S n) n in
  "I" +:+ String.substring 0 (3 - String.length h) "000" +:+ h.

(** [tree.insert(parent, 'end', text=..., values=..., tags=..., open=...)]:
    the parent must be the root or an item of this widget, otherwise Tk
    reports [TclError]. *)
Definition insert (tv : Treeview) (parent : nat) (text : string)
    (values tags : list string) (is_open : bool) : res (nat * Treeview) :=
  if Nat.eqb parent 0 || exists_ tv parent then
    let id := S (serial tv) in
    Ok (id, Mk (items tv ++ [Item id parent text values tags is_open]) id)
  else Raise (Exn TclError ("Item " +:+ item_name parent +:+ " not found")).

(** [tree.delete] applied to all the children of the root: every item
    goes, the serial number stays. *)
Definition delete_all (tv : Treeview) : Treeview := Mk [] (serial tv).

End Tk.

(* ===================================================================== *)
(** ** what the operating system shows of a directory                     *)
(* ===================================================================== *)

(** A directory entry as [os.walk] and [os.path.getsize] see it.
    - [File name size]: [size] is the result of [os.path.getsize], [None]
      when it raises [OSError].
    - [Dir name listing]: [listing] is what [os.scandir] returns; [None]
      when the directory is not descended into ([scandir] fails, which
      [os.walk] swallows, or the entry is a symbolic link, which it does
      not follow).  Such an entry is still reported among the
      [dirnames] of its parent. *)
#[local] Set Warnings "-register-all".
Inductive entry :=
  | File (name : string) (size : option N)
  | Dir (name : string) (listing : option (list entry)).

Definition entry_name (e : entry) : string :=
  match e with File n _ => n | Dir n _ => n end.

(** The [dirnames] and [filenames] of a listing, in directory order. *)
Definition dirnames_of (es : list entry) : list string :=
  omap (fun e => match e with Dir n _ => Some n | File _ _ => None end) es.

Definition files_of (es : list entry) : list (string * option N) :=
  omap (fun e => match e with File n s => Some (n, s) | Dir _ _ => None end) es.

(** [f"{n / 1024:.2f}"] for a size of [n] bytes: [n / 1024] is an exact
    binary fraction (for [n] below [2^53]) and is printed rounded to the
    nearest hundredth, ties to even. *)
Definition size_kb (n : N) : string :=
  let q := (n * 25 / 256)%N in
  let r := (n * 25 mod 256)%N in
  let h := if (128 <? r)%N || ((r =? 128)%N && N.odd q) then (q + 1)%N else q in
  let cents := (h mod 100)%N in
  pretty (h / 100)%N +:+ "." +:+ (if (cents <? 10)%N then "0" else "") +:+ pretty cents.
(* ===================================================================== *)
(** ** concrete stand-ins for the two library functions                   *)
(* ===================================================================== *)

(** The scan is parametrised by [fnmatch.fnmatch] and [ast.literal_eval].
    The functions below agree with them on the inputs the examples use:
    patterns made of literal characters, [*] and [?] (no bracket
    expressions, case-sensitive as on POSIX), and the texts that [str]
    prints for a list of strings free of quotes and backslashes. *)
Module Lib.

(** [glob pattern name] *)
Fixpoint glob (pat : string) : string -> bool :=
  match pat with
  | EmptyString => fun name => negb (PyStr.truthy name)
  | String c pat' =>
      if Ascii.eqb c "*" then
        fix star (name : string) : bool :=
          glob pat' name
          || match name with
             | EmptyString => false
             | String _ name' => star name'
             end
      else if Ascii.eqb c "?" then
        fun name => match name with
                    | EmptyString => false
                    | String _ name' => glob pat' name'
                    end
      else
        fun name => match name with
                    | EmptyString => false
                    | String d name' => Ascii.eqb c d && glob pat' name'
                    end
  end.

Definition fnmatch (name pat : string) : bool := glob pat name.

Inductive parser_state :=
  | AtStart                      (* before the opening bracket *)
  | AtItem (first : bool)        (* an item or the closing bracket may come *)
  | InString (acc : string)      (* inside a quoted item, read so far *)
  | AfterItem                    (* a comma or the closing bracket must come *)
  | AtEnd.                       (* after the closing bracket *)

Definition syntax_error {A} : res A := Raise (Exn SyntaxError "invalid syntax").

Fixpoint parse (s : string) (st : parser_state) (items : list string)
    : res (list string) :=
  match s with
  | EmptyString =>
      match st with AtEnd => Ok items | _ => syntax_error end
  | String c s' =>
      match st with
      | AtStart =>
          if Ascii.eqb c " " then parse s' AtStart items
          else if Ascii.eqb c "[" then parse s' (AtItem true) items
          else syntax_error
      | AtItem first =>
          if Ascii.eqb c " " then parse s' (AtItem first) items
          else if Ascii.eqb c "'" then parse s' (InString "") items
          else if Ascii.eqb c "]" then parse s' AtEnd items
          else syntax_error
      | InString acc =>
          if Ascii.eqb c "'" then parse s' AfterItem (items ++ [acc])
          else if Ascii.eqb c "\" then syntax_error
          else parse s' (InString (acc +:+ String c "")) items
      | AfterItem =>
          if Ascii.eqb c " " then parse s' AfterItem items
          else if Ascii.eqb c "," then parse s' (AtItem false) items
          else if Ascii.eqb c "]" then parse s' AtEnd items
          else syntax_error
      | AtEnd =>
          if Ascii.eqb c " " then parse s' AtEnd items else syntax_error
      end
  end.

Definition literal_eval (text : string) : res (list string) := parse text AtStart [].

End Lib.
(* ===================================================================== *)
(** ** ConfigManager.py                                                   *)
(* ===================================================================== *)

Module ConfigManager.

Definition DEFAULT_GLOBAL_IGNORE_FOLDERS : list string :=
  ["__pycache__"; ".venv"; ".git"; "node_modules"; "build"; "dist"].

Definition DEFAULT_GLOBAL_IGNORE_FILES : list string :=
  [".DS_Store"; "*.pyc"; "*.log"; ".env"].

(** The fields of [ConfigHandler] that the scan reads. *)
Record ConfigHandler := Mk {
  global_folder_ignores : list string;
  global_file_ignores : list string
}.

(** The lists a fresh [ConfigHandler.__init__] starts from. *)
Definition initial : ConfigHandler :=
  Mk DEFAULT_GLOBAL_IGNORE_FOLDERS DEFAULT_GLOBAL_IGNORE_FILES.

End ConfigManager.

(* ===================================================================== *)
(** ** UIManager.py: [populate_file_tree]                                 *)
(* ===================================================================== *)

Module UIManager.

(** What [populate_file_tree] reads from the application: the Tk
    variables of [FileConsolidatorApp], the two view options of
    [UIManager] and the global lists of the [ConfigHandler]. *)
Record Settings := MkSettings {
  root_folder : string;
  file_types : string;
  folder_ignore_patterns : string;
  file_ignore_patterns : string;
  show_ignored_separately : bool;
  hide_ignored : bool;
  config_handler : ConfigManager.ConfigHandler
}.

(** The fields of [UIManager] that [populate_file_tree] writes. *)
Record Widgets := MkWidgets {
  tree : Tk.Treeview;
  ignored_tree : Tk.Treeview;
  tree_item_paths : gmap nat string;
  _all_tree_items_master_list : list nat
}.

(** A call of [messagebox.showwarning(title, message)]. *)
Record dialog := ShowWarning { dlg_title : string; dlg_message : string }.

(** The state of one scan: the widgets and the local dictionary
    [path_to_node_map]. *)
Record scan_state := MkScan {
  ui : Widgets;
  path_to_node_map : gmap string nat
}.

(** Computations of the scan: they update the state in place and either
    return or raise; what was written before an exception stays. *)
Definition M (A : Type) : Type := scan_state -> res A * scan_state.

Definition ret {A} (a : A) : M A := fun st => (Ok a, st).

Definition bind {A B} (m : M A) (k : A -> M B) : M B :=
  fun st => match m st with
            | (Ok a, st') => k a st'
            | (Raise e, st') => (Raise e, st')
            end.

(** [for x in l: body(x)] *)
Fixpoint for_each {A} (l : list A) (body : A -> M unit) : M unit :=
  match l with
  | [] => ret tt
  | x :: l' => bind (body x) (fun _ => for_each l' body)
  end.

(** [self.tree.insert(parent, 'end', ...)] *)
Definition tree_insert (parent : nat) (text : string) (values tags : list string)
    (is_open : bool) : M nat :=
  fun st =>
    match Tk.insert (tree (ui st)) parent text values tags is_open with
    | Ok (id, tv) =>
        (Ok id, MkScan (MkWidgets tv (ignored_tree (ui st)) (tree_item_paths (ui st))
                          (_all_tree_items_master_list (ui st)))
                       (path_to_node_map st))
    | Raise e => (Raise e, st)
    end.

(** [self.ignored_tree.insert(parent, 'end', ...)] *)
Definition ignored_tree_insert (parent : nat) (text : string)
    (values tags : list string) (is_open : bool) : M nat :=
  fun st =>
    match Tk.insert (ignored_tree (ui st)) parent text values tags is_open with
    | Ok (id, tv) =>
        (Ok id, MkScan (MkWidgets (tree (ui st)) tv (tree_item_paths (ui st))
                          (_all_tree_items_master_list (ui st)))
                       (path_to_node_map st))
    | Raise e => (Raise e, st)
    end.

(** [path_to_node_map[path] = node_id] *)
Definition map_path (path : string) (node_id : nat) : M unit :=
  fun st => (Ok tt, MkScan (ui st) (<[path := node_id]> (path_to_node_map st))).

(** [self.tree_item_paths[node_id] = path] *)
Definition record_path (node_id : nat) (path : string) : M unit :=
  fun st =>
    (Ok tt, MkScan (MkWidgets (tree (ui st)) (ignored_tree (ui st))
                      (<[node_id := path]> (tree_item_paths (ui st)))
                      (_all_tree_items_master_list (ui st)))
                   (path_to_node_map st)).

(** [self._all_tree_items_master_list.append(node_id)] *)
Definition cache_item (node_id : nat) : M unit :=
  fun st =>
    (Ok tt, MkScan (MkWidgets (tree (ui st)) (ignored_tree (ui st))
                      (tree_item_paths (ui st))
                      (_all_tree_items_master_list (ui st) ++ [node_id]))
                   (path_to_node_map st)).

(** [path_to_node_map.get(path)] *)
Definition node_of (path : string) : M (option nat) :=
  fun st => (Ok (path_to_node_map st !! path), st).

(** Lines 360-363: the status and the tag of a file, from the three
    tests made on its name. *)
Definition file_status (is_session_file_ignored is_global_file_ignored
    is_ext_match : bool) : string * list string :=
  if is_session_file_ignored then ("Ignored (Session)", ["session_ignore"])
  else if is_global_file_ignored then ("Ignored (Global)", ["global_ignore"])
  else if negb is_ext_match then ("Ignored (Type)", ["type_ignore"])
  else ("Included", []).

(** Line 326: the allow-list of extensions read from the entry field. *)
Definition extensions_of (file_types : string) : list string :=
  map (fun ext => PyStr.lower (PyStr.strip ext))
      (List.filter (fun ext => PyStr.truthy (PyStr.strip ext))
                   (PyStr.split "," file_types)).

Section Scan.

(** [fnmatch.fnmatch(name, pattern)] *)
Variable fnmatch : string -> string -> bool.

Variable cfg : Settings.
Variables session_folder_ignores session_file_ignores : list string.

Let global_folder_ignores :=
  ConfigManager.global_folder_ignores (config_handler cfg).
Let global_file_ignores :=
  ConfigManager.global_file_ignores (config_handler cfg).
Let extensions := extensions_of (file_types cfg).

(** Lines 337-338: the test that keeps a name in [dirnames]. *)
Definition keeps_folder (d : string) : bool :=
  negb (existsb (fnmatch d) session_folder_ignores)
  && negb (existsb (fnmatch d) global_folder_ignores).

(** Lines 343-346: the node of a kept sub-folder. *)
Definition folder_step (dirpath : string) (parent_node_id : nat) (d : string)
    : M unit :=
  let full_path := OsPath.join dirpath [d] in
  bind (tree_insert parent_node_id d [""; ""; "Folder"] [] false) (fun node_id =>
  bind (map_path full_path node_id) (fun _ =>
  record_path node_id full_path)).

Definition is_ext_match (basename : string) : bool :=
  existsb (PyStr.endswith (PyStr.lower basename)) extensions.
Definition is_global_file_ignored (basename : string) : bool :=
  existsb (fnmatch basename) global_file_ignores.
Definition is_session_file_ignored (basename : string) : bool :=
  existsb (fnmatch basename) session_file_ignores.
Definition is_ignored (basename : string) : bool :=
  is_global_file_ignored basename || is_session_file_ignored basename
  || negb (is_ext_match basename).

(** Line 357: the test that skips a file in hide-ignored mode. *)
Definition skipped (basename : string) : bool :=
  hide_ignored cfg && is_ignored basename && negb (show_ignored_separately cfg).

(** Lines 349-381: one file of the directory [dirpath]. *)
Definition file_step (dirpath : string) (f : string * option N) : M unit :=
  let full_path := OsPath.join dirpath [f.1] in
  let basename := f.1 in
  if skipped basename then ret tt
  else
    let '(status, tags) :=
      file_status (is_session_file_ignored basename)
                  (is_global_file_ignored basename) (is_ext_match basename) in
    let size := match f.2 with Some n => size_kb n | None => "N/A" end in
    let file_ext := (OsPath.splitext basename).2 in
    let separate := show_ignored_separately cfg && is_ignored basename in
    bind (node_of dirpath) (fun known =>
    bind (if separate then
            match known with
            | Some id => ret id
            | None =>
                bind (ignored_tree_insert 0 (OsPath.basename dirpath)
                        [""; ""; "Folder"] [] true) (fun id =>
                bind (map_path dirpath id) (fun _ => ret id))
            end
          else ret (default 0 known)) (fun parent_id =>
    bind ((if separate then ignored_tree_insert else tree_insert)
            parent_id basename [status; size; file_ext] tags false) (fun node_id =>
    bind (record_path node_id full_path) (fun _ =>
    if is_ignored basename then ret tt else cache_item node_id)))).

(** Lines 335-381: the body of the loop over [os.walk], for the
    directory [dirpath] whose listing is [es].  Nothing in it raises
    [PermissionError] ([os.walk] swallows the errors of [scandir], and
    [getsize] is guarded on its own), so the handler of line 382 is not
    entered. *)
Definition visit (dirpath : string) (es : list entry) : M unit :=
  let dirnames := List.filter keeps_folder (dirnames_of es) in
  bind (node_of dirpath) (fun known =>
  let parent_node_id := default 0 known in
  bind (for_each dirnames (folder_step dirpath parent_node_id)) (fun _ =>
  for_each (files_of es) (file_step dirpath))).

(** [os.walk(top, topdown=True)] driving [visit]: a directory is
    visited, then each sub-folder left in [dirnames] is walked, in
    order. *)
Fixpoint walk (top : string) (e : entry) {struct e} : M unit :=
  match e with
  | Dir _ (Some es) =>
      bind (visit top es) (fun _ =>
      (fix subdirs (l : list entry) : M unit :=
         match l with
         | [] => ret tt
         | e' :: l' =>
             bind (match e' with
                   | Dir d _ =>
                       if keeps_folder d then walk (OsPath.join top [d]) e'
                       else ret tt
                   | File _ _ => ret tt
                   end) (fun _ => subdirs l')
         end) es)
  | _ => ret tt
  end.

(** Lines 326-383: the scan of the root folder, once the session
    lists are known. *)
Definition scan (root : option (list entry)) : M unit :=
  let root_path := root_folder cfg in
  bind (tree_insert 0 (OsPath.basename root_path) [""; ""; "Folder"] [] true)
       (fun root_node_id =>
  bind (map_path root_path root_node_id) (fun _ =>
  bind (record_path root_node_id root_path) (fun _ =>
  walk root_path (Dir (OsPath.basename root_path) root)))).

End Scan.

(** The outcome of [populate_file_tree]: the widgets as it leaves them,
    the dialogs it showed, and the exception it raised, if any. *)
Record outcome := MkOutcome {
  widgets : Widgets;
  shown : list dialog;
  raised : option exn
}.

Definition finish (shown : list dialog) (r : res unit * scan_state) : outcome :=
  MkOutcome (ui r.2) shown (match r.1 with Ok _ => None | Raise e => Some e end).

Definition invalid_patterns : dialog :=
  ShowWarning "Invalid Patterns" "Ignore patterns were invalid and reset to defaults.".

(** [except (ValueError, SyntaxError)] *)
Definition caught (e : exn) : bool :=
  bool_decide (exc_cls e = ValueError) || bool_decide (exc_cls e = SyntaxError).

Section Populate.

Variable fnmatch : string -> string -> bool.

(** [ast.literal_eval(text)], for a text that denotes a sequence of
    strings: the sequence, or the exception raised. *)
Variable literal_eval : string -> res (list string).

(** Lines 302-383 of [populate_file_tree], for session texts that
    denote sequences of strings.  [isdir] is the answer of
    [os.path.isdir(root_path)] and [root] the listing of the root
    folder.  The result is the store that the scan builds: the closing
    call of [filter_tree], which redraws the primary widget from the
    search text, comes with [FilterTree.populate_and_filter], and the
    whole method over any value of the texts is
    [PopulateFileTree.populate_file_tree].  The showing and hiding of
    the lower pane is outside the embedding. *)
Definition populate_file_tree (cfg : Settings) (isdir : bool)
    (root : option (list entry)) (w : Widgets) : outcome :=
  let w0 := MkWidgets (Tk.delete_all (tree w)) (Tk.delete_all (ignored_tree w)) ∅ [] in
  let root_path := root_folder cfg in
  if negb (PyStr.truthy root_path) || negb isdir then MkOutcome w0 [] None
  else
    let parsed :=
      match literal_eval (folder_ignore_patterns cfg) with
      | Ok folders =>
          match literal_eval (file_ignore_patterns cfg) with
          | Ok files => Ok (folders, files)
          | Raise e => Raise e
          end
      | Raise e => Raise e
      end in
    match parsed with
    | Ok (session_folder_ignores, session_file_ignores) =>
        finish [] (scan fnmatch cfg session_folder_ignores session_file_ignores
                        root (MkScan w0 ∅))
    | Raise e =>
        if caught e then
          finish [invalid_patterns] (scan fnmatch cfg [] [] root (MkScan w0 ∅))
        else MkOutcome w0 [] (Some e)
    end.

End Populate.

End UIManager.
(* ===================================================================== *)
(** ** main.py: [_collect_included_files]                                 *)
(* ===================================================================== *)

Module Main.

(** [values[i]] on the tuple that [tree.item(id, "values")] returns. *)
Definition index (values : list string) (i : nat) : res string :=
  match values !! i with
  | Some v => Ok v
  | None => Raise (Exn OtherError "tuple index out of range")
  end.

Definition item_missing {A} (id : nat) : res A :=
  Raise (Exn TclError ("Item " +:+ Tk.item_name id +:+ " not found")).

(** Lines 129-132: the loop [while parent: ...] that puts the text of
    every ancestor in front of [path_parts].  [None] when the fuel does
    not reach the end of the loop. *)
Fixpoint climb (fuel : nat) (tree : Tk.Treeview) (parent : nat)
    (path_parts : list string) : option (res (list string)) :=
  if Nat.eqb parent 0 then Some (Ok path_parts)
  else
    match fuel with
    | O => None
    | S fuel' =>
        match Tk.find tree parent with
        | Some it => climb fuel' tree (Tk.parent it) (Tk.text it :: path_parts)
        | None => Some (item_missing parent)
        end
    end.

(** [for child_id in parent_ids: body(child_id)], where a round returns
    the list it leaves, raises, or runs out of fuel. *)
Fixpoint for_ids (body : nat -> list string -> option (res (list string)))
    (parent_ids : list nat) (file_list : list string) : option (res (list string)) :=
  match parent_ids with
  | [] => Some (Ok file_list)
  | child_id :: rest =>
      match body child_id file_list with
      | Some (Ok file_list') => for_ids body rest file_list'
      | other => other
      end
  end.

(** Lines 125-136: one round of the loop.  [recurse] is the recursive
    call of line 136 and [fuel] bounds the loop of line 130. *)
Definition round (recurse : list nat -> list string -> option (res (list string)))
    (fuel : nat) (tree : Tk.Treeview) (root_folder : string)
    (child_id : nat) (file_list : list string) : option (res (list string)) :=
  match Tk.find tree child_id with
  | None => Some (Ok file_list)                     (* [continue] *)
  | Some it =>
      let values := Tk.values it in
      let folder_case (_ : unit) :=
        match values with
        | [] => Some (Ok file_list)
        | _ :: _ =>
            match index values 2 with
            | Raise e => Some (Raise e)
            | Ok v2 =>
                if String.eqb v2 "Folder"
                then recurse (Tk.get_children tree child_id) file_list
                else Some (Ok file_list)
            end
        end in
      match values with
      | [] => folder_case tt
      | v0 :: _ =>
          if String.eqb v0 "Included" then
            match index values 2 with
            | Raise e => Some (Raise e)
            | Ok v2 =>
                if negb (String.eqb v2 "Folder") then
                  match climb fuel tree (Tk.parent it) [Tk.text it] with
                  | Some (Ok path_parts) =>
                      Some (Ok (file_list ++ [OsPath.join root_folder path_parts]))
                  | other => other
                  end
                else folder_case tt
            end
          else folder_case tt
      end
  end.

(** Lines 119-136.  [file_list] is the list the caller passes and the
    function appends to; the result is that list after the call.
    [None] when the fuel does not reach the end of the recursion. *)
Fixpoint _collect_included_files (fuel : nat) (tree : Tk.Treeview)
    (root_folder : string) (parent_ids : list nat) (file_list : list string)
    {struct fuel} : option (res (list string)) :=
  match fuel with
  | O => None
  | S fuel' =>
      for_ids (round (_collect_included_files fuel' tree root_folder)
                     fuel' tree root_folder)
              parent_ids file_list
  end.

(** Lines 68-69 of [start_consolidation]: the files handed to the
    merge, collected from the top-level items of the primary widget. *)
Definition files_to_process (fuel : nat) (tree : Tk.Treeview)
    (root_folder : string) : option (res (list string)) :=
  _collect_included_files fuel tree root_folder (Tk.get_children tree 0) [].

End Main.
(* ===================================================================== *)
(** ** FileProcessor.py                                                   *)
(* ===================================================================== *)

Module FileProcessor.

(** *** Documents *)

(** A page of a PDF file, an element of the body of a word-processing
    document: opaque values that are copied, never inspected. *)
Definition page := string.

Inductive block :=
  | Heading (text : string) (level : nat)
  | PageBreak
  | Element (xml : string)
  | SectPr.

(** Position and size of a shape: [left], [top], [width], [height]. *)
Definition box : Type := Z * Z * Z * Z.

(** A shape of a source slide.  For a picture, [image] is the outcome of
    reading its blob and adding it to the new slide. *)
Inductive shape :=
  | TextShape (at_ : box) (text : string)          (* [has_text_frame] *)
  | PictureShape (at_ : box) (image : res string)  (* [shape_type == 13] *)
  | OtherShape.

Record slide := Slide { slide_layout : string; shapes : list shape }.

Inductive new_shape :=
  | TextBox (at_ : box) (text : string)
  | Picture (at_ : box) (blob : string).

Record new_slide := NewSlide { layout : string; new_shapes : list new_shape }.

(** What a file holds once it is closed.  [OfficePdf source] is the
    PDF file that Word or PowerPoint saves from the document
    [source]. *)
Inductive artifact :=
  | TextFile (content : string)
  | PdfFile (pages : list page)
  | DocxFile (body : list block)
  | PptxFile (slides : list new_slide)
  | OfficePdf (source : string).

(** How [Open], [SaveAs] and [Close] of an Office document end: the
    three calls return, or one of them raises; [written] tells whether
    [SaveAs] had written the PDF file by then. *)
Inductive conversion :=
  | Converted
  | NotConverted (written : bool) (e : exn).

(** *** The world of the worker thread *)

Inductive message :=
  | Status (text : string)
  | Progress (value : nat)
  | MaxProgress (value : nat)
  | Done (file_paths : list string) (output_filename : string).

Inductive io_event :=
  | OpenRead (path : string)
  | OpenWrite (path : string)
  | Remove (path : string).

(** What the worker reads and cannot change.  [cancel_requested n] is the
    value of [self.app.cancel_requested] at the [n]-th time the worker
    reads it: the flag belongs to the interface thread. *)
Record World := MkWorld {
  include_headers : bool;
  OFFICE_INSTALLED : bool;
  cancel_requested : nat -> bool;
  (** opening a file for writing: [None] when it succeeds *)
  open_for_writing : string -> option exn;
  (** the characters of a file decoded as UTF-8 with [errors='replace'],
      before the translation of line endings, or the exception of
      [open] or [read] *)
  read_text : string -> res string;
  (** [PdfReader(f).pages] of a file opened in binary mode *)
  read_pdf : string -> res (list page);
  (** the children of [Document(path).element.body], in the order in
      which the loop of line 161 moves them *)
  read_docx : string -> res (list string);
  (** [Presentation(path).slides] *)
  read_pptx : string -> res (list slide);
  (** [comtypes.client.CreateObject(name)]: [None] when it succeeds *)
  create_object : string -> option exn;
  (** [Open], [SaveAs], [Close] of an Office document into a PDF file *)
  convert : string -> string -> conversion;
  (** [os.path.exists] then [os.remove]: [None] when the file is not
      there, [Some None] when it is removed *)
  remove : string -> option (option exn)
}.

(** What the worker writes.  [disk] holds the files that the run has
    written, by itself or through Office, and not removed. *)
Record Worker := MkWorker {
  processing_errors : list string;
  processing_queue : list message;
  reads : nat;
  disk : gmap string artifact;
  log : list io_event;
  dialogs : list UIManager.dialog
}.

Definition append_error (msg : string) (st : Worker) : Worker :=
  MkWorker (processing_errors st ++ [msg]) (processing_queue st) (reads st)
           (disk st) (log st) (dialogs st).

Definition put (m : message) (st : Worker) : Worker :=
  MkWorker (processing_errors st) (processing_queue st ++ [m]) (reads st)
           (disk st) (log st) (dialogs st).

Definition tick (st : Worker) : Worker :=
  MkWorker (processing_errors st) (processing_queue st) (S (reads st))
           (disk st) (log st) (dialogs st).

Definition store (path : string) (a : artifact) (st : Worker) : Worker :=
  MkWorker (processing_errors st) (processing_queue st) (reads st)
           (<[path := a]> (disk st)) (log st) (dialogs st).

Definition unlink (path : string) (st : Worker) : Worker :=
  MkWorker (processing_errors st) (processing_queue st) (reads st)
           (delete path (disk st)) (log st) (dialogs st).

Definition record_io (ev : io_event) (st : Worker) : Worker :=
  MkWorker (processing_errors st) (processing_queue st) (reads st)
           (disk st) (log st ++ [ev]) (dialogs st).

Definition show (d : UIManager.dialog) (st : Worker) : Worker :=
  MkWorker (processing_errors st) (processing_queue st) (reads st)
           (disk st) (log st) (dialogs st ++ [d]).

(** How a merge function is left. *)
Inductive ending :=
  | Finished                 (* the end of the function is reached *)
  | CancelSeen               (* a test of the cancellation flag ended the work *)
  | Critical (e : exn)       (* an exception was caught and recorded as critical *)
  | Raised (e : exn).        (* an exception leaves the function *)

(** The completion status of the design document. *)
Inductive status := Completed | Cancelled | Failed.

Definition outcome (r : ending) : status :=
  match r with
  | Finished => Completed
  | CancelSeen => Cancelled
  | Critical _ | Raised _ => Failed
  end.

Definition nl : string := String (ascii_of_nat 10) "".
Definition cr : ascii := ascii_of_nat 13.
Definition lf : ascii := ascii_of_nat 10.

(** Reading in text mode with the default [newline=None]: the line
    endings CR LF and CR are returned as LF. *)
Fixpoint universal_newlines (s : string) : string :=
  match s with
  | EmptyString => EmptyString
  | String c s' =>
      if Ascii.eqb c cr then
        match s' with
        | String d s'' =>
            if Ascii.eqb d lf then String lf (universal_newlines s'')
            else String lf (universal_newlines s')
        | EmptyString => String lf EmptyString
        end
      else String c (universal_newlines s')
  end.

Section Strategies.

Variable w : World.

(** [self.app.cancel_requested], read once. *)
Definition cancelled (st : Worker) : bool := cancel_requested w (reads st).

(** [with open(path, 'r', encoding='utf-8', errors='replace') as infile:
    infile.read()] *)
Definition infile_read (path : string) : res string :=
  match read_text w path with
  | Ok raw => Ok (universal_newlines raw)
  | Raise e => Raise e
  end.

(** *** [merge_as_text] *)

Definition separator : string := "====================".

(** The text of line 70. *)
Definition header (path : string) : string :=
  nl +:+ separator +:+ nl +:+ "# File: " +:+ path +:+ nl +:+ separator +:+ nl +:+ nl.

Definition reading_error (path : string) (e : exn) : string :=
  "Error reading file " +:+ path +:+ ": " +:+ exc_msg e.

(** Lines 65-77: the loop from its [i]-th round on.  [outfile] is what
    has been written to the output so far. *)
Fixpoint text_loop (i : nat) (file_paths : list string) (outfile : string)
    (st : Worker) : ending * string * Worker :=
  match file_paths with
  | [] => (Finished, outfile, st)
  | path :: rest =>
      if cancelled st then (CancelSeen, outfile, tick st)
      else
        let st := tick st in
        let st := put (Status ("Processing: " +:+ OsPath.basename path)) st in
        let st := put (Progress (i + 1)) st in
        let outfile := if include_headers w then outfile +:+ header path else outfile in
        let st := record_io (OpenRead path) st in
        match infile_read path with
        | Ok content => text_loop (S i) rest (outfile +:+ (content +:+ nl)) st
        | Raise e =>
            let error_msg := reading_error path e in
            text_loop (S i) rest (outfile +:+ ("# " +:+ error_msg +:+ nl))
                      (append_error error_msg st)
        end
  end.

(** Lines 61-77.  The output file exists, empty, from the moment it is
    opened; leaving the [with] block closes it with what was written. *)
Definition merge_as_text (file_paths : list string) (output_filename : string)
    (st : Worker) : ending * Worker :=
  let st := record_io (OpenWrite output_filename) st in
  match open_for_writing w output_filename with
  | Some e => (Raised e, st)
  | None =>
      let st := store output_filename (TextFile "") st in
      let '(r, outfile, st) := text_loop 0 file_paths "" st in
      (r, store output_filename (TextFile outfile) st)
  end.

(** *** [merge_as_pdf] *)

Definition office_not_found : UIManager.dialog :=
  UIManager.ShowWarning "Office Not Found"
    "MS Office is required for converting Word/PowerPoint files to PDF. These files will be skipped.".

(** The local variables of [merge_as_pdf]. *)
Record pdf_locals := MkPdf {
  writer : list page;
  temp_pdfs : list string;
  word : bool;
  powerpoint : bool
}.

(** Lines 97-104 and 106-113: the conversion of an Office document.
    The result is the value of [pdf_path] after the [try] statement.
    The file that [SaveAs] writes is on the disk from then on; its name
    joins [temp_pdfs] only when [Close] has returned. *)
Definition convert_office (app_name kind : string) (created : bool) (i : nat)
    (path : string) (temps : list string) (st : Worker)
    : option string * bool * list string * Worker :=
  let failed e st :=
    append_error ("Failed to convert " +:+ kind +:+ " " +:+ OsPath.basename path
                  +:+ ": " +:+ exc_msg e) st in
  match (if created then None else create_object w app_name) with
  | Some e => (None, created, temps, failed e st)
  | None =>
      let pdf_path := (OsPath.splitext path).1 +:+ "_" +:+ pretty i +:+ ".pdf" in
      match convert w path pdf_path with
      | Converted =>
          (Some pdf_path, true, temps ++ [pdf_path], store pdf_path (OfficePdf path) st)
      | NotConverted written e =>
          (Some pdf_path, true, temps,
           failed e (if written then store pdf_path (OfficePdf path) st else st))
      end
  end.

(** Lines 118-123: the pages of [pdf_path] go to the writer. *)
Definition append_pages (path pdf_path : string) (loc : pdf_locals) (st : Worker)
    : res pdf_locals * Worker :=
  let st := put (Status ("Appending: " +:+ OsPath.basename path)) st in
  let st := record_io (OpenRead pdf_path) st in
  match read_pdf w pdf_path with
  | Ok pages =>
      (Ok (MkPdf (writer loc ++ pages) (temp_pdfs loc) (word loc) (powerpoint loc)), st)
  | Raise e => (Raise e, st)
  end.

(** Lines 88-123: the loop from its [i]-th round on.  The result tells
    whether the loop was left by [break] ([CancelSeen]), by an
    exception, or at its end. *)
Fixpoint pdf_loop (i : nat) (file_paths : list string) (loc : pdf_locals)
    (st : Worker) : ending * pdf_locals * Worker :=
  match file_paths with
  | [] => (Finished, loc, st)
  | path :: rest =>
      if cancelled st then (CancelSeen, loc, tick st)
      else
        let st := tick st in
        let st := put (Status ("Converting: " +:+ OsPath.basename path)) st in
        let st := put (Progress (i + 1)) st in
        let lower := PyStr.lower path in
        let after (pdf_path : option string) (loc : pdf_locals) (st : Worker) :=
          match pdf_path with
          | Some p =>
              if PyStr.truthy p then
                match append_pages path p loc st with
                | (Ok loc, st) => pdf_loop (S i) rest loc st
                | (Raise e, st) => (Raised e, loc, st)
                end
              else pdf_loop (S i) rest loc st
          | None => pdf_loop (S i) rest loc st
          end in
        if PyStr.endswith lower ".pdf" then after (Some path) loc st
        else if PyStr.endswith_any lower [".docx"; ".doc"] && OFFICE_INSTALLED w then
          let '(pdf_path, created, temps, st) :=
            convert_office "Word.Application" "DOCX" (word loc) i path (temp_pdfs loc) st in
          after pdf_path (MkPdf (writer loc) temps created (powerpoint loc)) st
        else if PyStr.endswith_any lower [".pptx"; ".ppt"] && OFFICE_INSTALLED w then
          let '(pdf_path, created, temps, st) :=
            convert_office "Powerpoint.Application" "PPTX" (powerpoint loc) i path
                           (temp_pdfs loc) st in
          after pdf_path (MkPdf (writer loc) temps (word loc) created) st
        else
          pdf_loop (S i) rest loc
            (append_error ("Skipped unsupported file for PDF merge: "
                           +:+ OsPath.basename path) st)
  end.

(** Lines 134-139: the temporary files are removed. *)
Fixpoint remove_temps (temps : list string) (st : Worker) : Worker :=
  match temps with
  | [] => st
  | temp_pdf :: rest =>
      match remove w temp_pdf with
      | None => remove_temps rest st
      | Some None => remove_temps rest (unlink temp_pdf (record_io (Remove temp_pdf) st))
      | Some (Some e) =>
          remove_temps rest
            (append_error ("Could not remove temp file " +:+ temp_pdf +:+ ": "
                           +:+ exc_msg e) (record_io (Remove temp_pdf) st))
      end
  end.

Definition critical_pdf (e : exn) : string :=
  "A critical error occurred during PDF merge: " +:+ exc_msg e.

(** Lines 79-139. *)
Definition merge_as_pdf (file_paths : list string) (output_filename : string)
    (st : Worker) : ending * Worker :=
  let st :=
    if negb (OFFICE_INSTALLED w)
       && existsb (fun p => PyStr.endswith_any (PyStr.lower p)
                              [".docx"; ".doc"; ".pptx"; ".ppt"]) file_paths
    then show office_not_found st else st in
  let '(r, loc, st) := pdf_loop 0 file_paths (MkPdf [] [] false false) st in
  let '(r, st) :=
    match r with
    | Raised e => (Critical e, append_error (critical_pdf e) st)
    | _ =>
        if cancelled st then (CancelSeen, tick st)
        else
          let st := tick st in
          let st := put (Status "Saving final PDF...") st in
          let st := record_io (OpenWrite output_filename) st in
          match open_for_writing w output_filename with
          | Some e => (Critical e, append_error (critical_pdf e) st)
          | None => (Finished, store output_filename (PdfFile (writer loc)) st)
          end
    end in
  (r, remove_temps (temp_pdfs loc) st).

(** *** [merge_as_docx] *)

(** [Document()]: the body of the default template holds its section
    properties ([w:sectPr]) and nothing else. *)
Definition new_document : list block := [SectPr].

(** [add_heading] and [add_page_break] go through [add_paragraph],
    which puts the paragraph before the first [w:sectPr] child of the
    body, and at the end of a body that has none. *)
Fixpoint add_paragraph (b : block) (body : list block) : list block :=
  match body with
  | [] => [b]
  | SectPr :: _ => b :: body
  | x :: rest => x :: add_paragraph b rest
  end.

(** Lines 161-162: [master_doc.element.body.append(element)] moves each
    child of the body of [sub_doc], whatever its tag, to the end of the
    body of [master_doc]. *)
Definition body_append (elements : list string) (body : list block) : list block :=
  body ++ map Element elements.

(** Lines 153-166: one file.  [master_doc] is the body of the
    document. *)
Definition docx_step (i : nat) (path : string) (master_doc : list block)
    (st : Worker) : list block * Worker :=
  if PyStr.endswith (PyStr.lower path) ".docx" then
    let master_doc :=
      if (0 <? i)%nat || negb (include_headers w)
      then add_paragraph PageBreak master_doc
      else master_doc in
    let master_doc :=
      if include_headers w
      then add_paragraph (Heading ("Content from: " +:+ OsPath.basename path) 1)
                         master_doc
      else master_doc in
    let st := record_io (OpenRead path) st in
    match read_docx w path with
    | Ok elements => (body_append elements master_doc, st)
    | Raise e =>
        (master_doc,
         append_error ("Could not process DOCX file " +:+ OsPath.basename path
                       +:+ ": " +:+ exc_msg e) st)
    end
  else
    (master_doc, append_error ("Skipped non-DOCX file: " +:+ OsPath.basename path) st).

(** Lines 148-166: the loop from its [i]-th round on. *)
Fixpoint docx_loop (i : nat) (file_paths : list string) (master_doc : list block)
    (st : Worker) : ending * list block * Worker :=
  match file_paths with
  | [] => (Finished, master_doc, st)
  | path :: rest =>
      if cancelled st then (CancelSeen, master_doc, tick st)
      else
        let st := tick st in
        let st := put (Status ("Processing: " +:+ OsPath.basename path)) st in
        let st := put (Progress (i + 1)) st in
        let '(master_doc, st) := docx_step i path master_doc st in
        docx_loop (S i) rest master_doc st
  end.

(** Lines 144-146: the document before the loop. *)
Definition titled_document (file_paths : list string) : list block :=
  if negb (bool_decide (file_paths = [])) && include_headers w
  then add_paragraph (Heading "Consolidated Document" 0) new_document
  else new_document.

(** Lines 142-169. *)
Definition merge_as_docx (file_paths : list string) (output_filename : string)
    (st : Worker) : ending * Worker :=
  match docx_loop 0 file_paths (titled_document file_paths) st with
  | (Finished, master_doc, st) =>
      if cancelled st then (CancelSeen, tick st)
      else
        let st := record_io (OpenWrite output_filename) (tick st) in
        match open_for_writing w output_filename with
        | Some e => (Raised e, st)
        | None => (Finished, store output_filename (DocxFile master_doc) st)
        end
  | (r, _, st) => (r, st)
  end.

(** *** [merge_as_pptx] *)

(** Lines 186-194: the shapes of a slide, copied one by one. *)
Fixpoint copy_shapes (path : string) (l : list shape) (copied : list new_shape)
    (st : Worker) : list new_shape * Worker :=
  match l with
  | [] => (copied, st)
  | TextShape b t :: l' => copy_shapes path l' (copied ++ [TextBox b t]) st
  | PictureShape b (Ok blob) :: l' => copy_shapes path l' (copied ++ [Picture b blob]) st
  | PictureShape b (Raise img_e) :: l' =>
      copy_shapes path l' copied
        (append_error ("Could not copy image from " +:+ OsPath.basename path
                       +:+ ": " +:+ exc_msg img_e) st)
  | OtherShape :: l' => copy_shapes path l' copied st
  end.

(** Lines 182-194: the slides of one presentation. *)
Fixpoint copy_slides (path : string) (l : list slide) (master_ppt : list new_slide)
    (st : Worker) : list new_slide * Worker :=
  match l with
  | [] => (master_ppt, st)
  | s :: l' =>
      let '(copied, st) := copy_shapes path (shapes s) [] st in
      copy_slides path l' (master_ppt ++ [NewSlide (slide_layout s) copied]) st
  end.

(** Lines 179-199: one file. *)
Definition pptx_step (path : string) (master_ppt : list new_slide) (st : Worker)
    : list new_slide * Worker :=
  if PyStr.endswith (PyStr.lower path) ".pptx" then
    let st := record_io (OpenRead path) st in
    match read_pptx w path with
    | Ok sub_ppt => copy_slides path sub_ppt master_ppt st
    | Raise e =>
        (master_ppt,
         append_error ("Could not process " +:+ OsPath.basename path
                       +:+ ": " +:+ exc_msg e) st)
    end
  else
    (master_ppt, append_error ("Skipped non-PPTX file: " +:+ OsPath.basename path) st).

(** Lines 174-199: the loop from its [i]-th round on. *)
Fixpoint pptx_loop (i : nat) (file_paths : list string) (master_ppt : list new_slide)
    (st : Worker) : ending * list new_slide * Worker :=
  match file_paths with
  | [] => (Finished, master_ppt, st)
  | path :: rest =>
      if cancelled st then (CancelSeen, master_ppt, tick st)
      else
        let st := tick st in
        let st := put (Status ("Processing: " +:+ OsPath.basename path)) st in
        let st := put (Progress (i + 1)) st in
        let '(master_ppt, st) := pptx_step path master_ppt st in
        pptx_loop (S i) rest master_ppt st
  end.

(** Lines 171-202. *)
Definition merge_as_pptx (file_paths : list string) (output_filename : string)
    (st : Worker) : ending * Worker :=
  match pptx_loop 0 file_paths [] st with
  | (Finished, master_ppt, st) =>
      if cancelled st then (CancelSeen, tick st)
      else
        let st := record_io (OpenWrite output_filename) (tick st) in
        match open_for_writing w output_filename with
        | Some e => (Raised e, st)
        | None => (Finished, store output_filename (PptxFile master_ppt) st)
        end
  | (r, _, st) => (r, st)
  end.

End Strategies.

(** *** [merge_documents] and [process_files] *)

(** A merge function, once bound to the object. *)
Definition strategy : Type := list string -> string -> Worker -> ending * Worker.

Section Dispatch.

Variable w : World.

(** The merge functions among the attributes of the object that
    [self.<name>] finds. *)
Variable attributes : list (string * strategy).

(** [self.<name>] *)
Definition getattr (name : string) : res strategy :=
  match List.find (fun a => String.eqb a.1 name) attributes with
  | Some a => Ok a.2
  | None =>
      Raise (Exn AttributeError
                 ("'FileProcessor' object has no attribute '" +:+ name +:+ "'"))
  end.

(** Lines 44-49: the dictionary display, evaluated entry by entry. *)
Definition merge_function_map : res (list (string * strategy)) :=
  match getattr "merge_as_text" with
  | Raise e => Raise e
  | Ok text =>
  match getattr "merge_as_pdf" with
  | Raise e => Raise e
  | Ok pdf =>
  match getattr "merge_as_docx" with
  | Raise e => Raise e
  | Ok docx =>
  match getattr "merge_as_pptx" with
  | Raise e => Raise e
  | Ok pptx => Ok [("TXT", text); ("PDF", pdf); ("DOCX", docx); ("PPTX", pptx)]
  end end end end.

Definition finished_status (file_paths : list string) (st : Worker) : message :=
  Status ("Finished. Consolidated "
          +:+ pretty (Z.of_nat (length file_paths)
                      - Z.of_nat (length (processing_errors st)))%Z
          +:+ " files.").

(** Lines 40-59. *)
Definition merge_documents_with (file_paths : list string)
    (output_filename output_format : string) (st : Worker) : ending * Worker :=
  match merge_function_map with
  | Raise e => (Raised e, st)
  | Ok map =>
      let '(r, st) :=
        match List.find (fun kv => String.eqb kv.1 output_format) map with
        | Some kv => kv.2 file_paths output_filename st
        | None => (Finished, st)
        end in
      match r with
      | Raised e => (Raised e, st)
      | _ =>
          if cancelled w st
          then (CancelSeen, put (Status "Operation cancelled.") (tick st))
          else (match r with Critical e => Critical e | _ => Finished end,
                put (finished_status file_paths st) (tick st))
      end
  end.

(** Lines 26-38. *)
Definition process_files_with (file_paths : list string)
    (output_filename output_format : string) (st : Worker) : ending * Worker :=
  let st := put (MaxProgress (length file_paths)) st in
  let '(r, st) :=
    match merge_documents_with file_paths output_filename output_format st with
    | (Raised e, st) =>
        (Critical e, append_error ("A critical error occurred: " +:+ exc_msg e) st)
    | other => other
    end in
  (r, put (Done file_paths output_filename) st).

End Dispatch.

(** The [class FileProcessor] statement ends where [def merge_as_pdf]
    starts at the left margin (line 79).  The methods of the class are
    [__init__], [process_files], [merge_documents] and [merge_as_text];
    [merge_as_pdf] is a function of the module, and [merge_as_docx] and
    [merge_as_pptx], written one level deep after its [finally] block,
    are local to its body.  Of the four names that [merge_documents]
    looks up on [self], the object has one. *)
Definition FileProcessor_attributes (w : World) : list (string * strategy) :=
  [("merge_as_text", merge_as_text w)].

Definition merge_documents (w : World) :=
  merge_documents_with w (FileProcessor_attributes w).

Definition process_files (w : World) :=
  process_files_with w (FileProcessor_attributes w).

End FileProcessor.
(* ===================================================================== *)
(** ** vocabulary of the statements                                       *)
(* ===================================================================== *)

(** [concat_text l]: the strings of [l] one after the other. *)
Definition concat_text (l : list string) : string := foldr String.append "" l.

Module TextMerge.
Import FileProcessor.

(** What one round of the loop of [merge_as_text] writes for [path]. *)
Definition chunk (w : World) (path : string) : string :=
  (if include_headers w then header path else "")
  +:+ match infile_read w path with
      | Ok content => content +:+ nl
      | Raise e => "# " +:+ reading_error path e +:+ nl
      end.

(** The errors one round of the loop records for [path]. *)
Definition errors (w : World) (path : string) : list string :=
  match infile_read w path with
  | Ok _ => []
  | Raise e => [reading_error path e]
  end.

End TextMerge.

(** The worker does not see the cancellation flag set at any of its next
    [n] readings. *)
Definition not_cancelled (w : FileProcessor.World) (st : FileProcessor.Worker)
    (n : nat) : Prop :=
  forall k, (k < n)%nat ->
    FileProcessor.cancel_requested w (FileProcessor.reads st + k) = false.

(** The events of a log that open a file for writing. *)
Definition writes (l : list FileProcessor.io_event) : list string :=
  omap (fun ev => match ev with FileProcessor.OpenWrite p => Some p | _ => None end) l.

(** The events of a log that open a file for reading. *)
Definition opened (l : list FileProcessor.io_event) : list string :=
  omap (fun ev => match ev with FileProcessor.OpenRead p => Some p | _ => None end) l.

(** A text without carriage return. *)
Definition no_cr (s : string) : Prop :=
  ~ In FileProcessor.cr (String.list_ascii_of_string s).

(** What a round of a merge loop leaves as it is: the count of the
    readings of the flag, the output files and the files opened for
    writing. *)
Definition same_files (st st' : FileProcessor.Worker) : Prop :=
  FileProcessor.reads st' = FileProcessor.reads st
  /\ FileProcessor.disk st' = FileProcessor.disk st
  /\ writes (FileProcessor.log st') = writes (FileProcessor.log st).

(* ===================================================================== *)
(** ** vocabulary of the statements about the scan                        *)
(* ===================================================================== *)

(** The values of a folder node. *)
Definition folder_values : list string := [""; ""; "Folder"].

(** [chain tv id names]: [names] are the texts of the items met from the
    top level of the widget down to the item [id], this one included;
    the invisible root has the empty chain. *)
Inductive chain (tv : Tk.Treeview) : nat -> list string -> Prop :=
  | chain_root : chain tv 0 []
  | chain_item (it : Tk.item) (names : list string) :
      In it (Tk.items tv) ->
      chain tv (Tk.parent it) names ->
      chain tv (Tk.iid it) (names ++ [Tk.text it]).

(** The items of a widget are well formed: their names are distinct and
    were given by the widget, and the parent of an item is the root or an
    older item of the widget. *)
Definition well_formed (tv : Tk.Treeview) : Prop :=
  NoDup (map Tk.iid (Tk.items tv))
  /\ forall it, In it (Tk.items tv) ->
       (0 < Tk.iid it <= Tk.serial tv)%nat
       /\ (Tk.parent it < Tk.iid it)%nat
       /\ (Tk.parent it = 0%nat
           \/ exists it', In it' (Tk.items tv) /\ Tk.iid it' = Tk.parent it).

(** [prune keeps e]: the directory [e] without the sub-folders, at any
    depth, whose name fails the test [keeps]. *)
Fixpoint prune (keeps : string -> bool) (e : entry) : entry :=
  match e with
  | Dir d (Some es) =>
      Dir d (Some ((fix prune_all (l : list entry) : list entry :=
                      match l with
                      | [] => []
                      | (Dir d' _ as e') :: l' =>
                          if keeps d' then prune keeps e' :: prune_all l'
                          else prune_all l'
                      | (File _ _ as e') :: l' => e' :: prune_all l'
                      end) es))
  | _ => e
  end.

Definition prune_all (keeps : string -> bool) : list entry -> list entry :=
  fix prune_all (l : list entry) : list entry :=
    match l with
    | [] => []
    | (Dir d' _ as e') :: l' =>
        if keeps d' then prune keeps e' :: prune_all l' else prune_all l'
    | (File _ _ as e') :: l' => e' :: prune_all l'
    end.

(** No folder of the listing [es], at any depth, has a name that fails
    the test. *)
Fixpoint all_kept (keeps : string -> bool) (e : entry) : bool :=
  match e with
  | Dir d c =>
      keeps d
      && match c with
         | Some es => forallb (all_kept keeps) es
         | None => true
         end
  | File _ _ => true
  end.

(** The four statuses of a file. *)
Definition statuses : list string :=
  ["Included"; "Ignored (Session)"; "Ignored (Global)"; "Ignored (Type)"].

(** The loop of [os.walk] over the sub-folders of a directory, as [walk]
    runs it. *)
Definition walk_all (fnmatch : string -> string -> bool) (cfg : UIManager.Settings)
    (session_folder_ignores session_file_ignores : list string) (top : string)
    : list entry -> UIManager.M unit :=
  fix subdirs (l : list entry) : UIManager.M unit :=
    match l with
    | [] => UIManager.ret tt
    | e' :: l' =>
        UIManager.bind
          (match e' with
           | Dir d _ =>
               if UIManager.keeps_folder fnmatch cfg session_folder_ignores d
               then UIManager.walk fnmatch cfg session_folder_ignores session_file_ignores
                      (OsPath.join top [d]) e'
               else UIManager.ret tt
           | File _ _ => UIManager.ret tt
           end) (fun _ => subdirs l')
    end.

(** The invariant of the scan. *)
Module ScanInv.
Import UIManager.

Section Invariant.

Variable fnmatch : string -> string -> bool.
Variable cfg : Settings.
Variables session_folder_ignores session_file_ignores : list string.

(** The text of the root node. *)
Definition root_text : string := OsPath.basename (root_folder cfg).

(** The status and the tags that lines 360-363 give to a file name. *)
Definition status_of (basename : string) : string * list string :=
  file_status (is_session_file_ignored fnmatch session_file_ignores basename)
              (is_global_file_ignored fnmatch cfg basename)
              (is_ext_match cfg basename).

(** [kept_folder tv id]: the item [id] is the root node or a node
    linked to it through folders whose names all pass the test of
    lines 337-338; [names] are those names, from the root down. *)
Definition kept_folder (tv : Tk.Treeview) (id : nat) : Prop :=
  exists names,
    chain tv id (root_text :: names)
    /\ Forall (fun d => keeps_folder fnmatch cfg session_folder_ignores d = true) names.

Definition is_root_item (it : Tk.item) : Prop :=
  Tk.parent it = 0%nat /\ Tk.text it = root_text /\ Tk.values it = folder_values.

Definition is_folder_item (it : Tk.item) : Prop :=
  Tk.values it = folder_values
  /\ keeps_folder fnmatch cfg session_folder_ignores (Tk.text it) = true.

Definition is_file_item (it : Tk.item) : Prop :=
  skipped fnmatch cfg session_file_ignores (Tk.text it) = false
  /\ exists size ext,
       Tk.values it = [(status_of (Tk.text it)).1; size; ext]
       /\ Tk.tags it = (status_of (Tk.text it)).2.

Definition item_ok (tv : Tk.Treeview) (it : Tk.item) : Prop :=
  is_root_item it
  \/ (kept_folder tv (Tk.parent it) /\ (is_folder_item it \/ is_file_item it)).

Definition Inv (st : scan_state) : Prop :=
  well_formed (tree (ui st))
  /\ (forall it, In it (Tk.items (tree (ui st))) -> item_ok (tree (ui st)) it)
  /\ Tk.items (ignored_tree (ui st)) = []
  /\ (forall p id, path_to_node_map st !! p = Some id -> kept_folder (tree (ui st)) id).

(** The dictionary only gains keys and the primary widget only gains
    items. *)
Definition grows (st st' : scan_state) : Prop :=
  (forall p, is_Some (path_to_node_map st !! p) -> is_Some (path_to_node_map st' !! p))
  /\ (forall it, In it (Tk.items (tree (ui st))) -> In it (Tk.items (tree (ui st')))).

(** The result of a computation started in [st] keeps the invariant,
    gives [Q] when it returns, and is an exception only in the view
    that separates the ignored files. *)
Definition good {A} (st : scan_state) (r : res A * scan_state)
    (Q : A -> scan_state -> Prop) : Prop :=
  match r with
  | (Ok a, st') => Inv st' /\ grows st st' /\ Q a st'
  | (Raise _, st') => Inv st' /\ grows st st' /\ show_ignored_separately cfg = true
  end.

End Invariant.

End ScanInv.

(** The session lists that [populate_file_tree] scans with: those its
    configuration texts denote, or empty lists when reading them raised
    an exception that is caught. *)
Definition session_lists (literal_eval : string -> res (list string))
    (cfg : UIManager.Settings) : list string * list string :=
  match literal_eval (UIManager.folder_ignore_patterns cfg) with
  | Ok folders =>
      match literal_eval (UIManager.file_ignore_patterns cfg) with
      | Ok files => (folders, files)
      | Raise _ => ([], [])
      end
  | Raise _ => ([], [])
  end.

(** The state in which the scan starts: both widgets cleared, both
    dictionaries empty. *)
Definition cleared (w : UIManager.Widgets) : UIManager.scan_state :=
  UIManager.MkScan
    (UIManager.MkWidgets (Tk.delete_all (UIManager.tree w))
                         (Tk.delete_all (UIManager.ignored_tree w)) ∅ []) ∅.

(** [collected tv root_folder p]: the path [p] is the root folder joined
    with the chain of an item of [tv] whose status is [Included]. *)
Definition collected (tv : Tk.Treeview) (root_folder : string) (p : string) : Prop :=
  exists it names,
    In it (Tk.items tv)
    /\ Tk.values it !! 0%nat = Some "Included"
    /\ chain tv (Tk.parent it) names
    /\ p = OsPath.join root_folder (names ++ [Tk.text it]).
(* ===================================================================== *)
(** ** concrete worlds for the examples                                   *)
(* ===================================================================== *)

Module Scenario.
Import FileProcessor.

Definition no_such_file (path : string) : exn :=
  Exn OSError ("[Errno 2] No such file or directory: '" +:+ path +:+ "'").

Definition permission_denied (path : string) : exn :=
  Exn PermissionError ("[Errno 13] Permission denied: '" +:+ path +:+ "'").

(** A text with a lone carriage return between two letters. *)
Definition old_mac_text : string := "x" +:+ String cr "y".

(** The text files of the examples. *)
Definition texts (path : string) : res string :=
  if String.eqb path "a.txt" then Ok "alpha"
  else if String.eqb path "b.txt" then Ok "beta"
  else if String.eqb path "c.txt" then Ok "gamma"
  else if String.eqb path "d.txt" then Ok "delta"
  else if String.eqb path "e.txt" then Ok "epsilon"
  else if String.eqb path "mac.txt" then Ok old_mac_text
  else if String.eqb path "locked.txt" then Raise (permission_denied path)
  else Raise (no_such_file path).

Definition pdfs (path : string) : res (list page) :=
  if String.eqb path "report.pdf" then Ok ["report.pdf#1"; "report.pdf#2"]
  else Raise (no_such_file path).

Definition docxs (path : string) : res (list string) :=
  if String.eqb path "memo.docx" then Ok ["<w:p>memo</w:p>"]
  else Raise (no_such_file path).

Definition pptxs (path : string) : res (list slide) :=
  if String.eqb path "talk.pptx"
  then Ok [Slide "Title Slide" [TextShape (0, 0, 100, 50)%Z "Welcome"; OtherShape]]
  else Raise (no_such_file path).

(** A machine without Office where every output file can be written;
    [headers] is the state of the check box and [cancel] what the
    worker sees of the cancellation flag. *)
Definition world (headers : bool) (cancel : nat -> bool) : World :=
  MkWorld headers false cancel (fun _ => None) texts pdfs docxs pptxs
          (fun name => Some (Exn OSError ("class not registered: " +:+ name)))
          (fun _ _ => NotConverted false (Exn OSError "no converter"))
          (fun _ => None).

(** The PDF files of a machine with Office: those of [pdfs] and the
    one that Word saves from [memo.docx] in the first round of a
    merge. *)
Definition office_pdfs (path : string) : res (list page) :=
  if String.eqb path "memo_0.pdf" then Ok ["memo.docx#1"] else pdfs path.

(** A machine with Office, where every conversion succeeds and every
    temporary file can be removed. *)
Definition office_world (headers : bool) (cancel : nat -> bool) : World :=
  MkWorld headers true cancel (fun _ => None) texts office_pdfs docxs pptxs
          (fun _ => None) (fun _ _ => Converted) (fun _ => Some None).

Definition never : nat -> bool := fun _ => false.

(** The flag is set from the [n]-th reading on. *)
Definition from (n : nat) : nat -> bool := fun k => (n <=? k)%nat.

(** The worker when [start_consolidation] starts it. *)
Definition fresh : Worker := MkWorker [] [] 0 ∅ [] [].

End Scenario.

(** A project folder for the examples of the scan. *)
Module Project.
Import UIManager.

(** [a.py], [b.pyc], [__pycache__/c.py], [src/m.py], [src/README]. *)
Definition listing : option (list entry) :=
  Some [File "a.py" (Some 2048%N);
        File "b.pyc" (Some 10%N);
        Dir "__pycache__" (Some [File "c.py" (Some 100%N)]);
        Dir "src" (Some [File "m.py" (Some 5%N); File "README" None])].

(** Extension filter [.py], the global lists of a fresh installation,
    and the given root folder, session texts and view options. *)
Definition settings (root_folder folder_text file_text : string)
    (show_ignored_separately hide_ignored : bool) : Settings :=
  MkSettings root_folder ".py" folder_text file_text
             show_ignored_separately hide_ignored ConfigManager.initial.

(** The widgets of a window that has just been built. *)
Definition blank : Widgets := MkWidgets Tk.empty Tk.empty ∅ [].

Definition scan_of (cfg : Settings) (listing : option (list entry)) : outcome :=
  populate_file_tree Lib.fnmatch Lib.literal_eval cfg true listing blank.

End Project.
(* ===================================================================== *)
(** ** more of Python's built-ins and of [os.path]                        *)
(* ===================================================================== *)

Module Py.

(** [sub in s], for two strings. *)
Fixpoint contains (sub s : string) : bool :=
  String.prefix sub s
  || match s with
     | EmptyString => false
     | String _ s' => contains sub s'
     end.

(** [x in l], for a list of strings. *)
Definition mem (x : string) (l : list string) : bool := existsb (String.eqb x) l.

(** [l.remove(x)]: the first item equal to [x] goes; [ValueError] when
    there is none. *)
Fixpoint list_remove (x : string) (l : list string) : res (list string) :=
  match l with
  | [] => Raise (Exn ValueError "list.remove(x): x not in list")
  | y :: l' =>
      if String.eqb y x then Ok l'
      else match list_remove x l' with
           | Ok r => Ok (y :: r)
           | Raise e => Raise e
           end
  end.

(** [sep.join(l)] *)
Fixpoint str_join (sep : string) (l : list string) : string :=
  match l with
  | [] => ""
  | [x] => x
  | x :: l' => x +:+ sep +:+ str_join sep l'
  end.

(** [c * n], for a character. *)
Fixpoint repeat_char (c : ascii) (n : nat) : string :=
  match n with
  | O => ""
  | S n' => String c (repeat_char c n')
  end.

End Py.

Module PosixPath.

(** [head == sep * len(head)] *)
Fixpoint all_sep (s : string) : bool :=
  match s with
  | EmptyString => true
  | String c s' => Ascii.eqb c "/" && all_sep s'
  end.

(** [head.rstrip(sep)] *)
Fixpoint rstrip_sep (s : string) : string :=
  match s with
  | EmptyString => EmptyString
  | String c s' =>
      match rstrip_sep s' with
      | EmptyString => if Ascii.eqb c "/" then EmptyString else String c EmptyString
      | r => String c r
      end
  end.

(** [os.path.dirname(p)]: what precedes the last separator, without
    the separators that end it unless it is made of separators only. *)
Definition dirname (p : string) : string :=
  let i := match PyStr.rfind "/" p with Some k => S k | None => 0%nat end in
  let head := PyStr.upto i p in
  if PyStr.truthy head && negb (all_sep head) then rstrip_sep head else head.

End PosixPath.
(* ===================================================================== *)
(** ** UIManager.py: [filter_tree]                                        *)
(* ===================================================================== *)

Module FilterTree.
Import UIManager.

(** [tree.item(item, option)]: the item must be in the widget. *)
Definition tree_item (tv : Tk.Treeview) (item : nat) : res Tk.item :=
  match Tk.find tv item with
  | Some it => Ok it
  | None => Main.item_missing item
  end.

(** [self.tree_item_paths.values()] *)
Definition dict_values (w : Widgets) : list string :=
  (map_to_list (tree_item_paths w)).*2.

(** Unpacking the tuple of values of an item (or the empty string that
    Tk gives for no value) after [**]. *)
Definition not_a_mapping (values : list string) : exn :=
  Exn TypeError
      ("tkinter.ttk.Treeview.insert() argument after ** must be a mapping, not "
       +:+ match values with [] => "str" | _ :: _ => "tuple" end).

(** Lines 397-401: the loop [while parent_path and parent_path !=
    root_folder] that gives a top-level node to every folder above the
    file that has none yet.  [None] when the fuel does not reach the end
    of the loop. *)
Fixpoint rebuild (fuel : nat) (root_folder parent_path : string) (w : Widgets)
    : option (res unit * Widgets) :=
  if PyStr.truthy parent_path && negb (String.eqb parent_path root_folder) then
    match fuel with
    | O => None
    | S fuel' =>
        if negb (Py.mem parent_path (dict_values w)) then
          match Tk.insert (tree w) 0 (OsPath.basename parent_path)
                          [""; ""; "Folder"] [] false with
          | Ok (parent_id, tv) =>
              rebuild fuel' root_folder (PosixPath.dirname parent_path)
                (MkWidgets tv (ignored_tree w)
                           (<[parent_id := parent_path]> (tree_item_paths w))
                           (_all_tree_items_master_list w))
          | Raise e => Some (Raise e, w)
          end
        else rebuild fuel' root_folder (PosixPath.dirname parent_path) w
    end
  else Some (Ok tt, w).

(** Lines 392-403: one round of the loop over the cached items.  The
    value of [parent_id] (line 402) is a lookup that raises nothing and
    is used by the call of line 403 alone, which fails while its
    arguments are evaluated: [self.tree.item(node_id, "values")] either
    raises or gives a tuple, which [**] refuses. *)
Definition show_node (fuel : nat) (search_text root_folder : string)
    (node_id : nat) (w : Widgets) : option (res unit * Widgets) :=
  match tree_item_paths w !! node_id with
  | None => Some (Ok tt, w)
  | Some recorded =>
      let path := PyStr.lower recorded in
      let matches : res bool :=
        if Py.contains search_text path then Ok true
        else match tree_item (tree w) node_id with
             | Ok it => Ok (Py.contains search_text (PyStr.lower (Tk.text it)))
             | Raise e => Raise e
             end in
      match matches with
      | Raise e => Some (Raise e, w)
      | Ok false => Some (Ok tt, w)
      | Ok true =>
          match rebuild fuel root_folder (PosixPath.dirname path) w with
          | Some (Ok _, w') =>
              match tree_item (tree w') node_id with
              | Ok it => Some (Raise (not_a_mapping (Tk.values it)), w')
              | Raise e => Some (Raise e, w')
              end
          | other => other
          end
      end
  end.

(** [for node_id in self._all_tree_items_master_list: ...] *)
Fixpoint show_nodes (fuel : nat) (search_text root_folder : string)
    (node_ids : list nat) (w : Widgets) : option (res unit * Widgets) :=
  match node_ids with
  | [] => Some (Ok tt, w)
  | node_id :: rest =>
      match show_node fuel search_text root_folder node_id w with
      | Some (Ok _, w') => show_nodes fuel search_text root_folder rest w'
      | other => other
      end
  end.

(** The widgets once line 390 has cleared the primary one. *)
Definition cleared_view (w : Widgets) : Widgets :=
  MkWidgets (Tk.delete_all (tree w)) (ignored_tree w) (tree_item_paths w)
            (_all_tree_items_master_list w).

(** Lines 387-403.  [filter_var] is the text of the search variable and
    [root_folder] that of the root folder variable. *)
Definition filter_tree (fuel : nat) (filter_var root_folder : string) (w : Widgets)
    : option (res unit * Widgets) :=
  let search_text := PyStr.lower filter_var in
  show_nodes fuel search_text root_folder (_all_tree_items_master_list w)
             (cleared_view w).

(** Lines 302-385: the whole of [populate_file_tree], the scan followed
    by the call of [filter_tree] of line 385.  The call is reached
    unless the method returned at line 317 or an exception left the
    scan. *)
Definition populate_and_filter (fuel : nat) (fnmatch : string -> string -> bool)
    (literal_eval : string -> res (list string)) (cfg : Settings)
    (filter_var : string) (isdir : bool) (root : option (list entry)) (w : Widgets)
    : option outcome :=
  let r := populate_file_tree fnmatch literal_eval cfg isdir root w in
  if negb (PyStr.truthy (root_folder cfg)) || negb isdir then Some r
  else
    match raised r with
    | Some _ => Some r
    | None =>
        match filter_tree fuel filter_var (root_folder cfg) (widgets r) with
        | Some (x, w') =>
            Some (MkOutcome w' (shown r)
                            (match x with Ok _ => None | Raise e => Some e end))
        | None => None
        end
    end.

End FilterTree.
(* ===================================================================== *)
(** ** the window: dialogs, buttons, labels                               *)
(* ===================================================================== *)

Module Gui.

(** What the interface thread does that the user or the system sees:
    the message boxes and file dialogs of tkinter, the programs asked
    to open a file, and the start of the worker thread. *)
Inductive event :=
  | ShowError (title message : string)
  | ShowInfo (title message : string)
  | ShowWarning (title message : string)
  | AskYesNo (title message : string)
  | AskSaveAs (title defaultextension : string) (filetypes : list (string * string))
  | StartFile (path : string)
  | Call (argv : list string)
  | ThreadStart (file_paths : list string) (output_filename output_format : string).

(** What the interface thread reads and cannot change: the answers of
    the user and of the operating system. *)
Record Desktop := MkDesktop {
  (** [messagebox.askyesno(title, message)] *)
  askyesno : string -> string -> bool;
  (** [filedialog.asksaveasfilename(title=, defaultextension=,
      filetypes=)]: the empty string when the dialog is dismissed *)
  asksaveasfilename : string -> string -> list (string * string) -> string;
  (** [os.startfile(path)]: [None] when it succeeds; an
      [AttributeError] where [os] has no such function *)
  startfile : string -> option exn;
  (** [subprocess.call(argv)]: [None] when the program could be run *)
  call : list string -> option exn;
  (** [open(path, 'w', encoding='utf-8')]: [None] when it succeeds *)
  open_for_writing : string -> option exn
}.

(** The state of the window that the methods below read and write. *)
Record Window := MkWindow {
  status_label : string;
  progress_value : nat;
  progress_maximum : nat;
  start_button : string;
  cancel_button : string;
  view_errors_button : string;
  cancel_requested : bool;
  (** the list the worker appends to, as the interface thread sees it *)
  processing_errors : list string;
  (** the text files the interface thread has written *)
  files : gmap string string;
  events : list event
}.

Definition set_status_label (text : string) (win : Window) : Window :=
  MkWindow text (progress_value win) (progress_maximum win) (start_button win)
           (cancel_button win) (view_errors_button win) (cancel_requested win)
           (processing_errors win) (files win) (events win).

Definition set_progress_value (value : nat) (win : Window) : Window :=
  MkWindow (status_label win) value (progress_maximum win) (start_button win)
           (cancel_button win) (view_errors_button win) (cancel_requested win)
           (processing_errors win) (files win) (events win).

Definition set_progress_maximum (value : nat) (win : Window) : Window :=
  MkWindow (status_label win) (progress_value win) value (start_button win)
           (cancel_button win) (view_errors_button win) (cancel_requested win)
           (processing_errors win) (files win) (events win).

Definition set_start_button (state : string) (win : Window) : Window :=
  MkWindow (status_label win) (progress_value win) (progress_maximum win) state
           (cancel_button win) (view_errors_button win) (cancel_requested win)
           (processing_errors win) (files win) (events win).

Definition set_cancel_button (state : string) (win : Window) : Window :=
  MkWindow (status_label win) (progress_value win) (progress_maximum win)
           (start_button win) state (view_errors_button win) (cancel_requested win)
           (processing_errors win) (files win) (events win).

Definition set_view_errors_button (state : string) (win : Window) : Window :=
  MkWindow (status_label win) (progress_value win) (progress_maximum win)
           (start_button win) (cancel_button win) state (cancel_requested win)
           (processing_errors win) (files win) (events win).

Definition set_cancel_requested (flag : bool) (win : Window) : Window :=
  MkWindow (status_label win) (progress_value win) (progress_maximum win)
           (start_button win) (cancel_button win) (view_errors_button win) flag
           (processing_errors win) (files win) (events win).

Definition set_processing_errors (errors : list string) (win : Window) : Window :=
  MkWindow (status_label win) (progress_value win) (progress_maximum win)
           (start_button win) (cancel_button win) (view_errors_button win)
           (cancel_requested win) errors (files win) (events win).

Definition write_file (path content : string) (win : Window) : Window :=
  MkWindow (status_label win) (progress_value win) (progress_maximum win)
           (start_button win) (cancel_button win) (view_errors_button win)
           (cancel_requested win) (processing_errors win)
           (<[path := content]> (files win)) (events win).

Definition emit (ev : event) (win : Window) : Window :=
  MkWindow (status_label win) (progress_value win) (progress_maximum win)
           (start_button win) (cancel_button win) (view_errors_button win)
           (cancel_requested win) (processing_errors win) (files win)
           (events win ++ [ev]).

(** [except IOError]: [IOError] is [OSError], of which
    [PermissionError] is a subclass. *)
Definition is_ioerror (e : exn) : bool :=
  bool_decide (exc_cls e = OSError) || bool_decide (exc_cls e = PermissionError).

End Gui.

(* ===================================================================== *)
(** ** utils.py                                                           *)
(* ===================================================================== *)

Module Utils.
Import Gui.

Definition nl : string := FileProcessor.nl.

(** *** [show_completion_message] *)

(** Lines 89-91: the text of the message, from the two counts. *)
Definition success_msg (total_files error_count : Z) : string :=
  "Success! Consolidated " +:+ pretty (total_files - error_count)%Z +:+ " of "
  +:+ pretty total_files +:+ " files."
  +:+ (if (0 <? error_count)%Z
       then nl +:+ nl +:+ "Encountered " +:+ pretty error_count
            +:+ " errors. Check the error log for details."
       else "").

(** Lines 94-107: the file is handed to the program that opens it. *)
Definition open_output (d : Desktop) (output_filename : string) (win : Window)
    : Window :=
  let win := emit (StartFile output_filename) win in
  match startfile d output_filename with
  | None => win
  | Some e =>
      if bool_decide (exc_cls e = AttributeError) then
        let win := emit (Call ["open"; output_filename]) win in
        match call d ["open"; output_filename] with
        | None => win
        | Some _ =>
            let win := emit (Call ["xdg-open"; output_filename]) win in
            match call d ["xdg-open"; output_filename] with
            | None => win
            | Some _ =>
                emit (ShowError "Error"
                        ("Could not open file automatically. Please find it at:"
                         +:+ nl +:+ output_filename)) win
            end
        end
      else emit (ShowError "Error" ("Could not open file: " +:+ exc_msg e)) win
  end.

(** Lines 85-107. *)
Definition show_completion_message (d : Desktop) (total_files error_count : Z)
    (output_filename : string) (win : Window) : Window :=
  let question :=
    success_msg total_files error_count +:+ nl +:+ nl
    +:+ "Do you want to open the file?" in
  let win := emit (AskYesNo "Operation Complete" question) win in
  if askyesno d "Operation Complete" question
  then open_output d output_filename win
  else win.

(** *** [export_tree_report] *)

(** [for child_id in ...: body(child_id)], where a round returns what
    the file holds after it, raises, or runs out of fuel. *)
Fixpoint for_children (body : nat -> string -> option (res unit * string))
    (child_ids : list nat) (written : string) : option (res unit * string) :=
  match child_ids with
  | [] => Some (Ok tt, written)
  | child_id :: rest =>
      match body child_id written with
      | Some (Ok _, written') => for_children body rest written'
      | other => other
      end
  end.

(** The line of line 40. *)
Definition report_line (indent text status : string) : string :=
  indent +:+ text +:+ " - [" +:+ status +:+ "]" +:+ nl.

(** Lines 36-41: one round of the loop.  [recurse] is the recursive
    call of line 41. *)
Definition report_round (recurse : nat -> string -> string -> option (res unit * string))
    (tree : Tk.Treeview) (indent : string) (child_id : nat) (written : string)
    : option (res unit * string) :=
  match FilterTree.tree_item tree child_id with
  | Raise e => Some (Raise e, written)
  | Ok it =>
      match Tk.values it with
      | [] => Some (Ok tt, written)
      | status :: _ =>
          recurse child_id (indent +:+ "  ")
                  (written +:+ report_line indent (Tk.text it) status)
      end
  end.

(** Lines 31-41.  [written] is what the file holds when the call
    starts; the result is what it holds when the call ends.  [None]
    when the fuel does not reach the end of the recursion. *)
Fixpoint _write_tree_node_to_file (fuel : nat) (tree : Tk.Treeview)
    (parent_id : nat) (indent : string) (written : string) {struct fuel}
    : option (res unit * string) :=
  match fuel with
  | O => None
  | S fuel' =>
      for_children (report_round (_write_tree_node_to_file fuel' tree) tree indent)
                   (Tk.get_children tree parent_id) written
  end.

(** The first two lines of the report. *)
Definition report_heading (root_path : string) : string :=
  "File Tree Report for: " +:+ root_path +:+ nl
  +:+ Py.repeat_char "=" 40 +:+ nl.

(** Lines 5-29.  The file exists from the moment it is opened, and
    leaving the [with] block closes it with what was written. *)
Definition export_tree_report (fuel : nat) (d : Desktop) (root_path : string)
    (tree : Tk.Treeview) (win : Window) : option (res unit * Window) :=
  if negb (PyStr.truthy root_path) then
    Some (Ok tt,
          emit (ShowWarning "No Folder Selected"
                  "Please select a root folder before exporting a report.") win)
  else
    let filetypes := [("Text Files", "*.txt")] in
    let win := emit (AskSaveAs "Export Tree Report" ".txt" filetypes) win in
    let file_path := asksaveasfilename d "Export Tree Report" ".txt" filetypes in
    if negb (PyStr.truthy file_path) then Some (Ok tt, win)
    else
      match open_for_writing d file_path with
      | Some e =>
          if is_ioerror e
          then Some (Ok tt,
                     emit (ShowError "Export Error"
                             ("Failed to save report: " +:+ exc_msg e)) win)
          else Some (Raise e, win)
      | None =>
          match _write_tree_node_to_file fuel tree 0 "" (report_heading root_path) with
          | None => None
          | Some (Raise e, written) => Some (Raise e, write_file file_path written win)
          | Some (Ok _, written) =>
              Some (Ok tt,
                    emit (ShowInfo "Export Successful"
                            ("Tree report saved to " +:+ file_path))
                         (write_file file_path written win))
          end
      end.

(** *** [export_errors_to_file] *)

(** Lines 79-80: what the file holds. *)
Definition error_log (errors : list string) : string :=
  ("FileConsolidator Error Log" +:+ nl +:+ Py.repeat_char "=" 30 +:+ nl +:+ nl)
  +:+ Py.str_join nl errors.

(** Lines 67-83. *)
Definition export_errors_to_file (d : Desktop) (errors : list string) (win : Window)
    : res unit * Window :=
  let filetypes := [("Text Files", "*.txt")] in
  let win := emit (AskSaveAs "Export Error Log" ".txt" filetypes) win in
  let file_path := asksaveasfilename d "Export Error Log" ".txt" filetypes in
  if PyStr.truthy file_path then
    match open_for_writing d file_path with
    | Some e =>
        if is_ioerror e
        then (Ok tt,
              emit (ShowError "Export Error"
                      ("Failed to save error log: " +:+ exc_msg e)) win)
        else (Raise e, win)
    | None =>
        (Ok tt,
         emit (ShowInfo "Export Successful" ("Error log saved to " +:+ file_path))
              (write_file file_path (error_log errors) win))
    end
  else (Ok tt, win).

End Utils.
(* ===================================================================== *)
(** ** main.py: the interface thread                                      *)
(* ===================================================================== *)

Module App.
Import Gui.

(** [UIManager.reset_ui_state] (UIManager.py, lines 504-511). *)
Definition reset_ui_state (win : Window) : Window :=
  let win := set_progress_value 0 win in
  let win := set_start_button "normal" win in
  let win := set_cancel_button "disabled" win in
  let win := set_cancel_requested false win in
  if negb (Py.contains "cancelled" (status_label win))
     && negb (Py.contains "request" (status_label win))
  then set_status_label "Ready." win
  else win.

(** Lines 146-158: one message of the queue.  The value of a [done]
    message is the pair [(file_paths, output_filename)]: [value[0]] is
    its first component, [value[-1]] its second, and [len(value)] is
    two. *)
Definition handle (d : Desktop) (msg : FileProcessor.message) (win : Window) : Window :=
  match msg with
  | FileProcessor.Status value => set_status_label value win
  | FileProcessor.Progress value => set_progress_value value win
  | FileProcessor.MaxProgress value => set_progress_maximum value win
  | FileProcessor.Done file_paths output_filename =>
      let win := reset_ui_state win in
      match processing_errors win with
      | _ :: _ =>
          let win := set_view_errors_button "normal" win in
          Utils.show_completion_message d (Z.of_nat (length file_paths))
            (Z.of_nat (length (processing_errors win))) output_filename win
      | [] => Utils.show_completion_message d 2 0 output_filename win
      end
  end.

(** Lines 143-162 of [check_queue]: the messages found in the queue are
    handled in order, until the queue is empty.  (The method then asks
    to be called again a tenth of a second later.) *)
Definition check_queue (d : Desktop) (queue : list FileProcessor.message)
    (win : Window) : Window :=
  fold_left (fun win msg => handle d msg win) queue win.

(** Lines 165-171. *)
Definition request_cancel (d : Desktop) (win : Window) : Window :=
  let win := emit (AskYesNo "Cancel?" "Are you sure you want to cancel the operation?") win in
  if askyesno d "Cancel?" "Are you sure you want to cancel the operation?"
  then set_status_label "Cancellation requested..." (set_cancel_requested true win)
  else win.

(** Lines 89-94. *)
Definition file_dialog_options : list (string * (string * string)) :=
  [("TXT", ("Text", "*.txt"));
   ("PDF", ("PDF", "*.pdf"));
   ("DOCX", ("Word", "*.docx"));
   ("PPTX", ("PowerPoint", "*.pptx"))].

(** [d.get(key)] *)
Definition dict_get {A} (d : list (string * A)) (key : string) : option A :=
  match List.find (fun kv => String.eqb kv.1 key) d with
  | Some kv => Some kv.2
  | None => None
  end.

Definition incompatible_warning (output_format : string) : string :=
  "The output format '" +:+ output_format
  +:+ "' only supports its own file type. Other file types will be skipped. Continue?".

(** Lines 76-81: whether a file of another type is among the files. *)
Definition incompatible_found (output_format : string) (files_to_process : list string)
    : bool :=
  if String.eqb output_format "DOCX"
     && existsb (fun f => negb (PyStr.endswith (PyStr.lower f) ".docx")) files_to_process
  then true
  else if String.eqb output_format "PPTX"
          && existsb (fun f => negb (PyStr.endswith (PyStr.lower f) ".pptx"))
                     files_to_process
  then true
  else false.

(** [s.split('.')[-1]] *)
Definition after_last_dot (s : string) : string := List.last (PyStr.split "." s) "".

(** Lines 59-117.  [root_folder] and [output_format] are the texts of
    the two variables and [tree] is the primary widget.  The start of
    the worker thread is the event [ThreadStart]. *)
Definition start_consolidation (fuel : nat) (d : Desktop)
    (root_folder output_format : string) (tree : Tk.Treeview) (win : Window)
    : option (res unit * Window) :=
  let root_dir := root_folder in
  if negb (PyStr.truthy root_dir) then
    Some (Ok tt, emit (ShowError "Error" "Please select a root folder.") win)
  else
    match Main.files_to_process fuel tree root_folder with
    | None => None
    | Some (Raise e) => Some (Raise e, win)
    | Some (Ok []) =>
        Some (Ok tt,
              emit (ShowInfo "No Files To Process"
                      "No files are marked as 'Included' based on current settings.")
                   win)
    | Some (Ok ((_ :: _) as files_to_process)) =>
        let asked :=
          Py.mem output_format ["DOCX"; "PPTX"]
          && incompatible_found output_format files_to_process in
        let win :=
          if asked
          then emit (AskYesNo "Incompatible Files Warning"
                       (incompatible_warning output_format)) win
          else win in
        if asked
           && negb (askyesno d "Incompatible Files Warning"
                      (incompatible_warning output_format))
        then Some (Ok tt, win)
        else
          match dict_get file_dialog_options output_format with
          | None =>
              Some (Raise (Exn TypeError "'NoneType' object is not subscriptable"), win)
          | Some file_type_info =>
              let title := "Save Consolidated " +:+ output_format +:+ " As" in
              let defaultextension := "." +:+ after_last_dot file_type_info.2 in
              let filetypes :=
                [(file_type_info.1 +:+ " Documents", file_type_info.2);
                 ("All Files", "*.*")] in
              let win := emit (AskSaveAs title defaultextension filetypes) win in
              let output_filename :=
                asksaveasfilename d title defaultextension filetypes in
              if negb (PyStr.truthy output_filename) then
                Some (Ok tt, set_status_label "Cancelled." win)
              else
                let win := set_start_button "disabled" win in
                let win := set_cancel_button "normal" win in
                let win := set_view_errors_button "disabled" win in
                let win := set_cancel_requested false win in
                let win := set_processing_errors [] win in
                Some (Ok tt,
                      emit (ThreadStart files_to_process output_filename output_format)
                           win)
          end
    end.

End App.
(* ===================================================================== *)
(** ** UIManager.py: the search field, the recent folders, the menus      *)
(* ===================================================================== *)

Module PlaceholderEntry.

(** The state of a [PlaceholderEntry]: the text and the colour of the
    [ttk.Entry] it extends, and its three attributes. *)
Record Entry := MkEntry {
  content : string;
  foreground : string;
  placeholder : string;
  placeholder_color : string;
  default_fg_color : string
}.

(** Lines 37-41: [get] hides the placeholder. *)
Definition get (e : Entry) : string :=
  if String.eqb (content e) (placeholder e) then "" else content e.

(** Lines 27-30: [self.insert(0, self.placeholder)] puts the
    placeholder in front of the text. *)
Definition _add_placeholder (e : Entry) : Entry :=
  if negb (PyStr.truthy (get e))
  then MkEntry (placeholder e +:+ content e) (placeholder_color e)
               (placeholder e) (placeholder_color e) (default_fg_color e)
  else e.

(** Lines 32-35: [self.delete(0, 'end')] empties the text. *)
Definition _clear_placeholder (e : Entry) : Entry :=
  if String.eqb (get e) (placeholder e)
  then MkEntry "" (default_fg_color e)
               (placeholder e) (placeholder_color e) (default_fg_color e)
  else e.

(** Lines 17-25: the widget built over an entry that holds [text] (the
    value of its text variable) in the colour [fg]. *)
Definition __init__ (placeholder text fg : string) : Entry :=
  _add_placeholder (MkEntry text fg placeholder "grey" fg).

(** The two events bound at lines 23-24. *)
Inductive focus := FocusIn | FocusOut.

Definition on_focus (e : Entry) (ev : focus) : Entry :=
  match ev with
  | FocusIn => _clear_placeholder e
  | FocusOut => _add_placeholder e
  end.

Definition is_focus_out (ev : focus) : bool :=
  match ev with FocusOut => true | FocusIn => false end.

End PlaceholderEntry.

Module Recent.
Import UIManager.

Definition MAX_RECENT_FOLDERS : nat := 5.

(** Lines 291-294 of [set_root_folder]: the folder goes to the front of
    the list, which keeps its first [MAX_RECENT_FOLDERS] entries. *)
Definition update_recent (folder_path : string) (recent_folders : list string)
    : res (list string) :=
  match (if Py.mem folder_path recent_folders
         then Py.list_remove folder_path recent_folders
         else Ok recent_folders) with
  | Ok recent_folders => Ok (take MAX_RECENT_FOLDERS (folder_path :: recent_folders))
  | Raise e => Raise e
  end.

(** An entry of a menu. *)
Inductive menu_entry :=
  | Command (label : string) (enabled : bool)
  | Separator.

(** Lines 242-253: the entries of the menu of recent folders. *)
Definition populate_recent_folders_menu (recent_folders : list string)
    : list menu_entry :=
  [Command "Browse..." true; Separator]
  ++ match recent_folders with
     | [] => [Command "No recent folders" false]
     | _ :: _ => map (fun folder => Command folder true) recent_folders
     end
  ++ [Separator; Command "Clear Recent" true].

(** What [set_root_folder] leaves: the outcome of [populate_file_tree],
    the settings with the new root folder, the list of recent folders
    and the menu built from it. *)
Record result := MkResult {
  scan_outcome : outcome;
  settings : Settings;
  recent_folders : list string;
  recent_menu : list menu_entry
}.

Definition with_root_folder (folder_path : string) (cfg : Settings) : Settings :=
  MkSettings folder_path (file_types cfg) (folder_ignore_patterns cfg)
             (file_ignore_patterns cfg) (show_ignored_separately cfg)
             (hide_ignored cfg) (config_handler cfg).

(** Lines 286-295.  [isdir] and [root] tell what the operating system
    shows at [folder_path]; an exception that leaves
    [populate_file_tree] leaves the method. *)
Definition set_root_folder (fuel : nat) (fnmatch : string -> string -> bool)
    (literal_eval : string -> res (list string)) (filter_var : string)
    (isdir : bool) (root : option (list entry))
    (folder_path : string) (update_recent_flag : bool)
    (cfg : Settings) (w : Widgets) (recent : list string) (menu : list menu_entry)
    : option result :=
  let cfg := with_root_folder folder_path cfg in
  match FilterTree.populate_and_filter fuel fnmatch literal_eval cfg filter_var isdir
                                       root w with
  | None => None
  | Some r =>
      match raised r with
      | Some _ => Some (MkResult r cfg recent menu)
      | None =>
          if update_recent_flag then
            match update_recent folder_path recent with
            | Ok recent' =>
                Some (MkResult r cfg recent' (populate_recent_folders_menu recent'))
            | Raise e =>
                Some (MkResult (MkOutcome (widgets r) (shown r) (Some e)) cfg recent menu)
            end
          else Some (MkResult r cfg recent menu)
      end
  end.

End Recent.

Module GlobalIgnoreEditor.

(** [listbox.delete(i)]: the entry at index [i] goes, if there is one. *)
Definition listbox_delete (i : nat) (entries : list string) : list string :=
  take i entries ++ drop (S i) entries.

(** Lines 588-591 of [remove_item].  [selected] is the tuple that
    [listbox.curselection()] returns: the selected indices. *)
Definition remove_item (selected : list nat) (entries : list string) : list string :=
  match selected with
  | [] => entries
  | _ :: _ => fold_left (fun entries i => listbox_delete i entries) (rev selected) entries
  end.

End GlobalIgnoreEditor.

Module IgnoreMenu.
Import UIManager.

(** [tree.item(item_id, "values")[2]]: Tk gives the empty string for no
    value and a tuple otherwise. *)
Definition third_value (values : list string) : res string :=
  match values with
  | [] => Raise (Exn OtherError "string index out of range")
  | _ :: _ =>
      match values !! 2%nat with
      | Some v => Ok v
      | None => Raise (Exn OtherError "tuple index out of range")
      end
  end.

(** [if x not in l: l.append(x)] *)
Definition append_new (x : string) (l : list string) : list string :=
  if Py.mem x l then l else l ++ [x].

(** [if x in l: l.remove(x)] *)
Definition remove_present (x : string) (l : list string) : res (list string) :=
  if Py.mem x l then Py.list_remove x l else Ok l.

(** Lines 442-449 of [ignore_selected]: the loop over the selected
    items. *)
Fixpoint add_selected (tree : Tk.Treeview) (selected_ids : list nat)
    (folder_patterns_list file_patterns_list : list string)
    : res (list string * list string) :=
  match selected_ids with
  | [] => Ok (folder_patterns_list, file_patterns_list)
  | item_id :: rest =>
      match FilterTree.tree_item tree item_id with
      | Raise e => Raise e
      | Ok it =>
          match third_value (Tk.values it) with
          | Raise e => Raise e
          | Ok v =>
              if String.eqb v "Folder"
              then add_selected tree rest (append_new (Tk.text it) folder_patterns_list)
                                file_patterns_list
              else add_selected tree rest folder_patterns_list
                                (append_new (Tk.text it) file_patterns_list)
          end
      end
  end.

(** Lines 464-471 of [unignore_selected]: the loop over the selected
    items. *)
Fixpoint remove_selected (tree_widget : Tk.Treeview) (selected_ids : list nat)
    (folder_patterns_list file_patterns_list : list string)
    : res (list string * list string) :=
  match selected_ids with
  | [] => Ok (folder_patterns_list, file_patterns_list)
  | item_id :: rest =>
      match FilterTree.tree_item tree_widget item_id with
      | Raise e => Raise e
      | Ok it =>
          match third_value (Tk.values it) with
          | Raise e => Raise e
          | Ok v =>
              if String.eqb v "Folder"
              then match remove_present (Tk.text it) folder_patterns_list with
                   | Ok l => remove_selected tree_widget rest l file_patterns_list
                   | Raise e => Raise e
                   end
              else match remove_present (Tk.text it) file_patterns_list with
                   | Ok l => remove_selected tree_widget rest folder_patterns_list l
                   | Raise e => Raise e
                   end
          end
      end
  end.

End IgnoreMenu.
(* ===================================================================== *)
(** ** UIManager.py: [populate_file_tree], the whole method               *)
(* ===================================================================== *)

(** [ast.literal_eval] gives the value of any literal, not only of a
    list of strings, and [populate_file_tree] uses what it gets as it
    is: the two values are iterated at lines 337 and 354 and their
    items are passed to [fnmatch.fnmatch].  This module embeds the
    method from its first line to the call of [filter_tree] that ends
    it, over the values that [literal_eval] can give.  For the values
    that are sequences of strings, its scan is the one of
    [UIManager]. *)
Module PopulateFileTree.
Import UIManager.

(** An object that the iteration over a session value yields: a [str],
    a [bytes] object, or an object of another type, of which the name
    of the type is kept. *)
Inductive item :=
  | PStr (s : string)
  | PBytes
  | PObject (type_name : string).

(** A value of [ast.literal_eval], as the scan uses it: a [str]; an
    object that can be iterated (a list, a tuple, a set, a dict, which
    yields its keys, a [bytes] object, which yields [int] objects), with
    its items in the order of the iteration; or an object that cannot
    (a number, [True], [None], [...]), with the name of its type. *)
Inductive value :=
  | VText (s : string)
  | VIterable (items : list item)
  | VScalar (type_name : string).

Definition not_iterable (type_name : string) : exn :=
  Exn TypeError ("'" +:+ type_name +:+ "' object is not iterable").

(** What [os.fspath] raises in [fnmatch.fnmatch]. *)
Definition not_a_pattern (type_name : string) : exn :=
  Exn TypeError ("expected str, bytes or os.PathLike object, not " +:+ type_name).

(** What the compiled pattern raises in [fnmatch.fnmatchcase]. *)
Definition bytes_pattern : exn :=
  Exn TypeError "cannot use a bytes pattern on a string-like object".

(** [iter(v)]: a [str] yields its characters. *)
Definition items_of (v : value) : res (list item) :=
  match v with
  | VText s => Ok (map (fun c => PStr (String c "")) (String.list_ascii_of_string s))
  | VIterable items => Ok items
  | VScalar type_name => Raise (not_iterable type_name)
  end.

(** A computation that raises. *)
Definition raise {A} (e : exn) : M A := fun st => (Raise e, st).

Section Scan.

(** [fnmatch.fnmatch(name, pattern)], for two [str]. *)
Variable fnmatch : string -> string -> bool.

(** [fnmatch.fnmatch(name, pat)], for a name that is a [str]. *)
Definition fnmatch_item (name : string) (pat : item) : res bool :=
  match pat with
  | PStr p => Ok (fnmatch name p)
  | PBytes => Raise bytes_pattern
  | PObject type_name => Raise (not_a_pattern type_name)
  end.

(** [any(fnmatch.fnmatch(name, pat) for pat in items)]: the items are
    tried in order, up to the first that matches. *)
Fixpoint any_item (name : string) (items : list item) : res bool :=
  match items with
  | [] => Ok false
  | pat :: rest =>
      match fnmatch_item name pat with
      | Raise e => Raise e
      | Ok true => Ok true
      | Ok false => any_item name rest
      end
  end.

(** [any(fnmatch.fnmatch(name, pat) for pat in v)] *)
Definition any_fnmatch (name : string) (v : value) : res bool :=
  match items_of v with
  | Raise e => Raise e
  | Ok items => any_item name items
  end.

Variable cfg : Settings.
Variables session_folder_ignores session_file_ignores : value.

(** Lines 337-338: the test that keeps a name in [dirnames]; the
    session value is tried first. *)
Definition keeps_folder (d : string) : res bool :=
  match any_fnmatch d session_folder_ignores with
  | Raise e => Raise e
  | Ok true => Ok false
  | Ok false =>
      Ok (negb (existsb (fnmatch d)
                        (ConfigManager.global_folder_ignores (config_handler cfg))))
  end.

(** Lines 337-338: the list comprehension, name by name. *)
Fixpoint kept_dirnames (dirnames : list string) : res (list string) :=
  match dirnames with
  | [] => Ok []
  | d :: rest =>
      match keeps_folder d with
      | Raise e => Raise e
      | Ok keep =>
          match kept_dirnames rest with
          | Raise e => Raise e
          | Ok l => Ok (if keep then d :: l else l)
          end
      end
  end.

(** Lines 349-381: one file of the directory [dirpath].  The three
    tests of lines 352-354 come first; an exception of the third one
    leaves the loop. *)
Definition file_step (dirpath : string) (f : string * option N) : M unit :=
  let full_path := OsPath.join dirpath [f.1] in
  let basename := f.1 in
  let is_ext_match := is_ext_match cfg basename in
  let is_global_file_ignored := is_global_file_ignored fnmatch cfg basename in
  match any_fnmatch basename session_file_ignores with
  | Raise e => raise e
  | Ok is_session_file_ignored =>
      let is_ignored :=
        is_global_file_ignored || is_session_file_ignored || negb is_ext_match in
      if hide_ignored cfg && is_ignored && negb (show_ignored_separately cfg) then ret tt
      else
        let '(status, tags) :=
          file_status is_session_file_ignored is_global_file_ignored is_ext_match in
        let size := match f.2 with Some n => size_kb n | None => "N/A" end in
        let file_ext := (OsPath.splitext basename).2 in
        let separate := show_ignored_separately cfg && is_ignored in
        bind (node_of dirpath) (fun known =>
        bind (if separate then
                match known with
                | Some id => ret id
                | None =>
                    bind (ignored_tree_insert 0 (OsPath.basename dirpath)
                            [""; ""; "Folder"] [] true) (fun id =>
                    bind (map_path dirpath id) (fun _ => ret id))
                end
              else ret (default 0 known)) (fun parent_id =>
        bind ((if separate then ignored_tree_insert else tree_insert)
                parent_id basename [status; size; file_ext] tags false) (fun node_id =>
        bind (record_path node_id full_path) (fun _ =>
        if is_ignored then ret tt else cache_item node_id))))
  end.

(** Lines 335-381: the body of the loop over [os.walk], for the
    directory [dirpath] whose listing is [es].  An exception of the
    tests is no [PermissionError]: the handler of line 382 lets it
    through. *)
Definition visit (dirpath : string) (es : list entry) : M unit :=
  match kept_dirnames (dirnames_of es) with
  | Raise e => raise e
  | Ok dirnames =>
      bind (node_of dirpath) (fun known =>
      let parent_node_id := default 0 known in
      bind (for_each dirnames (folder_step dirpath parent_node_id)) (fun _ =>
      for_each (files_of es) (file_step dirpath)))
  end.

(** [os.walk(top, topdown=True)] driving [visit]: a directory is
    visited, then each sub-folder left in [dirnames], that is each one
    for which the test of lines 337-338 held, is walked, in order. *)
Fixpoint walk (top : string) (e : entry) {struct e} : M unit :=
  match e with
  | Dir _ (Some es) =>
      bind (visit top es) (fun _ =>
      (fix subdirs (l : list entry) : M unit :=
         match l with
         | [] => ret tt
         | e' :: l' =>
             bind (match e' with
                   | Dir d _ =>
                       match keeps_folder d with
                       | Ok true => walk (OsPath.join top [d]) e'
                       | _ => ret tt
                       end
                   | File _ _ => ret tt
                   end) (fun _ => subdirs l')
         end) es)
  | _ => ret tt
  end.

(** Lines 326-383: the scan of the root folder, once the session
    values are known. *)
Definition scan (root : option (list entry)) : M unit :=
  let root_path := root_folder cfg in
  bind (tree_insert 0 (OsPath.basename root_path) [""; ""; "Folder"] [] true)
       (fun root_node_id =>
  bind (map_path root_path root_node_id) (fun _ =>
  bind (record_path root_node_id root_path) (fun _ =>
  walk root_path (Dir (OsPath.basename root_path) root)))).

End Scan.

Section Populate.

Variable fnmatch : string -> string -> bool.

(** [ast.literal_eval(text)]: the value of the literal, or the
    exception raised. *)
Variable literal_eval : string -> res value.

(** Lines 302-383: the method up to the end of the loop over
    [os.walk].  [isdir] is the answer of [os.path.isdir(root_path)] and
    [root] the listing of the root folder. *)
Definition scan_root_folder (cfg : Settings) (isdir : bool)
    (root : option (list entry)) (w : Widgets) : outcome :=
  let w0 := MkWidgets (Tk.delete_all (tree w)) (Tk.delete_all (ignored_tree w)) ∅ [] in
  let root_path := root_folder cfg in
  if negb (PyStr.truthy root_path) || negb isdir then MkOutcome w0 [] None
  else
    let parsed :=
      match literal_eval (folder_ignore_patterns cfg) with
      | Ok folders =>
          match literal_eval (file_ignore_patterns cfg) with
          | Ok files => Ok (folders, files)
          | Raise e => Raise e
          end
      | Raise e => Raise e
      end in
    match parsed with
    | Ok (session_folder_ignores, session_file_ignores) =>
        finish [] (scan fnmatch cfg session_folder_ignores session_file_ignores
                        root (MkScan w0 ∅))
    | Raise e =>
        if caught e then
          finish [invalid_patterns]
                 (scan fnmatch cfg (VIterable []) (VIterable []) root (MkScan w0 ∅))
        else MkOutcome w0 [] (Some e)
    end.

(** Lines 302-385: the whole method.  The call of [filter_tree] of line
    385 is reached unless the method returned at line 317 or was left
    by an exception; [filter_var] is the search text.  [None] when the
    fuel does not reach the end of the loop of [filter_tree]. *)
Definition populate_file_tree (fuel : nat) (cfg : Settings) (filter_var : string)
    (isdir : bool) (root : option (list entry)) (w : Widgets) : option outcome :=
  let r := scan_root_folder cfg isdir root w in
  if negb (PyStr.truthy (root_folder cfg)) || negb isdir then Some r
  else
    match raised r with
    | Some _ => Some r
    | None =>
        match FilterTree.filter_tree fuel filter_var (root_folder cfg) (widgets r) with
        | Some (x, w') =>
            Some (MkOutcome w' (shown r)
                            (match x with Ok _ => None | Raise e => Some e end))
        | None => None
        end
    end.

End Populate.

End PopulateFileTree.
(* ===================================================================== *)
(** ** vocabulary of the statements about the rest of the interface       *)
(* ===================================================================== *)

(** The items of a widget are folder nodes of the top level, without
    tags. *)
Definition top_level_folders (tv : Tk.Treeview) : Prop :=
  forall it, In it (Tk.items tv) ->
    Tk.parent it = 0%nat /\ (0 < Tk.iid it)%nat
    /\ Tk.values it = folder_values /\ Tk.tags it = [].

(** The item [id] has a path in [tree_item_paths]. *)
Definition has_path (w : UIManager.Widgets) (id : nat) : Prop :=
  is_Some (UIManager.tree_item_paths w !! id).

(** The cache of the scan is in order: every cached name is a name that
    the primary widget has given and has a path, and every item shown
    as [Included] is cached. *)
Definition cache_ok (w : UIManager.Widgets) : Prop :=
  (forall id, In id (UIManager._all_tree_items_master_list w) ->
     has_path w id /\ (id <= Tk.serial (UIManager.tree w))%nat)
  /\ (forall it, In it (Tk.items (UIManager.tree w)) ->
        Tk.values it !! 0%nat = Some "Included" ->
        In (Tk.iid it) (UIManager._all_tree_items_master_list w)).

(** A computation of the scan that leaves the cache in order, however
    it ends. *)
Definition keeps_cache {A} (m : UIManager.M A) : Prop :=
  forall st, cache_ok (UIManager.ui st) -> cache_ok (UIManager.ui (m st).2).

(** The window after the events [evs], one after the other. *)
Definition emit_all (evs : list Gui.event) (win : Gui.Window) : Gui.Window :=
  fold_left (fun win ev => Gui.emit ev win) evs win.

(** The report of [export_tree_report], row by row. *)
Module Report.

(** The children of [parent], in the order of the widget. *)
Definition children (tv : Tk.Treeview) (parent : nat) : list Tk.item :=
  List.filter (fun it => Nat.eqb (Tk.parent it) parent) (Tk.items tv).

(** The items below [parent], each with its depth, a parent before its
    children and these in the order of the widget; [fuel] bounds the
    depth. *)
Fixpoint rows (fuel : nat) (tv : Tk.Treeview) (parent depth : nat)
    : list (nat * Tk.item) :=
  match fuel with
  | O => []
  | S fuel' =>
      flat_map (fun it => (depth, it) :: rows fuel' tv (Tk.iid it) (S depth))
               (children tv parent)
  end.

(** Two spaces per level. *)
Fixpoint indent (depth : nat) : string :=
  match depth with
  | O => ""
  | S depth' => indent depth' +:+ "  "
  end.

(** The line of an item at a depth: its text, and its first value
    between brackets. *)
Definition line (row : nat * Tk.item) : string :=
  Utils.report_line (indent row.1) (Tk.text row.2) (hd "" (Tk.values row.2)).

(** The parent of the item named [id], and [0] if there is none. *)
Definition up (tv : Tk.Treeview) (id : nat) : nat :=
  match Tk.find tv id with
  | Some it => Tk.parent it
  | None => 0%nat
  end.

End Report.
(* ===================================================================== *)
(** ** vocabulary of the statements about the merge strategies            *)
(* ===================================================================== *)

(** The values of the progress messages of a queue, in order. *)
Definition progress_values (queue : list FileProcessor.message) : list nat :=
  omap (fun m => match m with FileProcessor.Progress v => Some v | _ => None end) queue.

Module DocxMerge.
Import FileProcessor.

(** The elements that a file gives to the merged document: those of
    its body when its name ends in [.docx] and it can be read. *)
Definition elements (w : World) (path : string) : list string :=
  if PyStr.endswith (PyStr.lower path) ".docx" then
    match read_docx w path with
    | Ok elements => elements
    | Raise _ => []
    end
  else [].

(** The errors that a file adds to the list. *)
Definition errors (w : World) (path : string) : list string :=
  if PyStr.endswith (PyStr.lower path) ".docx" then
    match read_docx w path with
    | Ok _ => []
    | Raise e =>
        ["Could not process DOCX file " +:+ OsPath.basename path +:+ ": " +:+ exc_msg e]
    end
  else ["Skipped non-DOCX file: " +:+ OsPath.basename path].

(** The paragraphs that the round [i] of the loop adds for [path]: a
    page break unless the file is the first one under a title, and a
    heading when headers are asked for. *)
Definition paragraphs (w : World) (i : nat) (path : string) : list block :=
  if PyStr.endswith (PyStr.lower path) ".docx" then
    (if (0 <? i)%nat || negb (include_headers w) then [PageBreak] else [])
    ++ (if include_headers w
        then [Heading ("Content from: " +:+ OsPath.basename path) 1] else [])
  else [].

(** The paragraphs of the files [file_paths], the first of which has
    the index [i]. *)
Fixpoint all_paragraphs (w : World) (i : nat) (file_paths : list string) : list block :=
  match file_paths with
  | [] => []
  | path :: rest => paragraphs w i path ++ all_paragraphs w (S i) rest
  end.

(** The title that precedes them. *)
Definition title (w : World) (file_paths : list string) : list block :=
  match file_paths with
  | [] => []
  | _ :: _ => if include_headers w then [Heading "Consolidated Document" 0] else []
  end.

(** The elements among the blocks of a document. *)
Definition elements_of (body : list block) : list string :=
  omap (fun b => match b with Element xml => Some xml | _ => None end) body.

End DocxMerge.

Module PptxMerge.
Import FileProcessor.

(** The copy of a shape, if it is copied. *)
Definition copy_shape (s : shape) : option new_shape :=
  match s with
  | TextShape at_ text => Some (TextBox at_ text)
  | PictureShape at_ (Ok blob) => Some (Picture at_ blob)
  | PictureShape _ (Raise _) => None
  | OtherShape => None
  end.

(** The copy of a slide: its layout, and the copies of its text boxes
    and pictures. *)
Definition copy_slide (s : slide) : new_slide :=
  NewSlide (slide_layout s) (omap copy_shape (shapes s)).

(** The slides that a file gives to the merged presentation. *)
Definition slides_of (w : World) (path : string) : list new_slide :=
  if PyStr.endswith (PyStr.lower path) ".pptx" then
    match read_pptx w path with
    | Ok sub_ppt => map copy_slide sub_ppt
    | Raise _ => []
    end
  else [].

(** The errors of the pictures of a slide that could not be copied. *)
Definition image_errors (path : string) (s : slide) : list string :=
  omap (fun sh => match sh with
                  | PictureShape _ (Raise img_e) =>
                      Some ("Could not copy image from " +:+ OsPath.basename path
                            +:+ ": " +:+ exc_msg img_e)
                  | _ => None
                  end) (shapes s).

(** The errors that a file adds to the list. *)
Definition errors (w : World) (path : string) : list string :=
  if PyStr.endswith (PyStr.lower path) ".pptx" then
    match read_pptx w path with
    | Ok sub_ppt => flat_map (image_errors path) sub_ppt
    | Raise e => ["Could not process " +:+ OsPath.basename path +:+ ": " +:+ exc_msg e]
    end
  else ["Skipped non-PPTX file: " +:+ OsPath.basename path].

End PptxMerge.

(** The name of the PDF file that the round [i] of a PDF merge has
    Office write for the document [path]. *)
Definition temp_name (i : nat) (path : string) : string :=
  (OsPath.splitext path).1 +:+ "_" +:+ pretty i +:+ ".pdf".

(** The names for the files [file_paths], the first of which has the
    index [i]. *)
Fixpoint temp_names (i : nat) (file_paths : list string) : list string :=
  match file_paths with
  | [] => []
  | path :: rest => temp_name i path :: temp_names (S i) rest
  end.

(** What a part of a PDF merge leaves as it is: the files opened for
    writing and the files of the disk outside [names]; all the files
    where Office is missing. *)
Definition frame (w : FileProcessor.World) (names : list string)
    (st st' : FileProcessor.Worker) : Prop :=
  writes (FileProcessor.log st') = writes (FileProcessor.log st)
  /\ (forall path, ~ In path names ->
        FileProcessor.disk st' !! path = FileProcessor.disk st !! path)
  /\ (FileProcessor.OFFICE_INSTALLED w = false ->
      FileProcessor.disk st' = FileProcessor.disk st).

(** What the work on one file leaves as it is: these files, the count
    of the readings of the flag, and the progress announced. *)
Definition quiet (w : FileProcessor.World) (names : list string)
    (st st' : FileProcessor.Worker) : Prop :=
  frame w names st st'
  /\ FileProcessor.reads st' = FileProcessor.reads st
  /\ progress_values (FileProcessor.processing_queue st')
     = progress_values (FileProcessor.processing_queue st).
(* ===================================================================== *)
(** ** Vocabulary for the statements about the widgets                    *)
(* ===================================================================== *)

(** The entries whose index, counted from [i], is not in [selected]. *)
Fixpoint unselected (selected : list nat) (i : nat) (entries : list string)
    : list string :=
  match entries with
  | [] => []
  | x :: entries' =>
      if bool_decide (i ∈ selected) then unselected selected (S i) entries'
      else x :: unselected selected (S i) entries'
  end.

(** The indices of [selected] grow strictly. *)
Fixpoint ascending (selected : list nat) : Prop :=
  match selected with
  | [] => True
  | i :: rest => Forall (fun j => i < j) rest /\ ascending rest
  end.

(** The names of the selected items of the kind asked for (folders, or
    the others), in the order of the selection. *)
Fixpoint selected_names (tree : Tk.Treeview) (folders : bool) (selected_ids : list nat)
    : list string :=
  match selected_ids with
  | [] => []
  | item_id :: rest =>
      match Tk.find tree item_id with
      | Some it =>
          match Tk.values it !! 2%nat with
          | Some v =>
              if Bool.eqb (String.eqb v "Folder") folders
              then Tk.text it :: selected_names tree folders rest
              else selected_names tree folders rest
          | None => selected_names tree folders rest
          end
      | None => selected_names tree folders rest
      end
  end.

(** A selected item of [tree] is named [name] and is a folder
    ([folder = true]) or not. *)
Definition selects (tree : Tk.Treeview) (selected_ids : list nat)
    (name : string) (folder : bool) : Prop :=
  exists item_id it v, In item_id selected_ids /\ Tk.find tree item_id = Some it /\
    Tk.values it !! 2%nat = Some v /\ Tk.text it = name /\
    String.eqb v "Folder" = folder.

(** What the guarded [l.remove(x)] of [unignore_selected] leaves. *)
Definition removed (x : string) (l : list string) : list string :=
  match IgnoreMenu.remove_present x l with
  | Ok l' => l'
  | Raise _ => l
  end.
(* ===================================================================== *)
(** ** vocabulary of the statements about the whole method                *)
(* ===================================================================== *)

(** The strings among the items of a list. *)
Definition item_strings (items : list PopulateFileTree.item) : list string :=
  omap (fun it => match it with PopulateFileTree.PStr s => Some s | _ => None end) items.

(** The items of a list are strings. *)
Definition all_strings (items : list PopulateFileTree.item) : bool :=
  forallb (fun it => match it with PopulateFileTree.PStr _ => true | _ => false end) items.

(** The patterns of a session value: the strings that iterating it
    yields. *)
Definition strings_of (v : PopulateFileTree.value) : list string :=
  match PopulateFileTree.items_of v with
  | Ok items => item_strings items
  | Raise _ => []
  end.

(** The value can be iterated and yields strings only. *)
Definition patterns_only (v : PopulateFileTree.value) : bool :=
  match PopulateFileTree.items_of v with
  | Ok items => all_strings items
  | Raise _ => false
  end.

(** The list of strings [l], as a value. *)
Definition list_value (l : list string) : PopulateFileTree.value :=
  PopulateFileTree.VIterable (map PopulateFileTree.PStr l).

(** A reader of lists of strings, as a reader of values. *)
Definition as_values (literal_eval : string -> res (list string))
    : string -> res PopulateFileTree.value :=
  fun text =>
    match literal_eval text with
    | Ok l => Ok (list_value l)
    | Raise e => Raise e
    end.

(** The session values that [populate_file_tree] scans with: those its
    configuration texts denote, or empty lists when reading them raised
    an exception that is caught. *)
Definition session_values (literal_eval : string -> res PopulateFileTree.value)
    (cfg : UIManager.Settings) : PopulateFileTree.value * PopulateFileTree.value :=
  match literal_eval (UIManager.folder_ignore_patterns cfg) with
  | Ok folders =>
      match literal_eval (UIManager.file_ignore_patterns cfg) with
      | Ok files => (folders, files)
      | Raise _ => (PopulateFileTree.VIterable [], PopulateFileTree.VIterable [])
      end
  | Raise _ => (PopulateFileTree.VIterable [], PopulateFileTree.VIterable [])
  end.

(** The test of lines 337-338 takes the name [d] out of [dirnames]. *)
Definition dropped (fnmatch : string -> string -> bool) (cfg : UIManager.Settings)
    (session_folder_ignores : PopulateFileTree.value) (d : string) : bool :=
  match PopulateFileTree.keeps_folder fnmatch cfg session_folder_ignores d with
  | Ok false => true
  | _ => false
  end.

(** An exception of the scan that comes from a session value which is
    not a sequence of strings. *)
Definition ill_typed (folders files : PopulateFileTree.value) (e : exn) : Prop :=
  exc_cls e = TypeError /\ patterns_only folders && patterns_only files = false.

(** The result of a computation of the scan over any session values:
    it keeps the invariant, gives [Q] when it returns, and is an
    exception only in the view that separates the ignored files or for
    a session value that is not a sequence of strings. *)
Definition good_any (fnmatch : string -> string -> bool) (cfg : UIManager.Settings)
    (folders files : PopulateFileTree.value) {A} (st : UIManager.scan_state)
    (r : res A * UIManager.scan_state) (Q : A -> UIManager.scan_state -> Prop) : Prop :=
  match r with
  | (Ok a, st') =>
      ScanInv.Inv fnmatch cfg (strings_of folders) (strings_of files) st'
      /\ ScanInv.grows st st' /\ Q a st'
  | (Raise e, st') =>
      ScanInv.Inv fnmatch cfg (strings_of folders) (strings_of files) st'
      /\ ScanInv.grows st st'
      /\ (UIManager.show_ignored_separately cfg = true \/ ill_typed folders files e)
  end.

(** The loop of [os.walk] over the sub-folders of a directory, as
    [PopulateFileTree.walk] runs it. *)
Definition walk_subdirs (fnmatch : string -> string -> bool) (cfg : UIManager.Settings)
    (folders files : PopulateFileTree.value) (top : string)
    : list entry -> UIManager.M unit :=
  fix subdirs (l : list entry) : UIManager.M unit :=
    match l with
    | [] => UIManager.ret tt
    | e' :: l' =>
        UIManager.bind
          (match e' with
           | Dir d _ =>
               match PopulateFileTree.keeps_folder fnmatch cfg folders d with
               | Ok true => PopulateFileTree.walk fnmatch cfg folders files
                              (OsPath.join top [d]) e'
               | _ => UIManager.ret tt
               end
           | File _ _ => UIManager.ret tt
           end) (fun _ => subdirs l')
    end.

(** A reader that agrees with [ast.literal_eval] on the texts of the
    examples: the lists of strings that [Lib.literal_eval] reads, the
    number [5], a list whose second item is a number, and a dict
    display whose key is a list, which cannot be hashed. *)
Module Literals.
Import PopulateFileTree.

Definition literal_eval (text : string) : res value :=
  if String.eqb text "5" then Ok (VScalar "int")
  else if String.eqb text "['a.py', 5]" then Ok (VIterable [PStr "a.py"; PObject "int"])
  else if String.eqb text "{[]: 1}" then Raise (Exn TypeError "unhashable type: 'list'")
  else as_values Lib.literal_eval text.

End Literals.
(* ===================================================================== *)
(** ** concrete sessions for the examples                                 *)
(* ===================================================================== *)

Module Session.
Import Gui.

(** A desktop without [os.startfile] and without the program [open],
    where [xdg-open] runs; [yes] is the answer to every question and
    [save_as] the name chosen in every file dialog. *)
Definition desktop (yes : bool) (save_as : string) : Desktop :=
  MkDesktop (fun _ _ => yes) (fun _ _ _ => save_as)
            (fun _ => Some (Exn AttributeError "module 'os' has no attribute 'startfile'"))
            (fun argv =>
               match argv with
               | "open" :: _ =>
                   Some (Exn OSError "[Errno 2] No such file or directory: 'open'")
               | _ => None
               end)
            (fun _ => None).

(** The window when nothing has been done yet. *)
Definition idle : Window :=
  MkWindow "Ready." 0 100 "normal" "disabled" "disabled" false [] ∅ [].

(** The window when the queue is polled, the shared list of errors
    being [errors]. *)
Definition polled (errors : list string) : Window :=
  set_processing_errors errors idle.

(** The widgets that the scan of the project folder builds (lines
    302-383), for a root folder of the given name. *)
Definition scanned (root_folder : string) : UIManager.Widgets :=
  UIManager.widgets
    (Project.scan_of (Project.settings root_folder "[]" "[]" false false)
                     Project.listing).

(** A folder whose one file lies in a sub-folder with a capital letter
    in its name. *)
Definition manual : option (list entry) :=
  Some [Dir "Docs" (Some [File "guide.md" (Some 4096%N)])].

Definition manual_settings : UIManager.Settings :=
  UIManager.MkSettings "/srv/manual" ".md" "[]" "[]" false false ConfigManager.initial.

Definition manual_scanned : UIManager.Widgets :=
  UIManager.widgets (Project.scan_of manual_settings manual).

(** What a call leaves, when it ends. *)
Definition left_by {A} (r : option (res A * UIManager.Widgets)) : UIManager.Widgets :=
  match r with
  | Some (_, w) => w
  | None => Project.blank
  end.

Definition ending_of (r : option (res unit * UIManager.Widgets)) : res unit :=
  match r with
  | Some (x, _) => x
  | None => Ok tt
  end.

(** A widget with a folder, a file in it and a file beside it. *)
Definition small_tree : Tk.Treeview :=
  Tk.Mk [Tk.Item 1 0 "proj" [""; ""; "Folder"] [] true;
         Tk.Item 2 1 "src" [""; ""; "Folder"] [] false;
         Tk.Item 3 1 "a.py" ["Included"; "2.00"; ".py"] [] false;
         Tk.Item 4 2 "m.py" ["Included"; "0.00"; ".py"] [] false] 4.

(** The window that a method leaves, when it ends. *)
Definition window_of {A} (r : option (res A * Window)) : Window :=
  match r with
  | Some (_, win) => win
  | None => idle
  end.

(** The outcome of [populate_file_tree], when it ends. *)
Definition outcome_of (r : option UIManager.outcome) : UIManager.outcome :=
  match r with
  | Some r => r
  | None => UIManager.MkOutcome Project.blank [] None
  end.

End Session.
(* ===================================================================== *)
(** * Properties                                                          *)
(* ===================================================================== *)

(** ** strings *)

Section StringFacts.

Local Arguments String.append !_ _ /.


Lemma append_nil_r (s : string) : s +:+ "" = s.
Proof. induction s as [|c s IH]; simpl; [done | by rewrite IH]. Qed.

Lemma append_assoc (s1 s2 s3 : string) : (s1 +:+ s2) +:+ s3 = s1 +:+ (s2 +:+ s3).
Proof. induction s1 as [|c s1 IH]; simpl; [done | by rewrite IH]. Qed.

Lemma append_cons (c : ascii) (s1 s2 : string) :
  String c s1 +:+ s2 = String c (s1 +:+ s2).
Proof. reflexivity. Qed.

Lemma concat_text_nil : concat_text [] = "".
Proof. reflexivity. Qed.

Lemma concat_text_cons (s : string) (l : list string) :
  concat_text (s :: l) = s +:+ concat_text l.
Proof. reflexivity. Qed.

Lemma concat_text_app (l1 l2 : list string) :
  concat_text (l1 ++ l2) = concat_text l1 +:+ concat_text l2.
Proof.
  induction l1 as [|s l1 IH]; [done |].
  rewrite <- app_comm_cons, !concat_text_cons, IH. by rewrite append_assoc.
Qed.

(** Line-ending translation leaves a text without carriage return as
    it is. *)
Lemma universal_newlines_no_cr (s : string) :
  no_cr s -> FileProcessor.universal_newlines s = s.
Proof.
  unfold no_cr. induction s as [|c s IH]; [done |].
  simpl. intros Hno.
  destruct (Ascii.eqb_spec c FileProcessor.cr) as [-> | Hc].
  - exfalso. apply Hno. by left.
  - rewrite IH; [done |]. intros Hin. apply Hno. by right.
Qed.

Lemma endswith_nil (s : string) : PyStr.endswith s "" = true.
Proof. induction s as [|c s IH]; simpl; [done | by rewrite IH]. Qed.

Lemma endswith_refl (s : string) : PyStr.endswith s s = true.
Proof. destruct s; simpl; by rewrite ?String.eqb_refl, ?Ascii.eqb_refl. Qed.

(** Two tails of one string are comparable: a name does not end in both
    of two extensions of which neither ends the other. *)
Lemma endswith_exclusive (s a b : string) :
  PyStr.endswith a b = false -> PyStr.endswith b a = false ->
  PyStr.endswith s a = true -> PyStr.endswith s b = false.
Proof.
  intros Hab Hba. induction s as [|c s IH].
  - intros Ha. destruct a as [|c' a]; [| done].
    by rewrite endswith_nil in Hba.
  - intros Ha.
    destruct (String.eqb_spec (String c s) a) as [<- | Hne]; [exact Hab |].
    assert (PyStr.endswith s a = true) as Hs.
    { cbn [PyStr.endswith] in Ha. apply orb_true_iff in Ha as [Ha | Ha]; [| done].
      by apply String.eqb_eq in Ha. }
    cbn [PyStr.endswith]. apply orb_false_iff. split; [| by apply IH].
    apply String.eqb_neq. intros <-.
    cbn [PyStr.endswith] in Hba. rewrite Hs in Hba.
    by rewrite orb_true_r in Hba.
Qed.

End StringFacts.

(** ** the item store *)

Section TreeviewFacts.

Lemma find_some (tv : Tk.Treeview) (id : nat) (it : Tk.item) :
  Tk.find tv id = Some it -> In it (Tk.items tv) /\ Tk.iid it = id.
Proof.
  unfold Tk.find. intros H. apply find_some in H as [Hin Heq].
  split; [done |]. by apply Nat.eqb_eq.
Qed.

Lemma find_none (tv : Tk.Treeview) (id : nat) :
  Tk.find tv id = None -> forall it, In it (Tk.items tv) -> Tk.iid it <> id.
Proof.
  unfold Tk.find. intros H it Hin Heq.
  apply (List.find_none _ _ H) in Hin. apply Nat.eqb_neq in Hin. done.
Qed.

Lemma find_in (tv : Tk.Treeview) (it : Tk.item) :
  NoDup (map Tk.iid (Tk.items tv)) -> In it (Tk.items tv) ->
  Tk.find tv (Tk.iid it) = Some it.
Proof.
  unfold Tk.find. destruct tv as [items serial]. simpl.
  induction items as [|x items IH]; [done |].
  intros Hnd [-> | Hin]; simpl.
  - by rewrite Nat.eqb_refl.
  - apply NoDup_cons in Hnd as [Hx Hnd].
    destruct (Nat.eqb_spec (Tk.iid x) (Tk.iid it)) as [Heq | _]; [| by apply IH].
    exfalso. apply Hx. rewrite Heq. apply list_elem_of_In. by apply in_map.
Qed.

Lemma exists_in (tv : Tk.Treeview) (it : Tk.item) :
  In it (Tk.items tv) -> Tk.exists_ tv (Tk.iid it) = true.
Proof.
  intros Hin. unfold Tk.exists_.
  destruct (Tk.find tv (Tk.iid it)) eqn:Hf; [done |].
  by destruct (find_none _ _ Hf it Hin).
Qed.

(** What [insert] does when it succeeds, and when it succeeds. *)
Lemma insert_ok (tv : Tk.Treeview) (parent : nat) (text : string)
    (values tags : list string) (is_open : bool) :
  parent = 0%nat \/ (exists it, In it (Tk.items tv) /\ Tk.iid it = parent) ->
  Tk.insert tv parent text values tags is_open
  = Ok (S (Tk.serial tv),
        Tk.Mk (Tk.items tv ++ [Tk.Item (S (Tk.serial tv)) parent text values tags is_open])
              (S (Tk.serial tv))).
Proof.
  intros [-> | (it & Hin & <-)]; unfold Tk.insert; [done |].
  by rewrite (exists_in _ _ Hin), orb_true_r.
Qed.

Lemma insert_missing (tv : Tk.Treeview) (parent : nat) (text : string)
    (values tags : list string) (is_open : bool) :
  parent <> 0%nat -> Tk.items tv = [] ->
  exists e, Tk.insert tv parent text values tags is_open = Raise e.
Proof.
  intros Hp Hempty. unfold Tk.insert, Tk.exists_, Tk.find. rewrite Hempty. simpl.
  destruct (Nat.eqb_spec parent 0); [done |]. by eexists.
Qed.

Lemma insert_inv (tv tv' : Tk.Treeview) (parent id : nat) (text : string)
    (values tags : list string) (is_open : bool) :
  Tk.insert tv parent text values tags is_open = Ok (id, tv') ->
  id = S (Tk.serial tv)
  /\ tv' = Tk.Mk (Tk.items tv ++ [Tk.Item id parent text values tags is_open]) id.
Proof. unfold Tk.insert. destruct (_ || _); [| done]. by intros [= <- <-]. Qed.

Lemma chain_mono (tv tv' : Tk.Treeview) (id : nat) (names : list string) :
  (forall it, In it (Tk.items tv) -> In it (Tk.items tv')) ->
  chain tv id names -> chain tv' id names.
Proof.
  intros Hsub. induction 1 as [|it names Hin _ IH]; [constructor |].
  constructor; [by apply Hsub | exact IH].
Qed.

(** A non-empty chain ends at an item of the widget. *)
Lemma chain_item_inv (tv : Tk.Treeview) (id : nat) (names : list string) :
  chain tv id names -> names <> [] ->
  exists it before,
    In it (Tk.items tv) /\ Tk.iid it = id /\ names = before ++ [Tk.text it]
    /\ chain tv (Tk.parent it) before.
Proof.
  destruct 1 as [|it names Hin Hc]; [done |]. intros _. by exists it, names.
Qed.

Lemma chain_root_inv (tv : Tk.Treeview) (names : list string) :
  (forall it, In it (Tk.items tv) -> Tk.iid it <> 0%nat) ->
  chain tv 0 names -> names = [].
Proof.
  intros Hpos Hc. inversion Hc as [|it names' Hin Hc' Hid]; [done |].
  by destruct (Hpos it Hin).
Qed.

Lemma well_formed_positive (tv : Tk.Treeview) :
  well_formed tv -> forall it, In it (Tk.items tv) -> Tk.iid it <> 0%nat.
Proof. intros [_ Hwf] it Hin. destruct (Hwf it Hin) as (? & _). lia. Qed.

Lemma well_formed_same_item (tv : Tk.Treeview) (it it' : Tk.item) :
  well_formed tv -> In it (Tk.items tv) -> In it' (Tk.items tv) ->
  Tk.iid it = Tk.iid it' -> it = it'.
Proof.
  intros [Hnd _] Hin Hin' Heq.
  pose proof (find_in tv it Hnd Hin) as H1.
  pose proof (find_in tv it' Hnd Hin') as H2.
  rewrite Heq in H1. congruence.
Qed.

(** In a well-formed widget an item has one chain. *)
Lemma chain_functional (tv : Tk.Treeview) (id : nat) (names names' : list string) :
  well_formed tv -> chain tv id names -> chain tv id names' -> names = names'.
Proof.
  intros Hwf Hc. revert names'.
  induction Hc as [|it names Hin Hc IH]; intros names' Hc'.
  - symmetry. eapply chain_root_inv; [by apply well_formed_positive | done].
  - inversion Hc' as [Hid | it' names'' Hin' Hc'' Hid].
    + symmetry in Hid. by destruct (well_formed_positive tv Hwf it Hin).
    + assert (it' = it) as -> by (by apply (well_formed_same_item tv)).
      by rewrite (IH _ Hc'').
Qed.

Lemma well_formed_empty (serial : nat) : well_formed (Tk.Mk [] serial).
Proof. split; [constructor | done]. Qed.

(** Insertion keeps a widget well formed. *)
Lemma well_formed_insert (tv : Tk.Treeview) (parent : nat) (text : string)
    (values tags : list string) (is_open : bool) :
  well_formed tv ->
  parent = 0%nat \/ (exists it, In it (Tk.items tv) /\ Tk.iid it = parent) ->
  well_formed
    (Tk.Mk (Tk.items tv ++ [Tk.Item (S (Tk.serial tv)) parent text values tags is_open])
           (S (Tk.serial tv))).
Proof.
  intros [Hnd Hwf] Hp. split.
  - simpl. rewrite map_app. simpl. apply NoDup_app. split; [done |].
    split; [| apply NoDup_singleton].
    intros x Hx Hx'. apply list_elem_of_singleton in Hx'. subst x.
    apply list_elem_of_In, in_map_iff in Hx as (it & Hid & Hin).
    destruct (Hwf it Hin) as (? & _). lia.
  - simpl. intros it [Hin | [<- | []]]%in_app_iff.
    + destruct (Hwf it Hin) as (Hid & Hlt & Hpar). repeat split; try lia.
      destruct Hpar as [? | (it' & Hin' & ?)]; [by left |].
      right. exists it'. split; [| done]. apply in_app_iff. by left.
    + simpl. destruct Hp as [-> | (it' & Hin' & <-)].
      * repeat split; lia.
      * destruct (Hwf it' Hin') as (Hid & _). repeat split; try lia.
        right. exists it'. split; [| done]. apply in_app_iff. by left.
Qed.

End TreeviewFacts.

(** ** the scan does not look into a pruned folder *)

Section EntryInduction.

Variable P : entry -> Prop.
Hypothesis file_case : forall n s, P (File n s).
Hypothesis closed_case : forall d, P (Dir d None).
Hypothesis listed_case : forall d es, Forall P es -> P (Dir d (Some es)).

Lemma entry_ind' (e : entry) : P e.
Proof.
  revert e. fix IH 1. intros [n s | d [es |]].
  - apply file_case.
  - apply listed_case. induction es as [|e' es IHes]; constructor; [apply IH | exact IHes].
  - apply closed_case.
Qed.

End EntryInduction.

Section Pruning.

Import UIManager.

Variable fnmatch : string -> string -> bool.
Variable cfg : Settings.
Variables session_folder_ignores session_file_ignores : list string.

Local Abbreviation keeps := (keeps_folder fnmatch cfg session_folder_ignores).
Local Abbreviation walk' := (walk fnmatch cfg session_folder_ignores session_file_ignores).
Local Abbreviation walk_all' := (walk_all fnmatch cfg session_folder_ignores session_file_ignores).
Local Abbreviation visit' := (visit fnmatch cfg session_folder_ignores session_file_ignores).

Lemma walk_listed (top d : string) (es : list entry) :
  walk' top (Dir d (Some es)) = bind (visit' top es) (fun _ => walk_all' top es).
Proof. reflexivity. Qed.

Lemma prune_listed (d : string) (es : list entry) :
  prune keeps (Dir d (Some es)) = Dir d (Some (prune_all keeps es)).
Proof. reflexivity. Qed.

Lemma prune_name (e : entry) : entry_name (prune keeps e) = entry_name e.
Proof. by destruct e as [|d [|]]. Qed.

Lemma prune_all_file (n : string) (sz : option N) (es : list entry) :
  prune_all keeps (File n sz :: es) = File n sz :: prune_all keeps es.
Proof. reflexivity. Qed.

Lemma prune_all_dir (d : string) (c : option (list entry)) (es : list entry) :
  prune_all keeps (Dir d c :: es)
  = if keeps d then prune keeps (Dir d c) :: prune_all keeps es
    else prune_all keeps es.
Proof. reflexivity. Qed.

Lemma prune_dir (d : string) (c : option (list entry)) :
  prune keeps (Dir d c) = Dir d (option_map (prune_all keeps) c).
Proof. by destruct c. Qed.

Lemma files_of_file (n : string) (sz : option N) (es : list entry) :
  files_of (File n sz :: es) = (n, sz) :: files_of es.
Proof. reflexivity. Qed.

Lemma files_of_dir (d : string) (c : option (list entry)) (es : list entry) :
  files_of (Dir d c :: es) = files_of es.
Proof. reflexivity. Qed.

Lemma dirnames_of_file (n : string) (sz : option N) (es : list entry) :
  dirnames_of (File n sz :: es) = dirnames_of es.
Proof. reflexivity. Qed.

Lemma dirnames_of_dir (d : string) (c : option (list entry)) (es : list entry) :
  dirnames_of (Dir d c :: es) = d :: dirnames_of es.
Proof. reflexivity. Qed.

Lemma files_of_prune (es : list entry) : files_of (prune_all keeps es) = files_of es.
Proof.
  induction es as [|[n s | d c] es IH]; [done | |].
  - by rewrite prune_all_file, !files_of_file, IH.
  - rewrite prune_all_dir, files_of_dir. destruct (keeps d); [| exact IH].
    by rewrite prune_dir, files_of_dir.
Qed.

Lemma dirnames_of_prune (es : list entry) :
  dirnames_of (prune_all keeps es) = List.filter keeps (dirnames_of es).
Proof.
  induction es as [|[n s | d c] es IH]; [done | |].
  - by rewrite prune_all_file, !dirnames_of_file.
  - rewrite prune_all_dir, dirnames_of_dir. cbn [List.filter].
    destruct (keeps d) eqn:Hk; [| exact IH].
    by rewrite prune_dir, dirnames_of_dir, IH.
Qed.

Lemma filter_filter_same {A} (f : A -> bool) (l : list A) :
  List.filter f (List.filter f l) = List.filter f l.
Proof.
  induction l as [|x l IH]; [done |]. simpl.
  destruct (f x) eqn:Hx; simpl; by rewrite ?Hx, IH.
Qed.

Lemma visit_prune (top : string) (es : list entry) :
  visit' top (prune_all keeps es) = visit' top es.
Proof.
  unfold visit. by rewrite files_of_prune, dirnames_of_prune, filter_filter_same.
Qed.

Lemma walk_all_file (top n : string) (sz : option N) (l : list entry) (st : scan_state) :
  walk_all' top (File n sz :: l) st = walk_all' top l st.
Proof. reflexivity. Qed.

Lemma walk_all_dir (top d : string) (c : option (list entry)) (l : list entry)
    (st : scan_state) :
  walk_all' top (Dir d c :: l) st
  = if keeps d then
      match walk' (OsPath.join top [d]) (Dir d c) st with
      | (Ok _, st') => walk_all' top l st'
      | (Raise e, st') => (Raise e, st')
      end
    else walk_all' top l st.
Proof. cbn [walk_all]. unfold bind. by destruct (keeps d). Qed.

(** The walk of a directory is the walk of the directory without its
    pruned sub-folders: what they hold is never looked at. *)
Lemma walk_prune (e : entry) :
  forall top st, walk' top (prune keeps e) st = walk' top e st.
Proof.
  induction e as [n s | d | d es IH] using entry_ind'; [done | done |].
  intros top st. rewrite prune_listed, !walk_listed.
  unfold bind. rewrite visit_prune.
  destruct (visit' top es st) as [[[] | ex] st1]; [| done].
  clear st. revert st1.
  induction IH as [|e' es He' _ IHes]; intros st; [done |].
  destruct e' as [n s | d' c].
  - rewrite prune_all_file, !walk_all_file. apply IHes.
  - rewrite prune_all_dir, walk_all_dir. destruct (keeps d') eqn:Hk; [| apply IHes].
    pose proof (He' (OsPath.join top [d']) st) as Hw.
    rewrite prune_dir in Hw |- *. rewrite walk_all_dir, Hk, Hw.
    destruct (walk' (OsPath.join top [d']) (Dir d' c) st) as [[[] | ex] st2]; [| done].
    apply IHes.
Qed.

Lemma all_kept_prune (e : entry) :
  keeps (entry_name e) = true -> all_kept keeps (prune keeps e) = true.
Proof.
  induction e as [n s | d | d es IH] using entry_ind'; intros Hk; [done | |].
  - simpl in *. by rewrite Hk.
  - rewrite prune_listed. simpl in *. rewrite Hk. simpl.
    induction IH as [|e' es He' _ IHes]; [done |].
    destruct e' as [n s | d' c]; [exact IHes |].
    rewrite prune_all_dir. destruct (keeps d') eqn:Hk'; [| exact IHes].
    cbn [forallb]. rewrite He' by done. exact IHes.
Qed.

(** What is left of a listing has no folder, at any depth, whose name
    fails the test. *)
Lemma all_kept_prune_all (es : list entry) :
  forallb (all_kept keeps) (prune_all keeps es) = true.
Proof.
  induction es as [|[n s | d c] es IH]; [done | |].
  - rewrite prune_all_file. exact IH.
  - rewrite prune_all_dir. destruct (keeps d) eqn:Hk; [| exact IH].
    cbn [forallb]. rewrite IH, andb_true_r. by apply all_kept_prune.
Qed.

End Pruning.

(** ** the invariant of the scan *)

Section ScanInvariantFacts.

Import UIManager ScanInv.

Variable fnmatch : string -> string -> bool.
Variable cfg : Settings.
Variables session_folder_ignores session_file_ignores : list string.

Local Abbreviation keeps := (keeps_folder fnmatch cfg session_folder_ignores).
Local Abbreviation kept := (kept_folder fnmatch cfg session_folder_ignores).
Local Abbreviation Inv' := (Inv fnmatch cfg session_folder_ignores session_file_ignores).
Local Abbreviation item_ok' :=
  (item_ok fnmatch cfg session_folder_ignores session_file_ignores).
Local Abbreviation good' :=
  (good fnmatch cfg session_folder_ignores session_file_ignores).

Lemma grows_refl (st : scan_state) : grows st st.
Proof. done. Qed.

Lemma grows_trans (st1 st2 st3 : scan_state) :
  grows st1 st2 -> grows st2 st3 -> grows st1 st3.
Proof. intros [H1 H1'] [H2 H2']. split; auto. Qed.

Lemma kept_mono (tv tv' : Tk.Treeview) (id : nat) :
  (forall it, In it (Tk.items tv) -> In it (Tk.items tv')) -> kept tv id -> kept tv' id.
Proof. intros Hsub (names & Hc & Hk). exists names. split; [by eapply chain_mono | done]. Qed.

Lemma item_ok_mono (tv tv' : Tk.Treeview) (it : Tk.item) :
  (forall it, In it (Tk.items tv) -> In it (Tk.items tv')) ->
  item_ok' tv it -> item_ok' tv' it.
Proof. intros Hsub [Hr | [Hp Hs]]; [by left | right]. split; [by eapply kept_mono | done]. Qed.

Lemma kept_exists (tv : Tk.Treeview) (id : nat) :
  well_formed tv -> kept tv id ->
  id <> 0%nat /\ exists it, In it (Tk.items tv) /\ Tk.iid it = id.
Proof.
  intros Hwf (names & Hc & _).
  destruct (chain_item_inv _ _ _ Hc) as (it & before & Hin & Hid & _); [done |].
  split; [| by exists it]. rewrite <- Hid. exact (well_formed_positive tv Hwf it Hin).
Qed.

Lemma kept_root (tv : Tk.Treeview) (it : Tk.item) :
  In it (Tk.items tv) -> is_root_item cfg it -> kept tv (Tk.iid it).
Proof.
  intros Hin (Hp & Ht & _). exists []. split; [| constructor].
  rewrite <- Ht. apply (chain_item tv it [] Hin). rewrite Hp. constructor.
Qed.

Lemma kept_child (tv : Tk.Treeview) (it : Tk.item) :
  In it (Tk.items tv) -> kept tv (Tk.parent it) -> keeps (Tk.text it) = true ->
  kept tv (Tk.iid it).
Proof.
  intros Hin (names & Hc & Hk) Ht. exists (names ++ [Tk.text it]). split.
  - apply (chain_item tv it (root_text cfg :: names) Hin Hc).
  - apply Forall_app. split; [done |]. by constructor.
Qed.

Lemma good_weaken {A} (st st' : scan_state) (r : res A * scan_state)
    (Q : A -> scan_state -> Prop) :
  grows st st' -> good' st' r Q -> good' st r Q.
Proof.
  intros Hg. destruct r as [[a | e] st'']; simpl; intros (? & ? & ?);
    (split; [done | split; [by eapply grows_trans | done]]).
Qed.

Lemma good_bind {A B} (st : scan_state) (m : M A) (k : A -> M B)
    (Q : A -> scan_state -> Prop) (R : B -> scan_state -> Prop) :
  good' st (m st) Q ->
  (forall a st', Inv' st' -> grows st st' -> Q a st' -> good' st' (k a st') R) ->
  good' st (bind m k st) R.
Proof.
  intros Hm Hk. unfold bind. destruct (m st) as [[a | e] st']; [| done].
  destruct Hm as (Hinv & Hg & HQ). eapply good_weaken; [exact Hg |]. by apply Hk.
Qed.

Lemma good_ret {A} (st : scan_state) (a : A) (Q : A -> scan_state -> Prop) :
  Inv' st -> Q a st -> good' st (ret a st) Q.
Proof. intros. simpl. split; [done | split; [apply grows_refl | done]]. Qed.

Lemma good_mono {A} (st : scan_state) (r : res A * scan_state)
    (Q Q' : A -> scan_state -> Prop) :
  (forall a st', Q a st' -> Q' a st') -> good' st r Q -> good' st r Q'.
Proof. intros HQ. destruct r as [[a | e] st']; simpl; [| done]. intros (? & ? & ?). auto. Qed.

(** [for x in l: body(x)], when every round keeps the invariant, keeps
    what [J] says of the state and settles [E x]. *)
Lemma good_for_each {A} (body : A -> M unit) (l : list A)
    (J : scan_state -> Prop) (E : A -> scan_state -> Prop) (st : scan_state) :
  (forall st st', J st -> grows st st' -> J st') ->
  (forall x st st', E x st -> grows st st' -> E x st') ->
  (forall x st, In x l -> Inv' st -> J st -> good' st (body x st) (fun _ st' => E x st')) ->
  Inv' st -> J st ->
  good' st (for_each l body st) (fun _ st' => forall x, In x l -> E x st').
Proof.
  intros HJ HE Hbody. revert st.
  induction l as [|x l IH]; intros st Hinv Hj.
  - apply good_ret; [done |]. by intros x [].
  - cbn [for_each]. eapply good_bind.
    + apply Hbody; [by left | done | done].
    + intros [] st1 Hinv1 Hg1 Hx. simpl in Hx.
      assert (good' st1 (for_each l body st1) (fun _ st' => forall y, In y l -> E y st'))
        as Hrest.
      { apply IH; [| done | by eapply HJ].
        intros y st2 Hy. apply Hbody. by right. }
      destruct (for_each l body st1) as [[[] | e] st2]; [| exact Hrest].
      destruct Hrest as (Hinv2 & Hg2 & Hl).
      split; [done |]. split; [done |].
      intros y [<- | Hy]; [by eapply HE | by apply Hl].
Qed.

Lemma good_frame {A} (st : scan_state) (r : res A * scan_state)
    (Q : A -> scan_state -> Prop) (J : scan_state -> Prop) :
  (forall st st', J st -> grows st st' -> J st') ->
  J st -> good' st r Q -> good' st r (fun a st' => Q a st' /\ J st').
Proof.
  intros HJ Hj. destruct r as [[a | e] st']; simpl; [| done].
  intros (? & ? & ?). split; [done |]. split; [done |]. split; [done |]. by eapply HJ.
Qed.

(** *** the elementary updates *)

Lemma tree_insert_good (st : scan_state) (parent : nat) (text : string)
    (values tags : list string) (is_open : bool) :
  Inv' st ->
  (parent = 0%nat /\ text = root_text cfg /\ values = folder_values)
  \/ (kept (tree (ui st)) parent
      /\ forall id,
           is_folder_item fnmatch cfg session_folder_ignores
             (Tk.Item id parent text values tags is_open)
           \/ is_file_item fnmatch cfg session_file_ignores
                (Tk.Item id parent text values tags is_open)) ->
  good' st (tree_insert parent text values tags is_open st)
    (fun id st' =>
       In (Tk.Item id parent text values tags is_open) (Tk.items (tree (ui st')))
       /\ path_to_node_map st' = path_to_node_map st).
Proof.
  intros (Hwf & Hitems & Hign & Hmap) Hnew.
  assert (parent = 0%nat
          \/ exists it, In it (Tk.items (tree (ui st))) /\ Tk.iid it = parent) as Hparent.
  { destruct Hnew as [(-> & _) | (Hk & _)]; [by left | right].
    by destruct (kept_exists _ _ Hwf Hk) as (_ & ?). }
  unfold tree_insert. rewrite (insert_ok _ _ text values tags is_open Hparent).
  set (new := Tk.Item _ parent text values tags is_open).
  set (tv' := Tk.Mk _ _).
  assert (forall it, In it (Tk.items (tree (ui st))) -> In it (Tk.items tv')) as Hsub.
  { intros it Hin. apply in_app_iff. by left. }
  assert (In new (Tk.items tv')) as Hin_new.
  { apply in_app_iff. right. by left. }
  simpl. split; [| split; [by split | by split]].
  split; [by apply well_formed_insert |]. split; [| split; [done |]].
  - intros it [Hin | [<- | []]]%in_app_iff.
    + eapply item_ok_mono; [exact Hsub | by apply Hitems].
    + destruct Hnew as [Hroot | (Hk & Hshape)]; [by left | right].
      split; [by eapply kept_mono | apply Hshape].
  - intros p id Hp. eapply kept_mono; [exact Hsub | by eapply Hmap].
Qed.

Lemma map_path_good (st : scan_state) (path : string) (id : nat) :
  Inv' st -> kept (tree (ui st)) id ->
  good' st (map_path path id st)
    (fun _ st' => is_Some (path_to_node_map st' !! path)).
Proof.
  intros (Hwf & Hitems & Hign & Hmap) Hk. simpl.
  split; [| split; [split; [| done] |]].
  - split; [done |]. split; [done |]. split; [done |].
    intros p id'. simpl. rewrite lookup_insert.
    case_decide; [by intros [= <-] | apply Hmap].
  - intros p Hp. simpl. apply lookup_insert_is_Some.
    destruct (decide (path = p)); auto.
  - simpl. by rewrite lookup_insert_eq.
Qed.

Lemma record_path_good (st : scan_state) (node_id : nat) (path : string) :
  Inv' st ->
  good' st (record_path node_id path st)
    (fun _ st' => path_to_node_map st' = path_to_node_map st).
Proof. intros Hinv. simpl. split; [exact Hinv | by split]. Qed.

Lemma cache_item_good (st : scan_state) (node_id : nat) :
  Inv' st -> good' st (cache_item node_id st) (fun _ _ => True).
Proof. intros Hinv. simpl. split; [exact Hinv | by split]. Qed.

Lemma keys_grow (path : string) (st st' : scan_state) :
  is_Some (path_to_node_map st !! path) -> grows st st' ->
  is_Some (path_to_node_map st' !! path).
Proof. intros H [Hg _]. by apply Hg. Qed.

Lemma kept_grows (id : nat) (st st' : scan_state) :
  kept (tree (ui st)) id -> grows st st' -> kept (tree (ui st')) id.
Proof. intros H [_ Hg]. by eapply kept_mono. Qed.

(** *** lines 343-346 *)

Lemma folder_step_good (st : scan_state) (dirpath d : string) (parent_node_id : nat) :
  Inv' st -> kept (tree (ui st)) parent_node_id -> keeps d = true ->
  good' st (folder_step dirpath parent_node_id d st)
    (fun _ st' => is_Some (path_to_node_map st' !! OsPath.join dirpath [d])).
Proof.
  intros Hinv Hk Hd. unfold folder_step.
  eapply good_bind.
  { apply tree_insert_good; [done |]. right. split; [done |]. intros id. by left. }
  intros node_id st1 Hinv1 Hg1 [Hin _].
  eapply good_bind.
  { apply map_path_good; [done |].
    apply (kept_child _ _ Hin); [| done]. simpl. by eapply kept_grows. }
  intros [] st2 Hinv2 Hg2 Hkey.
  eapply good_mono;
    [| eapply (good_frame _ _ _
                 (fun st => is_Some (path_to_node_map st !! OsPath.join dirpath [d])));
       [| exact Hkey | by apply record_path_good]].
  - by intros [] st3 [_ ?].
  - intros ? ?. apply keys_grow.
Qed.

(** *** lines 349-381 *)

Lemma file_step_good (st : scan_state) (dirpath : string) (f : string * option N) :
  Inv' st -> is_Some (path_to_node_map st !! dirpath) ->
  good' st (file_step fnmatch cfg session_file_ignores dirpath f st) (fun _ _ => True).
Proof.
  intros Hinv [pid Hpid]. unfold file_step.
  destruct (skipped fnmatch cfg session_file_ignores f.1) eqn:Hskip.
  { by apply good_ret. }
  destruct (file_status _ _ _) as [status tags] eqn:Hstatus.
  assert (kept (tree (ui st)) pid) as Hk by (destruct Hinv as (_ & _ & _ & Hm); by eapply Hm).
  unfold bind at 1. unfold node_of at 1. rewrite Hpid.
  destruct (show_ignored_separately cfg && is_ignored fnmatch cfg session_file_ignores f.1)
    eqn:Hsep.
  - unfold bind at 1. unfold ret at 1. unfold bind at 1.
    destruct Hinv as (Hwf & Hitems & Hign & Hmap).
    destruct (kept_exists _ _ Hwf Hk) as (Hne & _).
    unfold ignored_tree_insert.
    destruct (insert_missing (ignored_tree (ui st)) pid f.1
                [status; match f.2 with Some n => size_kb n | None => "N/A" end;
                 (OsPath.splitext f.1).2] tags false Hne Hign) as (e & ->).
    simpl. split; [done |]. split; [apply grows_refl |].
    by apply andb_true_iff in Hsep as [? _].
  - unfold bind at 1. unfold ret at 1. simpl default.
    eapply good_bind.
    { apply tree_insert_good; [done |]. right. split; [done |]. intros id. right.
      split; [done |]. eexists _, _. unfold status_of. simpl. rewrite Hstatus. done. }
    intros node_id st1 Hinv1 Hg1 _.
    eapply good_bind; [by apply record_path_good |].
    intros [] st2 Hinv2 Hg2 _.
    destruct (is_ignored _ _ _ _); [by apply good_ret | by apply cache_item_good].
Qed.

(** *** lines 335-381 *)

Lemma visit_good (st : scan_state) (top : string) (es : list entry) :
  Inv' st -> is_Some (path_to_node_map st !! top) ->
  good' st (visit fnmatch cfg session_folder_ignores session_file_ignores top es st)
    (fun _ st' =>
       forall d, In d (List.filter keeps (dirnames_of es)) ->
         is_Some (path_to_node_map st' !! OsPath.join top [d])).
Proof.
  intros Hinv Htop. unfold visit.
  destruct Htop as [pid Hpid].
  assert (kept (tree (ui st)) pid) as Hk by (destruct Hinv as (_ & _ & _ & Hm); by eapply Hm).
  unfold bind at 1. unfold node_of at 1. rewrite Hpid. simpl default.
  eapply good_bind.
  { apply (good_for_each _ _ (fun st => kept (tree (ui st)) pid)
             (fun d st => is_Some (path_to_node_map st !! OsPath.join top [d])));
      [| | | done | done].
    - intros ? ?. apply kept_grows.
    - intros ? ? ?. apply keys_grow.
    - intros d st1 Hd Hinv1 Hk1. apply folder_step_good; [done | done |].
      by apply filter_In in Hd as [_ ?]. }
  intros [] st1 Hinv1 Hg1 Hkeys.
  eapply good_mono;
    [| eapply (good_frame _ _ _
                 (fun st => forall d, In d (List.filter keeps (dirnames_of es)) ->
                    is_Some (path_to_node_map st !! OsPath.join top [d])));
       [| exact Hkeys |]].
  - by intros [] st2 [_ ?].
  - intros st2 st3 H Hg d Hd. eapply keys_grow; [by apply H | done].
  - eapply good_mono;
      [| apply (good_for_each _ _ (fun st => is_Some (path_to_node_map st !! top))
                  (fun _ _ => True)); [| | | done |]].
    + done.
    + intros ? ?. apply keys_grow.
    + done.
    + intros f st2 _ Hinv2 Htop2. by apply file_step_good.
    + eapply keys_grow; [by exists pid | done].
Qed.

End ScanInvariantFacts.

Section WalkInvariant.

Import UIManager ScanInv.

Variable fnmatch : string -> string -> bool.
Variable cfg : Settings.
Variables session_folder_ignores session_file_ignores : list string.

Local Abbreviation keeps := (keeps_folder fnmatch cfg session_folder_ignores).
Local Abbreviation kept := (kept_folder fnmatch cfg session_folder_ignores).
Local Abbreviation Inv' := (Inv fnmatch cfg session_folder_ignores session_file_ignores).
Local Abbreviation good' :=
  (good fnmatch cfg session_folder_ignores session_file_ignores).
Local Abbreviation walk' :=
  (walk fnmatch cfg session_folder_ignores session_file_ignores).
Local Abbreviation walk_all' :=
  (walk_all fnmatch cfg session_folder_ignores session_file_ignores).

(** The walk of a directory whose node is known keeps the invariant. *)
Lemma walk_good (e : entry) :
  forall top st,
    Inv' st -> is_Some (path_to_node_map st !! top) ->
    good' st (walk' top e st) (fun _ _ => True).
Proof.
  induction e as [n s | d | d es IH] using entry_ind'; intros top st Hinv Htop;
    [by apply good_ret | by apply good_ret |].
  rewrite walk_listed. eapply good_bind; [by apply visit_good |].
  intros [] st1 Hinv1 _ Hkeys. clear st Hinv Htop.
  revert st1 Hinv1 Hkeys.
  induction IH as [|e' es He' _ IHes]; intros st Hinv Hkeys; [by apply good_ret |].
  destruct e' as [n s | d' c].
  - rewrite walk_all_file. apply IHes; [done |]. intros d0 Hd0. by apply Hkeys.
  - rewrite walk_all_dir. rewrite dirnames_of_dir in Hkeys. cbn [List.filter] in Hkeys.
    destruct (keeps d') eqn:Hk; [| by apply IHes].
    assert (good' st (walk' (OsPath.join top [d']) (Dir d' c) st)
              (fun _ st' =>
                 True /\ forall d0, In d0 (List.filter keeps (dirnames_of es)) ->
                           is_Some (path_to_node_map st' !! OsPath.join top [d0])))
      as Hsub.
    { apply (good_frame fnmatch cfg session_folder_ignores session_file_ignores _ _ _
               (fun st => forall d0, In d0 (List.filter keeps (dirnames_of es)) ->
                  is_Some (path_to_node_map st !! OsPath.join top [d0]))).
      - intros st2 st3 H [Hg _] d0 Hd0. apply Hg. by apply H.
      - intros d0 Hd0. apply Hkeys. by right.
      - apply He'; [done |]. apply Hkeys. by left. }
    destruct (walk' (OsPath.join top [d']) (Dir d' c) st) as [[[] | ex] st2];
      [| exact Hsub].
    destruct Hsub as (Hinv2 & Hg2 & _ & Hkeys2).
    eapply good_weaken; [exact Hg2 |]. by apply IHes.
Qed.

Lemma cleared_inv (w : Widgets) : Inv' (cleared w).
Proof. split; [apply well_formed_empty |]. split; [done |]. split; [done |]. done. Qed.

(** The scan keeps the invariant, and raises only in the view that
    separates the ignored files. *)
Lemma scan_good (root : option (list entry)) (w : Widgets) :
  good' (cleared w)
    (scan fnmatch cfg session_folder_ignores session_file_ignores root (cleared w))
    (fun _ _ => True).
Proof.
  unfold scan. eapply good_bind.
  { apply tree_insert_good; [apply cleared_inv |]. by left. }
  intros root_node_id st1 Hinv1 _ [Hin _].
  eapply good_bind.
  { apply map_path_good; [done |]. by apply (kept_root fnmatch cfg session_folder_ignores _ _ Hin). }
  intros [] st2 Hinv2 _ Hkey.
  eapply good_bind.
  { eapply (good_frame _ _ _ _ _ _ _
              (fun st => is_Some (path_to_node_map st !! root_folder cfg)));
      [| exact Hkey | by apply record_path_good].
    intros ? ?. by apply keys_grow. }
  intros [] st3 Hinv3 _ [_ Hkey3]. by apply walk_good.
Qed.

End WalkInvariant.

(** ** the selection collector *)

Section CollectorFacts.

Variable tv : Tk.Treeview.
Variable root_folder : string.

(** What the loop of lines 130-132 computes: the chain of the parent,
    put in front of the parts it started from. *)
Lemma climb_sound (fuel parent : nat) (path_parts parts : list string) :
  Main.climb fuel tv parent path_parts = Some (Ok parts) ->
  exists names, chain tv parent names /\ parts = names ++ path_parts.
Proof.
  revert parent path_parts.
  induction fuel as [|fuel IH]; intros parent path_parts; simpl;
    destruct (Nat.eqb_spec parent 0) as [-> | Hne];
    try (intros [= <-]; exists []; split; [constructor | done]); [done |].
  destruct (Tk.find tv parent) as [it |] eqn:Hfind; [| done].
  intros Hclimb. apply IH in Hclimb as (names & Hc & ->).
  apply find_some in Hfind as [Hin <-].
  exists (names ++ [Tk.text it]). split; [by constructor |].
  by rewrite <- app_assoc.
Qed.

(** With enough fuel the loop ends, and it raises nothing in a
    well-formed widget. *)
Lemma climb_total (fuel parent : nat) (path_parts : list string) :
  well_formed tv ->
  parent = 0%nat \/ (exists it, In it (Tk.items tv) /\ Tk.iid it = parent) ->
  (parent <= fuel)%nat ->
  exists parts, Main.climb fuel tv parent path_parts = Some (Ok parts).
Proof.
  intros Hwf. revert parent path_parts.
  induction fuel as [|fuel IH]; intros parent path_parts Hp Hle; simpl;
    destruct (Nat.eqb_spec parent 0) as [-> | Hne]; try (by eexists); [lia |].
  destruct Hp as [-> | (it & Hin & <-)]; [done |].
  rewrite (find_in tv it (proj1 Hwf) Hin).
  destruct (proj2 Hwf it Hin) as (_ & Hlt & Hparent).
  apply IH; [done | lia].
Qed.

Lemma for_ids_sound (body : nat -> list string -> option (res (list string)))
    (P : string -> Prop) (parent_ids : list nat) :
  (forall id file_list result,
      body id file_list = Some (Ok result) ->
      exists added, result = file_list ++ added /\ Forall P added) ->
  forall file_list result,
    Main.for_ids body parent_ids file_list = Some (Ok result) ->
    exists added, result = file_list ++ added /\ Forall P added.
Proof.
  intros Hbody. induction parent_ids as [|id rest IH]; intros file_list result; simpl.
  - intros [= <-]. exists []. by rewrite app_nil_r.
  - destruct (body id file_list) as [[fl | e] |] eqn:Hb; [| done | done].
    intros Hrest. apply Hbody in Hb as (added1 & -> & H1).
    apply IH in Hrest as (added2 & -> & H2).
    exists (added1 ++ added2). rewrite app_assoc. split; [done | by apply Forall_app].
Qed.

(** Every path that a call adds to the list is the root folder joined
    with the chain of an item whose status is [Included]. *)
Lemma collect_sound (fuel : nat) :
  forall parent_ids file_list result,
    Main._collect_included_files fuel tv root_folder parent_ids file_list
    = Some (Ok result) ->
    exists added, result = file_list ++ added /\ Forall (collected tv root_folder) added.
Proof.
  induction fuel as [|fuel IH]; [done |].
  intros parent_ids. cbn [Main._collect_included_files].
  apply for_ids_sound. intros id file_list result. unfold Main.round.
  destruct (Tk.find tv id) as [it |] eqn:Hfind.
  2: { intros [= <-]. exists []. by rewrite app_nil_r. }
  apply find_some in Hfind as [Hin Hid].
  assert (forall r,
            match Tk.values it with
            | [] => Some (Ok file_list)
            | _ :: _ =>
                match Main.index (Tk.values it) 2 with
                | Raise e => Some (Raise e)
                | Ok v2 =>
                    if String.eqb v2 "Folder"
                    then Main._collect_included_files fuel tv root_folder
                           (Tk.get_children tv id) file_list
                    else Some (Ok file_list)
                end
            end = Some (Ok r) ->
            exists added, r = file_list ++ added /\ Forall (collected tv root_folder) added)
    as Hfolder.
  { intros r. destruct (Tk.values it) as [|v0 vs].
    - intros [= <-]. exists []. by rewrite app_nil_r.
    - destruct (Main.index _ 2) as [v2 | e]; [| done].
      destruct (String.eqb v2 "Folder"); [apply IH |].
      intros [= <-]. exists []. by rewrite app_nil_r. }
  destruct (Tk.values it) as [|v0 vs] eqn:Hvalues; [apply Hfolder |].
  destruct (String.eqb_spec v0 "Included") as [-> | Hv0]; [| apply Hfolder].
  destruct (Main.index _ 2) as [v2 | e]; [| done].
  destruct (negb (String.eqb v2 "Folder")); [| apply Hfolder].
  destruct (Main.climb fuel tv (Tk.parent it) [Tk.text it]) as [[parts | e] |] eqn:Hclimb;
    [| done | done].
  intros [= <-]. apply climb_sound in Hclimb as (names & Hc & ->).
  eexists. split; [done |]. constructor; [| constructor].
  exists it, names. by rewrite Hvalues.
Qed.

Lemma for_ids_total (body : nat -> list string -> option (res (list string)))
    (parent_ids : list nat) :
  (forall id file_list, In id parent_ids ->
      exists result, body id file_list = Some (Ok result)) ->
  forall file_list, exists result,
    Main.for_ids body parent_ids file_list = Some (Ok result).
Proof.
  induction parent_ids as [|id rest IH]; intros Hbody file_list; simpl; [by eexists |].
  destruct (Hbody id file_list) as (fl & ->); [by left |].
  apply IH. intros id' fl' Hin. apply Hbody. by right.
Qed.

Lemma get_children_in (parent child : nat) :
  In child (Tk.get_children tv parent) ->
  exists it, In it (Tk.items tv) /\ Tk.iid it = child /\ Tk.parent it = parent.
Proof.
  unfold Tk.get_children. intros (it & Hid & Hin)%in_map_iff.
  apply filter_In in Hin as [Hin Hp]. exists it. by apply Nat.eqb_eq in Hp.
Qed.

(** In a well-formed widget whose items have three values, a call with
    enough fuel returns a list. *)
Lemma collect_total (fuel : nat) :
  well_formed tv ->
  (forall it, In it (Tk.items tv) -> length (Tk.values it) = 3%nat) ->
  forall parent_ids file_list,
    (0 < fuel)%nat ->
    (forall id it, In id parent_ids -> Tk.find tv id = Some it ->
        (Tk.serial tv + (Tk.serial tv - Tk.iid it) < fuel)%nat) ->
    exists result,
      Main._collect_included_files fuel tv root_folder parent_ids file_list
      = Some (Ok result).
Proof.
  intros Hwf Hvalues.
  induction fuel as [|fuel IH]; intros parent_ids file_list Hpos Hbound; [lia |].
  cbn [Main._collect_included_files]. apply for_ids_total.
  intros id fl Hid. unfold Main.round.
  destruct (Tk.find tv id) as [it |] eqn:Hfind; [| by eexists].
  specialize (Hbound id it Hid Hfind).
  apply find_some in Hfind as [Hin Hiid].
  destruct (proj2 Hwf it Hin) as (Hrange & Hlt & Hparent).
  pose proof (Hvalues it Hin) as Hlen.
  destruct (Tk.values it) as [|v0 [|v1 [|v2 [|]]]] eqn:Hv; try done.
  cbn [Main.index lookup list_lookup].
  assert (exists result,
            Main._collect_included_files fuel tv root_folder (Tk.get_children tv id) fl
            = Some (Ok result)) as Hrec.
  { apply IH; [lia |]. intros c itc Hc Hfc.
    apply get_children_in in Hc as (itc' & Hin' & Hid' & Hp').
    apply find_some in Hfc as [Hinc Hidc].
    assert (itc = itc') as <-.
    { apply (well_formed_same_item tv); [done | done | done | congruence]. }
    destruct (proj2 Hwf itc Hinc) as (Hrangec & Hltc & _). lia. }
  assert (exists result,
            (if String.eqb v2 "Folder"
             then Main._collect_included_files fuel tv root_folder
                    (Tk.get_children tv id) fl
             else Some (Ok fl)) = Some (Ok result)) as Hfolder.
  { destruct (String.eqb v2 "Folder"); [exact Hrec | by eexists]. }
  destruct (String.eqb v0 "Included"); [| exact Hfolder].
  destruct (negb (String.eqb v2 "Folder")); [| exact Hfolder].
  destruct (climb_total fuel (Tk.parent it) [Tk.text it] Hwf Hparent) as (parts & ->);
    [lia |]. by eexists.
Qed.

(** The call of [start_consolidation] returns a list when given fuel
    for twice the serial number of the widget. *)
Lemma files_to_process_total :
  well_formed tv ->
  (forall it, In it (Tk.items tv) -> length (Tk.values it) = 3%nat) ->
  exists result,
    Main.files_to_process (2 * Tk.serial tv + 1) tv root_folder = Some (Ok result).
Proof.
  intros Hwf Hvalues. unfold Main.files_to_process.
  apply collect_total; [done | done | lia |].
  intros id it _ Hf. apply find_some in Hf as [Hin _].
  destruct (proj2 Hwf it Hin) as (Hrange & _). lia.
Qed.

End CollectorFacts.

(** ** the scan: what the design document states *)

Section PopulateFacts.

Import UIManager ScanInv.

Variable fnmatch : string -> string -> bool.
Variable literal_eval : string -> res (list string).
Variable cfg : Settings.

Local Abbreviation folders := (session_lists literal_eval cfg).1.
Local Abbreviation files := (session_lists literal_eval cfg).2.

(** [populate_file_tree] either leaves the cleared widgets as they are
    (no root folder, or an exception that is not caught), or runs the
    scan with the session lists. *)
Lemma populate_cases (isdir : bool) (w : Widgets) :
  (exists ex, forall root,
      populate_file_tree fnmatch literal_eval cfg isdir root w
      = MkOutcome (ui (cleared w)) [] ex)
  \/ (exists shown, forall root,
        populate_file_tree fnmatch literal_eval cfg isdir root w
        = finish shown (scan fnmatch cfg folders files root (cleared w))).
Proof.
  unfold populate_file_tree, session_lists.
  destruct (negb (PyStr.truthy (root_folder cfg)) || negb isdir); [left; by eexists |].
  destruct (literal_eval (folder_ignore_patterns cfg)) as [fs | e].
  - destruct (literal_eval (file_ignore_patterns cfg)) as [gs | e].
    + right. by exists [].
    + destruct (caught e); [right; by eexists | left; by eexists].
  - destruct (caught e); [right; by eexists | left; by eexists].
Qed.

(** Whatever the way [populate_file_tree] ends, the widgets it leaves
    satisfy the invariant of the scan. *)
Lemma populate_invariant (isdir : bool) (root : option (list entry)) (w : Widgets) :
  let r := populate_file_tree fnmatch literal_eval cfg isdir root w in
  well_formed (tree (widgets r))
  /\ (forall it, In it (Tk.items (tree (widgets r))) ->
        item_ok fnmatch cfg folders files (tree (widgets r)) it)
  /\ Tk.items (ignored_tree (widgets r)) = []
  /\ (show_ignored_separately cfg = false ->
      raised r = None
      \/ populate_file_tree fnmatch literal_eval cfg isdir root w
         = MkOutcome (ui (cleared w)) [] (raised r)).
Proof.
  intros r. subst r.
  destruct (populate_cases isdir w) as [(ex & Hidle) | (shown & Hscan)].
  - rewrite Hidle. simpl. split; [apply well_formed_empty |].
    split; [done |]. split; [done |]. intros _. by right.
  - rewrite Hscan. unfold finish.
    pose proof (scan_good fnmatch cfg folders files root w) as Hgood.
    destruct (scan fnmatch cfg folders files root (cleared w)) as [[[] | e] st]; simpl.
    + destruct Hgood as ((Hwf & Hitems & Hign & _) & _). split; [done |].
      split; [done |]. split; [done |]. intros _. by left.
    + destruct Hgood as ((Hwf & Hitems & Hign & _) & _ & Hsep). split; [done |].
      split; [done |]. split; [done |]. congruence.
Qed.

(** The scan of a listing is the scan of the listing without its
    pruned folders. *)
Lemma scan_prune (fs gs : list string) (root : option (list entry)) (st : scan_state) :
  scan fnmatch cfg fs gs (option_map (prune_all (keeps_folder fnmatch cfg fs)) root) st
  = scan fnmatch cfg fs gs root st.
Proof.
  unfold scan, bind.
  destruct (tree_insert _ _ _ _ _ st) as [[id | e] st1]; [| done].
  destruct (map_path _ id st1) as [[[] | e] st2]; [| done].
  destruct (record_path id _ st2) as [[[] | e] st3]; [| done].
  rewrite <- (walk_prune fnmatch cfg fs gs (Dir _ root)).
  by rewrite prune_dir.
Qed.

Lemma item_ok_values (tv : Tk.Treeview) (it : Tk.item) :
  item_ok fnmatch cfg folders files tv it -> length (Tk.values it) = 3%nat.
Proof.
  intros [(_ & _ & ->) | (_ & [(-> & _) | (_ & size & ext & -> & _)])]; done.
Qed.

End PopulateFacts.

Section ScanClaims.

Import UIManager ScanInv.

Lemma file_status_nonempty (s g x : bool) : (file_status s g x).1 <> "".
Proof. by destruct s, g, x. Qed.

(** C2, as amended.  The status of a file is one of the four, fixed by
    the first test that holds in the order session pattern, global
    pattern, extension.  Every file node that a scan leaves in a widget
    carries the status and the tag that this rule gives to its name.  A
    file that the hide-ignored view skips is an ignored file, and it
    gets no node and no status. *)
Theorem file_status_by_first_match (fnmatch : string -> string -> bool)
    (literal_eval : string -> res (list string)) (cfg : Settings) (isdir : bool)
    (root : option (list entry)) (w : Widgets) :
  let files := (session_lists literal_eval cfg).2 in
  let r := populate_file_tree fnmatch literal_eval cfg isdir root w in
  (forall s g x,
      In (file_status s g x).1 statuses
      /\ ((file_status s g x).1 = "Ignored (Session)" <-> s = true)
      /\ ((file_status s g x).1 = "Ignored (Global)" <-> s = false /\ g = true)
      /\ ((file_status s g x).1 = "Ignored (Type)" <-> s = false /\ g = false /\ x = false)
      /\ ((file_status s g x).1 = "Included" <-> s = false /\ g = false /\ x = true))
  /\ (forall it,
        In it (Tk.items (tree (widgets r)) ++ Tk.items (ignored_tree (widgets r))) ->
        Tk.values it = folder_values
        \/ (skipped fnmatch cfg files (Tk.text it) = false
            /\ exists size ext,
                 Tk.values it = [(status_of fnmatch cfg files (Tk.text it)).1; size; ext]
                 /\ Tk.tags it = (status_of fnmatch cfg files (Tk.text it)).2))
  /\ (forall dirpath f st,
        skipped fnmatch cfg files f.1 = true ->
        file_step fnmatch cfg files dirpath f st = (Ok tt, st)
        /\ is_ignored fnmatch cfg files f.1 = true)
  /\ (forall dirpath f st parent_id,
        skipped fnmatch cfg files f.1 = false ->
        show_ignored_separately cfg && is_ignored fnmatch cfg files f.1 = false ->
        path_to_node_map st !! dirpath = Some parent_id ->
        Tk.exists_ (tree (ui st)) parent_id = true ->
        exists st',
          file_step fnmatch cfg files dirpath f st = (Ok tt, st')
          /\ Tk.items (tree (ui st'))
             = Tk.items (tree (ui st))
               ++ [Tk.Item (S (Tk.serial (tree (ui st)))) parent_id f.1
                     [(status_of fnmatch cfg files f.1).1;
                      match f.2 with Some n => size_kb n | None => "N/A" end;
                      (OsPath.splitext f.1).2]
                     (status_of fnmatch cfg files f.1).2 false]
          /\ ignored_tree (ui st') = ignored_tree (ui st)).
Proof.
  intros files r. split; [| split; [| split]].
  4: { intros dirpath f st parent_id Hskip Hsep Hnode Hexists.
       unfold file_step. rewrite Hskip. fold (status_of fnmatch cfg files f.1).
       destruct (status_of fnmatch cfg files f.1) as [status tags].
       rewrite Hsep. unfold bind, node_of, ret, tree_insert, Tk.insert.
       rewrite Hnode. simpl default. rewrite Hexists, orb_true_r. simpl.
       destruct (is_ignored fnmatch cfg files f.1); by eexists. }
  - intros s g x. destruct s, g, x; simpl; unfold statuses; intuition congruence.
  - destruct (populate_invariant fnmatch literal_eval cfg isdir root w)
      as (_ & Hitems & Hign & _).
    fold r in Hitems, Hign. rewrite Hign, app_nil_r. intros it Hin.
    destruct (Hitems it Hin) as [(_ & _ & Hv) | (_ & [(Hv & _) | Hfile])]; auto.
  - intros dirpath f st Hskip. unfold file_step. rewrite Hskip. split; [done |].
    unfold skipped in Hskip. by apply andb_true_iff in Hskip as [[_ ?]%andb_true_iff _].
Qed.

(** C2 as stated fails in the hide-ignored view: the scan meets the
    file [b.pyc] in the root folder, ends without an error, and leaves
    no node for it in either widget, hence no status. *)
Lemma hidden_file_gets_no_status :
  let cfg := Project.settings "/home/u/proj" "[]" "[]" false true in
  let r := Project.scan_of cfg Project.listing in
  (exists es, Project.listing = Some es /\ In ("b.pyc", Some 10%N) (files_of es))
  /\ raised r = None
  /\ map Tk.text (Tk.items (tree (widgets r))) = ["proj"; "src"; "a.py"; "m.py"]
  /\ Tk.items (ignored_tree (widgets r)) = [].
Proof.
  split; [eexists; split; [reflexivity | right; by left] |].
  repeat split; vm_compute; reflexivity.
Qed.

(** C3 at the failing input.  For the project folder [/home/u/proj] the
    scan records the path of each node it creates, and the selection
    collected from the primary widget names other paths: the name of
    the root folder comes twice. *)
Lemma collected_paths_repeat_root_name :
  let cfg := Project.settings "/home/u/proj" "[]" "[]" false false in
  let r := Project.scan_of cfg Project.listing in
  Main.files_to_process 7 (tree (widgets r)) (root_folder cfg)
  = Some (Ok ["/home/u/proj/proj/src/m.py"; "/home/u/proj/proj/a.py"])
  /\ map (fun id => tree_item_paths (widgets r) !! id) [5%nat; 3%nat]
     = [Some "/home/u/proj/src/m.py"; Some "/home/u/proj/a.py"]
  /\ map (fun it => (Tk.iid it, Tk.text it, Tk.values it !! 0%nat))
         (Tk.items (tree (widgets r)))
     = [(1%nat, "proj", Some ""); (2%nat, "src", Some ""); (3%nat, "a.py", Some "Included");
        (4%nat, "b.pyc", Some "Ignored (Global)"); (5%nat, "m.py", Some "Included");
        (6%nat, "README", Some "Ignored (Type)")].
Proof. repeat split; vm_compute; reflexivity. Qed.

End ScanClaims.

(** ** the text strategy *)

Section TextMergeFacts.

Import FileProcessor.

Variable w : World.

Lemma writes_app (l1 l2 : list io_event) : writes (l1 ++ l2) = writes l1 ++ writes l2.
Proof. apply omap_app. Qed.

Lemma opened_app (l1 l2 : list io_event) : opened (l1 ++ l2) = opened l1 ++ opened l2.
Proof. apply omap_app. Qed.

Lemma not_cancelled_now (st : Worker) (n : nat) :
  not_cancelled w st (S n) -> cancelled w st = false.
Proof. intros H. unfold cancelled. rewrite <- (H 0%nat); [| lia]. f_equal. lia. Qed.

Lemma not_cancelled_next (st st' : Worker) (n : nat) :
  reads st' = S (reads st) -> not_cancelled w st (S n) -> not_cancelled w st' n.
Proof.
  intros Hr H k Hk. rewrite Hr, <- (H (S k)); [| lia]. f_equal. lia.
Qed.

(** The rounds of the loop that run without a cancellation write their
    chunks in order and record their errors in order; the loop then
    goes on from the round that follows. *)
Lemma text_loop_app (pre rest : list string) (i : nat) (outfile : string) (st : Worker) :
  not_cancelled w st (length pre) ->
  exists st',
    text_loop w i (pre ++ rest) outfile st
    = text_loop w (i + length pre) rest
        (outfile +:+ concat_text (map (TextMerge.chunk w) pre)) st'
    /\ processing_errors st'
       = processing_errors st ++ flat_map (TextMerge.errors w) pre
    /\ reads st' = reads st + length pre
    /\ disk st' = disk st
    /\ writes (log st') = writes (log st)
    /\ opened (log st') = opened (log st) ++ pre.
Proof.
  revert i outfile st. induction pre as [|path pre IH]; intros i outfile st Hnc.
  - exists st. simpl. rewrite append_nil_r, !app_nil_r, !Nat.add_0_r. done.
  - simpl app. cbn [text_loop].
    rewrite (not_cancelled_now _ _ Hnc).
    set (st1 := record_io _ (put _ (put _ (tick st)))).
    assert (reads st1 = S (reads st)) as Hr1 by done.
    assert (forall piece, (if include_headers w then outfile +:+ header path else outfile)
              +:+ piece
            = outfile +:+ ((if include_headers w then header path else "") +:+ piece))
      as Hout.
    { intros piece. destruct (include_headers w); [by rewrite append_assoc | done]. }
    simpl map. rewrite concat_text_cons. unfold TextMerge.chunk at 1.
    simpl flat_map. unfold TextMerge.errors at 1.
    destruct (infile_read w path) as [content | e] eqn:Hread.
    + destruct (IH (S i) ((if include_headers w then outfile +:+ header path else outfile)
                          +:+ (content +:+ nl)) st1) as (st' & Heq & He & Hrd & Hd & Hw & Ho).
      { by eapply not_cancelled_next. }
      exists st'. rewrite Heq, He, Hrd, Hd, Hw, Ho, Hr1, Hout.
      rewrite !append_assoc. simpl length.
      replace (i + S (length pre)) with (S i + length pre) by lia.
      repeat split; unfold st1; simpl;
        rewrite ?writes_app, ?opened_app, <- ?app_assoc, ?app_nil_r; simpl; done || lia.
    + destruct (IH (S i) ((if include_headers w then outfile +:+ header path else outfile)
                          +:+ ("# " +:+ reading_error path e +:+ nl))
                   (append_error (reading_error path e) st1))
        as (st' & Heq & He & Hrd & Hd & Hw & Ho).
      { eapply not_cancelled_next; [| exact Hnc]. done. }
      exists st'. rewrite Heq, He, Hrd, Hd, Hw, Ho, Hout.
      rewrite !append_assoc. simpl length.
      replace (i + S (length pre)) with (S i + length pre) by lia.
      repeat split; unfold st1; simpl;
        rewrite ?writes_app, ?opened_app, <- ?app_assoc, ?app_nil_r; simpl; done || lia.
Qed.

(** An uncancelled run of the loop over all the files. *)
Lemma text_loop_all (file_paths : list string) (i : nat) (outfile : string)
    (st : Worker) :
  not_cancelled w st (length file_paths) ->
  exists st',
    text_loop w i file_paths outfile st
    = (Finished, outfile +:+ concat_text (map (TextMerge.chunk w) file_paths), st')
    /\ processing_errors st'
       = processing_errors st ++ flat_map (TextMerge.errors w) file_paths
    /\ reads st' = reads st + length file_paths
    /\ disk st' = disk st
    /\ writes (log st') = writes (log st)
    /\ opened (log st') = opened (log st) ++ file_paths.
Proof.
  intros Hnc.
  destruct (text_loop_app file_paths [] i outfile st Hnc) as (st' & Heq & H).
  exists st'. rewrite app_nil_r in Heq. rewrite Heq. done.
Qed.


End TextMergeFacts.

Section TextMergeClaims.

Import FileProcessor.

Lemma merge_as_text_unfold (w : World) (file_paths : list string)
    (output_filename : string) (st : Worker) :
  open_for_writing w output_filename = None ->
  merge_as_text w file_paths output_filename st
  = let '(r, outfile, st') :=
      text_loop w 0 file_paths ""
        (store output_filename (TextFile "")
               (record_io (OpenWrite output_filename) st)) in
    (r, store output_filename (TextFile outfile) st').
Proof. intros Hopen. unfold merge_as_text. by rewrite Hopen. Qed.

Lemma chunks_of_readable (w : World) (file_paths contents : list string) :
  include_headers w = false ->
  Forall2 (fun path content => read_text w path = Ok content) file_paths contents ->
  map (TextMerge.chunk w) file_paths
  = map (fun content => universal_newlines content +:+ nl) contents
  /\ flat_map (TextMerge.errors w) file_paths = [].
Proof.
  intros Hh. induction 1 as [|path content paths contents Hread _ [IH1 IH2]]; [done |].
  simpl. rewrite IH1, IH2. unfold TextMerge.chunk, TextMerge.errors, infile_read.
  by rewrite Hh, Hread.
Qed.

(** C4, as amended.  With headers disabled, an uncancelled text merge of
    readable files writes, in input order, the text of each file with
    its line endings translated to the line feed, followed by one line
    feed; nothing is recorded as an error.  Texts without carriage
    return are written as they are. *)
Theorem text_merge_concatenates (w : World) (file_paths contents : list string)
    (output_filename : string) (st : Worker) :
  include_headers w = false ->
  open_for_writing w output_filename = None ->
  not_cancelled w st (length file_paths) ->
  Forall2 (fun path content => read_text w path = Ok content) file_paths contents ->
  exists st',
    merge_as_text w file_paths output_filename st = (Finished, st')
    /\ disk st' !! output_filename
       = Some (TextFile (concat_text
                 (map (fun content => universal_newlines content +:+ nl) contents)))
    /\ (Forall no_cr contents ->
        disk st' !! output_filename
        = Some (TextFile (concat_text (map (fun content => content +:+ nl) contents))))
    /\ processing_errors st' = processing_errors st.
Proof.
  intros Hh Hopen Hnc Hread.
  rewrite (merge_as_text_unfold _ _ _ _ Hopen).
  destruct (text_loop_all w file_paths 0 ""
              (store output_filename (TextFile "")
                     (record_io (OpenWrite output_filename) st)) Hnc)
    as (st1 & Heq & He & _).
  destruct (chunks_of_readable w file_paths contents Hh Hread) as [Hchunks Herrs].
  rewrite Heq, Hchunks. eexists. split; [reflexivity |].
  simpl. rewrite lookup_insert_eq, He, Herrs, app_nil_r.
  split; [done |]. split; [| done].
  intros Hcr.
  replace (map (fun content => content +:+ nl) contents)
    with (map (fun content => universal_newlines content +:+ nl) contents); [done |].
  clear -Hcr. induction Hcr as [|c l Hc _ IH]; [done |].
  simpl. by rewrite IH, universal_newlines_no_cr.
Qed.

Lemma text_merge_concatenates_witness :
  exists st',
    merge_as_text (Scenario.world false Scenario.never) ["a.txt"; "mac.txt"] "out.txt"
                  Scenario.fresh = (Finished, st')
    /\ disk st' !! "out.txt"
       = Some (TextFile (concat_text
                 (map (fun content => universal_newlines content +:+ nl)
                      ["alpha"; Scenario.old_mac_text])))
    /\ (Forall no_cr ["alpha"; Scenario.old_mac_text] ->
        disk st' !! "out.txt"
        = Some (TextFile (concat_text (map (fun content => content +:+ nl)
                                           ["alpha"; Scenario.old_mac_text]))))
    /\ processing_errors st' = processing_errors Scenario.fresh.
Proof.
  apply (text_merge_concatenates (Scenario.world false Scenario.never)
           ["a.txt"; "mac.txt"] ["alpha"; Scenario.old_mac_text] "out.txt" Scenario.fresh).
  - reflexivity.
  - reflexivity.
  - intros k Hk. reflexivity.
  - repeat constructor.
Defined.

(** C4 as stated fails: a file that holds [x], a carriage return and
    [y] is readable, and the merge writes [x], a line feed, [y] and the
    appended line feed, which is not the content of the file followed
    by a line feed. *)
Lemma text_merge_translates_carriage_return :
  let w := Scenario.world false Scenario.never in
  read_text w "mac.txt" = Ok ("x" +:+ String cr "y")
  /\ exists st',
       merge_as_text w ["mac.txt"] "out.txt" Scenario.fresh = (Finished, st')
       /\ disk st' !! "out.txt" = Some (TextFile ("x" +:+ String lf "y" +:+ nl))
       /\ disk st' !! "out.txt" <> Some (TextFile (("x" +:+ String cr "y") +:+ nl)).
Proof.
  split; [reflexivity |]. eexists. split; [reflexivity |].
  split; [vm_compute; reflexivity |]. vm_compute. discriminate.
Qed.



(** C8.  A file that cannot be read does not stop the text merge: its
    error is appended to the error list, the comment line that reports
    it is written where the content of the file would be, and the files
    before and after it are processed as usual. *)
Theorem text_merge_unreadable_file (w : World) (before after : list string)
    (path : string) (e : exn) (output_filename : string) (st : Worker) :
  open_for_writing w output_filename = None ->
  not_cancelled w st (length (before ++ path :: after)) ->
  read_text w path = Raise e ->
  exists st',
    merge_as_text w (before ++ path :: after) output_filename st = (Finished, st')
    /\ disk st' !! output_filename
       = Some (TextFile
                 (concat_text (map (TextMerge.chunk w) before)
                  +:+ ((if include_headers w then header path else "")
                       +:+ "# " +:+ reading_error path e +:+ nl)
                  +:+ concat_text (map (TextMerge.chunk w) after)))
    /\ processing_errors st'
       = processing_errors st ++ flat_map (TextMerge.errors w) before
         ++ [reading_error path e] ++ flat_map (TextMerge.errors w) after
    /\ opened (log st') = opened (log st) ++ before ++ path :: after.
Proof.
  intros Hopen Hnc Hread.
  rewrite (merge_as_text_unfold _ _ _ _ Hopen).
  destruct (text_loop_all w (before ++ path :: after) 0 ""
              (store output_filename (TextFile "")
                     (record_io (OpenWrite output_filename) st)) Hnc)
    as (st1 & Heq & He & _ & _ & _ & Ho).
  rewrite Heq. eexists. split; [reflexivity |].
  simpl. rewrite lookup_insert_eq, He, Ho. simpl.
  rewrite opened_app. simpl. rewrite app_nil_r.
  rewrite map_app, concat_text_app, flat_map_app. simpl.
  unfold TextMerge.chunk at 2, TextMerge.errors at 2, infile_read.
  rewrite Hread. done.
Qed.

Lemma text_merge_unreadable_file_witness :
  exists st',
    merge_as_text (Scenario.world true Scenario.never) (["a.txt"] ++ "locked.txt" :: ["b.txt"])
                  "out.txt" Scenario.fresh = (Finished, st')
    /\ disk st' !! "out.txt"
       = Some (TextFile
                 (concat_text (map (TextMerge.chunk (Scenario.world true Scenario.never))
                                   ["a.txt"])
                  +:+ ((if include_headers (Scenario.world true Scenario.never)
                        then header "locked.txt" else "")
                       +:+ "# "
                       +:+ reading_error "locked.txt" (Scenario.permission_denied "locked.txt")
                       +:+ nl)
                  +:+ concat_text (map (TextMerge.chunk (Scenario.world true Scenario.never))
                                       ["b.txt"])))
    /\ processing_errors st'
       = processing_errors Scenario.fresh
         ++ flat_map (TextMerge.errors (Scenario.world true Scenario.never)) ["a.txt"]
         ++ [reading_error "locked.txt" (Scenario.permission_denied "locked.txt")]
         ++ flat_map (TextMerge.errors (Scenario.world true Scenario.never)) ["b.txt"]
    /\ opened (log st') = opened (log Scenario.fresh) ++ ["a.txt"] ++ "locked.txt" :: ["b.txt"].
Proof.
  apply (text_merge_unreadable_file (Scenario.world true Scenario.never)
           ["a.txt"] ["b.txt"] "locked.txt" (Scenario.permission_denied "locked.txt")
           "out.txt" Scenario.fresh).
  - reflexivity.
  - intros k Hk. reflexivity.
  - reflexivity.
Defined.

End TextMergeClaims.

(** ** the PDF strategy *)

Section PdfMergeFacts.

Import FileProcessor.

Variable w : World.

Lemma truthy_of_endswith (s suffix : string) :
  PyStr.truthy suffix = true -> PyStr.endswith (PyStr.lower s) suffix = true ->
  PyStr.truthy s = true.
Proof. destruct s, suffix; done. Qed.

(** A round of the loop for a PDF file that can be read: its pages go
    to the writer. *)
Lemma pdf_loop_pdf (i : nat) (path : string) (rest : list string) (loc : pdf_locals)
    (st : Worker) (pages : list page) :
  cancelled w st = false ->
  PyStr.endswith (PyStr.lower path) ".pdf" = true ->
  read_pdf w path = Ok pages ->
  pdf_loop w i (path :: rest) loc st
  = pdf_loop w (S i) rest
      (MkPdf (writer loc ++ pages) (temp_pdfs loc) (word loc) (powerpoint loc))
      (record_io (OpenRead path)
         (put (Status ("Appending: " +:+ OsPath.basename path))
            (put (Progress (i + 1))
               (put (Status ("Converting: " +:+ OsPath.basename path)) (tick st))))).
Proof.
  intros Hc Hpdf Hread. cbn [pdf_loop]. rewrite Hc, Hpdf.
  rewrite (truthy_of_endswith path ".pdf" eq_refl Hpdf).
  unfold append_pages. by rewrite Hread.
Qed.

(** A round of the loop for a file that is neither a PDF file nor
    convertible: it is skipped with an error. *)
Lemma pdf_loop_skip (i : nat) (path : string) (rest : list string) (loc : pdf_locals)
    (st : Worker) :
  cancelled w st = false ->
  OFFICE_INSTALLED w = false ->
  PyStr.endswith (PyStr.lower path) ".pdf" = false ->
  pdf_loop w i (path :: rest) loc st
  = pdf_loop w (S i) rest loc
      (append_error ("Skipped unsupported file for PDF merge: " +:+ OsPath.basename path)
         (put (Progress (i + 1))
            (put (Status ("Converting: " +:+ OsPath.basename path)) (tick st)))).
Proof.
  intros Hc Hoff Hpdf. cbn [pdf_loop]. rewrite Hc, Hpdf, Hoff, !andb_false_r. done.
Qed.

End PdfMergeFacts.

Section PdfMergeClaims.

Import FileProcessor.

(** C7.  Without the conversion service, the PDF merge of one PDF file
    and one word-processing document, in either order, runs to its end:
    both files get their round of the loop, the document is skipped
    with the one error recorded by the run, which names it, the output
    holds the pages of the PDF file and nothing else, and the outcome
    is Completed. *)
Theorem pdf_merge_without_office (w : World) (pdf docx output_filename : string)
    (pages : list page) (file_paths : list string) (st : Worker) :
  OFFICE_INSTALLED w = false ->
  PyStr.endswith (PyStr.lower pdf) ".pdf" = true ->
  PyStr.endswith (PyStr.lower docx) ".docx" = true ->
  read_pdf w pdf = Ok pages ->
  open_for_writing w output_filename = None ->
  not_cancelled w st 3 ->
  file_paths = [pdf; docx] \/ file_paths = [docx; pdf] ->
  exists st',
    merge_as_pdf w file_paths output_filename st = (Finished, st')
    /\ outcome Finished = Completed
    /\ disk st' !! output_filename = Some (PdfFile pages)
    /\ processing_errors st'
       = processing_errors st
         ++ ["Skipped unsupported file for PDF merge: " +:+ OsPath.basename docx]
    /\ opened (log st') = opened (log st) ++ [pdf]
    /\ In (Progress 1) (processing_queue st') /\ In (Progress 2) (processing_queue st').
Proof.
  intros Hoff Hpdf Hdocx Hread Hopen Hnc Hfiles.
  assert (PyStr.endswith (PyStr.lower docx) ".pdf" = false) as Hnot
    by (by apply (endswith_exclusive _ ".docx" ".pdf")).
  assert (cancel_requested w (reads st) = false) as H0
    by (rewrite <- (Hnc 0%nat); [f_equal |]; lia).
  assert (cancel_requested w (S (reads st)) = false) as H1
    by (rewrite <- (Hnc 1%nat); [f_equal |]; lia).
  assert (cancel_requested w (S (S (reads st))) = false) as H2
    by (rewrite <- (Hnc 2%nat); [f_equal |]; lia).
  unfold merge_as_pdf. rewrite Hoff. cbn [negb andb].
  destruct Hfiles as [-> | ->].
  - cbn [existsb]. unfold PyStr.endswith_any at 2. cbn [existsb]. rewrite Hdocx.
    rewrite orb_true_l, orb_true_r.
    rewrite (pdf_loop_pdf w 0 pdf [docx] _ _ pages); [| exact H0 | exact Hpdf | exact Hread].
    rewrite pdf_loop_skip; [| exact H1 | exact Hoff | exact Hnot].
    cbn [pdf_loop]. unfold cancelled. cbn [reads tick put append_error record_io show].
    rewrite H2, Hopen. eexists. split; [reflexivity |].
    cbn. rewrite lookup_insert_eq, !opened_app. cbn. rewrite !app_nil_r.
    repeat split; try done; rewrite !in_app_iff; cbn; tauto.
  - cbn [existsb]. unfold PyStr.endswith_any at 1. cbn [existsb]. rewrite Hdocx.
    rewrite !orb_true_l.
    rewrite pdf_loop_skip; [| exact H0 | exact Hoff | exact Hnot].
    rewrite (pdf_loop_pdf w 1 pdf [] _ _ pages); [| exact H1 | exact Hpdf | exact Hread].
    cbn [pdf_loop]. unfold cancelled. cbn [reads tick put append_error record_io show].
    rewrite H2, Hopen. eexists. split; [reflexivity |].
    cbn. rewrite lookup_insert_eq, !opened_app. cbn. rewrite !app_nil_r.
    repeat split; try done; rewrite !in_app_iff; cbn; tauto.
Qed.

Lemma pdf_merge_without_office_witness :
  exists st',
    merge_as_pdf (Scenario.world true Scenario.never) ["report.pdf"; "Memo.DOCX"] "all.pdf"
                 Scenario.fresh = (Finished, st')
    /\ outcome Finished = Completed
    /\ disk st' !! "all.pdf" = Some (PdfFile ["report.pdf#1"; "report.pdf#2"])
    /\ processing_errors st'
       = processing_errors Scenario.fresh
         ++ ["Skipped unsupported file for PDF merge: " +:+ OsPath.basename "Memo.DOCX"]
    /\ opened (log st') = opened (log Scenario.fresh) ++ ["report.pdf"]
    /\ In (Progress 1) (processing_queue st') /\ In (Progress 2) (processing_queue st').
Proof.
  apply (pdf_merge_without_office (Scenario.world true Scenario.never)
           "report.pdf" "Memo.DOCX" "all.pdf" ["report.pdf#1"; "report.pdf#2"]
           ["report.pdf"; "Memo.DOCX"] Scenario.fresh).
  - reflexivity.
  - reflexivity.
  - reflexivity.
  - reflexivity.
  - reflexivity.
  - intros k Hk. reflexivity.
  - left. reflexivity.
Defined.

End PdfMergeClaims.

(** ** the two Office strategies *)

Section OfficeMergeFacts.

Import FileProcessor.

Variable w : World.

Lemma same_files_refl (st : Worker) : same_files st st.
Proof. done. Qed.

Lemma same_files_trans (st1 st2 st3 : Worker) :
  same_files st1 st2 -> same_files st2 st3 -> same_files st1 st3.
Proof. intros (?&?&?) (?&?&?). repeat split; congruence. Qed.

Lemma same_files_error (msg : string) (st : Worker) : same_files st (append_error msg st).
Proof. done. Qed.

Lemma same_files_read (path : string) (st : Worker) :
  same_files st (record_io (OpenRead path) st).
Proof.
  repeat split; try done. simpl. rewrite writes_app. simpl. by rewrite app_nil_r.
Qed.

Lemma docx_step_same_files (i : nat) (path : string) (master_doc : list block)
    (st : Worker) :
  same_files st (docx_step w i path master_doc st).2.
Proof.
  unfold docx_step. destruct (PyStr.endswith _ _); [| apply same_files_error].
  destruct (read_docx w path); simpl.
  - apply same_files_read.
  - eapply same_files_trans; [apply same_files_read | apply same_files_error].
Qed.

Lemma copy_shapes_same_files (path : string) (l : list shape) (copied : list new_shape)
    (st : Worker) :
  same_files st (copy_shapes path l copied st).2.
Proof.
  revert copied st. induction l as [|s l IH]; intros copied st; [done |].
  destruct s as [b t | b [blob | img_e] |]; simpl; try apply IH.
  eapply same_files_trans; [apply same_files_error | apply IH].
Qed.

Lemma copy_slides_same_files (path : string) (l : list slide)
    (master_ppt : list new_slide) (st : Worker) :
  same_files st (copy_slides path l master_ppt st).2.
Proof.
  revert master_ppt st. induction l as [|s l IH]; intros master_ppt st; [done |].
  simpl. pose proof (copy_shapes_same_files path (shapes s) [] st) as Hs.
  destruct (copy_shapes path (shapes s) [] st) as [copied st1]. simpl in Hs.
  eapply same_files_trans; [exact Hs | apply IH].
Qed.

Lemma pptx_step_same_files (path : string) (master_ppt : list new_slide) (st : Worker) :
  same_files st (pptx_step w path master_ppt st).2.
Proof.
  unfold pptx_step. destruct (PyStr.endswith _ _); [| apply same_files_error].
  destruct (read_pptx w path); simpl.
  - eapply same_files_trans; [apply same_files_read | apply copy_slides_same_files].
  - eapply same_files_trans; [apply same_files_read | apply same_files_error].
Qed.

(** A loop that meets the flag set at one of its tests returns there,
    at that test or at an earlier one. *)
Lemma docx_loop_cancel (file_paths : list string) (K i : nat) (master_doc : list block)
    (st : Worker) :
  (K < length file_paths)%nat ->
  cancel_requested w (reads st + K) = true ->
  exists master_doc' st',
    docx_loop w i file_paths master_doc st = (CancelSeen, master_doc', st')
    /\ disk st' = disk st /\ writes (log st') = writes (log st).
Proof.
  revert K i master_doc st.
  induction file_paths as [|path rest IH]; intros K i master_doc st HK Hc;
    [simpl in HK; lia |].
  cbn [docx_loop]. destruct (cancelled w st) eqn:Hnow.
  { by eexists _, _. }
  destruct K as [|K].
  { unfold cancelled in Hnow. rewrite Nat.add_0_r in Hc. congruence. }
  pose proof (docx_step_same_files i path master_doc
                (put (Progress (i + 1))
                   (put (Status ("Processing: " +:+ OsPath.basename path)) (tick st))))
    as (Hr & Hd & Hw).
  destruct (docx_step w i path master_doc _) as [master_doc1 st1].
  simpl in Hr, Hd, Hw.
  destruct (IH K (S i) master_doc1 st1) as (m' & st' & Heq & Hd' & Hw').
  { simpl in HK. lia. }
  { rewrite Hr, <- Hc. f_equal. lia. }
  exists m', st'. rewrite Heq. repeat split; congruence.
Qed.

Lemma pptx_loop_cancel (file_paths : list string) (K i : nat)
    (master_ppt : list new_slide) (st : Worker) :
  (K < length file_paths)%nat ->
  cancel_requested w (reads st + K) = true ->
  exists master_ppt' st',
    pptx_loop w i file_paths master_ppt st = (CancelSeen, master_ppt', st')
    /\ disk st' = disk st /\ writes (log st') = writes (log st).
Proof.
  revert K i master_ppt st.
  induction file_paths as [|path rest IH]; intros K i master_ppt st HK Hc;
    [simpl in HK; lia |].
  cbn [pptx_loop]. destruct (cancelled w st) eqn:Hnow.
  { by eexists _, _. }
  destruct K as [|K].
  { unfold cancelled in Hnow. rewrite Nat.add_0_r in Hc. congruence. }
  pose proof (pptx_step_same_files path master_ppt
                (put (Progress (i + 1))
                   (put (Status ("Processing: " +:+ OsPath.basename path)) (tick st))))
    as (Hr & Hd & Hw).
  destruct (pptx_step w path master_ppt _) as [master_ppt1 st1].
  simpl in Hr, Hd, Hw.
  destruct (IH K (S i) master_ppt1 st1) as (m' & st' & Heq & Hd' & Hw').
  { simpl in HK. lia. }
  { rewrite Hr, <- Hc. f_equal. lia. }
  exists m', st'. rewrite Heq. repeat split; congruence.
Qed.

End OfficeMergeFacts.

Section OfficeMergeClaims.

Import FileProcessor.

(** C10.  When the worker sees the cancellation flag set at the test of
    some round of the loop, [merge_as_docx] and [merge_as_pptx] return
    from the loop: the call of [save] is not reached, no file is opened
    for writing and the output files are what they were before the
    call. *)
Theorem office_merges_cancelled_write_nothing (w : World) (file_paths : list string)
    (output_filename : string) (st : Worker) (K : nat) :
  (K < length file_paths)%nat ->
  cancel_requested w (reads st + K) = true ->
  (exists st',
     merge_as_docx w file_paths output_filename st = (CancelSeen, st')
     /\ disk st' = disk st /\ writes (log st') = writes (log st))
  /\ (exists st',
        merge_as_pptx w file_paths output_filename st = (CancelSeen, st')
        /\ disk st' = disk st /\ writes (log st') = writes (log st)).
Proof.
  intros HK Hc. split.
  - unfold merge_as_docx.
    destruct (docx_loop_cancel w file_paths K 0 (titled_document w file_paths) st HK Hc)
      as (m & st' & -> & Hd & Hw).
    by exists st'.
  - unfold merge_as_pptx.
    destruct (pptx_loop_cancel w file_paths K 0 [] st HK Hc) as (m & st' & -> & Hd & Hw).
    by exists st'.
Qed.

Lemma office_merges_cancelled_write_nothing_witness :
  (exists st',
     merge_as_docx (Scenario.world true (Scenario.from 1)) ["memo.docx"; "b.txt"] "all.docx"
                   Scenario.fresh = (CancelSeen, st')
     /\ disk st' = disk Scenario.fresh /\ writes (log st') = writes (log Scenario.fresh))
  /\ (exists st',
        merge_as_pptx (Scenario.world true (Scenario.from 1)) ["memo.docx"; "b.txt"]
                      "all.docx" Scenario.fresh = (CancelSeen, st')
        /\ disk st' = disk Scenario.fresh /\ writes (log st') = writes (log Scenario.fresh)).
Proof.
  apply (office_merges_cancelled_write_nothing (Scenario.world true (Scenario.from 1))
           ["memo.docx"; "b.txt"] "all.docx" Scenario.fresh 1).
  - simpl. lia.
  - reflexivity.
Defined.

End OfficeMergeClaims.

(** ** dispatch *)

Section DispatchFacts.

Import FileProcessor.

Variable w : World.

(** Building the dictionary of line 44 fails at its second entry. *)
Lemma merge_function_map_raises :
  merge_function_map (FileProcessor_attributes w)
  = Raise (Exn AttributeError "'FileProcessor' object has no attribute 'merge_as_pdf'").
Proof. reflexivity. Qed.

(** So [merge_documents] raises before it looks at the selector. *)
Lemma merge_documents_raises (file_paths : list string)
    (output_filename output_format : string) (st : Worker) :
  merge_documents w file_paths output_filename output_format st
  = (Raised (Exn AttributeError "'FileProcessor' object has no attribute 'merge_as_pdf'"),
     st).
Proof. reflexivity. Qed.

Lemma process_files_fails (file_paths : list string)
    (output_filename output_format : string) (st : Worker) :
  process_files w file_paths output_filename output_format st
  = (Critical (Exn AttributeError "'FileProcessor' object has no attribute 'merge_as_pdf'"),
     put (Done file_paths output_filename)
       (append_error
          "A critical error occurred: 'FileProcessor' object has no attribute 'merge_as_pdf'"
          (put (MaxProgress (length file_paths)) st))).
Proof. reflexivity. Qed.

(** With an object on which the four names are found, a selector that
    is none of the four keys calls no merge function, and the status
    that closes an uncancelled run is posted with no error recorded. *)
Remark dispatch_skips_unknown_selector (attributes : list (string * strategy))
    (text pdf docx pptx : strategy) (file_paths : list string)
    (output_filename output_format : string) (st : Worker) :
  getattr attributes "merge_as_text" = Ok text ->
  getattr attributes "merge_as_pdf" = Ok pdf ->
  getattr attributes "merge_as_docx" = Ok docx ->
  getattr attributes "merge_as_pptx" = Ok pptx ->
  ~ In output_format ["TXT"; "PDF"; "DOCX"; "PPTX"] ->
  cancelled w st = false ->
  merge_documents_with w attributes file_paths output_filename output_format st
  = (Finished, put (finished_status file_paths st) (tick st)).
Proof.
  intros Ht Hp Hd Hx Hfmt Hc.
  unfold merge_documents_with, merge_function_map. rewrite Ht, Hp, Hd, Hx.
  cbn [List.find fst snd].
  assert (forall k, In k ["TXT"; "PDF"; "DOCX"; "PPTX"] -> String.eqb k output_format = false)
    as Hne.
  { intros k Hk. apply String.eqb_neq. intros <-. by apply Hfmt. }
  rewrite !Hne by (simpl; tauto). by rewrite Hc.
Qed.

End DispatchFacts.

Section DispatchClaims.

Import FileProcessor.

(** C5.  A run started with a selector that is none of [TXT], [PDF],
    [DOCX], [PPTX] fails: [merge_documents] raises, the exception is
    recorded as the one critical error of the run, the outcome is
    Failed, and no file is opened, read or written. *)
Theorem unknown_selector_fails (w : World) (file_paths : list string)
    (output_filename output_format : string) (st : Worker) :
  ~ In output_format ["TXT"; "PDF"; "DOCX"; "PPTX"] ->
  exists e st',
    merge_documents w file_paths output_filename output_format
                    (put (MaxProgress (length file_paths)) st)
    = (Raised e, put (MaxProgress (length file_paths)) st)
    /\ process_files w file_paths output_filename output_format st = (Critical e, st')
    /\ outcome (Critical e) = Failed
    /\ processing_errors st'
       = processing_errors st ++ ["A critical error occurred: " +:+ exc_msg e]
    /\ disk st' = disk st
    /\ log st' = log st.
Proof.
  intros _. eexists _, _.
  rewrite merge_documents_raises, process_files_fails. done.
Qed.

Lemma unknown_selector_fails_witness :
  exists e st',
    merge_documents (Scenario.world true Scenario.never) ["a.txt"; "b.txt"] "out.odt" "ODT"
                    (put (MaxProgress (length ["a.txt"; "b.txt"])) Scenario.fresh)
    = (Raised e, put (MaxProgress (length ["a.txt"; "b.txt"])) Scenario.fresh)
    /\ process_files (Scenario.world true Scenario.never) ["a.txt"; "b.txt"] "out.odt" "ODT"
                     Scenario.fresh = (Critical e, st')
    /\ outcome (Critical e) = Failed
    /\ processing_errors st'
       = processing_errors Scenario.fresh ++ ["A critical error occurred: " +:+ exc_msg e]
    /\ disk st' = disk Scenario.fresh
    /\ log st' = log Scenario.fresh.
Proof.
  apply (unknown_selector_fails (Scenario.world true Scenario.never)
           ["a.txt"; "b.txt"] "out.odt" "ODT" Scenario.fresh).
  simpl. intros [H | [H | [H | [H | []]]]]; discriminate H.
Defined.

End DispatchClaims.
(** ** [filter_tree] *)

Section PathFacts.

Lemma rstrip_sep_cons (c : ascii) (s : string) :
  PosixPath.rstrip_sep (String c s) <> "" ->
  PosixPath.rstrip_sep (String c s) = String c (PosixPath.rstrip_sep s).
Proof.
  simpl. destruct (PosixPath.rstrip_sep s); [| done].
  by destruct (Ascii.eqb c "/").
Qed.

Lemma rstrip_sep_empty (s : string) :
  PosixPath.rstrip_sep s = "" -> PosixPath.all_sep s = true.
Proof.
  induction s as [|c s IH]; [done |]. simpl.
  destruct (PosixPath.rstrip_sep s); [| done].
  destruct (Ascii.eqb c "/"); [| done]. intros _. by apply IH.
Qed.

Lemma rfind_head (c : ascii) (s : string) : is_Some (PyStr.rfind c (String c s)).
Proof.
  simpl. destruct (PyStr.rfind c s); [by eexists |].
  rewrite Ascii.eqb_refl. by eexists.
Qed.

Lemma prefix_sep (s : string) : String.prefix "/" (String "/" s) = true.
Proof. simpl. destruct (ascii_dec "/" "/"); [by destruct s | done]. Qed.

Lemma lower_cons_inv (c : ascii) (s : string) :
  PyStr.lower (String c s) = String c s ->
  PyStr.lower_char c = c /\ PyStr.lower s = s.
Proof. simpl. by intros [= ? ?]. Qed.

Lemma lower_substring (s : string) :
  PyStr.lower s = s -> forall n, PyStr.lower (String.substring 0 n s) = String.substring 0 n s.
Proof.
  induction s as [|c s IH]; intros Hs n; [by destruct n |].
  apply lower_cons_inv in Hs as [Hc Hs]. destruct n as [|n]; [done |].
  simpl. by rewrite Hc, IH.
Qed.

Lemma lower_rstrip_sep (s : string) :
  PyStr.lower s = s -> PyStr.lower (PosixPath.rstrip_sep s) = PosixPath.rstrip_sep s.
Proof.
  induction s as [|c s IH]; [done |]. intros [Hc Hs]%lower_cons_inv.
  specialize (IH Hs). simpl. destruct (PosixPath.rstrip_sep s) as [|d r].
  - destruct (Ascii.eqb c "/"); [done |]. simpl. by rewrite Hc.
  - cbn [PyStr.lower] in *. by rewrite Hc, IH.
Qed.

(** The folder of a path in lower case is in lower case. *)
Lemma dirname_lower (p : string) :
  PyStr.lower p = p -> PyStr.lower (PosixPath.dirname p) = PosixPath.dirname p.
Proof.
  intros Hp. unfold PosixPath.dirname, PyStr.upto.
  destruct (_ && _); [apply lower_rstrip_sep |]; by apply lower_substring.
Qed.

(** The folder of an absolute path is an absolute path. *)
Lemma dirname_absolute (p : string) :
  PyStr.startswith p "/" = true -> PyStr.startswith (PosixPath.dirname p) "/" = true.
Proof.
  destruct p as [|c p]; [done |]. unfold PyStr.startswith. cbn [String.prefix].
  destruct (ascii_dec "/" c) as [<- | ?]; [intros _ | done].
  unfold PosixPath.dirname.
  destruct (rfind_head "/" p) as [k ->]. unfold PyStr.upto. cbn [String.substring].
  set (h := String.substring 0 k p).
  destruct (PyStr.truthy (String "/" h) && negb (PosixPath.all_sep (String "/" h)))
    eqn:Hcond; [| apply prefix_sep].
  apply andb_true_iff in Hcond as [_ Hns%negb_true_iff].
  rewrite rstrip_sep_cons; [apply prefix_sep |].
  intros He. apply rstrip_sep_empty in He. congruence.
Qed.

Lemma startswith_lower (p : string) :
  PyStr.startswith p "/" = true -> PyStr.startswith (PyStr.lower p) "/" = true.
Proof.
  destruct p as [|c p]; [done |]. unfold PyStr.startswith. cbn [String.prefix PyStr.lower].
  destruct (ascii_dec "/" c) as [<- | ?]; [intros _ | done].
  change (PyStr.lower_char "/") with "/"%char. apply prefix_sep.
Qed.

Lemma lower_idempotent (s : string) : PyStr.lower (PyStr.lower s) = PyStr.lower s.
Proof.
  induction s as [|c s IH]; [done |]. simpl. rewrite IH. f_equal.
  unfold PyStr.lower_char at 1. destruct (PyStr.is_upper (PyStr.lower_char c)) eqn:Hu; [| done].
  exfalso. revert Hu. unfold PyStr.lower_char.
  destruct (PyStr.is_upper c) eqn:Hc; [| congruence].
  unfold PyStr.is_upper in *. apply andb_true_iff in Hc as [H1 H2].
  apply Nat.leb_le in H1, H2.
  rewrite nat_ascii_embedding by lia.
  intros [_ H3]%andb_true_iff. apply Nat.leb_le in H3. lia.
Qed.

Lemma contains_nil (s : string) : Py.contains "" s = true.
Proof. by destruct s. Qed.

End PathFacts.

Section FilterTreeFacts.

Import UIManager FilterTree.

(** What the loop of lines 397-401 keeps: it raises nothing, touches
    neither the lower widget nor the cache, forgets no path, and the
    nodes it adds are top-level folder nodes with new names. *)
Lemma rebuild_inv (fuel : nat) (root_folder : string) :
  forall parent_path w x w',
    rebuild fuel root_folder parent_path w = Some (x, w') ->
    x = Ok tt
    /\ ignored_tree w' = ignored_tree w
    /\ _all_tree_items_master_list w' = _all_tree_items_master_list w
    /\ (Tk.serial (tree w) <= Tk.serial (tree w'))%nat
    /\ (forall id, has_path w id -> has_path w' id)
    /\ (forall it, In it (Tk.items (tree w')) ->
          In it (Tk.items (tree w))
          \/ ((Tk.serial (tree w) < Tk.iid it)%nat /\ Tk.parent it = 0%nat
              /\ Tk.values it = folder_values /\ Tk.tags it = [])).
Proof.
  assert (forall w : Widgets,
            Ok tt = Ok tt
            /\ ignored_tree w = ignored_tree w
            /\ _all_tree_items_master_list w = _all_tree_items_master_list w
            /\ (Tk.serial (tree w) <= Tk.serial (tree w))%nat
            /\ (forall id, has_path w id -> has_path w id)
            /\ (forall it, In it (Tk.items (tree w)) ->
                  In it (Tk.items (tree w))
                  \/ ((Tk.serial (tree w) < Tk.iid it)%nat /\ Tk.parent it = 0%nat
                      /\ Tk.values it = folder_values /\ Tk.tags it = []))) as Hsame.
  { intros w. repeat split; auto. }
  induction fuel as [|fuel IH]; intros parent_path w x w'; simpl;
    destruct (PyStr.truthy parent_path && negb (String.eqb parent_path root_folder));
    try (intros [= <- <-]; apply Hsame).
  destruct (negb (Py.mem parent_path (dict_values w))); [| apply IH].
  intros H. apply IH in H as (-> & Hign & Hmaster & Hserial & Hpaths & Hitems).
  simpl in *. split; [done |]. split; [done |]. split; [done |]. split; [lia |].
  split.
  - intros id Hid. apply Hpaths. unfold has_path in *. simpl.
    apply lookup_insert_is_Some. destruct (decide (S (Tk.serial (tree w)) = id)); auto.
  - intros it Hin. destruct (Hitems it Hin) as [[Hold | [<- | []]]%in_app_iff | Hnew].
    + by left.
    + right. simpl. repeat split; lia.
    + right. repeat split; try tauto. lia.
Qed.

Lemma tree_item_class (tv : Tk.Treeview) (id : nat) (e : exn) :
  tree_item tv id = Raise e ->
  e = Exn TclError ("Item " +:+ Tk.item_name id +:+ " not found").
Proof. unfold tree_item. destruct (Tk.find tv id); [done |]. by intros [= <-]. Qed.

Lemma tree_item_cleared (w : Widgets) (id : nat) :
  tree_item (tree (cleared_view w)) id = Main.item_missing id.
Proof. done. Qed.

(** A round of the loop for an item that has a path never ends
    normally. *)
Lemma show_node_known (fuel : nat) (search_text root_folder : string)
    (node_id : nat) (w : Widgets) :
  has_path w node_id ->
  match show_node fuel search_text root_folder node_id w with
  | Some (Ok _, _) =>
      exists it, Tk.find (tree w) node_id = Some it
  | Some (Raise e, w') =>
      e = Exn TclError ("Item " +:+ Tk.item_name node_id +:+ " not found")
      \/ exists it, In it (Tk.items (tree w')) /\ Tk.iid it = node_id
                    /\ exc_cls e = TypeError
  | None => True
  end.
Proof.
  intros [recorded Hrec]. unfold show_node. rewrite Hrec.
  assert (forall w0,
            match
              match rebuild fuel root_folder (PosixPath.dirname (PyStr.lower recorded)) w0 with
              | Some (Ok _, w') =>
                  match tree_item (tree w') node_id with
                  | Ok it => Some (Raise (not_a_mapping (Tk.values it)), w')
                  | Raise e => Some (Raise e, w')
                  end
              | other => other
              end
            with
            | Some (Ok _, _) => False
            | Some (Raise e, w') =>
                e = Exn TclError ("Item " +:+ Tk.item_name node_id +:+ " not found")
                \/ exists it, In it (Tk.items (tree w')) /\ Tk.iid it = node_id
                              /\ exc_cls e = TypeError
            | None => True
            end) as Hshow.
  { intros w0.
    destruct (rebuild fuel root_folder _ w0) as [[x w'] |] eqn:Hre; [| done].
    apply rebuild_inv in Hre as (-> & _).
    destruct (tree_item (tree w') node_id) as [it | e] eqn:Hit.
    - right. unfold tree_item in Hit.
      destruct (Tk.find (tree w') node_id) as [it' |] eqn:Hf; [| done].
      injection Hit as ->. apply find_some in Hf as [Hin Hid]. by exists it.
    - left. by eapply tree_item_class. }
  destruct (Py.contains search_text (PyStr.lower recorded)).
  { specialize (Hshow w).
    by destruct (match rebuild fuel root_folder _ w with Some (Ok _, w') => _ | other => other end)
      as [[[[] | e] w'] |]. }
  unfold tree_item at 1.
  destruct (Tk.find (tree w) node_id) as [it |] eqn:Hf; [| by left].
  destruct (Py.contains search_text (PyStr.lower (Tk.text it))); [| by exists it].
  specialize (Hshow w).
  by destruct (match rebuild fuel root_folder _ w with Some (Ok _, w') => _ | other => other end)
    as [[[[] | e] w'] |].
Qed.

Lemma show_node_unknown (fuel : nat) (search_text root_folder : string)
    (node_id : nat) (w : Widgets) :
  tree_item_paths w !! node_id = None ->
  show_node fuel search_text root_folder node_id w = Some (Ok tt, w).
Proof. intros H. unfold show_node. by rewrite H. Qed.

(** What a round of the loop keeps. *)
Lemma show_node_inv (fuel : nat) (search_text root_folder : string)
    (node_id : nat) (w : Widgets) (x : res unit) (w' : Widgets) :
  show_node fuel search_text root_folder node_id w = Some (x, w') ->
  ignored_tree w' = ignored_tree w
  /\ _all_tree_items_master_list w' = _all_tree_items_master_list w
  /\ (Tk.serial (tree w) <= Tk.serial (tree w'))%nat
  /\ (forall id, has_path w id -> has_path w' id)
  /\ (forall it, In it (Tk.items (tree w')) ->
        In it (Tk.items (tree w))
        \/ ((Tk.serial (tree w) < Tk.iid it)%nat /\ Tk.parent it = 0%nat
            /\ Tk.values it = folder_values /\ Tk.tags it = [])).
Proof.
  assert (ignored_tree w = ignored_tree w
          /\ _all_tree_items_master_list w = _all_tree_items_master_list w
          /\ (Tk.serial (tree w) <= Tk.serial (tree w))%nat
          /\ (forall id, has_path w id -> has_path w id)
          /\ (forall it, In it (Tk.items (tree w)) ->
                In it (Tk.items (tree w))
                \/ ((Tk.serial (tree w) < Tk.iid it)%nat /\ Tk.parent it = 0%nat
                    /\ Tk.values it = folder_values /\ Tk.tags it = []))) as Hsame.
  { repeat split; auto. }
  unfold show_node. destruct (tree_item_paths w !! node_id) as [recorded |];
    [| by intros [= <- <-]].
  assert (match rebuild fuel root_folder (PosixPath.dirname (PyStr.lower recorded)) w with
            | Some (Ok _, w1) =>
                match tree_item (tree w1) node_id with
                | Ok it => Some (Raise (not_a_mapping (Tk.values it)), w1)
                | Raise e => Some (Raise e, w1)
                end
            | other => other
            end = Some (x, w') ->
            ignored_tree w' = ignored_tree w
            /\ _all_tree_items_master_list w' = _all_tree_items_master_list w
            /\ (Tk.serial (tree w) <= Tk.serial (tree w'))%nat
            /\ (forall id, has_path w id -> has_path w' id)
            /\ (forall it, In it (Tk.items (tree w')) ->
                  In it (Tk.items (tree w))
                  \/ ((Tk.serial (tree w) < Tk.iid it)%nat /\ Tk.parent it = 0%nat
                      /\ Tk.values it = folder_values /\ Tk.tags it = []))) as Hshow.
  { destruct (rebuild fuel root_folder _ w) as [[y w1] |] eqn:Hre; [| done].
    apply rebuild_inv in Hre as (-> & Hre).
    by destruct (tree_item (tree w1) node_id); intros [= <- <-]. }
  destruct (Py.contains search_text (PyStr.lower recorded)); [by apply Hshow |].
  destruct (tree_item (tree w) node_id) as [it | e]; [| by intros [= <- <-]].
  destruct (Py.contains search_text (PyStr.lower (Tk.text it)));
    [by apply Hshow | by intros [= <- <-]].
Qed.

Lemma show_nodes_inv (fuel : nat) (search_text root_folder : string) (node_ids : list nat) :
  forall w x w',
    show_nodes fuel search_text root_folder node_ids w = Some (x, w') ->
    ignored_tree w' = ignored_tree w
    /\ _all_tree_items_master_list w' = _all_tree_items_master_list w
    /\ (Tk.serial (tree w) <= Tk.serial (tree w'))%nat
    /\ (forall id, has_path w id -> has_path w' id)
    /\ (forall it, In it (Tk.items (tree w')) ->
          In it (Tk.items (tree w))
          \/ ((Tk.serial (tree w) < Tk.iid it)%nat /\ Tk.parent it = 0%nat
              /\ Tk.values it = folder_values /\ Tk.tags it = [])).
Proof.
  induction node_ids as [|id rest IH]; intros w x w'; simpl.
  { intros [= <- <-]. repeat split; auto. }
  destruct (show_node fuel search_text root_folder id w) as [[[[] | e] w1] |] eqn:Hn;
    [| intros [= <- <-]; by eapply show_node_inv | done].
  apply show_node_inv in Hn as (Hi1 & Hm1 & Hs1 & Hp1 & Ht1).
  intros H. apply IH in H as (Hi2 & Hm2 & Hs2 & Hp2 & Ht2).
  split; [congruence |]. split; [congruence |]. split; [lia |]. split; [auto |].
  intros it Hin. destruct (Ht2 it Hin) as [Hold | Hnew]; [by apply Ht1 |].
  right. repeat split; try tauto. lia.
Qed.

(** What [filter_tree] leaves in the primary widget, however it ends:
    the top-level folder nodes it made, named after the serial number
    the widget had reached. *)
Lemma filter_tree_inv (fuel : nat) (filter_var root_folder : string) (w : Widgets)
    (x : res unit) (w' : Widgets) :
  filter_tree fuel filter_var root_folder w = Some (x, w') ->
  ignored_tree w' = ignored_tree w
  /\ _all_tree_items_master_list w' = _all_tree_items_master_list w
  /\ (forall id, has_path w id -> has_path w' id)
  /\ (forall it, In it (Tk.items (tree w')) ->
        (Tk.serial (tree w) < Tk.iid it)%nat /\ Tk.parent it = 0%nat
        /\ Tk.values it = folder_values /\ Tk.tags it = []).
Proof.
  unfold filter_tree. intros H. apply show_nodes_inv in H as (Hi & Hm & _ & Hp & Ht).
  split; [done |]. split; [done |]. split; [done |].
  intros it Hin. by destruct (Ht it Hin) as [[] | ?].
Qed.

Lemma filter_tree_top_level (fuel : nat) (filter_var root_folder : string) (w : Widgets)
    (x : res unit) (w' : Widgets) :
  filter_tree fuel filter_var root_folder w = Some (x, w') ->
  top_level_folders (tree w').
Proof.
  intros H it Hin. apply filter_tree_inv in H as (_ & _ & _ & Ht).
  destruct (Ht it Hin) as (? & ? & ? & ?). repeat split; try done. lia.
Qed.

Lemma for_ids_same (body : nat -> list string -> option (res (list string)))
    (ids : list nat) (file_list : list string) :
  (forall id, body id file_list = Some (Ok file_list)) ->
  Main.for_ids body ids file_list = Some (Ok file_list).
Proof. intros Hbody. induction ids as [|id ids IH]; [done |]. simpl. by rewrite Hbody. Qed.

Lemma round_top_level (recurse : list nat -> list string -> option (res (list string)))
    (fuel : nat) (tv : Tk.Treeview) (root_folder : string) (id : nat)
    (file_list : list string) :
  top_level_folders tv ->
  recurse [] file_list = Some (Ok file_list) ->
  Main.round recurse fuel tv root_folder id file_list = Some (Ok file_list).
Proof.
  intros Htop Hrec. unfold Main.round.
  destruct (Tk.find tv id) as [it |] eqn:Hf; [| done].
  apply find_some in Hf as [Hin Hid].
  destruct (Htop it Hin) as (Hp & Hpos & -> & _). cbn.
  assert (Tk.get_children tv id = []) as ->; [| done].
  unfold Tk.get_children.
  destruct (List.filter _ (Tk.items tv)) as [|it' l] eqn:Hfl; [done |].
  assert (In it' (List.filter (fun it => Nat.eqb (Tk.parent it) id) (Tk.items tv)))
    as Hin' by (rewrite Hfl; by left).
  apply filter_In in Hin' as [Hin' Hp'%Nat.eqb_eq].
  destruct (Htop it' Hin') as (Hp'' & _). lia.
Qed.

(** The selection collected from top-level folder nodes is empty. *)
Lemma collect_top_level (tv : Tk.Treeview) (root_folder : string) (fuel : nat) :
  top_level_folders tv -> (2 <= fuel)%nat ->
  Main.files_to_process fuel tv root_folder = Some (Ok []).
Proof.
  intros Htop Hfuel. destruct fuel as [|fuel]; [lia |].
  unfold Main.files_to_process. cbn [Main._collect_included_files].
  apply for_ids_same. intros id. apply round_top_level; [done |].
  destruct fuel as [|fuel]; [lia | done].
Qed.

End FilterTreeFacts.

Section FilterTreeOutcome.

Import UIManager FilterTree.

Lemma show_nodes_outcome (fuel : nat) (search_text root_folder : string)
    (node_ids : list nat) (w : Widgets) :
  Tk.items (tree w) = [] ->
  match show_nodes fuel search_text root_folder node_ids w with
  | Some (Ok _, w') =>
      Forall (fun id => tree_item_paths w !! id = None) node_ids /\ w' = w
  | Some (Raise e, w') =>
      Exists (has_path w) node_ids
      /\ exists id,
           e = Exn TclError ("Item " +:+ Tk.item_name id +:+ " not found")
           \/ exists it, In it (Tk.items (tree w')) /\ Tk.iid it = id
                         /\ In id node_ids /\ exc_cls e = TypeError
  | None => Exists (has_path w) node_ids
  end.
Proof.
  intros Hempty. induction node_ids as [|id rest IH]; [by simpl |].
  cbn [show_nodes].
  destruct (tree_item_paths w !! id) as [recorded |] eqn:Hrec.
  - assert (has_path w id) as Hid by (by exists recorded).
    pose proof (show_node_known fuel search_text root_folder id w Hid) as Hk.
    destruct (show_node fuel search_text root_folder id w) as [[[[] | e] w1] |].
    + destruct Hk as (it & Hf). unfold Tk.find in Hf. by rewrite Hempty in Hf.
    + split; [by left |]. exists id.
      destruct Hk as [-> | (it & Hin & Hiid & Hcls)]; [by left | right].
      exists it. repeat split; try done. by left.
    + by left.
  - rewrite (show_node_unknown _ _ _ _ _ Hrec).
    destruct (show_nodes fuel search_text root_folder rest w) as [[[[] | e] w1] |].
    + destruct IH as [Hall ->]. split; [by constructor | done].
    + destruct IH as (Hex & id' & Hcase). split; [by right |]. exists id'.
      destruct Hcase as [-> | (it & Hin & Hiid & Hrest & Hcls)]; [by left | right].
      exists it. repeat split; try done. by right.
    + by right.
Qed.

(** The loop of lines 397-401 never ends from an absolute path in lower
    case when the root folder is not in lower case. *)
Lemma rebuild_diverges (fuel : nat) (root_folder : string) :
  PyStr.lower root_folder <> root_folder ->
  forall parent_path w,
    PyStr.startswith parent_path "/" = true ->
    PyStr.lower parent_path = parent_path ->
    rebuild fuel root_folder parent_path w = None.
Proof.
  intros Hroot. induction fuel as [|fuel IH]; intros parent_path w Habs Hlow;
    cbn [rebuild];
    (assert (PyStr.truthy parent_path && negb (String.eqb parent_path root_folder) = true)
      as ->;
     [apply andb_true_iff; split;
      [by destruct parent_path
      | apply negb_true_iff, String.eqb_neq; congruence] |]); [done |].
  destruct (negb (Py.mem parent_path (dict_values w))).
  - simpl. apply IH; [by apply dirname_absolute | by apply dirname_lower].
  - apply IH; [by apply dirname_absolute | by apply dirname_lower].
Qed.

End FilterTreeOutcome.

Section FilterTreeProperties.

Import UIManager FilterTree.

(** X1.  [filter_tree] reaches its end only when no item of the cache
    has a path in [tree_item_paths], and then it has done no more than
    clear the primary widget.  As soon as one cached item has a path,
    the call is left by an exception (the item is looked up in the
    widget that line 390 has just cleared, or its values are unpacked
    as a mapping) or never ends; when the cached names are names the
    widget has given, the exception is [TclError]. *)
Theorem filter_tree_ends_only_on_empty_cache (fuel : nat)
    (filter_var root_folder : string) (w : Widgets) :
  match filter_tree fuel filter_var root_folder w with
  | Some (Ok _, w') =>
      Forall (fun id => tree_item_paths w !! id = None) (_all_tree_items_master_list w)
      /\ w' = cleared_view w
  | Some (Raise e, _) =>
      Exists (has_path w) (_all_tree_items_master_list w)
      /\ (exc_cls e = TclError \/ exc_cls e = TypeError)
      /\ (Forall (fun id => (id <= Tk.serial (tree w))%nat)
                 (_all_tree_items_master_list w) ->
          exc_cls e = TclError)
  | None => Exists (has_path w) (_all_tree_items_master_list w)
  end.
Proof.
  pose proof (show_nodes_outcome fuel (PyStr.lower filter_var) root_folder
                (_all_tree_items_master_list w) (cleared_view w) eq_refl) as Hout.
  pose proof (filter_tree_inv fuel filter_var root_folder w) as Hinv.
  unfold filter_tree in *.
  destruct (show_nodes _ _ _ _ (cleared_view w)) as [[[[] | e] w'] |]; [done | | done].
  destruct Hout as (Hex & id & Hcase). split; [done |].
  destruct Hcase as [-> | (it & Hin & Hiid & Hid & Hcls)].
  - split; [by left | done].
  - split; [by right |]. intros Hnames. exfalso.
    destruct (Hinv _ _ eq_refl) as (_ & _ & _ & Hitems).
    destruct (Hitems it Hin) as (Hnew & _).
    rewrite Forall_forall in Hnames. apply list_elem_of_In, Hnames in Hid. lia.
Qed.

(** X2.  However a call of [filter_tree] ends, it leaves no file in the
    primary widget: what the widget holds are folder nodes of the top
    level, without children, and the selection that
    [start_consolidation] collects from it is empty.  The lower widget
    is left as it was. *)
Theorem filter_tree_shows_no_file (fuel : nat) (filter_var root_folder : string)
    (w : Widgets) (x : res unit) (w' : Widgets) (fuel' : nat) (folder : string) :
  filter_tree fuel filter_var root_folder w = Some (x, w') ->
  (2 <= fuel')%nat ->
  top_level_folders (tree w')
  /\ ignored_tree w' = ignored_tree w
  /\ Main.files_to_process fuel' (tree w') folder = Some (Ok []).
Proof.
  intros H Hfuel. pose proof (filter_tree_top_level _ _ _ _ _ _ H) as Htop.
  split; [done |]. split; [by apply filter_tree_inv in H as (? & _) |].
  by apply collect_top_level.
Qed.

Lemma filter_tree_shows_no_file_witness :
  top_level_folders
    (tree (Session.left_by (filter_tree 8 "" "/srv/manual" Session.manual_scanned)))
  /\ ignored_tree (Session.left_by (filter_tree 8 "" "/srv/manual" Session.manual_scanned))
     = ignored_tree Session.manual_scanned
  /\ Main.files_to_process 2
       (tree (Session.left_by (filter_tree 8 "" "/srv/manual" Session.manual_scanned)))
       "/srv/manual" = Some (Ok []).
Proof.
  apply (filter_tree_shows_no_file 8 "" "/srv/manual" Session.manual_scanned
           (Raise (Exn TclError "Item I003 not found"))
           (Session.left_by (filter_tree 8 "" "/srv/manual" Session.manual_scanned))
           2 "/srv/manual").
  - vm_compute. reflexivity.
  - lia.
Defined.

(** X3.  When the root folder is not written in lower case, and the
    first cached item has an absolute path that matches the search
    text, [filter_tree] never ends: the loop of line 397 climbs from
    the path in lower case, meets no folder equal to the root folder,
    and stays at [/]. *)
Theorem filter_tree_never_ends (fuel : nat) (filter_var root_folder : string)
    (w : Widgets) (node_id : nat) (rest : list nat) (path : string) :
  _all_tree_items_master_list w = node_id :: rest ->
  tree_item_paths w !! node_id = Some path ->
  PyStr.startswith path "/" = true ->
  Py.contains (PyStr.lower filter_var) (PyStr.lower path) = true ->
  PyStr.lower root_folder <> root_folder ->
  filter_tree fuel filter_var root_folder w = None.
Proof.
  intros Hmaster Hpath Habs Hmatch Hroot. unfold filter_tree.
  rewrite Hmaster. cbn [show_nodes]. unfold show_node.
  change (tree_item_paths (cleared_view w)) with (tree_item_paths w).
  rewrite Hpath, Hmatch.
  rewrite (rebuild_diverges fuel root_folder Hroot); [done | |].
  - by apply dirname_absolute, startswith_lower.
  - apply dirname_lower, lower_idempotent.
Qed.

Lemma filter_tree_never_ends_witness :
  filter_tree 1000 "" "/home/u/Proj" (Session.scanned "/home/u/Proj") = None.
Proof.
  apply (filter_tree_never_ends 1000 "" "/home/u/Proj" (Session.scanned "/home/u/Proj")
           3 [5%nat] "/home/u/Proj/a.py").
  - vm_compute. reflexivity.
  - vm_compute. reflexivity.
  - vm_compute. reflexivity.
  - vm_compute. reflexivity.
  - intros H. vm_compute in H. discriminate H.
Defined.

End FilterTreeProperties.
(** ** the cache of the scan *)

Section CacheFacts.

Import UIManager.

Variable fnmatch : string -> string -> bool.
Variable cfg : Settings.
Variables session_folder_ignores session_file_ignores : list string.

Lemma keeps_cache_ret {A} (a : A) : keeps_cache (ret a).
Proof. by intros st. Qed.

Lemma keeps_cache_bind {A B} (m : M A) (k : A -> M B) :
  keeps_cache m -> (forall a, keeps_cache (k a)) -> keeps_cache (bind m k).
Proof.
  intros Hm Hk st Hc. unfold bind. specialize (Hm st Hc).
  destruct (m st) as [[a | e] st']; [by apply Hk | done].
Qed.

Lemma keeps_cache_for_each {A} (body : A -> M unit) (l : list A) :
  (forall x, keeps_cache (body x)) -> keeps_cache (for_each l body).
Proof.
  intros Hbody. induction l as [|x l IH]; [apply keeps_cache_ret |].
  apply keeps_cache_bind; [apply Hbody | by intros _].
Qed.

Lemma node_of_keeps (path : string) : keeps_cache (node_of path).
Proof. by intros st. Qed.

Lemma map_path_keeps (path : string) (id : nat) : keeps_cache (map_path path id).
Proof. by intros st. Qed.

Lemma record_path_keeps (node_id : nat) (path : string) :
  keeps_cache (record_path node_id path).
Proof.
  intros st [Hcached Hshown]. split; [| done]. simpl.
  intros id Hid. destruct (Hcached id Hid) as [Hp Hle]. split; [| done].
  unfold has_path in *. simpl. apply lookup_insert_is_Some.
  destruct (decide (node_id = id)); auto.
Qed.

Lemma ignored_tree_insert_keeps (parent : nat) (text : string)
    (values tags : list string) (is_open : bool) :
  keeps_cache (ignored_tree_insert parent text values tags is_open).
Proof.
  intros st Hc. unfold ignored_tree_insert.
  by destruct (Tk.insert (ignored_tree (ui st)) parent text values tags is_open)
    as [[id tv] | e].
Qed.

(** A node that is not shown as [Included] needs no entry in the
    cache. *)
Lemma tree_insert_keeps (parent : nat) (text : string) (values tags : list string)
    (is_open : bool) :
  values !! 0%nat <> Some "Included" ->
  keeps_cache (tree_insert parent text values tags is_open).
Proof.
  intros Hv st [Hcached Hshown]. unfold tree_insert.
  destruct (Tk.insert (tree (ui st)) parent text values tags is_open)
    as [[id tv] | e] eqn:Hins; [| done].
  apply insert_inv in Hins as [-> ->]. split; simpl.
  - intros id Hid. destruct (Hcached id Hid) as [Hp Hle]. split; [done | lia].
  - intros it [Hin | [<- | []]]%in_app_iff; [by apply Hshown | done].
Qed.

Lemma folder_step_keeps (dirpath : string) (parent_node_id : nat) (d : string) :
  keeps_cache (folder_step dirpath parent_node_id d).
Proof.
  unfold folder_step. apply keeps_cache_bind; [by apply tree_insert_keeps |].
  intros node_id. apply keeps_cache_bind; [apply map_path_keeps |].
  intros _. apply record_path_keeps.
Qed.

Lemma included_not_ignored (basename : string) :
  (file_status (is_session_file_ignored fnmatch session_file_ignores basename)
               (is_global_file_ignored fnmatch cfg basename)
               (is_ext_match cfg basename)).1 = "Included" ->
  is_ignored fnmatch cfg session_file_ignores basename = false.
Proof.
  unfold is_ignored, file_status.
  by destruct (is_session_file_ignored _ _ _), (is_global_file_ignored _ _ _),
    (is_ext_match _ _).
Qed.

Lemma file_step_keeps (dirpath : string) (f : string * option N) :
  keeps_cache (file_step fnmatch cfg session_file_ignores dirpath f).
Proof.
  unfold file_step.
  destruct (skipped fnmatch cfg session_file_ignores f.1); [apply keeps_cache_ret |].
  pose proof (included_not_ignored f.1) as Hinc.
  destruct (file_status _ _ _) as [status tags].
  apply keeps_cache_bind; [apply node_of_keeps |]. intros known.
  destruct (show_ignored_separately cfg && is_ignored fnmatch cfg session_file_ignores f.1)
    eqn:Hsep.
  - apply andb_true_iff in Hsep as [_ ->].
    apply keeps_cache_bind.
    { destruct known; [apply keeps_cache_ret |].
      apply keeps_cache_bind; [apply ignored_tree_insert_keeps |].
      intros id. apply keeps_cache_bind; [apply map_path_keeps |].
      intros _. apply keeps_cache_ret. }
    intros parent_id. apply keeps_cache_bind; [apply ignored_tree_insert_keeps |].
    intros node_id. apply keeps_cache_bind; [apply record_path_keeps |].
    intros _. apply keeps_cache_ret.
  - apply keeps_cache_bind; [apply keeps_cache_ret |]. intros parent_id.
    destruct (is_ignored fnmatch cfg session_file_ignores f.1) eqn:Hign.
    + apply keeps_cache_bind.
      { apply tree_insert_keeps. simpl. intros [= Hs]. by apply Hinc in Hs. }
      intros node_id. apply keeps_cache_bind; [apply record_path_keeps |].
      intros _. apply keeps_cache_ret.
    + intros st [Hcached Hshown]. unfold bind at 1. unfold tree_insert.
      destruct (Tk.insert (tree (ui st)) parent_id f.1 _ tags false)
        as [[id tv] | e] eqn:Hins; [| done].
      apply insert_inv in Hins as [-> ->]. simpl. split; simpl.
      * intros id [Hid | [<- | []]]%in_app_iff.
        -- destruct (Hcached id Hid) as [Hp Hle]. split; [| lia].
           unfold has_path in *. simpl. apply lookup_insert_is_Some.
           destruct (decide (S (Tk.serial (tree (ui st))) = id)); auto.
        -- split; [| lia]. unfold has_path. simpl. by rewrite lookup_insert_eq.
      * intros it [Hin | [<- | []]]%in_app_iff Hv; apply in_app_iff.
        -- left. by apply Hshown.
        -- right. by left.
Qed.

Lemma visit_keeps (top : string) (es : list entry) :
  keeps_cache (visit fnmatch cfg session_folder_ignores session_file_ignores top es).
Proof.
  unfold visit. apply keeps_cache_bind; [apply node_of_keeps |]. intros known.
  apply keeps_cache_bind.
  - apply keeps_cache_for_each. intros d. apply folder_step_keeps.
  - intros _. apply keeps_cache_for_each. intros f. apply file_step_keeps.
Qed.

Lemma walk_keeps (e : entry) :
  forall top,
    keeps_cache (walk fnmatch cfg session_folder_ignores session_file_ignores top e).
Proof.
  induction e as [n s | d | d es IH] using entry_ind'; intros top;
    [apply keeps_cache_ret | apply keeps_cache_ret |].
  intros st Hc. rewrite walk_listed.
  revert st Hc. apply keeps_cache_bind; [apply visit_keeps |]. intros _.
  induction IH as [|e' es He' _ IHes]; [apply keeps_cache_ret |].
  intros st Hc. destruct e' as [n s | d' c].
  - rewrite walk_all_file. by apply IHes.
  - rewrite walk_all_dir.
    destruct (keeps_folder fnmatch cfg session_folder_ignores d'); [| by apply IHes].
    specialize (He' (OsPath.join top [d']) st Hc).
    destruct (walk fnmatch cfg session_folder_ignores session_file_ignores
                (OsPath.join top [d']) (Dir d' c) st) as [[[] | ex] st2]; [| done].
    by apply IHes.
Qed.

Lemma scan_keeps (root : option (list entry)) :
  keeps_cache (scan fnmatch cfg session_folder_ignores session_file_ignores root).
Proof.
  unfold scan. apply keeps_cache_bind; [by apply tree_insert_keeps |].
  intros root_node_id. apply keeps_cache_bind; [apply map_path_keeps |].
  intros _. apply keeps_cache_bind; [apply record_path_keeps |].
  intros _. apply walk_keeps.
Qed.

End CacheFacts.

Section PopulateCache.

Import UIManager.

(** The widgets that lines 302-383 leave have their cache in order. *)
Lemma populate_cache_ok (fnmatch : string -> string -> bool)
    (literal_eval : string -> res (list string)) (cfg : Settings) (isdir : bool)
    (root : option (list entry)) (w : Widgets) :
  cache_ok (widgets (populate_file_tree fnmatch literal_eval cfg isdir root w)).
Proof.
  assert (cache_ok (ui (cleared w))) as Hclear by (by split).
  destruct (populate_cases fnmatch literal_eval cfg isdir w)
    as [(ex & ->) | (shown & ->)]; [done |].
  unfold finish. simpl. by apply scan_keeps.
Qed.

End PopulateCache.

Section PopulateAndFilter.

Import UIManager FilterTree Gui.

(** With its cache in order and not empty, [filter_tree] ends by
    [TclError], if it ends. *)
Lemma filter_tree_cached (fuel : nat) (filter_var root_folder : string) (w : Widgets)
    (node_id : nat) :
  cache_ok w -> In node_id (_all_tree_items_master_list w) ->
  match filter_tree fuel filter_var root_folder w with
  | Some (Ok _, _) => False
  | Some (Raise e, _) => exc_cls e = TclError
  | None => True
  end.
Proof.
  intros [Hcached _] Hid.
  pose proof (show_nodes_outcome fuel (PyStr.lower filter_var) root_folder
                (_all_tree_items_master_list w) (cleared_view w) eq_refl) as Hout.
  pose proof (filter_tree_inv fuel filter_var root_folder w) as Hinv.
  unfold filter_tree in *.
  destruct (show_nodes _ _ _ _ (cleared_view w)) as [[[[] | e] w'] |]; [| | done].
  - destruct Hout as [Hnone _]. rewrite Forall_forall in Hnone.
    assert (node_id ∈ _all_tree_items_master_list w) as Hmem by (by apply list_elem_of_In).
    pose proof (Hnone _ Hmem) as Hno.
    destruct (Hcached node_id Hid) as [[p Hp] _]. simpl in Hno. congruence.
  - destruct Hout as (_ & id & [-> | (it & Hin & Hiid & Hmem & _)]); [done |].
    exfalso. destruct (Hinv _ _ eq_refl) as (_ & _ & _ & Hitems).
    destruct (Hitems it Hin) as (Hnew & _).
    destruct (Hcached id Hmem) as [_ Hle]. lia.
Qed.

(** In the view that does not separate the ignored files, the widgets
    that lines 302-383 leave are those of a scan that raised nothing,
    or cleared widgets. *)
Lemma populate_default_view (fnmatch : string -> string -> bool)
    (literal_eval : string -> res (list string)) (cfg : Settings) (isdir : bool)
    (root : option (list entry)) (w : Widgets) :
  show_ignored_separately cfg = false ->
  let r := populate_file_tree fnmatch literal_eval cfg isdir root w in
  Tk.items (ignored_tree (widgets r)) = []
  /\ ((negb (PyStr.truthy (root_folder cfg)) || negb isdir = false /\ raised r = None)
      \/ Tk.items (tree (widgets r)) = []).
Proof.
  intros Hview r.
  destruct (populate_invariant fnmatch literal_eval cfg isdir root w)
    as (_ & _ & Hign & Hraised).
  split; [done |]. subst r.
  destruct (negb (PyStr.truthy (root_folder cfg)) || negb isdir) eqn:Hidle.
  { right. unfold populate_file_tree. by rewrite Hidle. }
  destruct (Hraised Hview) as [Hnone | ->]; [by left | by right].
Qed.

(** X5.  In the view that does not separate the ignored files, a scan
    that has shown a file as [Included] makes [populate_file_tree] end
    by [TclError], if it ends: the call of [filter_tree] of line 385
    clears the widget and fails at the first cached item. *)
Theorem included_file_ends_scan_in_error (fuel : nat)
    (fnmatch : string -> string -> bool) (literal_eval : string -> res (list string))
    (cfg : Settings) (filter_var : string) (isdir : bool) (root : option (list entry))
    (w : Widgets) (it : Tk.item) :
  show_ignored_separately cfg = false ->
  In it (Tk.items (tree (widgets (populate_file_tree fnmatch literal_eval cfg isdir
                                    root w)))) ->
  Tk.values it !! 0%nat = Some "Included" ->
  populate_and_filter fuel fnmatch literal_eval cfg filter_var isdir root w = None
  \/ exists r e,
       populate_and_filter fuel fnmatch literal_eval cfg filter_var isdir root w = Some r
       /\ raised r = Some e /\ exc_cls e = TclError.
Proof.
  intros Hview Hin Hincluded.
  destruct (populate_default_view fnmatch literal_eval cfg isdir root w Hview)
    as [_ [[Hidle Hraised] | He]]; [| by rewrite He in Hin].
  pose proof (populate_cache_ok fnmatch literal_eval cfg isdir root w) as Hcache.
  pose proof (proj2 Hcache it Hin Hincluded) as Hid.
  pose proof (filter_tree_cached fuel filter_var (root_folder cfg) _ _ Hcache Hid) as Hf.
  unfold populate_and_filter. rewrite Hidle, Hraised.
  destruct (filter_tree fuel filter_var (root_folder cfg) _) as [[[[] | e] w'] |];
    [done | | by left].
  right. by eexists _, e.
Qed.

Lemma included_file_ends_scan_in_error_witness :
  populate_and_filter 8 Lib.fnmatch Lib.literal_eval
    (Project.settings "/home/u/proj" "[]" "[]" false false) "" true Project.listing
    Project.blank = None
  \/ exists r e,
       populate_and_filter 8 Lib.fnmatch Lib.literal_eval
         (Project.settings "/home/u/proj" "[]" "[]" false false) "" true Project.listing
         Project.blank = Some r
       /\ raised r = Some e /\ exc_cls e = TclError.
Proof.
  apply (included_file_ends_scan_in_error 8 Lib.fnmatch Lib.literal_eval
           (Project.settings "/home/u/proj" "[]" "[]" false false) "" true
           Project.listing Project.blank
           (Tk.Item 3 1 "a.py" ["Included"; "2.00"; ".py"] [] false)).
  - reflexivity.
  - vm_compute. right. right. left. reflexivity.
  - reflexivity.
Defined.

End PopulateAndFilter.
(* ===================================================================== *)
(** ** The whole method, over any value of the session texts              *)
(* ===================================================================== *)

Section SessionValues.

Import UIManager PopulateFileTree.

Variable fnmatch : string -> string -> bool.

(** [any] over the items gives what the strings among them give, or
    stops at an item that is no string. *)
Lemma any_item_spec (name : string) (items : list item) :
  match any_item fnmatch name items with
  | Ok b => b = existsb (fnmatch name) (item_strings items)
  | Raise e => exc_cls e = TypeError /\ all_strings items = false
  end.
Proof.
  induction items as [| [p | | t] items IH]; simpl; [done | | done | done].
  destruct (fnmatch name p); [done |]. simpl.
  destruct (any_item fnmatch name items); [done |]. by destruct IH.
Qed.

Lemma any_item_strings (name : string) (items : list item) :
  all_strings items = true ->
  any_item fnmatch name items = Ok (existsb (fnmatch name) (item_strings items)).
Proof.
  intros Hall. pose proof (any_item_spec name items) as H.
  destruct (any_item fnmatch name items) as [b | e]; [by rewrite H |].
  destruct H as [_ H]. congruence.
Qed.

Lemma any_fnmatch_spec (name : string) (v : value) :
  match any_fnmatch fnmatch name v with
  | Ok b => b = existsb (fnmatch name) (strings_of v)
  | Raise e => exc_cls e = TypeError /\ patterns_only v = false
  end.
Proof.
  unfold any_fnmatch, strings_of, patterns_only.
  destruct (items_of v) as [items | e] eqn:Hitems; [apply any_item_spec |].
  by destruct v; simplify_eq/=.
Qed.

Lemma any_fnmatch_patterns (name : string) (v : value) :
  patterns_only v = true ->
  any_fnmatch fnmatch name v = Ok (existsb (fnmatch name) (strings_of v)).
Proof.
  intros Hall. pose proof (any_fnmatch_spec name v) as H.
  destruct (any_fnmatch fnmatch name v) as [b | e]; [by rewrite H |].
  destruct H as [_ H]. congruence.
Qed.

Lemma strings_of_list (l : list string) : strings_of (list_value l) = l.
Proof.
  unfold strings_of, list_value. simpl. induction l as [| x l IH]; [done |].
  simpl. by f_equal.
Qed.

Lemma patterns_only_list (l : list string) : patterns_only (list_value l) = true.
Proof. unfold patterns_only, list_value. simpl. by induction l. Qed.

Variable cfg : Settings.
Variables session_folder_ignores session_file_ignores : value.

Local Abbreviation folders := (strings_of session_folder_ignores).
Local Abbreviation files := (strings_of session_file_ignores).

(** The test of lines 337-338, when it gives an answer, gives the one
    that the patterns of the value give. *)
Lemma keeps_folder_spec (d : string) :
  match PopulateFileTree.keeps_folder fnmatch cfg session_folder_ignores d with
  | Ok b => b = UIManager.keeps_folder fnmatch cfg folders d
  | Raise e => exc_cls e = TypeError /\ patterns_only session_folder_ignores = false
  end.
Proof.
  unfold PopulateFileTree.keeps_folder, UIManager.keeps_folder.
  pose proof (any_fnmatch_spec d session_folder_ignores) as H.
  destruct (any_fnmatch fnmatch d session_folder_ignores) as [[] | e]; [| | done].
  - by rewrite <- H.
  - by rewrite <- H.
Qed.

Lemma kept_dirnames_spec (dirnames : list string) :
  match kept_dirnames fnmatch cfg session_folder_ignores dirnames with
  | Ok l => l = List.filter (UIManager.keeps_folder fnmatch cfg folders) dirnames
  | Raise e => exc_cls e = TypeError /\ patterns_only session_folder_ignores = false
  end.
Proof.
  induction dirnames as [| d rest IH]; [done |]. cbn [kept_dirnames List.filter].
  pose proof (keeps_folder_spec d) as Hd.
  destruct (PopulateFileTree.keeps_folder fnmatch cfg session_folder_ignores d)
    as [b | e]; [| done].
  destruct (kept_dirnames fnmatch cfg session_folder_ignores rest) as [l | e]; [| done].
  rewrite <- Hd, <- IH. by destruct b.
Qed.

(** One file: the step of the scan over the patterns of the value,
    unless the third test raises. *)
Lemma file_step_spec (dirpath : string) (f : string * option N) (st : scan_state) :
  PopulateFileTree.file_step fnmatch cfg session_file_ignores dirpath f st
  = UIManager.file_step fnmatch cfg files dirpath f st
  \/ exists e,
       PopulateFileTree.file_step fnmatch cfg session_file_ignores dirpath f st
       = (Raise e, st)
       /\ exc_cls e = TypeError /\ patterns_only session_file_ignores = false.
Proof.
  unfold PopulateFileTree.file_step.
  pose proof (any_fnmatch_spec f.1 session_file_ignores) as H.
  destruct (any_fnmatch fnmatch f.1 session_file_ignores) as [b | e].
  - left. subst b. reflexivity.
  - right. by exists e.
Qed.

End SessionValues.

(** *** sequences of strings: the scan of [UIManager] *)

Section TypedValues.

Import UIManager PopulateFileTree.

Variable fnmatch : string -> string -> bool.
Variable cfg : Settings.
Variables session_folder_ignores session_file_ignores : value.

Hypothesis folders_typed : patterns_only session_folder_ignores = true.
Hypothesis files_typed : patterns_only session_file_ignores = true.

Local Abbreviation folders := (strings_of session_folder_ignores).
Local Abbreviation files := (strings_of session_file_ignores).

Lemma for_each_ext {A} (body body' : A -> M unit) (l : list A) :
  (forall x st, body x st = body' x st) ->
  forall st, for_each l body st = for_each l body' st.
Proof.
  intros Hext. induction l as [| x l IH]; intros st; [done |].
  cbn [for_each]. unfold bind. rewrite Hext.
  destruct (body' x st) as [[[] | e] st1]; [apply IH | done].
Qed.

Lemma keeps_folder_typed (d : string) :
  PopulateFileTree.keeps_folder fnmatch cfg session_folder_ignores d
  = Ok (UIManager.keeps_folder fnmatch cfg folders d).
Proof.
  pose proof (keeps_folder_spec fnmatch cfg session_folder_ignores d) as H.
  destruct (PopulateFileTree.keeps_folder _ _ _ d) as [b | e]; [by rewrite H |].
  destruct H as [_ H]. congruence.
Qed.

Lemma visit_typed (top : string) (es : list entry) (st : scan_state) :
  PopulateFileTree.visit fnmatch cfg session_folder_ignores session_file_ignores top es st
  = UIManager.visit fnmatch cfg folders files top es st.
Proof.
  unfold PopulateFileTree.visit, UIManager.visit.
  pose proof (kept_dirnames_spec fnmatch cfg session_folder_ignores (dirnames_of es)) as H.
  destruct (kept_dirnames _ _ _ _) as [l | e]; [| destruct H as [_ H]; congruence].
  subst l. unfold bind. destruct (node_of top st) as [[known | e] st1]; [| done].
  destruct (for_each _ _ st1) as [[[] | e] st2]; [| done].
  apply for_each_ext. intros f st3.
  destruct (file_step_spec fnmatch cfg session_file_ignores top f st3)
    as [H | (e & _ & _ & H)]; [done | congruence].
Qed.

Lemma walk_typed (e : entry) :
  forall top st,
    PopulateFileTree.walk fnmatch cfg session_folder_ignores session_file_ignores top e st
    = UIManager.walk fnmatch cfg folders files top e st.
Proof.
  induction e as [n s | d | d es IH] using entry_ind'; [done | done |].
  intros top st. cbn [PopulateFileTree.walk UIManager.walk]. unfold bind.
  rewrite visit_typed.
  destruct (UIManager.visit fnmatch cfg folders files top es st) as [[[] | ex] st1];
    [| done].
  clear st. revert st1.
  induction IH as [| e' es He' _ IHes]; intros st; [done |].
  destruct e' as [n s | d' c].
  - apply IHes.
  - rewrite keeps_folder_typed.
    destruct (UIManager.keeps_folder fnmatch cfg folders d'); [| apply IHes].
    rewrite He'.
    destruct (UIManager.walk fnmatch cfg folders files (OsPath.join top [d']) (Dir d' c) st)
      as [[[] | ex] st2]; [apply IHes | done].
Qed.

Lemma scan_typed (root : option (list entry)) (st : scan_state) :
  PopulateFileTree.scan fnmatch cfg session_folder_ignores session_file_ignores root st
  = UIManager.scan fnmatch cfg folders files root st.
Proof.
  unfold PopulateFileTree.scan, UIManager.scan, bind.
  destruct (tree_insert _ _ _ _ _ st) as [[id | e] st1]; [| done].
  destruct (map_path _ id st1) as [[[] | e] st2]; [| done].
  destruct (record_path id _ st2) as [[[] | e] st3]; [| done].
  apply walk_typed.
Qed.

End TypedValues.

Section TypedReader.

Import UIManager PopulateFileTree.

Variable fnmatch : string -> string -> bool.
Variable literal_eval : string -> res (list string).

(** Over a reader of lists of strings, lines 302-383 are those of
    [UIManager.populate_file_tree]. *)
Lemma scan_root_folder_typed (cfg : Settings) (isdir : bool) (root : option (list entry))
    (w : Widgets) :
  scan_root_folder fnmatch (as_values literal_eval) cfg isdir root w
  = UIManager.populate_file_tree fnmatch literal_eval cfg isdir root w.
Proof.
  unfold scan_root_folder, UIManager.populate_file_tree, as_values.
  destruct (negb (PyStr.truthy (root_folder cfg)) || negb isdir); [done |].
  assert (forall shown fs gs st,
            finish shown (PopulateFileTree.scan fnmatch cfg (list_value fs) (list_value gs)
                            root st)
            = finish shown (UIManager.scan fnmatch cfg fs gs root st)) as Hscan.
  { intros shown fs gs st.
    rewrite scan_typed by apply patterns_only_list. by rewrite !strings_of_list. }
  destruct (literal_eval (folder_ignore_patterns cfg)) as [fs | e].
  - destruct (literal_eval (file_ignore_patterns cfg)) as [gs | e]; [apply Hscan |].
    destruct (caught e); [apply (Hscan _ [] []) | done].
  - destruct (caught e); [apply (Hscan _ [] []) | done].
Qed.

(** And the whole method is these lines followed by [filter_tree]. *)
Lemma populate_file_tree_typed (fuel : nat) (cfg : Settings) (filter_var : string)
    (isdir : bool) (root : option (list entry)) (w : Widgets) :
  PopulateFileTree.populate_file_tree fnmatch (as_values literal_eval) fuel cfg filter_var
    isdir root w
  = FilterTree.populate_and_filter fuel fnmatch literal_eval cfg filter_var isdir root w.
Proof.
  unfold PopulateFileTree.populate_file_tree, FilterTree.populate_and_filter.
  by rewrite scan_root_folder_typed.
Qed.

End TypedReader.

(** *** the invariant of the scan, over any session values *)

Section AnyInvariant.

Import UIManager ScanInv PopulateFileTree.

Variable fnmatch : string -> string -> bool.
Variable cfg : Settings.
Variables session_folder_ignores session_file_ignores : value.

Local Abbreviation folders := (strings_of session_folder_ignores).
Local Abbreviation files := (strings_of session_file_ignores).
Local Abbreviation keeps := (UIManager.keeps_folder fnmatch cfg folders).
Local Abbreviation Inv' := (Inv fnmatch cfg folders files).
Local Abbreviation good' := (good fnmatch cfg folders files).
Local Abbreviation good_any' :=
  (good_any fnmatch cfg session_folder_ignores session_file_ignores).

Lemma good_any_of_good {A} (st : scan_state) (r : res A * scan_state)
    (Q : A -> scan_state -> Prop) :
  good' st r Q -> good_any' st r Q.
Proof. destruct r as [[a | e] st']; simpl; [done |]. intros (? & ? & ?). auto. Qed.

Lemma good_any_raise {A} (st : scan_state) (e : exn) (Q : A -> scan_state -> Prop) :
  Inv' st -> ill_typed session_folder_ignores session_file_ignores e ->
  good_any' st (raise e st) Q.
Proof. intros Hinv He. simpl. split; [done |]. split; [apply grows_refl | by right]. Qed.

Lemma good_any_weaken {A} (st st' : scan_state) (r : res A * scan_state)
    (Q : A -> scan_state -> Prop) :
  grows st st' -> good_any' st' r Q -> good_any' st r Q.
Proof.
  intros Hg. destruct r as [[a | e] st'']; simpl; intros (? & ? & ?);
    (split; [done | split; [by eapply grows_trans | done]]).
Qed.

Lemma good_any_bind {A B} (st : scan_state) (m : M A) (k : A -> M B)
    (Q : A -> scan_state -> Prop) (R : B -> scan_state -> Prop) :
  good_any' st (m st) Q ->
  (forall a st', Inv' st' -> grows st st' -> Q a st' -> good_any' st' (k a st') R) ->
  good_any' st (bind m k st) R.
Proof.
  intros Hm Hk. unfold bind. destruct (m st) as [[a | e] st']; [| done].
  destruct Hm as (Hinv & Hg & HQ). eapply good_any_weaken; [exact Hg |]. by apply Hk.
Qed.

Lemma good_any_ret {A} (st : scan_state) (a : A) (Q : A -> scan_state -> Prop) :
  Inv' st -> Q a st -> good_any' st (ret a st) Q.
Proof. intros. simpl. split; [done | split; [apply grows_refl | done]]. Qed.

Lemma good_any_mono {A} (st : scan_state) (r : res A * scan_state)
    (Q Q' : A -> scan_state -> Prop) :
  (forall a st', Q a st' -> Q' a st') -> good_any' st r Q -> good_any' st r Q'.
Proof. intros HQ. destruct r as [[a | e] st']; simpl; [| done]. intros (? & ? & ?). auto. Qed.

Lemma good_any_frame {A} (st : scan_state) (r : res A * scan_state)
    (Q : A -> scan_state -> Prop) (J : scan_state -> Prop) :
  (forall st st', J st -> grows st st' -> J st') ->
  J st -> good_any' st r Q -> good_any' st r (fun a st' => Q a st' /\ J st').
Proof.
  intros HJ Hj. destruct r as [[a | e] st']; simpl; [| done].
  intros (? & ? & ?). split; [done |]. split; [done |]. split; [done |]. by eapply HJ.
Qed.

Lemma good_any_for_each {A} (body : A -> M unit) (l : list A)
    (J : scan_state -> Prop) (st : scan_state) :
  (forall st st', J st -> grows st st' -> J st') ->
  (forall x st, In x l -> Inv' st -> J st -> good_any' st (body x st) (fun _ _ => True)) ->
  Inv' st -> J st ->
  good_any' st (for_each l body st) (fun _ _ => True).
Proof.
  intros HJ Hbody. revert st.
  induction l as [|x l IH]; intros st Hinv Hj.
  - by apply good_any_ret.
  - cbn [for_each]. eapply good_any_bind.
    + apply Hbody; [by left | done | done].
    + intros [] st1 Hinv1 Hg1 _. apply IH; [| done | by eapply HJ].
      intros y st2 Hy. apply Hbody. by right.
Qed.

Lemma file_step_good_any (st : scan_state) (dirpath : string) (f : string * option N) :
  Inv' st -> is_Some (path_to_node_map st !! dirpath) ->
  good_any' st (PopulateFileTree.file_step fnmatch cfg session_file_ignores dirpath f st)
    (fun _ _ => True).
Proof.
  intros Hinv Hdir.
  destruct (file_step_spec fnmatch cfg session_file_ignores dirpath f st)
    as [-> | (e & -> & Hcls & Hbad)].
  - apply good_any_of_good. by apply file_step_good.
  - apply (good_any_raise st e); [done |]. split; [done |].
    by rewrite Hbad, andb_false_r.
Qed.

Lemma visit_good_any (st : scan_state) (top : string) (es : list entry) :
  Inv' st -> is_Some (path_to_node_map st !! top) ->
  good_any' st
    (PopulateFileTree.visit fnmatch cfg session_folder_ignores session_file_ignores top es st)
    (fun _ st' =>
       forall d, In d (List.filter keeps (dirnames_of es)) ->
         is_Some (path_to_node_map st' !! OsPath.join top [d])).
Proof.
  intros Hinv Htop. unfold PopulateFileTree.visit.
  pose proof (kept_dirnames_spec fnmatch cfg session_folder_ignores (dirnames_of es)) as Hl.
  destruct (kept_dirnames _ _ _ _) as [l | e].
  2: { destruct Hl as [Hcls Hbad]. apply (good_any_raise st e); [done |].
       split; [done |]. by rewrite Hbad. }
  subst l. destruct Htop as [pid Hpid].
  assert (kept_folder fnmatch cfg folders (tree (ui st)) pid) as Hk
    by (destruct Hinv as (_ & _ & _ & Hm); by eapply Hm).
  unfold bind at 1. unfold node_of at 1. rewrite Hpid. simpl default.
  eapply good_any_bind.
  { apply good_any_of_good.
    apply (good_for_each fnmatch cfg folders files _ _
             (fun st => kept_folder fnmatch cfg folders (tree (ui st)) pid)
             (fun d st => is_Some (path_to_node_map st !! OsPath.join top [d])));
      [| | | done | done].
    - intros ? ?. apply kept_grows.
    - intros ? ? ?. apply keys_grow.
    - intros d st1 Hd Hinv1 Hk1. apply folder_step_good; [done | done |].
      by apply filter_In in Hd as [_ ?]. }
  intros [] st1 Hinv1 Hg1 Hkeys.
  eapply good_any_mono;
    [| eapply (good_any_frame _ _ _
                 (fun st => forall d, In d (List.filter keeps (dirnames_of es)) ->
                    is_Some (path_to_node_map st !! OsPath.join top [d])));
       [| exact Hkeys |]].
  - by intros [] st2 [_ ?].
  - intros st2 st3 H Hg d Hd. eapply keys_grow; [by apply H | done].
  - apply (good_any_for_each _ _ (fun st => is_Some (path_to_node_map st !! top)));
      [| | done |].
    + intros ? ?. apply keys_grow.
    + intros f st2 _ Hinv2 Htop2. by apply file_step_good_any.
    + eapply keys_grow; [by exists pid | done].
Qed.

Lemma walk_any_listed (top d : string) (es : list entry) :
  PopulateFileTree.walk fnmatch cfg session_folder_ignores session_file_ignores top
    (Dir d (Some es))
  = bind (PopulateFileTree.visit fnmatch cfg session_folder_ignores session_file_ignores
            top es)
         (fun _ => walk_subdirs fnmatch cfg session_folder_ignores session_file_ignores
                     top es).
Proof. reflexivity. Qed.

Lemma walk_subdirs_file (top n : string) (sz : option N) (l : list entry)
    (st : scan_state) :
  walk_subdirs fnmatch cfg session_folder_ignores session_file_ignores top (File n sz :: l) st
  = walk_subdirs fnmatch cfg session_folder_ignores session_file_ignores top l st.
Proof. reflexivity. Qed.

Lemma walk_subdirs_dir (top d : string) (c : option (list entry)) (l : list entry)
    (st : scan_state) :
  walk_subdirs fnmatch cfg session_folder_ignores session_file_ignores top (Dir d c :: l) st
  = match PopulateFileTree.keeps_folder fnmatch cfg session_folder_ignores d with
    | Ok true =>
        match PopulateFileTree.walk fnmatch cfg session_folder_ignores session_file_ignores
                (OsPath.join top [d]) (Dir d c) st with
        | (Ok _, st') =>
            walk_subdirs fnmatch cfg session_folder_ignores session_file_ignores top l st'
        | (Raise e, st') => (Raise e, st')
        end
    | _ => walk_subdirs fnmatch cfg session_folder_ignores session_file_ignores top l st
    end.
Proof.
  cbn [walk_subdirs]. unfold bind.
  by destruct (PopulateFileTree.keeps_folder _ _ _ d) as [[] |].
Qed.

(** The walk of a directory whose node is known keeps the invariant. *)
Lemma walk_good_any (e : entry) :
  forall top st,
    Inv' st -> is_Some (path_to_node_map st !! top) ->
    good_any' st
      (PopulateFileTree.walk fnmatch cfg session_folder_ignores session_file_ignores top e st)
      (fun _ _ => True).
Proof.
  induction e as [n s | d | d es IH] using entry_ind'; intros top st Hinv Htop;
    [by apply good_any_ret | by apply good_any_ret |].
  rewrite walk_any_listed. eapply good_any_bind; [by apply visit_good_any |].
  intros [] st1 Hinv1 _ Hkeys. clear st Hinv Htop.
  revert st1 Hinv1 Hkeys.
  induction IH as [|e' es He' _ IHes]; intros st Hinv Hkeys; [by apply good_any_ret |].
  destruct e' as [n s | d' c].
  - rewrite walk_subdirs_file. apply IHes; [done |]. intros d0 Hd0. by apply Hkeys.
  - rewrite walk_subdirs_dir. rewrite dirnames_of_dir in Hkeys. cbn [List.filter] in Hkeys.
    pose proof (keeps_folder_spec fnmatch cfg session_folder_ignores d') as Hd'.
    destruct (PopulateFileTree.keeps_folder _ _ _ d') as [[] | ex].
    2, 3: apply IHes; [done |]; intros d0 Hd0; apply Hkeys;
      destruct (keeps d'); [by right | done].
    rewrite <- Hd' in Hkeys.
    assert (good_any' st
              (PopulateFileTree.walk fnmatch cfg session_folder_ignores
                 session_file_ignores (OsPath.join top [d']) (Dir d' c) st)
              (fun _ st' =>
                 True /\ forall d0, In d0 (List.filter keeps (dirnames_of es)) ->
                           is_Some (path_to_node_map st' !! OsPath.join top [d0])))
      as Hsub.
    { apply (good_any_frame _ _ _
               (fun st => forall d0, In d0 (List.filter keeps (dirnames_of es)) ->
                  is_Some (path_to_node_map st !! OsPath.join top [d0]))).
      - intros st2 st3 H [Hg _] d0 Hd0. apply Hg. by apply H.
      - intros d0 Hd0. apply Hkeys. by right.
      - apply He'; [done |]. apply Hkeys. by left. }
    destruct (PopulateFileTree.walk _ _ _ _ (OsPath.join top [d']) (Dir d' c) st)
      as [[[] | ex] st2]; [| exact Hsub].
    destruct Hsub as (Hinv2 & Hg2 & _ & Hkeys2).
    eapply good_any_weaken; [exact Hg2 |]. by apply IHes.
Qed.

(** The scan keeps the invariant, and raises only in the view that
    separates the ignored files or for a session value that is not a
    sequence of strings. *)
Lemma scan_good_any (root : option (list entry)) (w : Widgets) :
  good_any' (cleared w)
    (PopulateFileTree.scan fnmatch cfg session_folder_ignores session_file_ignores root
       (cleared w))
    (fun _ _ => True).
Proof.
  unfold PopulateFileTree.scan. eapply good_any_bind.
  { apply good_any_of_good. apply tree_insert_good; [apply cleared_inv |]. by left. }
  intros root_node_id st1 Hinv1 _ [Hin _].
  eapply good_any_bind.
  { apply good_any_of_good. apply map_path_good; [done |].
    by apply (kept_root fnmatch cfg folders _ _ Hin). }
  intros [] st2 Hinv2 _ Hkey.
  eapply good_any_bind.
  { apply good_any_of_good.
    eapply (good_frame _ _ _ _ _ _ _
              (fun st => is_Some (path_to_node_map st !! root_folder cfg)));
      [| exact Hkey | by apply record_path_good].
    intros ? ?. by apply keys_grow. }
  intros [] st3 Hinv3 _ [_ Hkey3]. by apply walk_good_any.
Qed.

End AnyInvariant.

(** *** pruning, for a test of any kind *)

Section PruneAny.

Variable k : string -> bool.

Lemma prune_any_listed (d : string) (es : list entry) :
  prune k (Dir d (Some es)) = Dir d (Some (prune_all k es)).
Proof. reflexivity. Qed.

Lemma prune_any_dir (d : string) (c : option (list entry)) :
  prune k (Dir d c) = Dir d (option_map (prune_all k) c).
Proof. by destruct c. Qed.

Lemma prune_all_any_file (n : string) (sz : option N) (es : list entry) :
  prune_all k (File n sz :: es) = File n sz :: prune_all k es.
Proof. reflexivity. Qed.

Lemma prune_all_any_dir (d : string) (c : option (list entry)) (es : list entry) :
  prune_all k (Dir d c :: es)
  = if k d then prune k (Dir d c) :: prune_all k es else prune_all k es.
Proof. reflexivity. Qed.

Lemma files_of_prune_any (es : list entry) : files_of (prune_all k es) = files_of es.
Proof.
  induction es as [|[n s | d c] es IH]; [done | |].
  - by rewrite prune_all_any_file, !files_of_file, IH.
  - rewrite prune_all_any_dir, files_of_dir. destruct (k d); [| exact IH].
    by rewrite prune_any_dir, files_of_dir.
Qed.

Lemma dirnames_of_prune_any (es : list entry) :
  dirnames_of (prune_all k es) = List.filter k (dirnames_of es).
Proof.
  induction es as [|[n s | d c] es IH]; [done | |].
  - by rewrite prune_all_any_file, !dirnames_of_file.
  - rewrite prune_all_any_dir, dirnames_of_dir. cbn [List.filter].
    destruct (k d) eqn:Hk; [| exact IH].
    by rewrite prune_any_dir, dirnames_of_dir, IH.
Qed.

Lemma all_kept_prune_any (e : entry) :
  k (entry_name e) = true -> all_kept k (prune k e) = true.
Proof.
  induction e as [n s | d | d es IH] using entry_ind'; intros Hk; [done | |].
  - simpl in *. by rewrite Hk.
  - rewrite prune_any_listed. simpl in *. rewrite Hk. simpl.
    induction IH as [|e' es He' _ IHes]; [done |].
    destruct e' as [n s | d' c]; [exact IHes |].
    rewrite prune_all_any_dir. destruct (k d') eqn:Hk'; [| exact IHes].
    cbn [forallb]. rewrite He' by done. exact IHes.
Qed.

Lemma all_kept_prune_all_any (es : list entry) :
  forallb (all_kept k) (prune_all k es) = true.
Proof.
  induction es as [|[n s | d c] es IH]; [done | |].
  - rewrite prune_all_any_file. exact IH.
  - rewrite prune_all_any_dir. destruct (k d) eqn:Hk; [| exact IH].
    cbn [forallb]. rewrite IH, andb_true_r. by apply all_kept_prune_any.
Qed.

End PruneAny.

Section PruneScan.

Import UIManager PopulateFileTree.

Variable fnmatch : string -> string -> bool.
Variable cfg : Settings.
Variables session_folder_ignores session_file_ignores : value.

Local Abbreviation stays := (fun d => negb (dropped fnmatch cfg session_folder_ignores d)).
Local Abbreviation walk' :=
  (PopulateFileTree.walk fnmatch cfg session_folder_ignores session_file_ignores).
Local Abbreviation subdirs' :=
  (walk_subdirs fnmatch cfg session_folder_ignores session_file_ignores).
Local Abbreviation visit' :=
  (PopulateFileTree.visit fnmatch cfg session_folder_ignores session_file_ignores).

(** The names that the test drops play no part in what the list
    comprehension gives. *)
Lemma kept_dirnames_stays (dirnames : list string) :
  kept_dirnames fnmatch cfg session_folder_ignores (List.filter stays dirnames)
  = kept_dirnames fnmatch cfg session_folder_ignores dirnames.
Proof.
  induction dirnames as [| d rest IH]; [done |].
  cbn [List.filter].
  assert (dropped fnmatch cfg session_folder_ignores d
          = match PopulateFileTree.keeps_folder fnmatch cfg session_folder_ignores d with
            | Ok false => true
            | _ => false
            end) as Hcase by reflexivity.
  destruct (PopulateFileTree.keeps_folder fnmatch cfg session_folder_ignores d)
    as [[] | e] eqn:Hd; rewrite Hcase; cbn [negb kept_dirnames]; rewrite ?Hd, ?IH;
    try done.
  by destruct (kept_dirnames fnmatch cfg session_folder_ignores rest).
Qed.

Lemma visit_prune_any (top : string) (es : list entry) :
  visit' top (prune_all stays es) = visit' top es.
Proof.
  unfold PopulateFileTree.visit.
  by rewrite files_of_prune_any, dirnames_of_prune_any, kept_dirnames_stays.
Qed.

(** The walk of a directory is the walk of the directory without the
    sub-folders that the test drops: what they hold is never looked
    at. *)
Lemma walk_prune_any (e : entry) :
  forall top st, walk' top (prune stays e) st = walk' top e st.
Proof.
  induction e as [n s | d | d es IH] using entry_ind'; [done | done |].
  intros top st. rewrite prune_any_listed, !walk_any_listed.
  unfold bind. rewrite visit_prune_any.
  destruct (visit' top es st) as [[[] | ex] st1]; [| done].
  clear st. revert st1.
  induction IH as [|e' es He' _ IHes]; intros st; [done |].
  destruct e' as [n s | d' c].
  - rewrite prune_all_any_file, !walk_subdirs_file. apply IHes.
  - rewrite prune_all_any_dir, walk_subdirs_dir.
    assert (dropped fnmatch cfg session_folder_ignores d'
            = match PopulateFileTree.keeps_folder fnmatch cfg session_folder_ignores d' with
              | Ok false => true
              | _ => false
              end) as Hcase by reflexivity.
    destruct (PopulateFileTree.keeps_folder fnmatch cfg session_folder_ignores d')
      as [[] | ex] eqn:Hk; rewrite Hcase; cbn [negb]; [| apply IHes |].
    + pose proof (He' (OsPath.join top [d']) st) as Hw.
      rewrite prune_any_dir in Hw |- *. rewrite walk_subdirs_dir, Hk, Hw.
      destruct (walk' (OsPath.join top [d']) (Dir d' c) st) as [[[] | ex] st2]; [| done].
      apply IHes.
    + rewrite prune_any_dir, walk_subdirs_dir, Hk. apply IHes.
Qed.

Lemma scan_prune_any (root : option (list entry)) (st : scan_state) :
  PopulateFileTree.scan fnmatch cfg session_folder_ignores session_file_ignores
    (option_map (prune_all stays) root) st
  = PopulateFileTree.scan fnmatch cfg session_folder_ignores session_file_ignores root st.
Proof.
  unfold PopulateFileTree.scan, bind.
  destruct (tree_insert _ _ _ _ _ st) as [[id | e] st1]; [| done].
  destruct (map_path _ id st1) as [[[] | e] st2]; [| done].
  destruct (record_path id _ st2) as [[[] | e] st3]; [| done].
  rewrite <- (walk_prune_any (Dir _ root)).
  by rewrite prune_any_dir.
Qed.

End PruneScan.

(** *** the outcome of lines 302-383 *)

Section MethodOutcome.

Import UIManager ScanInv PopulateFileTree.

Variable fnmatch : string -> string -> bool.
Variable literal_eval : string -> res value.
Variable cfg : Settings.

Local Abbreviation folders := (session_values literal_eval cfg).1.
Local Abbreviation files := (session_values literal_eval cfg).2.

(** Lines 302-383 either leave the cleared widgets as they are (no root
    folder, or an exception of the reader that is not caught), or run
    the scan with the session values. *)
Lemma scan_root_folder_cases (isdir : bool) (w : Widgets) :
  (exists ex, forall root,
      scan_root_folder fnmatch literal_eval cfg isdir root w
      = MkOutcome (ui (cleared w)) [] ex)
  \/ (exists shown, forall root,
        scan_root_folder fnmatch literal_eval cfg isdir root w
        = finish shown (PopulateFileTree.scan fnmatch cfg folders files root (cleared w))).
Proof.
  unfold scan_root_folder, session_values.
  destruct (negb (PyStr.truthy (root_folder cfg)) || negb isdir); [left; by eexists |].
  destruct (literal_eval (folder_ignore_patterns cfg)) as [fs | e].
  - destruct (literal_eval (file_ignore_patterns cfg)) as [gs | e].
    + right. by exists [].
    + destruct (caught e); [right; by eexists | left; by eexists].
  - destruct (caught e); [right; by eexists | left; by eexists].
Qed.

(** Whatever the way lines 302-383 end, the widgets they leave satisfy
    the invariant of the scan; an exception comes from the view that
    separates the ignored files, from a session value that is not a
    sequence of strings, or from the reader, before anything is
    shown. *)
Lemma scan_root_folder_invariant (isdir : bool) (root : option (list entry))
    (w : Widgets) :
  let r := scan_root_folder fnmatch literal_eval cfg isdir root w in
  well_formed (tree (widgets r))
  /\ (forall it, In it (Tk.items (tree (widgets r))) ->
        item_ok fnmatch cfg (strings_of folders) (strings_of files) (tree (widgets r)) it)
  /\ Tk.items (ignored_tree (widgets r)) = []
  /\ (forall e, raised r = Some e ->
        show_ignored_separately cfg = true
        \/ ill_typed folders files e
        \/ Tk.items (tree (widgets r)) = []).
Proof.
  intros r. subst r.
  destruct (scan_root_folder_cases isdir w) as [(ex & Hidle) | (shown & Hscan)].
  - rewrite Hidle. simpl. split; [apply well_formed_empty |].
    split; [done |]. split; [done |]. intros e _. by right; right.
  - rewrite Hscan. unfold finish.
    pose proof (scan_good_any fnmatch cfg folders files root w) as Hgood.
    destruct (PopulateFileTree.scan fnmatch cfg folders files root (cleared w))
      as [[[] | e] st]; simpl.
    + destruct Hgood as ((Hwf & Hitems & Hign & _) & _). split; [done |].
      split; [done |]. split; [done |]. done.
    + destruct Hgood as ((Hwf & Hitems & Hign & _) & _ & Hwhy). split; [done |].
      split; [done |]. split; [done |]. intros e' [= <-].
      destruct Hwhy; auto.
Qed.

(** Lines 302-383 do not look into the folders that the test drops. *)
Lemma scan_root_folder_prune (isdir : bool) (root : option (list entry)) (w : Widgets) :
  scan_root_folder fnmatch literal_eval cfg isdir
    (option_map (prune_all (fun d => negb (dropped fnmatch cfg folders d))) root) w
  = scan_root_folder fnmatch literal_eval cfg isdir root w.
Proof.
  destruct (scan_root_folder_cases isdir w) as [(ex & Hidle) | (shown & Hscan)].
  - by rewrite !Hidle.
  - rewrite !Hscan. by rewrite scan_prune_any.
Qed.

End MethodOutcome.

(** *** the files of the root folder get their nodes *)

Section RootFiles.

Import UIManager ScanInv.

Variable fnmatch : string -> string -> bool.
Variable cfg : Settings.
Variables session_folder_ignores session_file_ignores : list string.

Hypothesis one_view : show_ignored_separately cfg = false.

Local Abbreviation keeps := (keeps_folder fnmatch cfg session_folder_ignores).
Local Abbreviation Inv' := (Inv fnmatch cfg session_folder_ignores session_file_ignores).
Local Abbreviation good' :=
  (good fnmatch cfg session_folder_ignores session_file_ignores).

(** The file [f] is shown, with the status of its name, unless the
    hide-ignored view skips it. *)
Local Abbreviation shown_file f st :=
  (skipped fnmatch cfg session_file_ignores (fst f) = false ->
   exists id parent,
     In (Tk.Item id parent (fst f)
           [(status_of fnmatch cfg session_file_ignores (fst f)).1;
            match snd f with Some n => size_kb n | None => "N/A" end;
            (OsPath.splitext (fst f)).2]
           (status_of fnmatch cfg session_file_ignores (fst f)).2 false)
        (Tk.items (tree (ui st)))).

Lemma shown_file_grows (f : string * option N) (st st' : scan_state) :
  shown_file f st -> grows st st' -> shown_file f st'.
Proof.
  intros H [_ Hg] Hskip. destruct (H Hskip) as (id & parent & Hin).
  exists id, parent. by apply Hg.
Qed.

Lemma file_step_shows (st : scan_state) (dirpath : string) (f : string * option N) :
  Inv' st -> is_Some (path_to_node_map st !! dirpath) ->
  good' st (file_step fnmatch cfg session_file_ignores dirpath f st)
    (fun _ st' => shown_file f st').
Proof.
  intros Hinv [pid Hpid]. unfold file_step.
  destruct (skipped fnmatch cfg session_file_ignores f.1) eqn:Hskip.
  { by apply good_ret. }
  unfold status_of.
  destruct (file_status _ _ _) as [status tags] eqn:Hstatus.
  assert (kept_folder fnmatch cfg session_folder_ignores (tree (ui st)) pid) as Hk
    by (destruct Hinv as (_ & _ & _ & Hm); by eapply Hm).
  unfold bind at 1. unfold node_of at 1. rewrite Hpid.
  rewrite one_view. cbn [andb].
  unfold bind at 1. unfold ret at 1. simpl default.
  eapply good_bind.
  { apply tree_insert_good; [done |]. right. split; [done |]. intros id. right.
    split; [done |]. eexists _, _. unfold status_of. simpl. rewrite Hstatus. done. }
  intros node_id st1 Hinv1 Hg1 [Hin _].
  assert (exists id parent,
            In (Tk.Item id parent f.1
                  [status; match f.2 with Some n => size_kb n | None => "N/A" end;
                   (OsPath.splitext f.1).2] tags false)
               (Tk.items (tree (ui st1)))) as Hshown by (by exists node_id, pid).
  assert (forall st2 st3,
            (exists id parent,
               In (Tk.Item id parent f.1
                     [status; match f.2 with Some n => size_kb n | None => "N/A" end;
                      (OsPath.splitext f.1).2] tags false)
                  (Tk.items (tree (ui st2)))) ->
            grows st2 st3 ->
            exists id parent,
              In (Tk.Item id parent f.1
                    [status; match f.2 with Some n => size_kb n | None => "N/A" end;
                     (OsPath.splitext f.1).2] tags false)
                 (Tk.items (tree (ui st3)))) as Hmono.
  { intros st2 st3 (id & parent & H) [_ Hg]. exists id, parent. by apply Hg. }
  eapply good_bind; [by apply record_path_good |].
  intros [] st2 Hinv2 Hg2 _.
  assert (good' st2
            ((if is_ignored fnmatch cfg session_file_ignores f.1
              then ret tt else cache_item node_id) st2) (fun _ _ => True)) as Hlast.
  { destruct (is_ignored _ _ _ _); [by apply good_ret | by apply cache_item_good]. }
  eapply good_mono;
    [| eapply (good_frame _ _ _ _ _ _ _
                 (fun st => exists id parent,
                    In (Tk.Item id parent f.1
                          [status; match f.2 with Some n => size_kb n | None => "N/A" end;
                           (OsPath.splitext f.1).2] tags false)
                       (Tk.items (tree (ui st)))));
       [exact Hmono | by eapply Hmono | exact Hlast]].
  by intros [] st3 [_ ?] _.
Qed.

Lemma visit_shows (st : scan_state) (top : string) (es : list entry) :
  Inv' st -> is_Some (path_to_node_map st !! top) ->
  good' st (visit fnmatch cfg session_folder_ignores session_file_ignores top es st)
    (fun _ st' =>
       (forall f, In f (files_of es) -> shown_file f st')
       /\ forall d, In d (List.filter keeps (dirnames_of es)) ->
            is_Some (path_to_node_map st' !! OsPath.join top [d])).
Proof.
  intros Hinv Htop. unfold visit.
  destruct Htop as [pid Hpid].
  assert (kept_folder fnmatch cfg session_folder_ignores (tree (ui st)) pid) as Hk
    by (destruct Hinv as (_ & _ & _ & Hm); by eapply Hm).
  unfold bind at 1. unfold node_of at 1. rewrite Hpid. simpl default.
  eapply good_bind.
  { apply (good_for_each _ _ _ _ _ _
             (fun st => kept_folder fnmatch cfg session_folder_ignores (tree (ui st)) pid)
             (fun d st => is_Some (path_to_node_map st !! OsPath.join top [d])));
      [| | | done | done].
    - intros ? ?. apply kept_grows.
    - intros ? ? ?. apply keys_grow.
    - intros d st1 Hd Hinv1 Hk1. apply folder_step_good; [done | done |].
      by apply filter_In in Hd as [_ ?]. }
  intros [] st1 Hinv1 Hg1 Hkeys.
  apply (good_frame _ _ _ _ _ _ _
           (fun st => forall d, In d (List.filter keeps (dirnames_of es)) ->
              is_Some (path_to_node_map st !! OsPath.join top [d])));
    [| exact Hkeys |].
  { intros st2 st3 H Hg d Hd. eapply keys_grow; [by apply H | done]. }
  apply (good_for_each _ _ _ _ _ _ (fun st => is_Some (path_to_node_map st !! top))
           (fun f st => shown_file f st)); [| | | done |].
  - intros ? ?. apply keys_grow.
  - intros f st2 st3. apply shown_file_grows.
  - intros f st2 _ Hinv2 Htop2. by apply file_step_shows.
  - eapply keys_grow; [by exists pid | done].
Qed.

Lemma walk_all_good (es : list entry) :
  forall top st,
    Inv' st ->
    (forall d, In d (List.filter keeps (dirnames_of es)) ->
       is_Some (path_to_node_map st !! OsPath.join top [d])) ->
    good' st (walk_all fnmatch cfg session_folder_ignores session_file_ignores top es st)
      (fun _ _ => True).
Proof.
  induction es as [| e' es IHes]; intros top st Hinv Hkeys; [by apply good_ret |].
  destruct e' as [n s | d' c].
  - rewrite walk_all_file. apply IHes; [done |]. intros d0 Hd0. by apply Hkeys.
  - rewrite walk_all_dir. rewrite dirnames_of_dir in Hkeys. cbn [List.filter] in Hkeys.
    destruct (keeps d') eqn:Hk; [| by apply IHes].
    assert (good' st
              (walk fnmatch cfg session_folder_ignores session_file_ignores
                 (OsPath.join top [d']) (Dir d' c) st)
              (fun _ st' =>
                 True /\ forall d0, In d0 (List.filter keeps (dirnames_of es)) ->
                           is_Some (path_to_node_map st' !! OsPath.join top [d0])))
      as Hsub.
    { apply (good_frame fnmatch cfg session_folder_ignores session_file_ignores _ _ _
               (fun st => forall d0, In d0 (List.filter keeps (dirnames_of es)) ->
                  is_Some (path_to_node_map st !! OsPath.join top [d0]))).
      - intros st2 st3 H [Hg _] d0 Hd0. apply Hg. by apply H.
      - intros d0 Hd0. apply Hkeys. by right.
      - apply walk_good; [done |]. apply Hkeys. by left. }
    destruct (walk _ _ _ _ (OsPath.join top [d']) (Dir d' c) st) as [[[] | ex] st2];
      [| exact Hsub].
    destruct Hsub as (Hinv2 & Hg2 & _ & Hkeys2).
    eapply good_weaken; [exact Hg2 |]. by apply IHes.
Qed.

(** In the view that does not separate the ignored files the scan ends
    without exception, and every file of the root folder is shown with
    the status of its name, unless the hide-ignored view skips it. *)
Lemma scan_shows_root_files (es : list entry) (w : Widgets) :
  exists st',
    scan fnmatch cfg session_folder_ignores session_file_ignores (Some es) (cleared w)
    = (Ok tt, st')
    /\ forall f, In f (files_of es) -> shown_file f st'.
Proof.
  assert (good' (cleared w)
            (scan fnmatch cfg session_folder_ignores session_file_ignores (Some es)
               (cleared w))
            (fun _ st' => forall f, In f (files_of es) -> shown_file f st')) as Hgood.
  { unfold scan. eapply good_bind.
    { apply tree_insert_good; [apply cleared_inv |]. by left. }
    intros root_node_id st1 Hinv1 _ [Hin _].
    eapply good_bind.
    { apply map_path_good; [done |].
      by apply (kept_root fnmatch cfg session_folder_ignores _ _ Hin). }
    intros [] st2 Hinv2 _ Hkey.
    eapply good_bind.
    { eapply (good_frame _ _ _ _ _ _ _
                (fun st => is_Some (path_to_node_map st !! root_folder cfg)));
        [| exact Hkey | by apply record_path_good].
      intros ? ?. by apply keys_grow. }
    intros [] st3 Hinv3 _ [_ Hkey3].
    rewrite walk_listed. eapply good_bind; [by apply visit_shows |].
    intros [] st4 Hinv4 _ [Hfiles Hkeys].
    eapply good_mono;
      [| eapply (good_frame _ _ _ _ _ _ _
                   (fun st => forall f, In f (files_of es) -> shown_file f st));
         [| exact Hfiles | by apply walk_all_good]].
    - by intros [] st5 [_ ?].
    - intros st5 st6 H Hg f Hf. eapply shown_file_grows; [by apply H | done]. }
  destruct (scan _ _ _ _ (Some es) (cleared w)) as [[[] | e] st'].
  - exists st'. split; [done |]. by destruct Hgood as (_ & _ & ?).
  - destruct Hgood as (_ & _ & Hsep). congruence.
Qed.

End RootFiles.
(* ===================================================================== *)
(** ** The whole method: what the design document states                  *)
(* ===================================================================== *)

Section MethodClaims.

Import UIManager ScanInv PopulateFileTree FilterTree Gui.

(** What the whole method leaves when it has gone through
    [filter_tree]: top-level folder nodes. *)
Lemma populate_file_tree_ends (fnmatch : string -> string -> bool)
    (literal_eval : string -> res value) (fuel : nat) (cfg : Settings)
    (filter_var : string) (isdir : bool) (root : option (list entry)) (w : Widgets)
    (r' : outcome) :
  populate_file_tree fnmatch literal_eval fuel cfg filter_var isdir root w = Some r' ->
  r' = scan_root_folder fnmatch literal_eval cfg isdir root w
  \/ (raised (scan_root_folder fnmatch literal_eval cfg isdir root w) = None
      /\ top_level_folders (tree (widgets r'))
      /\ ignored_tree (widgets r')
         = ignored_tree (widgets (scan_root_folder fnmatch literal_eval cfg isdir root w))).
Proof.
  unfold populate_file_tree.
  destruct (negb (PyStr.truthy (root_folder cfg)) || negb isdir); [intros [= <-]; by left |].
  destruct (raised (scan_root_folder fnmatch literal_eval cfg isdir root w)) as [e |];
    [intros [= <-]; by left |].
  destruct (filter_tree fuel filter_var (root_folder cfg) _) as [[x w'] |] eqn:Hf; [| done].
  intros [= <-]. right. simpl. split; [done |].
  split; [by eapply filter_tree_top_level |].
  by apply filter_tree_inv in Hf as (-> & _).
Qed.

Lemma item_ok_three_values (fnmatch : string -> string -> bool) (cfg : Settings)
    (fs gs : list string) (tv : Tk.Treeview) (it : Tk.item) :
  item_ok fnmatch cfg fs gs tv it -> length (Tk.values it) = 3%nat.
Proof.
  intros [(_ & _ & ->) | (_ & [(-> & _) | (_ & size & ext & -> & _)])]; done.
Qed.

(** C1.  A folder whose name matches a pattern of the global or of the
    session folder list is not visited.  When the test of lines 337-338
    meets such a name it drops it, or, for a session value that is not
    a sequence of strings, ends the scan there.  The outcome of the
    whole method is its outcome on the directory from which every
    dropped folder has been removed with all it holds.  In the store
    that lines 302-383 build, the lower widget is empty and every item
    of the primary widget is the root node or hangs from it through
    folders whose names match no pattern, and matches none itself if it
    is a folder; every path of the selection collected from that store
    is built from such an item; and what the method leaves after
    [filter_tree] is that store or top-level folder nodes from which
    nothing is collected. *)
Theorem pruned_folders_never_visited (fnmatch : string -> string -> bool)
    (literal_eval : string -> res value) (fuel : nat) (cfg : Settings)
    (filter_var : string) (isdir : bool) (root : option (list entry)) (w : Widgets) :
  let folders := (session_values literal_eval cfg).1 in
  let stays := fun d => negb (dropped fnmatch cfg folders d) in
  let keeps := UIManager.keeps_folder fnmatch cfg (strings_of folders) in
  let r := scan_root_folder fnmatch literal_eval cfg isdir root w in
  let tv := tree (widgets r) in
  (forall d, keeps d = false ->
     dropped fnmatch cfg folders d = true
     \/ exists e, PopulateFileTree.keeps_folder fnmatch cfg folders d = Raise e
                  /\ exc_cls e = TypeError)
  /\ populate_file_tree fnmatch literal_eval fuel cfg filter_var isdir root w
     = populate_file_tree fnmatch literal_eval fuel cfg filter_var isdir
         (option_map (prune_all stays) root) w
  /\ (forall es, root = Some es -> forallb (all_kept stays) (prune_all stays es) = true)
  /\ Tk.items (ignored_tree (widgets r)) = []
  /\ well_formed tv
  /\ (forall it, In it (Tk.items tv) ->
        is_root_item cfg it
        \/ (kept_folder fnmatch cfg (strings_of folders) tv (Tk.parent it)
            /\ (Tk.values it = folder_values -> keeps (Tk.text it) = true)))
  /\ (exists selection,
        Main.files_to_process (2 * Tk.serial tv + 1) tv (root_folder cfg)
        = Some (Ok selection)
        /\ Forall (fun p =>
                     exists it parents,
                       In it (Tk.items tv)
                       /\ Tk.values it !! 0%nat = Some "Included"
                       /\ chain tv (Tk.parent it) (root_text cfg :: parents)
                       /\ Forall (fun d => keeps d = true) parents
                       /\ p = OsPath.join (root_folder cfg)
                                (root_text cfg :: parents ++ [Tk.text it]))
                  selection)
  /\ (forall r',
        populate_file_tree fnmatch literal_eval fuel cfg filter_var isdir root w = Some r' ->
        Tk.items (ignored_tree (widgets r')) = []
        /\ (r' = r
            \/ (top_level_folders (tree (widgets r'))
                /\ Main.files_to_process 2 (tree (widgets r')) (root_folder cfg)
                   = Some (Ok [])))).
Proof.
  intros folders stays keeps r tv.
  destruct (scan_root_folder_invariant fnmatch literal_eval cfg isdir root w)
    as (Hwf & Hitems & Hign & _).
  fold r in Hwf, Hitems, Hign. fold tv in Hwf, Hitems.
  split; [| split; [| split; [| split; [exact Hign | split; [exact Hwf | split; [| split]]]]]].
  - intros d Hd.
    pose proof (keeps_folder_spec fnmatch cfg folders d) as Hspec. unfold dropped.
    destruct (PopulateFileTree.keeps_folder fnmatch cfg folders d) as [b | e].
    + left. fold keeps in Hspec. rewrite Hspec, Hd. done.
    + right. exists e. by destruct Hspec.
  - unfold populate_file_tree. subst stays folders.
    by rewrite scan_root_folder_prune.
  - intros es _. apply all_kept_prune_all_any.
  - intros it Hin. destruct (Hitems it Hin) as [Hroot | (Hk & Hshape)]; [by left | right].
    split; [exact Hk |]. intros Hv.
    destruct Hshape as [(_ & Hkeep) | (_ & size & ext & Hv' & _)]; [exact Hkeep |].
    rewrite Hv in Hv'. injection Hv' as Hs _ _.
    by destruct (file_status_nonempty _ _ _ (eq_sym Hs)).
  - destruct (files_to_process_total tv (root_folder cfg) Hwf) as (selection & Hsel).
    { intros it Hin. eapply item_ok_three_values. by apply Hitems. }
    exists selection. split; [exact Hsel |].
    apply collect_sound in Hsel as (added & -> & Hadded). simpl.
    eapply Forall_impl; [exact Hadded |].
    intros p (it & names & Hin & Hinc & Hc & ->).
    destruct (Hitems it Hin) as [(_ & _ & Hv) | ((parents & Hc' & Hkept) & _)].
    { rewrite Hv in Hinc. done. }
    exists it, parents.
    rewrite (chain_functional tv _ _ _ Hwf Hc Hc') in *. done.
  - intros r' Hr'.
    destruct (populate_file_tree_ends _ _ _ _ _ _ _ _ _ Hr') as [-> | (_ & Htop & Hsame)].
    + split; [exact Hign | by left].
    + fold r in Hsame. rewrite Hsame. split; [exact Hign | right].
      split; [exact Htop |]. by apply collect_top_level.
Qed.

(** C9, as amended.  When reading one of the two session texts raises
    [ValueError] or [SyntaxError], the scan of an existing root folder
    shows the warning about invalid patterns and runs with both session
    values empty: lines 302-383 leave what the scan with empty session
    lists leaves, folders are kept or dropped by the global folder list
    alone, and the status of every file shown is the one that the
    global file list and the extension filter give to its name.  In the
    view that does not separate the ignored files, the loop of the scan
    runs to its end without exception, every file of the root folder
    that the hide-ignored view does not skip is shown, and the method
    goes on to [filter_tree], with whose outcome it ends. *)
Theorem unparseable_patterns_fall_back (fnmatch : string -> string -> bool)
    (literal_eval : string -> res value) (fuel : nat) (cfg : Settings)
    (filter_var : string) (root : option (list entry)) (w : Widgets) (e : exn) :
  PyStr.truthy (root_folder cfg) = true ->
  literal_eval (folder_ignore_patterns cfg) = Raise e
  \/ (exists folders, literal_eval (folder_ignore_patterns cfg) = Ok folders
                      /\ literal_eval (file_ignore_patterns cfg) = Raise e) ->
  exc_cls e = ValueError \/ exc_cls e = SyntaxError ->
  let r := scan_root_folder fnmatch literal_eval cfg true root w in
  let status (name : string) :=
    file_status false (is_global_file_ignored fnmatch cfg name) (is_ext_match cfg name) in
  shown r = [invalid_patterns]
  /\ session_values literal_eval cfg = (VIterable [], VIterable [])
  /\ r = finish [invalid_patterns] (UIManager.scan fnmatch cfg [] [] root (cleared w))
  /\ (forall d, PopulateFileTree.keeps_folder fnmatch cfg (VIterable []) d
                = Ok (negb (existsb (fnmatch d)
                              (ConfigManager.global_folder_ignores (config_handler cfg)))))
  /\ (forall it, In it (Tk.items (tree (widgets r))) ->
        Tk.values it = folder_values
        \/ exists size ext,
             Tk.values it = [(status (Tk.text it)).1; size; ext]
             /\ Tk.tags it = (status (Tk.text it)).2)
  /\ (show_ignored_separately cfg = false ->
      raised r = None
      /\ (forall es f, root = Some es -> In f (files_of es) ->
            skipped fnmatch cfg [] f.1 = false ->
            exists id parent,
              In (Tk.Item id parent f.1
                    [(status f.1).1;
                     match f.2 with Some n => size_kb n | None => "N/A" end;
                     (OsPath.splitext f.1).2]
                    (status f.1).2 false)
                 (Tk.items (tree (widgets r))))
      /\ populate_file_tree fnmatch literal_eval fuel cfg filter_var true root w
         = match filter_tree fuel filter_var (root_folder cfg) (widgets r) with
           | Some (x, w') =>
               Some (MkOutcome w' [invalid_patterns]
                       (match x with Ok _ => None | Raise e' => Some e' end))
           | None => None
           end).
Proof.
  intros Hroot Hparse Hcls r status.
  assert (caught e = true) as Hcaught.
  { unfold caught. destruct Hcls as [-> | ->]; by rewrite ?orb_true_r. }
  assert (session_values literal_eval cfg = (VIterable [], VIterable [])) as Hvalues.
  { unfold session_values. destruct Hparse as [-> | (folders & -> & ->)]; done. }
  assert (r = finish [invalid_patterns] (UIManager.scan fnmatch cfg [] [] root (cleared w)))
    as Hr.
  { subst r. unfold scan_root_folder. rewrite Hroot. simpl.
    assert (PopulateFileTree.scan fnmatch cfg (VIterable []) (VIterable []) root (cleared w)
            = UIManager.scan fnmatch cfg [] [] root (cleared w)) as Hscan
      by (by rewrite scan_typed).
    destruct Hparse as [-> | (folders & -> & ->)]; rewrite Hcaught; by rewrite <- Hscan. }
  split; [by rewrite Hr |]. split; [exact Hvalues |]. split; [exact Hr |].
  split; [done |].
  assert (forall name, status_of fnmatch cfg [] name = status name) as Hstatus by done.
  pose proof (scan_good fnmatch cfg [] [] root w) as Hgood.
  split.
  - intros it Hin. rewrite Hr in Hin. unfold finish in Hin. simpl in Hin.
    destruct (UIManager.scan fnmatch cfg [] [] root (cleared w)) as [[[] | ex] st];
      simpl in Hin; destruct Hgood as ((_ & Hitems & _) & _);
      (destruct (Hitems it Hin)
         as [(_ & _ & ->) | (_ & [(-> & _) | (_ & size & ext & Hv & Ht)])];
       [by left | by left | right; exists size, ext; by rewrite <- Hstatus]).
  - intros Hview.
    assert (exists st, UIManager.scan fnmatch cfg [] [] root (cleared w) = (Ok tt, st))
      as (st & Hst).
    { destruct (UIManager.scan fnmatch cfg [] [] root (cleared w)) as [[[] | ex] st].
      - by exists st.
      - destruct Hgood as (_ & _ & Hsep). congruence. }
    assert (raised r = None) as Hnone by (by rewrite Hr, Hst).
    split; [exact Hnone |]. split.
    + intros es f -> Hf Hskip.
      destruct (scan_shows_root_files fnmatch cfg [] [] Hview es w) as (st' & Hst' & Hfiles).
      rewrite Hst in Hst'. injection Hst' as <-.
      destruct (Hfiles f Hf Hskip) as (id & parent & Hin).
      exists id, parent. rewrite Hr, Hst. rewrite <- !Hstatus. exact Hin.
    + unfold populate_file_tree. fold r. rewrite Hroot, Hnone. simpl.
      assert (shown r = [invalid_patterns]) as -> by (by rewrite Hr). done.
Qed.

Lemma unparseable_patterns_fall_back_witness :
  let cfg := Project.settings "/home/u/proj" "['*.tmp'" "['a.py']" false false in
  let r := scan_root_folder Lib.fnmatch Literals.literal_eval cfg true Project.listing
                            Project.blank in
  let status (name : string) :=
    file_status false (is_global_file_ignored Lib.fnmatch cfg name)
                (is_ext_match cfg name) in
  shown r = [invalid_patterns]
  /\ session_values Literals.literal_eval cfg = (VIterable [], VIterable [])
  /\ r = finish [invalid_patterns]
           (UIManager.scan Lib.fnmatch cfg [] [] Project.listing (cleared Project.blank))
  /\ (forall d, PopulateFileTree.keeps_folder Lib.fnmatch cfg (VIterable []) d
                = Ok (negb (existsb (Lib.fnmatch d)
                              (ConfigManager.global_folder_ignores (config_handler cfg)))))
  /\ (forall it, In it (Tk.items (tree (widgets r))) ->
        Tk.values it = folder_values
        \/ exists size ext,
             Tk.values it = [(status (Tk.text it)).1; size; ext]
             /\ Tk.tags it = (status (Tk.text it)).2)
  /\ (show_ignored_separately cfg = false ->
      raised r = None
      /\ (forall es f, Project.listing = Some es -> In f (files_of es) ->
            skipped Lib.fnmatch cfg [] f.1 = false ->
            exists id parent,
              In (Tk.Item id parent f.1
                    [(status f.1).1;
                     match f.2 with Some n => size_kb n | None => "N/A" end;
                     (OsPath.splitext f.1).2]
                    (status f.1).2 false)
                 (Tk.items (tree (widgets r))))
      /\ populate_file_tree Lib.fnmatch Literals.literal_eval 8 cfg "" true Project.listing
           Project.blank
         = match filter_tree 8 "" (root_folder cfg) (widgets r) with
           | Some (x, w') =>
               Some (MkOutcome w' [invalid_patterns]
                       (match x with Ok _ => None | Raise e' => Some e' end))
           | None => None
           end).
Proof.
  apply (unparseable_patterns_fall_back Lib.fnmatch Literals.literal_eval 8
           (Project.settings "/home/u/proj" "['*.tmp'" "['a.py']" false false) ""
           Project.listing Project.blank (Exn SyntaxError "invalid syntax")).
  - reflexivity.
  - left. reflexivity.
  - right. reflexivity.
Defined.

(** C9 as stated fails for a text that the reader refuses with another
    exception, and for a text that denotes a value of another kind.  On
    the dict display [{[]: 1}] the reader raises [TypeError], which is
    not caught: no warning is shown and nothing is scanned.  The text
    [5] is read without error: no warning is shown, and the scan stops
    at the first folder it tests, with the root node alone in the
    widget. *)
Lemma unhashable_text_is_not_reported :
  (exists r,
     populate_file_tree Lib.fnmatch Literals.literal_eval 8
       (Project.settings "/home/u/proj" "{[]: 1}" "[]" false false) "" true
       Project.listing Project.blank = Some r
     /\ shown r = []
     /\ raised r = Some (Exn TypeError "unhashable type: 'list'")
     /\ Tk.items (tree (widgets r)) = []
     /\ Tk.items (ignored_tree (widgets r)) = [])
  /\ (exists r,
        populate_file_tree Lib.fnmatch Literals.literal_eval 8
          (Project.settings "/home/u/proj" "5" "[]" false false) "" true
          Project.listing Project.blank = Some r
        /\ shown r = []
        /\ raised r = Some (Exn TypeError "'int' object is not iterable")
        /\ map Tk.text (Tk.items (tree (widgets r))) = ["proj"]
        /\ Tk.items (ignored_tree (widgets r)) = []).
Proof.
  split; eexists; (split; [vm_compute; reflexivity |]); repeat split.
Qed.

(** X4.  In the view that does not separate the ignored files, when the
    whole method has ended, either the scan was stopped by the
    [TypeError] of a session value that is not a sequence of strings,
    or the primary widget shows no file: it holds top-level folder
    nodes only, the lower widget is empty, and [start_consolidation]
    finds nothing to process, whatever the scan had found. *)
Theorem scan_leaves_nothing_to_consolidate (fnmatch : string -> string -> bool)
    (literal_eval : string -> res value) (fuel : nat) (cfg : Settings)
    (filter_var : string) (isdir : bool) (root : option (list entry))
    (w : Widgets) (r : outcome) (fuel' : nat) (d : Desktop) (output_format : string)
    (win : Window) :
  show_ignored_separately cfg = false ->
  populate_file_tree fnmatch literal_eval fuel cfg filter_var isdir root w = Some r ->
  PyStr.truthy (root_folder cfg) = true ->
  (2 <= fuel')%nat ->
  (exists e, raised r = Some e
             /\ ill_typed (session_values literal_eval cfg).1
                          (session_values literal_eval cfg).2 e)
  \/ (top_level_folders (tree (widgets r))
      /\ Tk.items (ignored_tree (widgets r)) = []
      /\ App.start_consolidation fuel' d (root_folder cfg) output_format
           (tree (widgets r)) win
         = Some (Ok tt,
                 emit (ShowInfo "No Files To Process"
                         "No files are marked as 'Included' based on current settings.")
                      win)).
Proof.
  intros Hview Hrun Hroot Hfuel.
  destruct (scan_root_folder_invariant fnmatch literal_eval cfg isdir root w)
    as (_ & _ & Hign & Hraised).
  assert (top_level_folders (tree (widgets r))
          /\ Tk.items (ignored_tree (widgets r)) = [] ->
          top_level_folders (tree (widgets r))
          /\ Tk.items (ignored_tree (widgets r)) = []
          /\ App.start_consolidation fuel' d (root_folder cfg) output_format
               (tree (widgets r)) win
             = Some (Ok tt,
                     emit (ShowInfo "No Files To Process"
                             "No files are marked as 'Included' based on current settings.")
                          win)) as Hdone.
  { intros [Htop Hempty]. split; [done |]. split; [done |].
    unfold App.start_consolidation. rewrite Hroot. simpl.
    by rewrite (collect_top_level _ _ _ Htop Hfuel). }
  assert (forall tv, Tk.items tv = [] -> top_level_folders tv) as Hnil.
  { intros tv He it Hin. by rewrite He in Hin. }
  destruct (populate_file_tree_ends _ _ _ _ _ _ _ _ _ Hrun) as [-> | (_ & Htop & Hsame)].
  - destruct (raised (scan_root_folder fnmatch literal_eval cfg isdir root w))
      as [e |] eqn:He.
    + destruct (Hraised e eq_refl) as [Hsep | [Hill | Hempty]]; [congruence | |].
      * left. by exists e.
      * right. apply Hdone. split; [by apply Hnil | exact Hign].
    + right. apply Hdone. split; [| exact Hign].
      unfold populate_file_tree in Hrun. rewrite He in Hrun.
      destruct (negb (PyStr.truthy (root_folder cfg)) || negb isdir) eqn:Hidle.
      * apply Hnil. unfold scan_root_folder. by rewrite Hidle.
      * destruct (filter_tree fuel filter_var (root_folder cfg) _) as [[x w'] |] eqn:Hf;
          [| done].
        injection Hrun as Hrun. rewrite <- Hrun. simpl.
        by eapply filter_tree_top_level.
  - right. apply Hdone. split; [exact Htop |]. by rewrite Hsame.
Qed.

Lemma scan_leaves_nothing_to_consolidate_witness :
  (exists e,
     raised (Session.outcome_of
               (populate_file_tree Lib.fnmatch Literals.literal_eval 8
                  Session.manual_settings "" true Session.manual Project.blank)) = Some e
     /\ ill_typed (session_values Literals.literal_eval Session.manual_settings).1
                  (session_values Literals.literal_eval Session.manual_settings).2 e)
  \/ (top_level_folders
        (tree (widgets (Session.outcome_of
                          (populate_file_tree Lib.fnmatch Literals.literal_eval 8
                             Session.manual_settings "" true Session.manual
                             Project.blank))))
      /\ Tk.items
           (ignored_tree
              (widgets (Session.outcome_of
                          (populate_file_tree Lib.fnmatch Literals.literal_eval 8
                             Session.manual_settings "" true Session.manual
                             Project.blank))))
         = []
      /\ App.start_consolidation 2 (Session.desktop true "out.txt")
           (root_folder Session.manual_settings) "TXT"
           (tree (widgets (Session.outcome_of
                             (populate_file_tree Lib.fnmatch Literals.literal_eval 8
                                Session.manual_settings "" true Session.manual
                                Project.blank))))
           Session.idle
         = Some (Ok tt,
                 emit (ShowInfo "No Files To Process"
                         "No files are marked as 'Included' based on current settings.")
                      Session.idle)).
Proof.
  apply (scan_leaves_nothing_to_consolidate Lib.fnmatch Literals.literal_eval 8
           Session.manual_settings "" true Session.manual Project.blank
           (Session.outcome_of
              (populate_file_tree Lib.fnmatch Literals.literal_eval 8
                 Session.manual_settings "" true Session.manual Project.blank))
           2 (Session.desktop true "out.txt") "TXT" Session.idle).
  - reflexivity.
  - vm_compute. reflexivity.
  - reflexivity.
  - lia.
Defined.

End MethodClaims.
(** ** the interface thread *)

Section WindowFacts.

Import Gui.

Lemma emit_all_app (evs1 evs2 : list event) (win : Window) :
  emit_all (evs1 ++ evs2) win = emit_all evs2 (emit_all evs1 win).
Proof. apply fold_left_app. Qed.

Lemma emit_all_events (evs : list event) (win : Window) :
  events (emit_all evs win) = events win ++ evs.
Proof.
  revert win. induction evs as [|ev evs IH]; intros win; simpl.
  - by rewrite app_nil_r.
  - rewrite IH. simpl. by rewrite <- app_assoc.
Qed.

(** Events change nothing else in the window. *)
Lemma emit_all_frame (evs : list event) (win : Window) :
  status_label (emit_all evs win) = status_label win
  /\ progress_value (emit_all evs win) = progress_value win
  /\ progress_maximum (emit_all evs win) = progress_maximum win
  /\ start_button (emit_all evs win) = start_button win
  /\ cancel_button (emit_all evs win) = cancel_button win
  /\ view_errors_button (emit_all evs win) = view_errors_button win
  /\ cancel_requested (emit_all evs win) = cancel_requested win
  /\ processing_errors (emit_all evs win) = processing_errors win
  /\ files (emit_all evs win) = files win.
Proof.
  revert win. induction evs as [|ev evs IH]; intros win; simpl; [done |].
  destruct (IH (emit ev win)) as (-> & -> & -> & -> & -> & -> & -> & -> & ->). done.
Qed.

(** Opening the output shows events and nothing else. *)
Lemma open_output_emits (d : Desktop) (output_filename : string) (win : Window) :
  exists opening, Utils.open_output d output_filename win = emit_all opening win.
Proof.
  unfold Utils.open_output.
  destruct (startfile d output_filename) as [e |]; [| by exists [StartFile output_filename]].
  destruct (bool_decide (exc_cls e = AttributeError)).
  - destruct (call d ["open"; output_filename]); [| by eexists [_; _]].
    destruct (call d ["xdg-open"; output_filename]); [by eexists [_; _; _; _] |].
    by eexists [_; _; _].
  - by eexists [_; _].
Qed.

Lemma show_completion_message_emits (d : Desktop) (total_files error_count : Z)
    (output_filename : string) (win : Window) :
  exists opening,
    Utils.show_completion_message d total_files error_count output_filename win
    = emit_all (AskYesNo "Operation Complete"
                  (Utils.success_msg total_files error_count +:+ Utils.nl +:+ Utils.nl
                   +:+ "Do you want to open the file?") :: opening) win.
Proof.
  unfold Utils.show_completion_message.
  destruct (askyesno d _ _); [| by exists []].
  destruct (open_output_emits d output_filename
              (emit (AskYesNo "Operation Complete"
                       (Utils.success_msg total_files error_count +:+ Utils.nl
                        +:+ Utils.nl +:+ "Do you want to open the file?")) win))
    as (opening & ->).
  by exists opening.
Qed.

Lemma reset_ui_state_frame (win : Window) :
  progress_value (App.reset_ui_state win) = 0
  /\ progress_maximum (App.reset_ui_state win) = progress_maximum win
  /\ start_button (App.reset_ui_state win) = "normal"
  /\ cancel_button (App.reset_ui_state win) = "disabled"
  /\ view_errors_button (App.reset_ui_state win) = view_errors_button win
  /\ cancel_requested (App.reset_ui_state win) = false
  /\ processing_errors (App.reset_ui_state win) = processing_errors win
  /\ files (App.reset_ui_state win) = files win
  /\ events (App.reset_ui_state win) = events win.
Proof. unfold App.reset_ui_state. simpl. by destruct (_ && _). Qed.

End WindowFacts.

Section AppProperties.

Import Gui.

(** X6.  With the class as it is laid out, a run of the worker merges
    nothing, whatever the format: no file is read or written and one
    error is recorded.  The interface thread, when it then empties the
    queue, resets the buttons and the progress bar and asks whether to
    open the output under the words [Success! Consolidated N-1 of N
    files.], [N] being the number of files. *)
Theorem every_run_fails_and_reports_success (w : FileProcessor.World) (d : Desktop)
    (file_paths : list string) (output_filename output_format : string)
    (st : FileProcessor.Worker) (win : Window) :
  FileProcessor.processing_errors st = [] ->
  FileProcessor.processing_queue st = [] ->
  processing_errors win
  = FileProcessor.processing_errors
      (FileProcessor.process_files w file_paths output_filename output_format st).2 ->
  let st' := (FileProcessor.process_files w file_paths output_filename output_format st).2 in
  let win' := App.check_queue d (FileProcessor.processing_queue st') win in
  FileProcessor.disk st' = FileProcessor.disk st
  /\ FileProcessor.log st' = FileProcessor.log st
  /\ length (FileProcessor.processing_errors st') = 1%nat
  /\ progress_maximum win' = length file_paths
  /\ progress_value win' = 0%nat
  /\ start_button win' = "normal"
  /\ cancel_button win' = "disabled"
  /\ view_errors_button win' = "normal"
  /\ exists opening,
       events win'
       = events win
         ++ AskYesNo "Operation Complete"
              ("Success! Consolidated "
               +:+ pretty (Z.of_nat (length file_paths) - 1)%Z
               +:+ " of " +:+ pretty (Z.of_nat (length file_paths)) +:+ " files."
               +:+ Utils.nl +:+ Utils.nl
               +:+ "Encountered 1 errors. Check the error log for details."
               +:+ Utils.nl +:+ Utils.nl +:+ "Do you want to open the file?")
            :: opening.
Proof.
  intros Herrors Hqueue. rewrite process_files_fails. simpl. rewrite Herrors, Hqueue.
  simpl. intros Hseen.
  split; [done |]. split; [done |]. split; [done |].
  destruct (reset_ui_state_frame (set_progress_maximum (length file_paths) win))
    as (Hv & Hm & Hs & Hc & _ & _ & He & _ & Hev).
  simpl in He, Hm, Hev. rewrite He, Hseen.
  destruct (show_completion_message_emits d (Z.of_nat (length file_paths))
              (Z.of_nat (length
                 ["A critical error occurred: 'FileProcessor' object has no attribute 'merge_as_pdf'"]))
              output_filename
              (set_view_errors_button "normal"
                 (App.reset_ui_state (set_progress_maximum (length file_paths) win))))
    as (opening & ->).
  destruct (emit_all_frame
              (AskYesNo "Operation Complete"
                 (Utils.success_msg (Z.of_nat (length file_paths))
                    (Z.of_nat (length
                       ["A critical error occurred: 'FileProcessor' object has no attribute 'merge_as_pdf'"]))
                  +:+ Utils.nl +:+ Utils.nl +:+ "Do you want to open the file?") :: opening)
              (set_view_errors_button "normal"
                 (App.reset_ui_state (set_progress_maximum (length file_paths) win))))
    as (_ & -> & -> & -> & -> & -> & _).
  rewrite emit_all_events.
  split; [done |]. split; [done |]. split; [done |]. split; [done |]. split; [done |].
  exists opening. simpl events. rewrite Hev. f_equal. f_equal. f_equal.
  unfold Utils.success_msg. simpl length. simpl (0 <? _)%Z. cbv beta iota.
  by rewrite !append_assoc.
Qed.

Lemma every_run_fails_and_reports_success_witness :
  let st' :=
    (FileProcessor.process_files (Scenario.world true Scenario.never)
       ["a.txt"; "b.txt"; "c.txt"] "out.txt" "TXT" Scenario.fresh).2 in
  let win' :=
    App.check_queue (Session.desktop false "") (FileProcessor.processing_queue st')
      (Session.polled (FileProcessor.processing_errors st')) in
  FileProcessor.disk st' = FileProcessor.disk Scenario.fresh
  /\ FileProcessor.log st' = FileProcessor.log Scenario.fresh
  /\ length (FileProcessor.processing_errors st') = 1%nat
  /\ progress_maximum win' = length ["a.txt"; "b.txt"; "c.txt"]
  /\ progress_value win' = 0%nat
  /\ start_button win' = "normal"
  /\ cancel_button win' = "disabled"
  /\ view_errors_button win' = "normal"
  /\ exists opening,
       events win'
       = events (Session.polled (FileProcessor.processing_errors st'))
         ++ AskYesNo "Operation Complete"
              ("Success! Consolidated "
               +:+ pretty (Z.of_nat (length ["a.txt"; "b.txt"; "c.txt"]) - 1)%Z
               +:+ " of " +:+ pretty (Z.of_nat (length ["a.txt"; "b.txt"; "c.txt"]))
               +:+ " files."
               +:+ Utils.nl +:+ Utils.nl
               +:+ "Encountered 1 errors. Check the error log for details."
               +:+ Utils.nl +:+ Utils.nl +:+ "Do you want to open the file?")
            :: opening.
Proof.
  apply (every_run_fails_and_reports_success (Scenario.world true Scenario.never)
           (Session.desktop false "") ["a.txt"; "b.txt"; "c.txt"] "out.txt" "TXT"
           Scenario.fresh
           (Session.polled
              (FileProcessor.processing_errors
                 (FileProcessor.process_files (Scenario.world true Scenario.never)
                    ["a.txt"; "b.txt"; "c.txt"] "out.txt" "TXT" Scenario.fresh).2))).
  - reflexivity.
  - reflexivity.
  - reflexivity.
Defined.

(** X7.  When the queue announces the end of a run and no error is
    recorded, the completion dialog counts the components of the
    message, not the files: it reads [Success! Consolidated 2 of 2
    files.] for every list of files. *)
Theorem completion_dialog_counts_two (d : Desktop) (file_paths : list string)
    (output_filename : string) (win : Window) :
  processing_errors win = [] ->
  exists opening,
    App.handle d (FileProcessor.Done file_paths output_filename) win
    = emit_all
        (AskYesNo "Operation Complete"
           ("Success! Consolidated 2 of 2 files." +:+ Utils.nl +:+ Utils.nl
            +:+ "Do you want to open the file?") :: opening)
        (App.reset_ui_state win).
Proof.
  intros Hnone. unfold App.handle.
  destruct (reset_ui_state_frame win) as (_ & _ & _ & _ & _ & _ & -> & _).
  rewrite Hnone.
  destruct (show_completion_message_emits d 2 0 output_filename (App.reset_ui_state win))
    as (opening & ->).
  by exists opening.
Qed.

Lemma completion_dialog_counts_two_witness :
  exists opening,
    App.handle (Session.desktop true "")
      (FileProcessor.Done ["a.txt"; "b.txt"; "c.txt"; "d.txt"; "e.txt"] "out.txt")
      Session.idle
    = emit_all
        (AskYesNo "Operation Complete"
           ("Success! Consolidated 2 of 2 files." +:+ Utils.nl +:+ Utils.nl
            +:+ "Do you want to open the file?") :: opening)
        (App.reset_ui_state Session.idle).
Proof.
  apply (completion_dialog_counts_two (Session.desktop true "")
           ["a.txt"; "b.txt"; "c.txt"; "d.txt"; "e.txt"] "out.txt" Session.idle).
  reflexivity.
Defined.

Lemma in_emit (ev ev' : event) (win : Window) :
  In ev (events (emit ev' win)) -> In ev (events win) \/ ev = ev'.
Proof. simpl. intros [? | [<- | []]]%in_app_iff; auto. Qed.

(** X8.  [start_consolidation] starts the worker only for one of the
    four formats, with the non-empty list of files it has collected from
    the primary widget and the name chosen in the file dialog, after it
    has emptied the list of errors, lowered the cancellation flag and
    switched the buttons.  (For any other format the method raises
    before the file dialog is shown.) *)
Theorem worker_started_only_with_known_format (fuel : nat) (d : Desktop)
    (root_folder output_format : string) (tree : Tk.Treeview) (win : Window)
    (x : res unit) (win' : Window) (file_paths : list string)
    (output_filename selector : string) :
  App.start_consolidation fuel d root_folder output_format tree win = Some (x, win') ->
  In (ThreadStart file_paths output_filename selector) (events win') ->
  ~ In (ThreadStart file_paths output_filename selector) (events win) ->
  x = Ok tt
  /\ selector = output_format
  /\ In output_format ["TXT"; "PDF"; "DOCX"; "PPTX"]
  /\ Main.files_to_process fuel tree root_folder = Some (Ok file_paths)
  /\ file_paths <> []
  /\ PyStr.truthy output_filename = true
  /\ PyStr.truthy root_folder = true
  /\ processing_errors win' = []
  /\ cancel_requested win' = false
  /\ start_button win' = "disabled"
  /\ cancel_button win' = "normal"
  /\ view_errors_button win' = "disabled".
Proof.
  intros Hrun Hin Hnew. unfold App.start_consolidation in Hrun.
  destruct (PyStr.truthy root_folder) eqn:Hroot; cbn [negb] in Hrun.
  2: { injection Hrun as <- <-. by apply in_emit in Hin as [? | ?]. }
  destruct (Main.files_to_process fuel tree root_folder) as [[files | e] |] eqn:Hfiles;
    [| by injection Hrun as <- <- | done].
  destruct files as [|f files].
  { injection Hrun as <- <-. by apply in_emit in Hin as [? | ?]. }
  set (asked := Py.mem output_format ["DOCX"; "PPTX"]
                && App.incompatible_found output_format (f :: files)) in *.
  assert (~ In (ThreadStart file_paths output_filename selector)
            (events (if asked
                     then emit (AskYesNo "Incompatible Files Warning"
                                  (App.incompatible_warning output_format)) win
                     else win))) as Hnew'.
  { destruct asked; [| done]. by intros [? | ?]%in_emit. }
  destruct (asked && negb (askyesno d _ _)); [by injection Hrun as <- <- |].
  assert (App.dict_get App.file_dialog_options output_format <> None ->
          In output_format ["TXT"; "PDF"; "DOCX"; "PPTX"]) as Hknown.
  { unfold App.dict_get, App.file_dialog_options. cbn [List.find fst snd].
    destruct (String.eqb_spec "TXT" output_format) as [<- | _]; [simpl; tauto |].
    destruct (String.eqb_spec "PDF" output_format) as [<- | _]; [simpl; tauto |].
    destruct (String.eqb_spec "DOCX" output_format) as [<- | _]; [simpl; tauto |].
    destruct (String.eqb_spec "PPTX" output_format) as [<- | _]; [simpl; tauto |].
    done. }
  destruct (App.dict_get App.file_dialog_options output_format) as [info |];
    [| by injection Hrun as <- <-].
  specialize (Hknown ltac:(done)).
  destruct (PyStr.truthy (asksaveasfilename d _ _ _)) eqn:Hname; cbn [negb] in Hrun.
  2: { injection Hrun as <- <-. simpl in Hin. by apply in_emit in Hin as [? | ?]. }
  injection Hrun as <- <-.
  apply in_emit in Hin as [Hin | [= -> -> ->]].
  { simpl in Hin. by apply in_emit in Hin as [? | ?]. }
  repeat split; done.
Qed.

Lemma worker_started_only_with_known_format_witness :
  (Ok tt : res unit) = Ok tt
  /\ "TXT" = "TXT"
  /\ In "TXT" ["TXT"; "PDF"; "DOCX"; "PPTX"]
  /\ Main.files_to_process 20 (UIManager.tree (Session.scanned "/home/u/proj"))
       "/home/u/proj"
     = Some (Ok ["/home/u/proj/proj/src/m.py"; "/home/u/proj/proj/a.py"])
  /\ ["/home/u/proj/proj/src/m.py"; "/home/u/proj/proj/a.py"] <> []
  /\ PyStr.truthy "out.txt" = true
  /\ PyStr.truthy "/home/u/proj" = true
  /\ processing_errors
       (Session.window_of
          (App.start_consolidation 20 (Session.desktop true "out.txt") "/home/u/proj"
             "TXT" (UIManager.tree (Session.scanned "/home/u/proj"))
             (Session.polled ["an error of the run before"]))) = []
  /\ cancel_requested
       (Session.window_of
          (App.start_consolidation 20 (Session.desktop true "out.txt") "/home/u/proj"
             "TXT" (UIManager.tree (Session.scanned "/home/u/proj"))
             (Session.polled ["an error of the run before"]))) = false
  /\ start_button
       (Session.window_of
          (App.start_consolidation 20 (Session.desktop true "out.txt") "/home/u/proj"
             "TXT" (UIManager.tree (Session.scanned "/home/u/proj"))
             (Session.polled ["an error of the run before"]))) = "disabled"
  /\ cancel_button
       (Session.window_of
          (App.start_consolidation 20 (Session.desktop true "out.txt") "/home/u/proj"
             "TXT" (UIManager.tree (Session.scanned "/home/u/proj"))
             (Session.polled ["an error of the run before"]))) = "normal"
  /\ view_errors_button
       (Session.window_of
          (App.start_consolidation 20 (Session.desktop true "out.txt") "/home/u/proj"
             "TXT" (UIManager.tree (Session.scanned "/home/u/proj"))
             (Session.polled ["an error of the run before"]))) = "disabled".
Proof.
  apply (worker_started_only_with_known_format 20 (Session.desktop true "out.txt")
           "/home/u/proj" "TXT" (UIManager.tree (Session.scanned "/home/u/proj"))
           (Session.polled ["an error of the run before"])).
  - vm_compute. reflexivity.
  - vm_compute. right. left. reflexivity.
  - vm_compute. intros [].
Defined.

End AppProperties.

Section RunProperties.

Import Gui.

(** X14.  Whatever the merge functions do, a run of [process_files]
    lets no exception escape and ends by announcing that it is done;
    and the interface thread, once it has handled the messages of the
    run, has enabled the start button again, disabled the cancel
    button, emptied the progress bar and lowered the cancellation
    flag. *)
Theorem window_unlocked_after_any_run (w : FileProcessor.World)
    (attributes : list (string * FileProcessor.strategy)) (d : Desktop)
    (file_paths : list string) (output_filename output_format : string)
    (st : FileProcessor.Worker) (win : Window) :
  let run :=
    FileProcessor.process_files_with w attributes file_paths output_filename
                                     output_format st in
  let win' := App.check_queue d (FileProcessor.processing_queue run.2) win in
  (forall e, run.1 <> FileProcessor.Raised e)
  /\ last (FileProcessor.processing_queue run.2)
     = Some (FileProcessor.Done file_paths output_filename)
  /\ start_button win' = "normal"
  /\ cancel_button win' = "disabled"
  /\ progress_value win' = 0%nat
  /\ cancel_requested win' = false.
Proof.
  intros run win'. subst win'.
  assert (exists r st1,
            run = (r, FileProcessor.put (FileProcessor.Done file_paths output_filename) st1)
            /\ forall e, r <> FileProcessor.Raised e) as (r & st1 & Hrun & Hr).
  { subst run. unfold FileProcessor.process_files_with.
    destruct (FileProcessor.merge_documents_with _ _ _ _ _ _) as [[| | e | e] st1];
      by eexists _, _. }
  rewrite Hrun. simpl. split; [done |]. split; [by rewrite last_snoc |].
  unfold App.check_queue. rewrite fold_left_app. simpl.
  set (win0 := fold_left _ _ win). clearbody win0.
  destruct (reset_ui_state_frame win0) as (Hv & _ & Hs & Hc & _ & Hf & _).
  destruct (processing_errors (App.reset_ui_state win0)) as [|err errs];
    match goal with
    | |- context [Utils.show_completion_message d ?t ?e ?f ?wn] =>
        destruct (show_completion_message_emits d t e f wn) as (opening & ->);
        destruct (emit_all_frame
                    (AskYesNo "Operation Complete"
                       (Utils.success_msg t e +:+ Utils.nl +:+ Utils.nl
                        +:+ "Do you want to open the file?") :: opening) wn)
          as (_ & -> & _ & -> & -> & _ & -> & _)
    end; done.
Qed.

End RunProperties.
(** ** the merge strategies, file by file *)

Section OfficeRounds.

Import FileProcessor.

Variable w : World.

Lemma progress_values_app (q1 q2 : list message) :
  progress_values (q1 ++ q2) = progress_values q1 ++ progress_values q2.
Proof. apply omap_app. Qed.

(** A paragraph goes before the section properties of the document. *)
Lemma add_paragraph_before (b : block) (before after : list block) :
  ~ In SectPr before ->
  add_paragraph b (before ++ SectPr :: after) = (before ++ [b]) ++ SectPr :: after.
Proof.
  induction before as [| x before IH]; intros Hno; [done |].
  simpl. rewrite IH by (intros H; apply Hno; by right).
  destruct x; try done. exfalso. apply Hno. by left.
Qed.

Lemma paragraphs_no_sectPr (i : nat) (path : string) :
  ~ In SectPr (DocxMerge.paragraphs w i path).
Proof.
  unfold DocxMerge.paragraphs.
  destruct (PyStr.endswith _ _), ((0 <? i)%nat || negb (include_headers w)),
    (include_headers w); simpl; intuition congruence.
Qed.

(** One round of the loop of [merge_as_docx], for the worker. *)
Lemma docx_step_state (i : nat) (path : string) (master_doc : list block) (st : Worker) :
  exists master_doc' st',
    docx_step w i path master_doc st = (master_doc', st')
    /\ processing_errors st' = processing_errors st ++ DocxMerge.errors w path
    /\ processing_queue st' = processing_queue st
    /\ same_files st st'.
Proof.
  unfold docx_step, DocxMerge.errors.
  destruct (PyStr.endswith (PyStr.lower path) ".docx").
  2: { eexists _, _. split; [reflexivity |]. split; [done |].
       split; [done | apply same_files_error]. }
  destruct (read_docx w path) as [elements | e].
  - eexists _, _. split; [reflexivity |]. split; [simpl; by rewrite app_nil_r |].
    split; [done |]. apply same_files_read.
  - eexists _, _. split; [reflexivity |]. split; [done |]. split; [done |].
    eapply same_files_trans; [apply same_files_read | apply same_files_error].
Qed.

(** One round of the loop of [merge_as_docx], for the document: its
    paragraphs go before the section properties, the elements it copies
    after what follows them. *)
Lemma docx_step_body (i : nat) (path : string) (before after : list block) (st : Worker) :
  ~ In SectPr before ->
  (docx_step w i path (before ++ SectPr :: after) st).1
  = (before ++ DocxMerge.paragraphs w i path)
    ++ SectPr :: (after ++ map Element (DocxMerge.elements w path)).
Proof.
  intros Hno. unfold docx_step, DocxMerge.paragraphs, DocxMerge.elements.
  destruct (PyStr.endswith (PyStr.lower path) ".docx").
  2: { simpl. by rewrite !app_nil_r. }
  assert (exists added,
            added = (if (0 <? i)%nat || negb (include_headers w) then [PageBreak] else [])
                    ++ (if include_headers w
                        then [Heading ("Content from: " +:+ OsPath.basename path) 1]
                        else [])
            /\ (if include_headers w
                then add_paragraph (Heading ("Content from: " +:+ OsPath.basename path) 1)
                       (if (0 <? i)%nat || negb (include_headers w)
                        then add_paragraph PageBreak (before ++ SectPr :: after)
                        else before ++ SectPr :: after)
                else (if (0 <? i)%nat || negb (include_headers w)
                      then add_paragraph PageBreak (before ++ SectPr :: after)
                      else before ++ SectPr :: after))
               = (before ++ added) ++ SectPr :: after) as (added & -> & ->).
  { eexists. split; [reflexivity |].
    destruct ((0 <? i)%nat || negb (include_headers w)), (include_headers w); simpl;
      rewrite ?add_paragraph_before, ?app_nil_r, <- ?app_assoc; try done.
    intros H. apply in_app_or in H as [H | [H | []]]; [done | discriminate]. }
  destruct (read_docx w path) as [elements | e]; simpl.
  - unfold body_append. by rewrite <- !app_assoc.
  - by rewrite app_nil_r.
Qed.

(** An uncancelled run of the loop of [merge_as_docx]. *)
Lemma docx_loop_all (file_paths : list string) :
  forall (i : nat) (before after : list block) (st : Worker),
    ~ In SectPr before ->
    not_cancelled w st (length file_paths) ->
    exists st',
      docx_loop w i file_paths (before ++ SectPr :: after) st
      = (Finished,
         (before ++ DocxMerge.all_paragraphs w i file_paths)
         ++ SectPr :: (after ++ map Element (flat_map (DocxMerge.elements w) file_paths)),
         st')
      /\ processing_errors st'
         = processing_errors st ++ flat_map (DocxMerge.errors w) file_paths
      /\ reads st' = reads st + length file_paths
      /\ disk st' = disk st
      /\ writes (log st') = writes (log st).
Proof.
  induction file_paths as [|path rest IH]; intros i before after st Hno Hnc.
  { exists st. simpl. rewrite !app_nil_r, Nat.add_0_r. done. }
  cbn [docx_loop]. rewrite (not_cancelled_now _ _ _ Hnc).
  set (st0 := put (Progress (i + 1)) (put _ (tick st))).
  pose proof (docx_step_body i path before after st0 Hno) as Hbody.
  destruct (docx_step_state i path (before ++ SectPr :: after) st0)
    as (doc1 & st1 & Hstep & He1 & _ & Hr1 & Hd1 & Hw1).
  rewrite Hstep in Hbody |- *. simpl in Hbody. subst doc1.
  destruct (IH (S i) (before ++ DocxMerge.paragraphs w i path)
               (after ++ map Element (DocxMerge.elements w path)) st1)
    as (st' & -> & He & Hr & Hd & Hw).
  { intros H. apply in_app_or in H as [H | H]; [done |].
    by apply (paragraphs_no_sectPr i path). }
  { eapply not_cancelled_next; [| exact Hnc]. by rewrite Hr1. }
  exists st'. cbn [DocxMerge.all_paragraphs flat_map].
  rewrite map_app, <- !app_assoc. split; [done |].
  rewrite He, He1, Hr, Hr1, Hd, Hd1, Hw, Hw1. simpl.
  rewrite <- app_assoc. repeat split; try done; lia.
Qed.

Lemma elements_of_app (b1 b2 : list block) :
  DocxMerge.elements_of (b1 ++ b2) = DocxMerge.elements_of b1 ++ DocxMerge.elements_of b2.
Proof. apply omap_app. Qed.

Lemma elements_of_map (l : list string) : DocxMerge.elements_of (map Element l) = l.
Proof. induction l as [|x l IH]; [done |]. simpl. by f_equal. Qed.

Lemma elements_of_paragraphs (file_paths : list string) (i : nat) :
  DocxMerge.elements_of (DocxMerge.all_paragraphs w i file_paths) = [].
Proof.
  revert i. induction file_paths as [|path rest IH]; intros i; [done |].
  simpl. rewrite elements_of_app, IH, app_nil_r.
  unfold DocxMerge.paragraphs.
  by destruct (PyStr.endswith _ _), ((0 <? i)%nat || negb (include_headers w)),
       (include_headers w).
Qed.

(** The shapes of a slide. *)
Lemma copy_shapes_spec (path : string) (l : list shape) :
  forall (copied : list new_shape) (st : Worker),
    exists st',
      copy_shapes path l copied st = (copied ++ omap PptxMerge.copy_shape l, st')
      /\ processing_errors st'
         = processing_errors st ++ PptxMerge.image_errors path (Slide "" l)
      /\ same_files st st'.
Proof.
  unfold PptxMerge.image_errors. simpl.
  induction l as [|s l IH]; intros copied st.
  { exists st. simpl. by rewrite !app_nil_r. }
  destruct s as [b t | b [blob | img_e] |]; cbn [copy_shapes omap PptxMerge.copy_shape].
  - destruct (IH (copied ++ [TextBox b t]) st) as (st' & -> & He & Hs).
    exists st'. by rewrite <- app_assoc.
  - destruct (IH (copied ++ [Picture b blob]) st) as (st' & -> & He & Hs).
    exists st'. by rewrite <- app_assoc.
  - destruct (IH copied (append_error ("Could not copy image from " +:+ OsPath.basename path
                                        +:+ ": " +:+ exc_msg img_e) st))
      as (st' & -> & He & Hs).
    exists st'. split; [done |]. rewrite He. simpl. rewrite <- app_assoc.
    split; [done |]. eapply same_files_trans; [apply same_files_error | exact Hs].
  - apply IH.
Qed.

(** The slides of a presentation. *)
Lemma copy_slides_spec (path : string) (l : list slide) :
  forall (master_ppt : list new_slide) (st : Worker),
    exists st',
      copy_slides path l master_ppt st = (master_ppt ++ map PptxMerge.copy_slide l, st')
      /\ processing_errors st'
         = processing_errors st ++ flat_map (PptxMerge.image_errors path) l
      /\ same_files st st'.
Proof.
  induction l as [|s l IH]; intros master_ppt st.
  { exists st. simpl. by rewrite !app_nil_r. }
  cbn [copy_slides].
  destruct (copy_shapes_spec path (shapes s) [] st) as (st1 & -> & He1 & Hs1).
  destruct (IH (master_ppt ++ [NewSlide (slide_layout s) ([] ++ omap PptxMerge.copy_shape
                                                              (shapes s))]) st1)
    as (st' & -> & He & Hs).
  exists st'. simpl. rewrite <- app_assoc. split; [done |].
  rewrite He, He1. rewrite <- app_assoc.
  split; [done |]. by eapply same_files_trans.
Qed.

(** One round of the loop of [merge_as_pptx]. *)
Lemma pptx_step_spec (path : string) (master_ppt : list new_slide) (st : Worker) :
  exists st',
    pptx_step w path master_ppt st = (master_ppt ++ PptxMerge.slides_of w path, st')
    /\ processing_errors st' = processing_errors st ++ PptxMerge.errors w path
    /\ same_files st st'.
Proof.
  unfold pptx_step, PptxMerge.slides_of, PptxMerge.errors.
  destruct (PyStr.endswith (PyStr.lower path) ".pptx").
  2: { eexists. rewrite app_nil_r. split; [reflexivity |]. split; [done |].
       apply same_files_error. }
  destruct (read_pptx w path) as [sub_ppt | e].
  - destruct (copy_slides_spec path sub_ppt master_ppt (record_io (OpenRead path) st))
      as (st' & -> & He & Hs).
    exists st'. split; [done |]. split; [done |].
    eapply same_files_trans; [apply same_files_read | exact Hs].
  - eexists. rewrite app_nil_r. split; [reflexivity |]. split; [done |].
    eapply same_files_trans; [apply same_files_read | apply same_files_error].
Qed.

(** An uncancelled run of the loop of [merge_as_pptx]. *)
Lemma pptx_loop_all (file_paths : list string) :
  forall (i : nat) (master_ppt : list new_slide) (st : Worker),
    not_cancelled w st (length file_paths) ->
    exists st',
      pptx_loop w i file_paths master_ppt st
      = (Finished, master_ppt ++ flat_map (PptxMerge.slides_of w) file_paths, st')
      /\ processing_errors st'
         = processing_errors st ++ flat_map (PptxMerge.errors w) file_paths
      /\ reads st' = reads st + length file_paths
      /\ disk st' = disk st
      /\ writes (log st') = writes (log st).
Proof.
  induction file_paths as [|path rest IH]; intros i master_ppt st Hnc.
  { exists st. simpl. rewrite !app_nil_r, Nat.add_0_r. done. }
  cbn [pptx_loop]. rewrite (not_cancelled_now _ _ _ Hnc).
  set (st0 := put (Progress (i + 1)) (put _ (tick st))).
  destruct (pptx_step_spec path master_ppt st0) as (st1 & -> & He1 & Hr1 & Hd1 & Hw1).
  destruct (IH (S i) (master_ppt ++ PptxMerge.slides_of w path) st1)
    as (st' & -> & He & Hr & Hd & Hw).
  { eapply not_cancelled_next; [| exact Hnc]. by rewrite Hr1. }
  exists st'. simpl. rewrite <- app_assoc. split; [done |].
  rewrite He, He1, Hr, Hr1, Hd, Hd1, Hw, Hw1. simpl.
  rewrite <- app_assoc. repeat split; try done; lia.
Qed.

End OfficeRounds.

Section MergeProperties.

Import FileProcessor.



(** X10.  An uncancelled DOCX merge keeps every element of every input
    that it can read, and parts it from its heading: the body of the
    saved document holds first the paragraphs that the merge adds (the
    title when headers are asked for, then for each file whose name
    ends in [.docx] its page break and heading, in input order), then
    the section properties of the new document, and after them the
    elements of the readable inputs, in input order, none lost and none
    repeated.  A file of another type is skipped and a file that cannot
    be read leaves its page break and heading; each records one
    error. *)
Theorem docx_merge_keeps_every_element (w : World) (file_paths : list string)
    (output_filename : string) (st : Worker) :
  open_for_writing w output_filename = None ->
  not_cancelled w st (S (length file_paths)) ->
  exists st' body,
    merge_as_docx w file_paths output_filename st = (Finished, st')
    /\ disk st' !! output_filename = Some (DocxFile body)
    /\ body = (DocxMerge.title w file_paths ++ DocxMerge.all_paragraphs w 0 file_paths)
              ++ SectPr :: map Element (flat_map (DocxMerge.elements w) file_paths)
    /\ DocxMerge.elements_of body = flat_map (DocxMerge.elements w) file_paths
    /\ processing_errors st'
       = processing_errors st ++ flat_map (DocxMerge.errors w) file_paths
    /\ writes (log st') = writes (log st) ++ [output_filename].
Proof.
  intros Hopen Hnc.
  assert (not_cancelled w st (length file_paths)) as Hloop.
  { intros k Hk. apply Hnc. lia. }
  assert (titled_document w file_paths = DocxMerge.title w file_paths ++ SectPr :: []
          /\ ~ In SectPr (DocxMerge.title w file_paths)) as [Htitle Hno].
  { unfold titled_document, DocxMerge.title, new_document.
    destruct file_paths, (include_headers w); simpl; intuition congruence. }
  unfold merge_as_docx. rewrite Htitle.
  destruct (docx_loop_all w file_paths 0 (DocxMerge.title w file_paths) [] st Hno Hloop)
    as (st1 & -> & He & Hr & Hd & Hw).
  assert (cancelled w st1 = false) as ->.
  { unfold cancelled. rewrite Hr. apply Hnc. lia. }
  rewrite Hopen.
  eexists _, _. split; [reflexivity |]. simpl.
  rewrite lookup_insert_eq, writes_app, He, Hw. simpl.
  split; [done |]. split; [done |]. split; [| done].
  rewrite !elements_of_app, elements_of_paragraphs. simpl.
  rewrite elements_of_map.
  unfold DocxMerge.title. by destruct file_paths, (include_headers w).
Qed.

Lemma docx_merge_keeps_every_element_witness :
  exists st' body,
    merge_as_docx (Scenario.world true Scenario.never)
                  ["memo.docx"; "notes.txt"; "lost.docx"] "all.docx" Scenario.fresh
    = (Finished, st')
    /\ disk st' !! "all.docx" = Some (DocxFile body)
    /\ body = (DocxMerge.title (Scenario.world true Scenario.never)
                 ["memo.docx"; "notes.txt"; "lost.docx"]
               ++ DocxMerge.all_paragraphs (Scenario.world true Scenario.never) 0
                    ["memo.docx"; "notes.txt"; "lost.docx"])
              ++ SectPr
                 :: map Element
                      (flat_map (DocxMerge.elements (Scenario.world true Scenario.never))
                                ["memo.docx"; "notes.txt"; "lost.docx"])
    /\ DocxMerge.elements_of body
       = flat_map (DocxMerge.elements (Scenario.world true Scenario.never))
                  ["memo.docx"; "notes.txt"; "lost.docx"]
    /\ processing_errors st'
       = processing_errors Scenario.fresh
         ++ flat_map (DocxMerge.errors (Scenario.world true Scenario.never))
                     ["memo.docx"; "notes.txt"; "lost.docx"]
    /\ writes (log st') = writes (log Scenario.fresh) ++ ["all.docx"].
Proof.
  apply (docx_merge_keeps_every_element (Scenario.world true Scenario.never)
           ["memo.docx"; "notes.txt"; "lost.docx"] "all.docx" Scenario.fresh).
  - reflexivity.
  - intros k Hk. reflexivity.
Defined.

(** X11.  An uncancelled PPTX merge keeps every slide of every input
    that it can read: the saved presentation holds, in input order, one
    slide per slide of each readable file whose name ends in [.pptx],
    with the layout of its source, its text boxes at their place with
    their text, and its pictures; shapes of other kinds are dropped.  A
    file of another type, a file that cannot be read and a picture that
    cannot be copied record one error each. *)
Theorem pptx_merge_keeps_every_slide (w : World) (file_paths : list string)
    (output_filename : string) (st : Worker) :
  open_for_writing w output_filename = None ->
  not_cancelled w st (S (length file_paths)) ->
  exists st',
    merge_as_pptx w file_paths output_filename st = (Finished, st')
    /\ disk st' !! output_filename
       = Some (PptxFile (flat_map (PptxMerge.slides_of w) file_paths))
    /\ processing_errors st'
       = processing_errors st ++ flat_map (PptxMerge.errors w) file_paths
    /\ writes (log st') = writes (log st) ++ [output_filename].
Proof.
  intros Hopen Hnc.
  assert (not_cancelled w st (length file_paths)) as Hloop.
  { intros k Hk. apply Hnc. lia. }
  unfold merge_as_pptx.
  destruct (pptx_loop_all w file_paths 0 [] st Hloop) as (st1 & -> & He & Hr & Hd & Hw).
  assert (cancelled w st1 = false) as ->.
  { unfold cancelled. rewrite Hr. apply Hnc. lia. }
  rewrite Hopen. eexists. split; [reflexivity |]. simpl.
  by rewrite lookup_insert_eq, writes_app, He, Hw.
Qed.

Lemma pptx_merge_keeps_every_slide_witness :
  exists st',
    merge_as_pptx (Scenario.world true Scenario.never) ["talk.pptx"; "memo.docx"]
                  "all.pptx" Scenario.fresh = (Finished, st')
    /\ disk st' !! "all.pptx"
       = Some (PptxFile (flat_map (PptxMerge.slides_of (Scenario.world true Scenario.never))
                                  ["talk.pptx"; "memo.docx"]))
    /\ processing_errors st'
       = processing_errors Scenario.fresh
         ++ flat_map (PptxMerge.errors (Scenario.world true Scenario.never))
                     ["talk.pptx"; "memo.docx"]
    /\ writes (log st') = writes (log Scenario.fresh) ++ ["all.pptx"].
Proof.
  apply (pptx_merge_keeps_every_slide (Scenario.world true Scenario.never)
           ["talk.pptx"; "memo.docx"] "all.pptx" Scenario.fresh).
  - reflexivity.
  - intros k Hk. reflexivity.
Defined.

End MergeProperties.
(** ** the rounds of the PDF strategy *)

Section PdfRounds.

Import FileProcessor.

Variable w : World.

Lemma frame_refl (names : list string) (st : Worker) : frame w names st st.
Proof. done. Qed.

Lemma frame_trans (names : list string) (st1 st2 st3 : Worker) :
  frame w names st1 st2 -> frame w names st2 st3 -> frame w names st1 st3.
Proof.
  intros (Hw & Hd & Ho) (Hw' & Hd' & Ho'). split; [congruence |]. split.
  - intros path Hno. by rewrite Hd', Hd.
  - intros Hoff. by rewrite Ho', Ho.
Qed.

Lemma frame_mono (names names' : list string) (st st' : Worker) :
  (forall path, In path names -> In path names') ->
  frame w names st st' -> frame w names' st st'.
Proof.
  intros Hsub (Hw & Hd & Ho). split; [done |]. split; [| done].
  intros path Hno. apply Hd. intros H. by apply Hno, Hsub.
Qed.

Lemma quiet_refl (names : list string) (st : Worker) : quiet w names st st.
Proof. done. Qed.

Lemma quiet_trans (names : list string) (st1 st2 st3 : Worker) :
  quiet w names st1 st2 -> quiet w names st2 st3 -> quiet w names st1 st3.
Proof.
  intros (Hf & Hr & Hp) (Hf' & Hr' & Hp').
  split; [by eapply frame_trans |]. split; congruence.
Qed.

Lemma quiet_error (names : list string) (msg : string) (st : Worker) :
  quiet w names st (append_error msg st).
Proof. done. Qed.

Lemma quiet_status (names : list string) (text : string) (st : Worker) :
  quiet w names st (put (Status text) st).
Proof.
  split; [done |]. split; [done |]. simpl. rewrite progress_values_app. simpl.
  by rewrite app_nil_r.
Qed.

Lemma quiet_read (names : list string) (path : string) (st : Worker) :
  quiet w names st (record_io (OpenRead path) st).
Proof.
  split; [| done]. split; [| done]. simpl. rewrite writes_app. simpl.
  by rewrite app_nil_r.
Qed.

Lemma quiet_remove (names : list string) (path : string) (st : Worker) :
  quiet w names st (record_io (Remove path) st).
Proof.
  split; [| done]. split; [| done]. simpl. rewrite writes_app. simpl.
  by rewrite app_nil_r.
Qed.

Lemma quiet_show (names : list string) (d : UIManager.dialog) (st : Worker) :
  quiet w names st (show d st).
Proof. done. Qed.

(** Office writes the file whose name is in [names]. *)
Lemma quiet_store (names : list string) (path : string) (a : artifact) (st : Worker) :
  OFFICE_INSTALLED w = true -> In path names ->
  quiet w names st (store path a st).
Proof.
  intros Hoff Hin. split; [| done]. split; [done |]. split; [| congruence].
  intros p Hno. simpl. apply lookup_insert_ne. intros ->. done.
Qed.

Lemma quiet_unlink (names : list string) (path : string) (st : Worker) :
  OFFICE_INSTALLED w = true -> In path names ->
  quiet w names st (unlink path st).
Proof.
  intros Hoff Hin. split; [| done]. split; [done |]. split; [| congruence].
  intros p Hno. simpl. apply lookup_delete_ne. intros ->. done.
Qed.

(** A conversion writes no file but the temporary file of its round,
    which it may add to the list. *)
Lemma convert_office_quiet (app_name kind : string) (created : bool) (i : nat)
    (path : string) (temps : list string) (st : Worker) :
  OFFICE_INSTALLED w = true ->
  quiet w [temp_name i path] st (convert_office w app_name kind created i path temps st).2
  /\ ((convert_office w app_name kind created i path temps st).1.2 = temps
      \/ (convert_office w app_name kind created i path temps st).1.2
         = temps ++ [temp_name i path]).
Proof.
  intros Hoff. unfold convert_office. fold (temp_name i path).
  destruct (if created then None else create_object w app_name);
    [split; [apply quiet_error | by left] |].
  destruct (convert w path _) as [| [] e]; simpl.
  - split; [| by right]. apply quiet_store; [done | by left].
  - split; [| by left]. eapply quiet_trans; [| apply quiet_error].
    apply quiet_store; [done | by left].
  - split; [apply quiet_error | by left].
Qed.

Lemma append_pages_quiet (names : list string) (path pdf_path : string)
    (loc : pdf_locals) (st : Worker) :
  quiet w names st (append_pages w path pdf_path loc st).2
  /\ match (append_pages w path pdf_path loc st).1 with
     | Ok loc' => temp_pdfs loc' = temp_pdfs loc
     | Raise _ => True
     end.
Proof.
  unfold append_pages.
  assert (quiet w names st
            (record_io (OpenRead pdf_path)
               (put (Status ("Appending: " +:+ OsPath.basename path)) st))) as Hq.
  { eapply quiet_trans; [apply quiet_status | apply quiet_read]. }
  by destruct (read_pdf w pdf_path).
Qed.

(** One round of the loop of [merge_as_pdf] that does not see the flag
    set: it reads the flag once, announces its progress once, opens no
    file for writing, has no file written but the temporary file of the
    round, and either hands over to the next round or is left by an
    exception. *)
Lemma pdf_round (i : nat) (path : string) (rest : list string) (loc : pdf_locals)
    (st : Worker) :
  cancelled w st = false ->
  exists loc1 st1,
    quiet w [temp_name i path] (put (Progress (i + 1)) (tick st)) st1
    /\ (temp_pdfs loc1 = temp_pdfs loc
        \/ OFFICE_INSTALLED w = true
           /\ temp_pdfs loc1 = temp_pdfs loc ++ [temp_name i path])
    /\ (pdf_loop w i (path :: rest) loc st = pdf_loop w (S i) rest loc1 st1
        \/ exists e, pdf_loop w i (path :: rest) loc st = (Raised e, loc1, st1)).
Proof.
  intros Hc. cbn [pdf_loop]. rewrite Hc.
  set (st0 := put (Progress (i + 1)) (put _ (tick st))).
  set (names := [temp_name i path]).
  assert (quiet w names (put (Progress (i + 1)) (tick st)) st0) as H0.
  { split; [done |]. split; [done |]. unfold st0. simpl.
    rewrite !progress_values_app. simpl. by rewrite app_nil_r. }
  assert (forall (pdf_path : option string) (loc2 : pdf_locals) (st2 : Worker),
            quiet w names (put (Progress (i + 1)) (tick st)) st2 ->
            (temp_pdfs loc2 = temp_pdfs loc
             \/ OFFICE_INSTALLED w = true
                /\ temp_pdfs loc2 = temp_pdfs loc ++ [temp_name i path]) ->
            exists loc1 st1,
              quiet w names (put (Progress (i + 1)) (tick st)) st1
              /\ (temp_pdfs loc1 = temp_pdfs loc
                  \/ OFFICE_INSTALLED w = true
                     /\ temp_pdfs loc1 = temp_pdfs loc ++ [temp_name i path])
              /\ (match pdf_path with
                  | Some p =>
                      if PyStr.truthy p then
                        match append_pages w path p loc2 st2 with
                        | (Ok loc, st) => pdf_loop w (S i) rest loc st
                        | (Raise e, st) => (Raised e, loc2, st)
                        end
                      else pdf_loop w (S i) rest loc2 st2
                  | None => pdf_loop w (S i) rest loc2 st2
                  end = pdf_loop w (S i) rest loc1 st1
                  \/ exists e,
                       match pdf_path with
                       | Some p =>
                           if PyStr.truthy p then
                             match append_pages w path p loc2 st2 with
                             | (Ok loc, st) => pdf_loop w (S i) rest loc st
                             | (Raise e, st) => (Raised e, loc2, st)
                             end
                           else pdf_loop w (S i) rest loc2 st2
                       | None => pdf_loop w (S i) rest loc2 st2
                       end = (Raised e, loc1, st1))) as Hafter.
  { intros pdf_path loc2 st2 H2 Ht2.
    destruct pdf_path as [p |]; [| exists loc2, st2; auto].
    destruct (PyStr.truthy p); [| exists loc2, st2; auto].
    pose proof (append_pages_quiet names path p loc2 st2) as [Hq Ht].
    destruct (append_pages w path p loc2 st2) as [[loc3 | e] st3]; simpl in Hq, Ht.
    - exists loc3, st3. split; [by eapply quiet_trans |]. split; [| by left].
      by rewrite Ht.
    - exists loc2, st3. split; [by eapply quiet_trans |]. split; [done |].
      right. by exists e. }
  destruct (PyStr.endswith (PyStr.lower path) ".pdf");
    [exact (Hafter (Some path) loc st0 H0 (or_introl eq_refl)) |].
  destruct (OFFICE_INSTALLED w) eqn:Hoff.
  2: { rewrite !andb_false_r. eexists _, _. split; [| split; [by left | left; reflexivity]].
       eapply quiet_trans; [exact H0 | apply quiet_error]. }
  rewrite !andb_true_r.
  destruct (PyStr.endswith_any (PyStr.lower path) [".docx"; ".doc"]).
  { pose proof (convert_office_quiet "Word.Application" "DOCX" (word loc) i path
                  (temp_pdfs loc) st0 Hoff) as [Hq Ht].
    destruct (convert_office w _ _ _ _ _ _ st0) as [[[pdf_path created] temps] st2].
    simpl in Hq, Ht. apply Hafter; [by eapply quiet_trans |]. simpl.
    destruct Ht as [-> | ->]; auto. }
  destruct (PyStr.endswith_any (PyStr.lower path) [".pptx"; ".ppt"]).
  { pose proof (convert_office_quiet "Powerpoint.Application" "PPTX" (powerpoint loc) i path
                  (temp_pdfs loc) st0 Hoff) as [Hq Ht].
    destruct (convert_office w _ _ _ _ _ _ st0) as [[[pdf_path created] temps] st2].
    simpl in Hq, Ht. apply Hafter; [by eapply quiet_trans |]. simpl.
    destruct Ht as [-> | ->]; auto. }
  eexists _, _. split; [| split; [by left | left; reflexivity]].
  eapply quiet_trans; [exact H0 | apply quiet_error].
Qed.

(** Removing the temporary files opens no file for writing and changes
    no other file. *)
Lemma remove_temps_quiet (names temps : list string) :
  (forall t, In t temps -> In t names) ->
  (OFFICE_INSTALLED w = false -> temps = []) ->
  forall st, quiet w names st (remove_temps w temps st).
Proof.
  intros Hsub Hoff.
  destruct (OFFICE_INSTALLED w) eqn:Hinst.
  2: { rewrite Hoff by done. intros st. apply quiet_refl. }
  clear Hoff. induction temps as [|t temps IH]; intros st; [apply quiet_refl |].
  assert (In t names) as Ht by (apply Hsub; by left).
  assert (forall t', In t' temps -> In t' names) as Hsub' by (intros; apply Hsub; by right).
  simpl. destruct (remove w t) as [[e |] |]; [| | by apply IH].
  - eapply quiet_trans; [| by apply IH].
    eapply quiet_trans; [apply quiet_remove | apply quiet_error].
  - eapply quiet_trans; [| by apply IH].
    eapply quiet_trans; [apply quiet_remove |].
    unfold quiet, frame in *. rewrite Hinst.
    split; [| done]. split; [done |]. split; [| done].
    intros p Hno. simpl. apply lookup_delete_ne. intros ->. done.
Qed.

(** A run of the loop of [merge_as_pdf] that meets the flag set at the
    test of its round [K] is left there, or earlier by an exception. *)
Lemma pdf_loop_cancel (file_paths : list string) :
  forall (K i : nat) (loc : pdf_locals) (st : Worker),
    (K < length file_paths)%nat ->
    not_cancelled w st K ->
    cancel_requested w (reads st + K) = true ->
    exists loc' st',
      frame w (temp_names i file_paths) st st'
      /\ (forall t, In t (temp_pdfs loc') ->
            In t (temp_pdfs loc) \/ In t (temp_names i file_paths))
      /\ (OFFICE_INSTALLED w = false -> temp_pdfs loc' = temp_pdfs loc)
      /\ ((pdf_loop w i file_paths loc st = (CancelSeen, loc', st')
           /\ reads st' = reads st + K + 1)
          \/ exists e, pdf_loop w i file_paths loc st = (Raised e, loc', st')).
Proof.
  induction file_paths as [|path rest IH]; intros K i loc st HK Hnc Hc;
    [simpl in HK; lia |].
  destruct K as [|K].
  { cbn [pdf_loop]. unfold cancelled. rewrite Nat.add_0_r in Hc. rewrite Hc.
    exists loc, (tick st). split; [done |]. split; [by left |]. split; [done |].
    left. split; [done |]. simpl. lia. }
  destruct (pdf_round i path rest loc st (not_cancelled_now _ _ _ Hnc))
    as (loc1 & st1 & (Hf & Hr & _) & Ht & Hstep).
  assert (frame w (temp_names i (path :: rest)) st st1) as Hf1.
  { eapply frame_mono; [| exact Hf]. intros p [<- | []]. by left. }
  assert (forall t, In t (temp_pdfs loc1) ->
            In t (temp_pdfs loc) \/ In t (temp_names i (path :: rest))) as Hsub1.
  { intros t Hin. destruct Ht as [Heq | [_ Heq]]; rewrite Heq in Hin; [by left |].
    apply in_app_or in Hin as [? | [<- | []]]; [by left | right; by left]. }
  assert (OFFICE_INSTALLED w = false -> temp_pdfs loc1 = temp_pdfs loc) as Hoff1.
  { intros Hoff. destruct Ht as [Heq | [Hon _]]; [done | congruence]. }
  destruct Hstep as [-> | (e & ->)].
  - simpl in Hr.
    destruct (IH K (S i) loc1 st1) as (loc' & st' & Hf' & Hsub' & Hoff' & Hcase).
    { simpl in HK. lia. }
    { eapply not_cancelled_next; [| exact Hnc]. done. }
    { rewrite Hr, <- Hc. f_equal. lia. }
    exists loc', st'. split.
    { eapply frame_trans; [exact Hf1 |]. eapply frame_mono; [| exact Hf'].
      intros p Hp. by right. }
    split.
    { intros t Hin. destruct (Hsub' t Hin) as [H1 | H2]; [| right; by right].
      by apply Hsub1. }
    split; [intros Hoff; by rewrite Hoff', Hoff1 |].
    destruct Hcase as [[-> Hr'] | (e & ->)]; [left | right; by exists e].
    split; [done | lia].
  - exists loc1, st1. split; [done |]. split; [done |]. split; [done |].
    right. by exists e.
Qed.

End PdfRounds.
(** ** progress *)

Section ProgressFacts.

Import FileProcessor.

Variable w : World.

Lemma progress_after_round (i : nat) (text : string) (st : Worker) :
  progress_values (processing_queue (put (Progress (i + 1)) (put (Status text) (tick st))))
  = progress_values (processing_queue st) ++ [S i].
Proof.
  simpl. rewrite !progress_values_app. simpl. rewrite app_nil_r.
  by rewrite Nat.add_1_r.
Qed.

Lemma progress_of_round (q : list message) (i : nat) (text : string) :
  progress_values ((q ++ [Status text]) ++ [Progress (i + 1)]) = progress_values q ++ [S i].
Proof.
  rewrite !progress_values_app. simpl. rewrite app_nil_r. by rewrite Nat.add_1_r.
Qed.

Lemma seq_after (base : list nat) (i k : nat) :
  (base ++ [S i]) ++ seq (S (S i)) k = base ++ seq (S i) (S k).
Proof. by rewrite <- app_assoc. Qed.

Lemma text_loop_progress (file_paths : list string) :
  forall (i : nat) (outfile : string) (st : Worker),
    exists k,
      (k <= length file_paths)%nat
      /\ progress_values (processing_queue (text_loop w i file_paths outfile st).2)
         = progress_values (processing_queue st) ++ seq (S i) k
      /\ ((text_loop w i file_paths outfile st).1.1 = Finished -> k = length file_paths).
Proof.
  induction file_paths as [|path rest IH]; intros i outfile st.
  { exists 0%nat. simpl. by rewrite app_nil_r. }
  cbn [text_loop]. destruct (cancelled w st).
  { exists 0%nat. simpl. rewrite app_nil_r. repeat split; [lia | done]. }
  destruct (infile_read w path) as [content | e].
  - match goal with |- context [text_loop w (S i) rest ?o ?s] =>
      destruct (IH (S i) o s) as (k & Hk & Hp & Hf) end.
    exists (S k). split; [simpl; lia |]. split; [| intros H; by rewrite Hf].
    rewrite Hp. simpl processing_queue. rewrite progress_of_round. apply seq_after.
  - match goal with |- context [text_loop w (S i) rest ?o ?s] =>
      destruct (IH (S i) o s) as (k & Hk & Hp & Hf) end.
    exists (S k). split; [simpl; lia |]. split; [| intros H; by rewrite Hf].
    rewrite Hp. simpl processing_queue. rewrite progress_of_round. apply seq_after.
Qed.

Lemma docx_loop_progress (file_paths : list string) :
  forall (i : nat) (master_doc : list block) (st : Worker),
    exists k,
      (k <= length file_paths)%nat
      /\ progress_values (processing_queue (docx_loop w i file_paths master_doc st).2)
         = progress_values (processing_queue st) ++ seq (S i) k
      /\ ((docx_loop w i file_paths master_doc st).1.1 = Finished -> k = length file_paths).
Proof.
  induction file_paths as [|path rest IH]; intros i master_doc st.
  { exists 0%nat. simpl. by rewrite app_nil_r. }
  cbn [docx_loop]. destruct (cancelled w st).
  { exists 0%nat. simpl. rewrite app_nil_r. repeat split; [lia | done]. }
  destruct (docx_step_state w i path master_doc
              (put (Progress (i + 1))
                 (put (Status ("Processing: " +:+ OsPath.basename path)) (tick st))))
    as (master_doc1 & st1 & -> & _ & Hq & _).
  destruct (IH (S i) master_doc1 st1) as (k & Hk & Hp & Hf).
  exists (S k). split; [simpl; lia |]. split; [| intros H; by rewrite Hf].
  rewrite Hp, Hq, (progress_after_round i _ st). apply seq_after.
Qed.

Lemma copy_shapes_queue (path : string) (l : list shape) :
  forall (copied : list new_shape) (st : Worker),
    processing_queue (copy_shapes path l copied st).2 = processing_queue st.
Proof.
  induction l as [|s l IH]; intros copied st; [done |].
  destruct s as [b t | b [blob | img_e] |]; simpl; by rewrite IH.
Qed.

Lemma copy_slides_queue (path : string) (l : list slide) :
  forall (master_ppt : list new_slide) (st : Worker),
    processing_queue (copy_slides path l master_ppt st).2 = processing_queue st.
Proof.
  induction l as [|s l IH]; intros master_ppt st; [done |].
  simpl. pose proof (copy_shapes_queue path (shapes s) [] st) as Hs.
  destruct (copy_shapes path (shapes s) [] st) as [copied st1]. simpl in Hs.
  by rewrite IH.
Qed.

Lemma pptx_step_queue (path : string) (master_ppt : list new_slide) (st : Worker) :
  processing_queue (pptx_step w path master_ppt st).2 = processing_queue st.
Proof.
  unfold pptx_step. destruct (PyStr.endswith _ _); [| done].
  destruct (read_pptx w path); [| done]. by rewrite copy_slides_queue.
Qed.

Lemma pptx_loop_progress (file_paths : list string) :
  forall (i : nat) (master_ppt : list new_slide) (st : Worker),
    exists k,
      (k <= length file_paths)%nat
      /\ progress_values (processing_queue (pptx_loop w i file_paths master_ppt st).2)
         = progress_values (processing_queue st) ++ seq (S i) k
      /\ ((pptx_loop w i file_paths master_ppt st).1.1 = Finished -> k = length file_paths).
Proof.
  induction file_paths as [|path rest IH]; intros i master_ppt st.
  { exists 0%nat. simpl. by rewrite app_nil_r. }
  cbn [pptx_loop]. destruct (cancelled w st).
  { exists 0%nat. simpl. rewrite app_nil_r. repeat split; [lia | done]. }
  pose proof (pptx_step_queue path master_ppt
                (put (Progress (i + 1))
                   (put (Status ("Processing: " +:+ OsPath.basename path)) (tick st))))
    as Hq.
  destruct (pptx_step w path master_ppt _) as [master_ppt1 st1]. simpl in Hq.
  destruct (IH (S i) master_ppt1 st1) as (k & Hk & Hp & Hf).
  exists (S k). split; [simpl; lia |]. split; [| intros H; by rewrite Hf].
  rewrite Hp, Hq, progress_of_round. apply seq_after.
Qed.

Lemma pdf_loop_progress (file_paths : list string) :
  forall (i : nat) (loc : pdf_locals) (st : Worker),
    exists k,
      (k <= length file_paths)%nat
      /\ progress_values (processing_queue (pdf_loop w i file_paths loc st).2)
         = progress_values (processing_queue st) ++ seq (S i) k.
Proof.
  induction file_paths as [|path rest IH]; intros i loc st.
  { exists 0%nat. simpl. by rewrite app_nil_r. }
  destruct (cancelled w st) eqn:Hc.
  { exists 0%nat. cbn [pdf_loop]. rewrite Hc. simpl. rewrite app_nil_r.
    split; [lia | done]. }
  destruct (pdf_round w i path rest loc st Hc)
    as (loc1 & st1 & (_ & _ & Hq) & _ & [-> | (e & ->)]).
  - destruct (IH (S i) loc1 st1) as (k & Hk & Hp).
    exists (S k). split; [simpl; lia |].
    rewrite Hp, Hq. simpl processing_queue. rewrite progress_values_app. simpl.
    rewrite Nat.add_1_r. apply seq_after.
  - exists 1%nat. split; [simpl; lia |]. simpl snd. rewrite Hq.
    simpl. rewrite progress_values_app. simpl. by rewrite Nat.add_1_r.
Qed.

Lemma remove_temps_queue (temps : list string) :
  forall st, processing_queue (remove_temps w temps st) = processing_queue st.
Proof.
  induction temps as [|t temps IH]; intros st; [done |].
  simpl. destruct (remove w t) as [[e |] |]; by rewrite IH.
Qed.

End ProgressFacts.

Section ProgressProperties.

Import FileProcessor.

(** X12.  A PDF merge that is cancelled does not save the merged
    document: when the worker sees the flag set at the test of a round
    of the loop, and still set at the test that follows the loop, the
    merge ends as cancelled, or as failed if an earlier round had
    raised, and it opens no file for writing.  The only files that it
    has written or removed are temporary files, named [<name>_<i>.pdf]
    after the [i]-th input, that Office saved in the rounds before;
    where Office is missing no file has changed. *)
Theorem pdf_merge_cancelled_writes_nothing (w : World) (file_paths : list string)
    (output_filename : string) (st : Worker) (K : nat) :
  (K < length file_paths)%nat ->
  not_cancelled w st K ->
  cancel_requested w (reads st + K) = true ->
  cancel_requested w (reads st + K + 1) = true ->
  exists r st',
    merge_as_pdf w file_paths output_filename st = (r, st')
    /\ outcome r <> Completed
    /\ writes (log st') = writes (log st)
    /\ (forall path, ~ In path (temp_names 0 file_paths) ->
          disk st' !! path = disk st !! path)
    /\ (OFFICE_INSTALLED w = false -> disk st' = disk st).
Proof.
  intros HK Hnc Hc Hc'. unfold merge_as_pdf.
  match goal with |- context [if ?c then show office_not_found st else st] =>
    set (st0 := if c then show office_not_found st else st) end.
  assert (reads st0 = reads st /\ disk st0 = disk st /\ log st0 = log st)
    as (Hr0 & Hd0 & Hl0) by (unfold st0; by destruct (_ && _)).
  destruct (pdf_loop_cancel w file_paths K 0 (MkPdf [] [] false false) st0)
    as (loc & st1 & Hf & Hsub & Hoff & Hcase); [done | | by rewrite Hr0 |].
  { intros k Hk. rewrite Hr0. by apply Hnc. }
  assert (forall st2, frame w (temp_names 0 file_paths) st1 st2 ->
            writes (log (remove_temps w (temp_pdfs loc) st2)) = writes (log st)
            /\ (forall path, ~ In path (temp_names 0 file_paths) ->
                  disk (remove_temps w (temp_pdfs loc) st2) !! path = disk st !! path)
            /\ (OFFICE_INSTALLED w = false ->
                disk (remove_temps w (temp_pdfs loc) st2) = disk st)) as Hend.
  { intros st2 Hf2.
    destruct (remove_temps_quiet w (temp_names 0 file_paths) (temp_pdfs loc)) with (st := st2)
      as [Hf3 _].
    - intros t Hin. by destruct (Hsub t Hin).
    - intros Hno. by rewrite Hoff.
    - destruct (frame_trans w _ _ _ _ Hf (frame_trans w _ _ _ _ Hf2 Hf3))
        as (Hw & Hd & Ho).
      rewrite Hw, Hl0. split; [done |]. split.
      + intros path Hno. by rewrite Hd, Hd0.
      + intros Hno. by rewrite Ho, Hd0. }
  destruct Hcase as [[-> Hr] | (e & ->)].
  - unfold cancelled. rewrite Hr, Hr0, Hc'.
    eexists _, _. split; [reflexivity |]. split; [done |]. by apply Hend.
  - eexists _, _. split; [reflexivity |]. split; [done |]. by apply Hend.
Qed.

(** A machine with Office: the first round converts [memo.docx], the
    second one sees the flag, and the temporary file is removed. *)
Lemma pdf_merge_cancelled_writes_nothing_witness :
  exists r st',
    merge_as_pdf (Scenario.office_world true (Scenario.from 1)) ["memo.docx"; "report.pdf"]
                 "all.pdf" Scenario.fresh = (r, st')
    /\ outcome r <> Completed
    /\ writes (log st') = writes (log Scenario.fresh)
    /\ (forall path, ~ In path (temp_names 0 ["memo.docx"; "report.pdf"]) ->
          disk st' !! path = disk Scenario.fresh !! path)
    /\ (OFFICE_INSTALLED (Scenario.office_world true (Scenario.from 1)) = false ->
        disk st' = disk Scenario.fresh).
Proof.
  apply (pdf_merge_cancelled_writes_nothing (Scenario.office_world true (Scenario.from 1))
           ["memo.docx"; "report.pdf"] "all.pdf" Scenario.fresh 1).
  - simpl. lia.
  - intros k Hk. destruct k as [|k]; [reflexivity | lia].
  - reflexivity.
  - reflexivity.
Defined.

(** X13.  The progress that a merge announces counts its rounds: to the
    values already in the queue it adds [1], [2], ... up to the number
    of rounds it began, which never exceeds the number of files (the
    maximum that [process_files] announces); a text, DOCX or PPTX merge
    that reaches its end has announced every file. *)
Theorem progress_counts_rounds (w : World) (file_paths : list string)
    (output_filename : string) (st : Worker) :
  (exists k, (k <= length file_paths)%nat
     /\ progress_values (processing_queue (merge_as_text w file_paths output_filename st).2)
        = progress_values (processing_queue st) ++ seq 1 k
     /\ ((merge_as_text w file_paths output_filename st).1 = Finished ->
         k = length file_paths))
  /\ (exists k, (k <= length file_paths)%nat
        /\ progress_values (processing_queue (merge_as_pdf w file_paths output_filename st).2)
           = progress_values (processing_queue st) ++ seq 1 k)
  /\ (exists k, (k <= length file_paths)%nat
        /\ progress_values (processing_queue (merge_as_docx w file_paths output_filename st).2)
           = progress_values (processing_queue st) ++ seq 1 k
        /\ ((merge_as_docx w file_paths output_filename st).1 = Finished ->
            k = length file_paths))
  /\ (exists k, (k <= length file_paths)%nat
        /\ progress_values (processing_queue (merge_as_pptx w file_paths output_filename st).2)
           = progress_values (processing_queue st) ++ seq 1 k
        /\ ((merge_as_pptx w file_paths output_filename st).1 = Finished ->
            k = length file_paths)).
Proof.
  split; [| split; [| split]].
  - unfold merge_as_text. destruct (open_for_writing w output_filename).
    { exists 0%nat. simpl. rewrite app_nil_r. repeat split; [lia | done]. }
    destruct (text_loop_progress w file_paths 0 ""
                (store output_filename (TextFile "")
                       (record_io (OpenWrite output_filename) st)))
      as (k & Hk & Hp & Hf).
    destruct (text_loop w 0 file_paths "" _) as [[r outfile] st1].
    exists k. done.
  - unfold merge_as_pdf.
    match goal with |- context [if ?c then show office_not_found st else st] =>
      set (st0 := if c then show office_not_found st else st) end.
    assert (processing_queue st0 = processing_queue st) as Hq0
      by (unfold st0; by destruct (_ && _)).
    destruct (pdf_loop_progress w file_paths 0 (MkPdf [] [] false false) st0)
      as (k & Hk & Hp).
    destruct (pdf_loop w 0 file_paths _ st0) as [[r loc] st1]. simpl in Hp.
    exists k. split; [done |]. rewrite <- Hq0, <- Hp.
    destruct r as [| | e | e];
      try destruct (cancelled w st1); try destruct (open_for_writing w output_filename);
      simpl; rewrite remove_temps_queue; simpl;
      rewrite ?progress_values_app; simpl; by rewrite ?app_nil_r.
  - unfold merge_as_docx.
    destruct (docx_loop_progress w file_paths 0 (titled_document w file_paths) st)
      as (k & Hk & Hp & Hf).
    destruct (docx_loop w 0 file_paths _ st) as [[r master_doc] st1].
    simpl in Hp, Hf. exists k. split; [done |].
    destruct r; try (split; [done | by intros ?]).
    destruct (cancelled w st1); [split; [done | by intros ?] |].
    destruct (open_for_writing w output_filename); (split; [done | by intros ?; auto]).
  - unfold merge_as_pptx.
    destruct (pptx_loop_progress w file_paths 0 [] st) as (k & Hk & Hp & Hf).
    destruct (pptx_loop w 0 file_paths [] st) as [[r master_ppt] st1].
    simpl in Hp, Hf. exists k. split; [done |].
    destruct r; try (split; [done | by intros ?]).
    destruct (cancelled w st1); [split; [done | by intros ?] |].
    destruct (open_for_writing w output_filename); (split; [done | by intros ?; auto]).
Qed.

End ProgressProperties.
(** ** the tree report *)

Section ReportFacts.

Variable tv : Tk.Treeview.
Hypothesis Hwf : well_formed tv.

Lemma children_in (p : nat) (it : Tk.item) :
  In it (Report.children tv p) <-> In it (Tk.items tv) /\ Tk.parent it = p.
Proof.
  unfold Report.children. rewrite filter_In. by rewrite Nat.eqb_eq.
Qed.

Lemma get_children_items (p : nat) :
  Tk.get_children tv p = map Tk.iid (Report.children tv p).
Proof. done. Qed.

Lemma item_bounds (it : Tk.item) :
  In it (Tk.items tv) -> (Tk.parent it < Tk.iid it <= Tk.serial tv)%nat.
Proof. intros Hin. destruct (proj2 Hwf it Hin) as (? & ? & _). lia. Qed.

Lemma up_item (it : Tk.item) : In it (Tk.items tv) -> Report.up tv (Tk.iid it) = Tk.parent it.
Proof. intros Hin. unfold Report.up. by rewrite (find_in tv it (proj1 Hwf) Hin). Qed.

Lemma up_le (id : nat) : (Report.up tv id <= id)%nat.
Proof.
  unfold Report.up. destruct (Tk.find tv id) as [it |] eqn:Hf; [| lia].
  apply find_some in Hf as [Hin <-]. apply item_bounds in Hin. lia.
Qed.

Lemma iter_up_le (k id : nat) : (Nat.iter k (Report.up tv) id <= id)%nat.
Proof.
  induction k as [|k IH]; simpl; [lia |].
  pose proof (up_le (Nat.iter k (Report.up tv) id)). lia.
Qed.

(** A row is an item of the widget, below the parent the rows start
    from. *)
Lemma rows_below (fuel : nat) :
  forall p d row,
    In row (Report.rows fuel tv p d) ->
    In row.2 (Tk.items tv)
    /\ exists k, Nat.iter (S k) (Report.up tv) (Tk.iid row.2) = p.
Proof.
  induction fuel as [|fuel IH]; intros p d row; simpl; [done |].
  intros (c & Hc & Hrow)%in_flat_map. apply children_in in Hc as [Hc Hp].
  destruct Hrow as [<- | Hrow].
  - split; [done |]. exists 0%nat. simpl. by rewrite up_item.
  - apply IH in Hrow as (Hin & k & Hk). split; [done |].
    exists (S k). simpl in *. by rewrite Hk, up_item.
Qed.

(** No item comes twice. *)
Lemma rows_nodup (fuel : nat) :
  forall p d, NoDup (map (fun row => Tk.iid row.2) (Report.rows fuel tv p d)).
Proof.
  induction fuel as [|fuel IH]; intros p d; simpl; [constructor |].
  assert (NoDup (map Tk.iid (Report.children tv p))) as Hnd.
  { unfold Report.children. generalize (proj1 Hwf). generalize (Tk.items tv).
    induction l as [|x l IHl]; [constructor |]. simpl.
    intros [Hx Hl]%NoDup_cons. destruct (Nat.eqb (Tk.parent x) p); [| by apply IHl].
    simpl. apply NoDup_cons. split; [| by apply IHl].
    intros (y & Hy & Hin)%list_elem_of_In%in_map_iff. apply filter_In in Hin as [Hin _].
    apply Hx. rewrite <- Hy. apply list_elem_of_In. by apply in_map. }
  assert (forall l,
            NoDup (map Tk.iid l) ->
            (forall c, In c l -> In c (Tk.items tv) /\ Tk.parent c = p) ->
            NoDup (map (fun row : nat * Tk.item => Tk.iid row.2)
                       (flat_map (fun it => (d, it) :: Report.rows fuel tv (Tk.iid it) (S d))
                                 l))) as Hall.
  2: { apply Hall; [done |]. intros c Hc. by apply children_in. }
  clear Hnd. intros l.
  induction l as [|c l IHl]; intros Hnd Hsub; [constructor |].
  simpl. apply NoDup_cons in Hnd as [Hc Hl].
  destruct (Hsub c (or_introl eq_refl)) as [Hcin Hcpar].
  apply NoDup_cons. split.
  { intros Hin%list_elem_of_In. rewrite map_app in Hin.
    apply in_app_iff in Hin as [Hin | Hin].
    - apply in_map_iff in Hin as (row & Hid & Hrow).
      apply rows_below in Hrow as (Hrin & k & Hk).
      rewrite Nat.iter_succ_r, (up_item _ Hrin) in Hk.
      pose proof (iter_up_le k (Tk.parent row.2)) as Hle. rewrite Hk in Hle.
      apply item_bounds in Hrin. lia.
    - apply in_map_iff in Hin as (row & Hid & Hrow).
      apply in_flat_map in Hrow as (c' & Hc' & [<- | Hrow]).
      + apply Hc. simpl in Hid. rewrite <- Hid. apply list_elem_of_In. by apply in_map.
      + destruct (Hsub c' (or_intror Hc')) as [Hc'in Hc'par].
        apply rows_below in Hrow as (_ & k & Hk).
        pose proof (iter_up_le k (Report.up tv (Tk.iid row.2))) as Hle.
        rewrite <- Nat.iter_succ_r, Hk, Hid, up_item, Hcpar in Hle by done.
        apply item_bounds in Hc'in. lia. }
  rewrite map_app. apply NoDup_app. split; [apply IH |].
  split; [| apply IHl; [done | intros c' Hc'; apply Hsub; by right]].
  intros id (row & Hid & Hrow)%list_elem_of_In%in_map_iff Hin%list_elem_of_In.
  apply in_map_iff in Hin as (row' & Hid' & Hrow').
  apply rows_below in Hrow as (_ & k & Hk).
  apply in_flat_map in Hrow' as (c' & Hc' & Hrow').
  destruct (Hsub c' (or_intror Hc')) as [Hc'in Hc'par].
  assert (Tk.iid c' <> Tk.iid c) as Hne.
  { intros Heq. apply Hc. rewrite <- Heq. apply list_elem_of_In. by apply in_map. }
  assert (exists k', Nat.iter k' (Report.up tv) id = Tk.iid c') as (k' & Hk').
  { destruct Hrow' as [<- | Hrow']; [exists 0%nat; by rewrite <- Hid' |].
    apply rows_below in Hrow' as (_ & k' & Hk'). exists (S k'). by rewrite <- Hid'. }
  rewrite Hid in Hk.
  (* [c] is [S k] steps and [c'] is [k'] steps above [id] *)
  destruct (Nat.lt_total (S k) k') as [Hlt | [Heq | Hgt]].
  - replace k' with (S (k' - S (S k)) + S k)%nat in Hk' by lia.
    rewrite Nat.iter_add, Hk in Hk'.
    rewrite Nat.iter_succ_r, up_item, Hcpar in Hk' by done.
    pose proof (iter_up_le (k' - S (S k)) p) as Hle. rewrite Hk' in Hle.
    apply item_bounds in Hc'in. lia.
  - subst k'. congruence.
  - replace (S k) with (S (S k - S k') + k')%nat in Hk by lia.
    rewrite Nat.iter_add, Hk' in Hk.
    rewrite Nat.iter_succ_r, up_item, Hc'par in Hk by done.
    pose proof (iter_up_le (S k - S k') p) as Hle. rewrite Hk in Hle.
    apply item_bounds in Hcin. lia.
Qed.

(** With fuel for the names that can still come, the rows hold every
    child of the parent, and with an item its children. *)
Lemma rows_children (fuel : nat) :
  forall p d it,
    (Tk.serial tv - p < fuel)%nat ->
    In it (Tk.items tv) -> Tk.parent it = p ->
    In (d, it) (Report.rows fuel tv p d).
Proof.
  destruct fuel as [|fuel]; intros p d it Hfuel Hin Hp; [lia |].
  simpl. apply in_flat_map. exists it. split; [by apply children_in | by left].
Qed.

Lemma rows_closed (fuel : nat) :
  forall p d d' y it,
    (Tk.serial tv - p < fuel)%nat -> (p = 0%nat \/ exists q, In q (Tk.items tv) /\ Tk.iid q = p) ->
    In (d', y) (Report.rows fuel tv p d) ->
    In it (Tk.items tv) -> Tk.parent it = Tk.iid y ->
    In (S d', it) (Report.rows fuel tv p d).
Proof.
  induction fuel as [|fuel IH]; intros p d d' y it Hfuel Hp Hy Hin Hpar; [done |].
  simpl in *. apply in_flat_map in Hy as (c & Hc & Hy).
  apply in_flat_map. exists c. split; [done |]. right.
  apply children_in in Hc as [Hcin Hcp].
  pose proof (item_bounds c Hcin) as Hcb.
  assert (Tk.serial tv - Tk.iid c < fuel)%nat as Hfuel'.
  { destruct Hp as [-> | (q & Hq & <-)]; [lia |].
    pose proof (item_bounds q Hq). lia. }
  destruct Hy as [[= <- <-] | Hy].
  - by apply rows_children.
  - eapply IH; [done | right; by exists c | exact Hy | done | done].
Qed.

(** Every item of the widget has its row. *)
Lemma rows_complete (it : Tk.item) :
  In it (Tk.items tv) -> exists d, In (d, it) (Report.rows (S (Tk.serial tv)) tv 0 0).
Proof.
  remember (Tk.iid it) as n eqn:Hn. revert it Hn.
  induction n as [n IH] using lt_wf_ind. intros it -> Hin.
  destruct (proj2 Hwf it Hin) as (_ & Hlt & [Hroot | (y & Hy & Hyid)]).
  - exists 0%nat. apply rows_children; [lia | done | done].
  - destruct (IH (Tk.iid y) ltac:(lia) y eq_refl Hy) as (d & Hd).
    exists (S d). eapply rows_closed; [lia | by left | exact Hd | done | done].
Qed.

(** The depth of a row is the length of the chain of its parent. *)
Lemma rows_depth (fuel : nat) :
  forall p d names row,
    chain tv p names -> length names = d ->
    In row (Report.rows fuel tv p d) ->
    exists names', chain tv (Tk.parent row.2) names' /\ length names' = row.1.
Proof.
  induction fuel as [|fuel IH]; intros p d names row Hc Hlen; simpl; [done |].
  intros (c & Hcp & Hrow)%in_flat_map. apply children_in in Hcp as [Hcin Hcpar].
  destruct Hrow as [<- | Hrow].
  - exists names. simpl. by rewrite Hcpar.
  - eapply (IH (Tk.iid c) (S d) (names ++ [Tk.text c])); [| | exact Hrow].
    + constructor; [done | by rewrite Hcpar].
    + rewrite length_app. simpl. lia.
Qed.

(** The recursion of [_write_tree_node_to_file] writes the rows, one
    line each, when every item has a value. *)
Lemma write_rows (fuel : nat) :
  (forall it, In it (Tk.items tv) -> Tk.values it <> []) ->
  forall p d written,
    (Tk.serial tv - p < fuel)%nat ->
    (p = 0%nat \/ exists q, In q (Tk.items tv) /\ Tk.iid q = p) ->
    Utils._write_tree_node_to_file fuel tv p (Report.indent d) written
    = Some (Ok tt, written +:+ concat_text (map Report.line (Report.rows fuel tv p d))).
Proof.
  intros Hvalues. induction fuel as [|fuel IH]; intros p d written Hfuel Hp; [lia |].
  cbn [Utils._write_tree_node_to_file Report.rows]. rewrite get_children_items.
  assert (forall c, In c (Report.children tv p) -> In c (Tk.items tv) /\ Tk.parent c = p)
    as Hsub by (intros c; apply children_in).
  revert written Hsub. generalize (Report.children tv p). intros l.
  induction l as [|c l IHl]; intros written Hsub.
  { simpl. by rewrite append_nil_r. }
  destruct (Hsub c (or_introl eq_refl)) as [Hcin Hcpar].
  cbn [map Utils.for_children flat_map]. unfold Utils.report_round at 1.
  unfold FilterTree.tree_item. rewrite (find_in tv c (proj1 Hwf) Hcin).
  pose proof (Hvalues c Hcin) as Hv.
  destruct (Tk.values c) as [|status values] eqn:Hvc; [done |].
  change (Report.indent d +:+ "  ") with (Report.indent (S d)).
  rewrite IH.
  - rewrite IHl by (intros c' Hc'; apply Hsub; by right).
    f_equal. f_equal. rewrite map_app, concat_text_app. cbn [map].
    rewrite concat_text_cons, !append_assoc. unfold Report.line at 3. simpl.
    by rewrite Hvc.
  - pose proof (item_bounds c Hcin) as Hcb.
    destruct Hp as [-> | (q & Hq & <-)]; [lia |].
    pose proof (item_bounds q Hq). lia.
  - right. by exists c.
Qed.

End ReportFacts.

Section ReportProperties.

Import Gui.

(** X15.  The report of a well-formed widget whose items all have
    values lists every item, once: [export_tree_report], given a root
    folder, a file name and a file that can be opened, writes the
    heading and then one line per item of the widget, no item missing
    and none repeated, each line indented by two spaces for every
    ancestor of its item; and it says that the report is saved. *)
Theorem tree_report_lists_every_item (d : Desktop) (root_path : string)
    (tv : Tk.Treeview) (win : Window) :
  well_formed tv ->
  (forall it, In it (Tk.items tv) -> Tk.values it <> []) ->
  PyStr.truthy root_path = true ->
  PyStr.truthy (asksaveasfilename d "Export Tree Report" ".txt" [("Text Files", "*.txt")])
  = true ->
  open_for_writing d (asksaveasfilename d "Export Tree Report" ".txt"
                        [("Text Files", "*.txt")]) = None ->
  exists rows win',
    Utils.export_tree_report (S (Tk.serial tv)) d root_path tv win = Some (Ok tt, win')
    /\ files win' !! asksaveasfilename d "Export Tree Report" ".txt" [("Text Files", "*.txt")]
       = Some (Utils.report_heading root_path +:+ concat_text (map Report.line rows))
    /\ Permutation (map snd rows) (Tk.items tv)
    /\ Forall (fun row => exists names,
                  chain tv (Tk.parent row.2) names /\ length names = row.1) rows
    /\ last (events win')
       = Some (ShowInfo "Export Successful"
                 ("Tree report saved to "
                  +:+ asksaveasfilename d "Export Tree Report" ".txt"
                        [("Text Files", "*.txt")])).
Proof.
  intros Hwf Hvalues Hroot Hname Hopen.
  exists (Report.rows (S (Tk.serial tv)) tv 0 0).
  unfold Utils.export_tree_report. rewrite Hroot. cbn [negb]. rewrite Hname. cbn [negb].
  rewrite Hopen.
  change "" with (Report.indent 0) at 3.
  rewrite (write_rows tv Hwf (S (Tk.serial tv)) Hvalues 0 0) by (lia || by left).
  eexists. split; [reflexivity |]. split; [simpl; by rewrite lookup_insert_eq |].
  split; [| split; [| simpl; by rewrite last_snoc]].
  - apply NoDup_Permutation.
    + apply (NoDup_fmap_1 Tk.iid). rewrite <- list_fmap_compose.
      apply (rows_nodup tv Hwf).
    + apply (NoDup_fmap_1 Tk.iid). apply Hwf.
    + intros it. rewrite !list_elem_of_In. split.
      * intros (row & <- & Hrow)%in_map_iff. by apply (rows_below tv Hwf) in Hrow as [? _].
      * intros Hin. destruct (rows_complete tv Hwf it Hin) as (depth & Hrow).
        apply in_map_iff. by exists (depth, it).
  - apply Forall_forall. intros row Hrow%list_elem_of_In.
    eapply (rows_depth tv _ 0 0 []); [constructor | done | exact Hrow].
Qed.

Lemma tree_report_lists_every_item_witness :
  exists rows win',
    Utils.export_tree_report (S (Tk.serial Session.small_tree))
      (Session.desktop true "report.txt") "/home/u/proj" Session.small_tree Session.idle
    = Some (Ok tt, win')
    /\ files win' !! asksaveasfilename (Session.desktop true "report.txt")
                       "Export Tree Report" ".txt" [("Text Files", "*.txt")]
       = Some (Utils.report_heading "/home/u/proj" +:+ concat_text (map Report.line rows))
    /\ Permutation (map snd rows) (Tk.items Session.small_tree)
    /\ Forall (fun row => exists names,
                  chain Session.small_tree (Tk.parent row.2) names
                  /\ length names = row.1) rows
    /\ last (events win')
       = Some (ShowInfo "Export Successful"
                 ("Tree report saved to "
                  +:+ asksaveasfilename (Session.desktop true "report.txt")
                        "Export Tree Report" ".txt" [("Text Files", "*.txt")])).
Proof.
  apply (tree_report_lists_every_item (Session.desktop true "report.txt") "/home/u/proj"
           Session.small_tree Session.idle).
  - split.
    + simpl.
      repeat (apply NoDup_cons_2;
              [rewrite ?not_elem_of_cons; repeat split; try lia; apply not_elem_of_nil |]).
      apply NoDup_nil_2.
    + intros it Hin. simpl in Hin.
      destruct Hin as [<- | [<- | [<- | [<- | []]]]]; simpl;
        (split; [lia | split; [lia |]]).
      * by left.
      * right. exists (Tk.Item 1 0 "proj" [""; ""; "Folder"] [] true). simpl. tauto.
      * right. exists (Tk.Item 1 0 "proj" [""; ""; "Folder"] [] true). simpl. tauto.
      * right. exists (Tk.Item 2 1 "src" [""; ""; "Folder"] [] false). simpl. tauto.
  - intros it Hin. simpl in Hin.
    destruct Hin as [<- | [<- | [<- | [<- | []]]]]; discriminate.
  - reflexivity.
  - reflexivity.
  - reflexivity.
Defined.

End ReportProperties.
(* ===================================================================== *)
(** ** Python's list membership and removal                               *)
(* ===================================================================== *)

Section PyListFacts.

Lemma mem_In (x : string) (l : list string) : Py.mem x l = true <-> In x l.
Proof.
  unfold Py.mem. rewrite existsb_exists. split.
  - intros (y & Hin & Heq). apply String.eqb_eq in Heq. by subst.
  - intros Hin. exists x. split; [done | apply String.eqb_refl].
Qed.

Lemma mem_not_In (x : string) (l : list string) : Py.mem x l = false <-> ~ In x l.
Proof.
  rewrite <- mem_In. by destruct (Py.mem x l).
Qed.

(** [l.remove(x)] takes the first [x] out of a list that holds one. *)
Lemma list_remove_in (x : string) (l : list string) :
  In x l ->
  exists front back, l = front ++ x :: back /\ ~ In x front
                     /\ Py.list_remove x l = Ok (front ++ back).
Proof.
  induction l as [| y l IH]; [done |].
  intros Hin. simpl. destruct (String.eqb y x) eqn:Heq.
  - apply String.eqb_eq in Heq as ->. exists [], l. repeat split. intros [].
  - apply String.eqb_neq in Heq. destruct Hin as [-> | Hin]; [done |].
    destruct (IH Hin) as (front & back & -> & Hfront & ->).
    exists (y :: front), back. repeat split.
    intros [-> | H]; [done | by apply Hfront].
Qed.

Lemma list_remove_first (x : string) (front back : list string) :
  ~ In x front -> Py.list_remove x (front ++ x :: back) = Ok (front ++ back).
Proof.
  induction front as [| y k IH]; intros Hno; simpl.
  - by rewrite String.eqb_refl.
  - destruct (String.eqb y x) eqn:Hy.
    + apply String.eqb_eq in Hy as ->. exfalso. apply Hno. by left.
    + rewrite IH; [done |]. intros H. apply Hno. by right.
Qed.

(** In a list without repetition what [l.remove(x)] leaves is the list
    without [x]. *)
Lemma remove_keeps_others (front back : list string) (x : string) :
  ~ In x front -> ~ In x back ->
  front ++ back = List.filter (fun y => negb (String.eqb y x)) (front ++ x :: back).
Proof.
  intros Hfront Hback.
  assert (forall l, ~ In x l -> List.filter (fun y => negb (String.eqb y x)) l = l)
    as Hsame.
  { induction l as [| y l IH]; [done |]. intros Hno. simpl.
    destruct (String.eqb y x) eqn:Heq.
    - apply String.eqb_eq in Heq as ->. exfalso. apply Hno. by left.
    - simpl. rewrite IH; [done |]. intros H. apply Hno. by right. }
  rewrite List.filter_app. simpl. rewrite String.eqb_refl. simpl.
  by rewrite !Hsame.
Qed.

End PyListFacts.
(* ===================================================================== *)
(** ** The search field                                                   *)
(* ===================================================================== *)

Section EntryFacts.
Import PlaceholderEntry.

Lemma string_length_app (s t : string) :
  String.length (s +:+ t) = (String.length s + String.length t)%nat.
Proof. induction s as [| c s IH]; simpl; [done | by rewrite IH]. Qed.

Lemma append_empty (s : string) : s +:+ "" = s.
Proof.
  induction s as [| c s IH]; [done |].
  change (String c (s +:+ "") = String c s). by rewrite IH.
Qed.

Lemma doubled_differs (p : string) : p <> "" -> p +:+ p <> p.
Proof.
  intros Hp Heq. apply (f_equal String.length) in Heq.
  rewrite string_length_app in Heq.
  destruct p as [| c p]; [done | simpl in Heq; lia].
Qed.

Lemma eqb_doubled (p : string) : p <> "" -> String.eqb (p +:+ p) p = false.
Proof. intros Hp. apply String.eqb_neq. by apply doubled_differs. Qed.

Lemma eqb_empty (p : string) : p <> "" -> String.eqb "" p = false.
Proof. intros Hp. apply String.eqb_neq. congruence. Qed.

Lemma truthy_nonempty (p : string) : p <> "" -> PyStr.truthy p = true.
Proof. by destruct p. Qed.

(** The entry once it is built, and once the focus has left it. *)
Lemma focus_fresh (p fg : string) (ev : focus) :
  p <> "" ->
  on_focus (MkEntry p "grey" p "grey" fg) ev =
  if is_focus_out ev then MkEntry (p +:+ p) "grey" p "grey" fg
  else MkEntry p "grey" p "grey" fg.
Proof.
  intros Hp. destruct ev; simpl.
  - unfold _clear_placeholder, get. simpl.
    by rewrite String.eqb_refl, eqb_empty.
  - unfold _add_placeholder, get. simpl.
    by rewrite String.eqb_refl.
Qed.

Lemma focus_doubled (p fg : string) (ev : focus) :
  p <> "" ->
  on_focus (MkEntry (p +:+ p) "grey" p "grey" fg) ev =
  MkEntry (p +:+ p) "grey" p "grey" fg.
Proof.
  intros Hp. destruct ev; simpl.
  - unfold _clear_placeholder, get. simpl.
    by rewrite eqb_doubled, eqb_doubled.
  - unfold _add_placeholder, get. simpl.
    rewrite eqb_doubled by done.
    rewrite truthy_nonempty; [done |].
    intros Heq. apply (f_equal String.length) in Heq.
    rewrite string_length_app in Heq.
    destruct p; [done | simpl in Heq; lia].
Qed.

Lemma focus_doubled_all (p fg : string) (evs : list focus) :
  p <> "" ->
  fold_left on_focus evs (MkEntry (p +:+ p) "grey" p "grey" fg) =
  MkEntry (p +:+ p) "grey" p "grey" fg.
Proof.
  intros Hp. induction evs as [| ev evs IH]; simpl; [done |].
  by rewrite focus_doubled.
Qed.

(** X16 (UIManager.py, PlaceholderEntry): the search field, built with a
    placeholder that is not empty over an empty text, never gets empty
    through focus events.  Until the focus leaves it for the first time
    it holds the placeholder and [get] gives the empty string; from then
    on it holds the placeholder twice and [get] gives that text.  It
    keeps the placeholder colour throughout. *)
Theorem placeholder_is_never_cleared (p fg : string) (evs : list focus) :
  p <> "" ->
  let e := fold_left on_focus evs (__init__ p "" fg) in
  content e = (if existsb is_focus_out evs then p +:+ p else p) /\
  get e = (if existsb is_focus_out evs then p +:+ p else "") /\
  foreground e = "grey".
Proof.
  intros Hp e. subst e.
  assert (Hinit : __init__ p "" fg = MkEntry p "grey" p "grey" fg).
  { unfold __init__, _add_placeholder, get. simpl.
    destruct p as [| c p']; [done |]. simpl. by rewrite append_empty. }
  rewrite Hinit. clear Hinit.
  induction evs as [| ev evs IH]; simpl.
  - unfold get. simpl. by rewrite String.eqb_refl.
  - rewrite focus_fresh by done. destruct ev; simpl.
    + apply IH.
    + rewrite focus_doubled_all by done. unfold get. simpl.
      by rewrite eqb_doubled.
Qed.

(** The search field of the application, after the focus came, left and
    came back. *)
Lemma placeholder_is_never_cleared_witness :
  let e := fold_left on_focus [FocusIn; FocusOut; FocusIn]
             (__init__ "Search for files or folders..." "" "black") in
  content e = "Search for files or folders...Search for files or folders..." /\
  get e = "Search for files or folders...Search for files or folders..." /\
  foreground e = "grey".
Proof.
  apply (placeholder_is_never_cleared "Search for files or folders..." "black"
           [FocusIn; FocusOut; FocusIn]).
  discriminate.
Defined.

End EntryFacts.
(* ===================================================================== *)
(** ** The recent folders                                                 *)
(* ===================================================================== *)

Section RecentFacts.
Import UIManager FilterTree Recent.

(** X17 (UIManager.py, set_root_folder, lines 291-294): the update of
    the recent folders never raises; from a list without repetition it
    gives the folder followed by the other folders in their order, cut
    after five entries, which again has no repetition. *)
Theorem recent_folders_updated (folder_path : string) (recent : list string) :
  NoDup recent ->
  exists l,
    update_recent folder_path recent = Ok l
    /\ l = take 5 (folder_path
                   :: List.filter (fun x => negb (String.eqb x folder_path)) recent)
    /\ NoDup l /\ (length l <= 5)%nat.
Proof.
  intros Hnodup.
  assert (exists rest,
            (if Py.mem folder_path recent then Py.list_remove folder_path recent
             else Ok recent) = Ok rest
            /\ rest = List.filter (fun x => negb (String.eqb x folder_path)) recent)
    as (rest & Hrest & Heq).
  { destruct (Py.mem folder_path recent) eqn:Hmem.
    - apply mem_In in Hmem.
      destruct (list_remove_in _ _ Hmem) as (front & back & -> & Hfront & ->).
      eexists. split; [done |]. apply remove_keeps_others; [done |].
      apply NoDup_app in Hnodup as (_ & _ & Hback).
      apply NoDup_cons in Hback as [Hno _]. by rewrite list_elem_of_In in Hno.
    - apply mem_not_In in Hmem. exists recent. split; [done |].
      clear Hnodup. induction recent as [| y l IH]; [done |]. simpl.
      destruct (String.eqb y folder_path) eqn:Hy.
      + apply String.eqb_eq in Hy as ->. exfalso. apply Hmem. by left.
      + simpl. f_equal. apply IH. intros H. apply Hmem. by right. }
  unfold update_recent. rewrite Hrest. eexists. split; [done |].
  unfold MAX_RECENT_FOLDERS. rewrite <- Heq. split; [done |]. split.
  - apply (sublist_NoDup _ (folder_path :: rest)); [| apply sublist_take].
    apply NoDup_cons_2.
    + rewrite Heq, list_elem_of_In, filter_In. intros [_ H].
      by rewrite String.eqb_refl in H.
    + rewrite Heq. apply NoDup_ListNoDup, List.NoDup_filter.
      by apply NoDup_ListNoDup.
  - rewrite length_take. lia.
Qed.

Lemma recent_folders_updated_witness :
  exists l,
    update_recent "/e" ["/a"; "/b"; "/c"; "/d"; "/e"] = Ok l
    /\ l = take 5 ("/e" :: List.filter (fun x => negb (String.eqb x "/e"))
                             ["/a"; "/b"; "/c"; "/d"; "/e"])
    /\ NoDup l /\ (length l <= 5)%nat.
Proof.
  apply (recent_folders_updated "/e" ["/a"; "/b"; "/c"; "/d"; "/e"]).
  repeat (apply NoDup_cons_2;
          [rewrite ?not_elem_of_cons; repeat split; try done; apply not_elem_of_nil |]).
  apply NoDup_nil_2.
Defined.

(** X18 (UIManager.py, set_root_folder): in the view that does not
    separate the ignored files, a folder whose scan shows a file as
    [Included] does not get into the recent folders: the method ends by
    the [TclError] of [filter_tree] before it updates the list and the
    menu, if it ends. *)
Theorem folder_with_files_is_not_remembered (fuel : nat)
    (fnmatch : string -> string -> bool) (literal_eval : string -> res (list string))
    (filter_var : string) (isdir : bool) (root : option (list entry))
    (folder_path : string) (cfg : Settings) (w : Widgets) (recent : list string)
    (menu : list menu_entry) (it : Tk.item) :
  show_ignored_separately cfg = false ->
  In it (Tk.items (tree (widgets (populate_file_tree fnmatch literal_eval
                                    (with_root_folder folder_path cfg) isdir root w)))) ->
  Tk.values it !! 0%nat = Some "Included" ->
  match set_root_folder fuel fnmatch literal_eval filter_var isdir root folder_path
                        true cfg w recent menu with
  | None => True
  | Some res =>
      recent_folders res = recent /\ recent_menu res = menu
      /\ exists e, raised (scan_outcome res) = Some e /\ exc_cls e = TclError
  end.
Proof.
  intros Hview Hin Hincluded.
  set (cfg' := with_root_folder folder_path cfg) in *.
  assert (show_ignored_separately cfg' = false) as Hview' by done.
  destruct (populate_default_view fnmatch literal_eval cfg' isdir root w Hview')
    as [_ [[Hidle Hraised] | He]]; [| by rewrite He in Hin].
  pose proof (populate_cache_ok fnmatch literal_eval cfg' isdir root w) as Hcache.
  pose proof (proj2 Hcache it Hin Hincluded) as Hid.
  pose proof (filter_tree_cached fuel filter_var (root_folder cfg') _ _ Hcache Hid) as Hf.
  unfold set_root_folder, populate_and_filter. fold cfg'. rewrite Hidle, Hraised.
  destruct (filter_tree fuel filter_var (root_folder cfg') _) as [[[[] | e] w'] |];
    [done | | done].
  simpl. repeat split. by exists e.
Qed.

Lemma folder_with_files_is_not_remembered_witness :
  match set_root_folder 8 Lib.fnmatch Lib.literal_eval "" true Project.listing
          "/home/u/proj" true (Project.settings "" "[]" "[]" false false)
          Project.blank ["/old"] (populate_recent_folders_menu ["/old"]) with
  | None => True
  | Some res =>
      recent_folders res = ["/old"]
      /\ recent_menu res = populate_recent_folders_menu ["/old"]
      /\ exists e, raised (scan_outcome res) = Some e /\ exc_cls e = TclError
  end.
Proof.
  apply (folder_with_files_is_not_remembered 8 Lib.fnmatch Lib.literal_eval "" true
           Project.listing "/home/u/proj" (Project.settings "" "[]" "[]" false false)
           Project.blank ["/old"] (populate_recent_folders_menu ["/old"])
           (Tk.Item 3 1 "a.py" ["Included"; "2.00"; ".py"] [] false)).
  - reflexivity.
  - vm_compute. right. right. left. reflexivity.
  - reflexivity.
Defined.

End RecentFacts.
(* ===================================================================== *)
(** ** The editor of the global ignore patterns                           *)
(* ===================================================================== *)

Section EditorFacts.
Import GlobalIgnoreEditor.

Lemma unselected_none (i : nat) (entries : list string) :
  unselected [] i entries = entries.
Proof.
  revert i. induction entries as [| x l IH]; intros i; [done |].
  cbn [unselected]. rewrite bool_decide_eq_false_2 by apply not_elem_of_nil.
  by rewrite IH.
Qed.

(** An index below the ones that are still to come plays no part. *)
Lemma unselected_passed (s : nat) (rest : list nat) (i : nat) (entries : list string) :
  s < i -> unselected (s :: rest) i entries = unselected rest i entries.
Proof.
  revert i. induction entries as [| x l IH]; intros i Hlt; [done |].
  cbn [unselected]. rewrite (IH (S i)) by lia.
  destruct (bool_decide (i ∈ rest)) eqn:Hrest.
  - apply bool_decide_eq_true_1 in Hrest.
    rewrite bool_decide_eq_true_2; [done |]. by apply list_elem_of_further.
  - apply bool_decide_eq_false_1 in Hrest.
    rewrite bool_decide_eq_false_2; [done |].
    rewrite elem_of_cons. intros [-> | H]; [lia | done].
Qed.

(** To delete the smallest selected index once the larger ones are
    gone is to leave out all of them. *)
Lemma delete_smallest (s : nat) (rest : list nat) (i : nat) (entries : list string) :
  Forall (fun j => s < j) rest -> i <= s ->
  listbox_delete (s - i) (unselected rest i entries) = unselected (s :: rest) i entries.
Proof.
  intros Hrest. rewrite Forall_forall in Hrest.
  revert i. induction entries as [| x l IH]; intros i Hle; cbn [unselected].
  { unfold listbox_delete. by rewrite take_nil, drop_nil. }
  assert (i ∉ rest) as Hno.
  { intros Hin. apply Hrest in Hin. lia. }
  rewrite (bool_decide_eq_false_2 _ Hno).
  destruct (decide (i = s)) as [-> | Hne].
  - rewrite bool_decide_eq_true_2 by apply list_elem_of_here.
    rewrite Nat.sub_diag. unfold listbox_delete. simpl. rewrite drop_0.
    symmetry. apply unselected_passed. lia.
  - rewrite bool_decide_eq_false_2.
    2: { rewrite elem_of_cons. intros [? | ?]; [lia | done]. }
    replace (s - i) with (S (s - S i)) by lia.
    unfold listbox_delete. simpl. f_equal.
    apply (IH (S i)). lia.
Qed.

(** X19 (UIManager.py, GlobalIgnoreEditor.remove_item): with the
    selected indices in growing order, as the list box gives them, the
    method removes the selected entries and no other: to delete from
    the last index to the first keeps the smaller indices in place. *)
Theorem remove_item_removes_the_selection (selected : list nat)
    (entries : list string) :
  ascending selected ->
  remove_item selected entries = unselected selected 0 entries.
Proof.
  intros Hasc.
  assert (fold_left (fun entries i => listbox_delete i entries) (rev selected) entries
          = unselected selected 0 entries) as Hfold.
  { induction selected as [| s rest IH]; cbn [rev fold_left].
    - by rewrite unselected_none.
    - destruct Hasc as [Hlt Hrest].
      rewrite fold_left_app. cbn [fold_left]. rewrite (IH Hrest).
      rewrite <- (Nat.sub_0_r s) at 1. apply delete_smallest; [done | lia]. }
  destruct selected as [| s rest]; [by rewrite unselected_none |].
  exact Hfold.
Qed.

Lemma remove_item_removes_the_selection_witness :
  remove_item [1; 3] ["*.pyc"; "*.log"; ".env"; ".DS_Store"; "*.tmp"]
  = unselected [1; 3] 0 ["*.pyc"; "*.log"; ".env"; ".DS_Store"; "*.tmp"].
Proof.
  apply (remove_item_removes_the_selection [1; 3]
           ["*.pyc"; "*.log"; ".env"; ".DS_Store"; "*.tmp"]).
  simpl. repeat split; repeat constructor.
Defined.

End EditorFacts.
(* ===================================================================== *)
(** ** The context menu: Ignore and Un-ignore                             *)
(* ===================================================================== *)

Section IgnoreFacts.
Import UIManager FilterTree IgnoreMenu.

Lemma third_value_ok (values : list string) (v : string) :
  third_value values = Ok v <-> values !! 2%nat = Some v.
Proof.
  unfold third_value. destruct values as [| a values]; [done |].
  by destruct ((a :: values) !! 2%nat); split; intros [= ->] || intros [=].
Qed.

Lemma remove_present_ok (x : string) (l : list string) :
  remove_present x l = Ok (removed x l).
Proof.
  unfold removed, remove_present. destruct (Py.mem x l) eqn:Hmem; [| done].
  apply mem_In in Hmem. by destruct (list_remove_in _ _ Hmem) as (? & ? & _ & _ & ->).
Qed.

(** The loop of [ignore_selected], when it ends, has added the names of
    the selected items in their order, each to the list of its kind. *)
Lemma add_selected_spec (tree : Tk.Treeview) (selected_ids : list nat) :
  forall folders files folders' files',
    add_selected tree selected_ids folders files = Ok (folders', files') ->
    folders' = fold_left (fun l x => append_new x l)
                         (selected_names tree true selected_ids) folders
    /\ files' = fold_left (fun l x => append_new x l)
                          (selected_names tree false selected_ids) files
    /\ Forall (fun item_id => exists it v, Tk.find tree item_id = Some it
                                           /\ Tk.values it !! 2%nat = Some v)
              selected_ids.
Proof.
  induction selected_ids as [| item_id rest IH]; intros folders files folders' files'.
  { simpl. intros [= <- <-]. by repeat split. }
  cbn [add_selected selected_names]. unfold tree_item.
  destruct (Tk.find tree item_id) as [it |] eqn:Hfind; [| done].
  destruct (third_value (Tk.values it)) as [v | e] eqn:Hthird; [| done].
  apply third_value_ok in Hthird. rewrite Hthird.
  destruct (String.eqb v "Folder"); simpl; intros Hrest;
    destruct (IH _ _ _ _ Hrest) as (-> & -> & Hok);
    (split; [done | split; [done |]]); constructor; eauto.
Qed.

(** The loop of [unignore_selected] over items that the widget holds
    ends, and has removed their names in their order. *)
Lemma remove_selected_spec (tree : Tk.Treeview) (selected_ids : list nat) :
  Forall (fun item_id => exists it v, Tk.find tree item_id = Some it
                                      /\ Tk.values it !! 2%nat = Some v)
         selected_ids ->
  forall folders files,
    remove_selected tree selected_ids folders files
    = Ok (fold_left (fun l x => removed x l)
                    (selected_names tree true selected_ids) folders,
          fold_left (fun l x => removed x l)
                    (selected_names tree false selected_ids) files).
Proof.
  induction 1 as [| item_id rest (it & v & Hfind & Hthird) _ IH]; intros folders files;
    [done |].
  cbn [remove_selected selected_names]. unfold tree_item. rewrite Hfind, Hthird.
  apply third_value_ok in Hthird. rewrite Hthird.
  destruct (String.eqb v "Folder"); simpl; rewrite remove_present_ok; apply IH.
Qed.

Lemma selected_names_selects (tree : Tk.Treeview) (folder : bool)
    (selected_ids : list nat) (name : string) :
  In name (selected_names tree folder selected_ids) ->
  selects tree selected_ids name folder.
Proof.
  induction selected_ids as [| item_id rest IH]; [done |].
  cbn [selected_names].
  assert (selects tree rest name folder -> selects tree (item_id :: rest) name folder)
    as Hmore.
  { intros (i & it & v & Hin & H). exists i, it, v. split; [by right | done]. }
  destruct (Tk.find tree item_id) as [it |] eqn:Hfind; [| by auto].
  destruct (Tk.values it !! 2%nat) as [v |] eqn:Hthird; [| by auto].
  destruct (Bool.eqb (String.eqb v "Folder") folder) eqn:Hkind; [| by auto].
  intros [<- | Hin]; [| by auto].
  exists item_id, it, v. apply Bool.eqb_prop in Hkind.
  repeat split; [by left | done | done | done].
Qed.

(** The names that get appended are new, distinct and among those
    given. *)
Lemma append_new_all (names : list string) :
  forall l, exists added,
    fold_left (fun l x => append_new x l) names l = l ++ added
    /\ NoDup added
    /\ forall x, In x added -> In x names /\ ~ In x l.
Proof.
  induction names as [| x names IH]; intros l.
  { exists []. simpl. rewrite app_nil_r. repeat split; [apply NoDup_nil_2 | done..]. }
  simpl. unfold append_new at 2. destruct (Py.mem x l) eqn:Hmem.
  - destruct (IH l) as (added & -> & Hnodup & Hin).
    exists added. repeat split; [done | | by apply Hin]. right. by apply Hin.
  - apply mem_not_In in Hmem.
    destruct (IH (l ++ [x])) as (added & -> & Hnodup & Hin).
    exists (x :: added). rewrite <- app_assoc. repeat split.
    + apply NoDup_cons_2; [| done]. rewrite list_elem_of_In. intros Hx.
      apply Hin in Hx as [_ Hno]. apply Hno, in_or_app. right. by left.
    + destruct H as [<- | H]; [by left | right; by apply Hin].
    + destruct H as [<- | H]; [done |]. apply Hin in H as [_ Hno].
      intros Hl. apply Hno, in_or_app. by left.
Qed.

(** To remove names that the front of a list does not hold, takes them
    out of its back. *)
Lemma removed_all (names : list string) :
  forall l added,
    (forall x, In x names -> ~ In x l) -> NoDup added ->
    fold_left (fun l x => removed x l) names (l ++ added)
    = l ++ List.filter (fun y => negb (Py.mem y names)) added.
Proof.
  induction names as [| x names IH]; intros l added Hfresh Hnodup.
  { simpl. f_equal. induction added as [| y added IHa]; [done |]. simpl.
    f_equal. apply IHa. by apply NoDup_cons in Hnodup as [_ ?]. }
  assert (~ In x l) as Hx by (apply Hfresh; by left).
  assert (forall y, In y names -> ~ In y l) as Hfresh' by (intros y Hy; apply Hfresh; by right).
  cbn [fold_left].
  destruct (Py.mem x (l ++ added)) eqn:Hmem.
  - apply mem_In in Hmem. pose proof Hmem as Hmem'.
    apply in_app_or in Hmem as [Hl | Ha]; [done |].
    apply in_split in Ha as (front & back & ->).
    assert (~ In x front /\ ~ In x back) as [Hfront Hback].
    { apply NoDup_app in Hnodup as (_ & Hdisj & Hb).
      apply NoDup_cons in Hb as [Hb _]. rewrite list_elem_of_In in Hb.
      split; [| done]. intros Hf. apply list_elem_of_In in Hf.
      apply (Hdisj _ Hf). apply list_elem_of_here. }
    assert (removed x (l ++ front ++ x :: back) = l ++ front ++ back) as ->.
    { unfold removed, remove_present. apply mem_In in Hmem'. rewrite Hmem'.
      rewrite !app_assoc. rewrite list_remove_first; [done |].
      intros H. apply in_app_or in H as [? | ?]; done. }
    rewrite (IH l (front ++ back) Hfresh').
    2: { apply NoDup_app in Hnodup as (Hf & Hdisj & Hb).
         apply NoDup_cons in Hb as [_ Hb]. apply NoDup_app. repeat split; [done | | done].
         intros y Hy Hyb. apply (Hdisj y Hy). by apply list_elem_of_further. }
    f_equal. rewrite !List.filter_app. cbn [List.filter Py.mem existsb].
    rewrite String.eqb_refl. cbn [orb negb].
    assert (forall k, ~ In x k ->
              List.filter (fun y => negb (Py.mem y names)) k
              = List.filter (fun y => negb (String.eqb y x || Py.mem y names)) k) as Hk.
    { induction k as [| y k IHk]; [done |]. intros Hno. simpl.
      destruct (String.eqb y x) eqn:Hy.
      - apply String.eqb_eq in Hy as ->. exfalso. apply Hno. by left.
      - simpl. rewrite IHk; [done |]. intros H. apply Hno. by right. }
    by rewrite (Hk front Hfront), (Hk back Hback).
  - assert (removed x (l ++ added) = l ++ added) as ->
      by (unfold removed, remove_present; by rewrite Hmem).
    apply mem_not_In in Hmem. rewrite (IH l added Hfresh' Hnodup). f_equal.
    assert (~ In x added) as Hno by (intros H; apply Hmem, in_or_app; by right).
    clear - Hno. induction added as [| y k IHk]; [done |]. simpl.
    destruct (String.eqb y x) eqn:Hy.
    + apply String.eqb_eq in Hy as ->. exfalso. apply Hno. by left.
    + simpl. rewrite IHk; [done |]. intros H. apply Hno. by right.
Qed.

Lemma removed_after_append (names l : list string) :
  (forall x, In x names -> ~ In x l) ->
  fold_left (fun l x => removed x l) names
            (fold_left (fun l x => append_new x l) names l) = l.
Proof.
  intros Hfresh. destruct (append_new_all names l) as (added & -> & Hnodup & Hin).
  rewrite removed_all by done.
  assert (List.filter (fun y => negb (Py.mem y names)) added = []) as ->.
  { destruct (List.filter _ added) as [| y k] eqn:Hf; [done |].
    assert (In y (List.filter (fun y => negb (Py.mem y names)) added)) as Hy
      by (rewrite Hf; by left).
    apply filter_In in Hy as [Hy Hno]. apply Hin in Hy as [Hy _].
    apply mem_In in Hy. by rewrite Hy in Hno. }
  apply app_nil_r.
Qed.

(** X20 (UIManager.py, ignore_selected and unignore_selected): over the
    same selection the loop of [unignore_selected] gives back the two
    lists of patterns from which the loop of [ignore_selected] started,
    provided that no selected name was a pattern of its kind
    before. *)
Theorem unignore_undoes_ignore (tree : Tk.Treeview) (selected_ids : list nat)
    (folders files folders' files' : list string) :
  (forall name, selects tree selected_ids name true -> ~ In name folders) ->
  (forall name, selects tree selected_ids name false -> ~ In name files) ->
  add_selected tree selected_ids folders files = Ok (folders', files') ->
  remove_selected tree selected_ids folders' files' = Ok (folders, files).
Proof.
  intros Hfolders Hfiles Hadd.
  apply add_selected_spec in Hadd as (-> & -> & Hok).
  rewrite (remove_selected_spec _ _ Hok).
  rewrite !removed_after_append; [done | |].
  - intros x Hx. by apply Hfiles, selected_names_selects.
  - intros x Hx. by apply Hfolders, selected_names_selects.
Qed.

(** The folder [src] and the file [a.py] of the small tree, ignored
    and then taken back. *)
Lemma unignore_undoes_ignore_witness :
  remove_selected Session.small_tree [2; 3]%nat ["build"; "src"] ["*.log"; "a.py"]
  = Ok (["build"], ["*.log"]).
Proof.
  apply (unignore_undoes_ignore Session.small_tree [2; 3]%nat ["build"] ["*.log"]
           ["build"; "src"] ["*.log"; "a.py"]).
  - intros name (item_id & it & v & Hin & Hfind & Hv & Htext & Hkind) Hname.
    destruct Hin as [<- | [<- | []]]; vm_compute in Hfind; injection Hfind as <-;
      simpl in Hv; injection Hv as <-; simpl in Htext, Hkind; subst name;
      [| discriminate].
    destruct Hname as [H | []]; discriminate.
  - intros name (item_id & it & v & Hin & Hfind & Hv & Htext & Hkind) Hname.
    destruct Hin as [<- | [<- | []]]; vm_compute in Hfind; injection Hfind as <-;
      simpl in Hv; injection Hv as <-; simpl in Htext, Hkind; subst name;
      [discriminate |].
    destruct Hname as [H | []]; discriminate.
  - reflexivity.
Defined.

End IgnoreFacts.
(* ===================================================================== *)
(** ** sanity checks on the string layer                                  *)
(* ===================================================================== *)

Example lower_ex : PyStr.lower "Main.PY" = "main.py".
Proof. reflexivity. Qed.

Example endswith_ex :
  PyStr.endswith "a.py" ".py" = true /\ PyStr.endswith "py" ".py" = false
  /\ PyStr.endswith "a.pyc" ".py" = false.
Proof. repeat split; reflexivity. Qed.

Example split_strip_ex :
  map PyStr.strip (PyStr.split "," ".py, .TXT ,,.md") = [".py"; ".TXT"; ""; ".md"].
Proof. reflexivity. Qed.

Example join_ex :
  OsPath.join "/home/u/proj" ["src"; "a.py"] = "/home/u/proj/src/a.py"
  /\ OsPath.join "/home/u/" ["a.py"] = "/home/u/a.py"
  /\ OsPath.join "/home/u" ["/etc"; "x"] = "/etc/x".
Proof. repeat split; reflexivity. Qed.

Example basename_ex :
  OsPath.basename "/home/u/proj" = "proj" /\ OsPath.basename "/home/u/proj/" = ""
  /\ OsPath.basename "a.py" = "a.py".
Proof. repeat split; reflexivity. Qed.

Example splitext_ex :
  OsPath.splitext "a.tar.gz" = ("a.tar", ".gz") /\ OsPath.splitext ".bashrc" = (".bashrc", "")
  /\ OsPath.splitext "Makefile" = ("Makefile", "") /\ OsPath.splitext "x/..b" = ("x/..b", "")
  /\ OsPath.splitext "x/.a.b" = ("x/.a", ".b").
Proof. repeat split; reflexivity. Qed.

Example item_name_ex :
  Tk.item_name 1 = "I001" /\ Tk.item_name 26 = "I01A" /\ Tk.item_name 4096 = "I1000".
Proof. repeat split; reflexivity. Qed.

Example size_kb_ex :
  size_kb 0 = "0.00" /\ size_kb 5 = "0.00" /\ size_kb 6 = "0.01"
  /\ size_kb 1536 = "1.50" /\ size_kb 1048576 = "1024.00".
Proof. repeat split; vm_compute; reflexivity. Qed.

Example glob_ex :
  Lib.fnmatch "a.pyc" "*.pyc" = true /\ Lib.fnmatch "a.py" "*.pyc" = false
  /\ Lib.fnmatch "build" "build" = true /\ Lib.fnmatch "build2" "build" = false
  /\ Lib.fnmatch "x.log" "?.l*g" = true.
Proof. repeat split; reflexivity. Qed.

Example literal_eval_ex :
  Lib.literal_eval "['__pycache__', '.git']" = Ok ["__pycache__"; ".git"]
  /\ Lib.literal_eval "[]" = Ok []
  /\ Lib.literal_eval "['*.tmp'" = Raise (Exn SyntaxError "invalid syntax").
Proof. repeat split; reflexivity. Qed.

(** The scenario of the design document: [a.py] is included, [b.pyc] is
    ignored, [__pycache__] is pruned with the file it holds. *)
Example scan_of_project :
  let r := Project.scan_of (Project.settings "/home/u/proj" "[]" "[]" false false)
                           Project.listing in
  map (fun it => (Tk.parent it, Tk.text it, Tk.values it))
      (Tk.items (UIManager.tree (UIManager.widgets r)))
  = [(0%nat, "proj", [""; ""; "Folder"]);
     (1%nat, "src", [""; ""; "Folder"]);
     (1%nat, "a.py", ["Included"; "2.00"; ".py"]);
     (1%nat, "b.pyc", ["Ignored (Global)"; "0.01"; ".pyc"]);
     (2%nat, "m.py", ["Included"; "0.00"; ".py"]);
     (2%nat, "README", ["Ignored (Type)"; "N/A"; ""])]
  /\ UIManager._all_tree_items_master_list (UIManager.widgets r) = [3%nat; 5%nat]
  /\ UIManager.raised r = None /\ UIManager.shown r = [].
Proof. repeat split; vm_compute; reflexivity. Qed.

(** A session pattern takes precedence over a global one: [b.pyc]
    matches both [*.pyc] lists. *)
Example session_pattern_first :
  let r := Project.scan_of (Project.settings "/home/u/proj" "['src']" "['*.pyc']" false false)
                           Project.listing in
  map (fun it => (Tk.text it, Tk.values it !! 0%nat, Tk.tags it))
      (Tk.items (UIManager.tree (UIManager.widgets r)))
  = [("proj", Some "", []);
     ("a.py", Some "Included", []);
     ("b.pyc", Some "Ignored (Session)", ["session_ignore"])].
Proof. vm_compute; reflexivity. Qed.

(** In the view that separates the ignored files, the node of an
    ignored file is inserted in the lower widget under the name of a node
    of the primary widget: Tk refuses it and the scan stops there. *)
Example separate_view_stops :
  let r := Project.scan_of (Project.settings "/home/u/proj" "[]" "[]" true false)
                           Project.listing in
  map Tk.text (Tk.items (UIManager.tree (UIManager.widgets r))) = ["proj"; "src"; "a.py"]
  /\ Tk.items (UIManager.ignored_tree (UIManager.widgets r)) = []
  /\ UIManager.raised r = Some (Exn TclError "Item I001 not found").
Proof. repeat split; vm_compute; reflexivity. Qed.

(** An exception of [literal_eval] that is neither [ValueError] nor
    [SyntaxError] leaves [populate_file_tree] before the scan. *)
Example other_exception_propagates :
  let r := UIManager.populate_file_tree Lib.fnmatch
             (fun _ => Raise (Exn TypeError "unhashable type: 'list'"))
             (Project.settings "/home/u/proj" "{[]}" "[]" false false)
             true Project.listing Project.blank in
  Tk.items (UIManager.tree (UIManager.widgets r)) = []
  /\ UIManager.shown r = []
  /\ UIManager.raised r = Some (Exn TypeError "unhashable type: 'list'").
Proof. repeat split; reflexivity. Qed.

(** A session text that denotes a list with a number in it: the file
    [a.py] matches the first item and is shown as ignored, the file
    [b.pyc] reaches the number, and the scan is left by [TypeError]
    before [filter_tree] is called. *)
Example number_among_the_patterns :
  let r := Session.outcome_of
             (PopulateFileTree.populate_file_tree Lib.fnmatch Literals.literal_eval 8
                (Project.settings "/home/u/proj" "[]" "['a.py', 5]" false false) ""
                true Project.listing Project.blank) in
  map (fun it => (Tk.text it, Tk.values it !! 0%nat))
      (Tk.items (UIManager.tree (UIManager.widgets r)))
  = [("proj", Some ""); ("src", Some ""); ("a.py", Some "Ignored (Session)")]
  /\ UIManager.shown r = []
  /\ UIManager.raised r
     = Some (Exn TypeError "expected str, bytes or os.PathLike object, not int").
Proof. repeat split; vm_compute; reflexivity. Qed.

(** The whole method on the project folder: the scan shows [a.py] as
    included, and [filter_tree] then clears the widget and fails at the
    first cached item. *)
Example whole_method_on_project :
  let r := Session.outcome_of
             (PopulateFileTree.populate_file_tree Lib.fnmatch Literals.literal_eval 8
                (Project.settings "/home/u/proj" "[]" "[]" false false) ""
                true Project.listing Project.blank) in
  Tk.items (UIManager.tree (UIManager.widgets r)) = []
  /\ UIManager._all_tree_items_master_list (UIManager.widgets r) = [3%nat; 5%nat]
  /\ UIManager.raised r = Some (Exn TclError "Item I003 not found").
Proof. repeat split; vm_compute; reflexivity. Qed.

(** The text merge of one file, headers off: its content and one line
    feed. *)
Example text_merge_one_file :
  let r := FileProcessor.merge_as_text (Scenario.world false Scenario.never)
             ["a.txt"] "out.txt" Scenario.fresh in
  r.1 = FileProcessor.Finished
  /\ FileProcessor.disk r.2 !! "out.txt"
     = Some (FileProcessor.TextFile ("alpha" +:+ FileProcessor.nl))
  /\ FileProcessor.processing_queue r.2
     = [FileProcessor.Status "Processing: a.txt"; FileProcessor.Progress 1].
Proof. repeat split; vm_compute; reflexivity. Qed.

(** With headers on, the marker of line 70 comes before the content. *)
Example text_merge_with_header :
  let nl := FileProcessor.nl in
  let r := FileProcessor.merge_as_text (Scenario.world true Scenario.never)
             ["docs/a.txt"] "out.txt" Scenario.fresh in
  FileProcessor.disk r.2 !! "out.txt"
  = Some (FileProcessor.TextFile
            (nl +:+ "====================" +:+ nl +:+ "# File: docs/a.txt" +:+ nl
             +:+ "====================" +:+ nl +:+ nl
             +:+ "# Error reading file docs/a.txt: [Errno 2] No such file or directory: 'docs/a.txt'"
             +:+ nl))
  /\ FileProcessor.processing_errors r.2
     = ["Error reading file docs/a.txt: [Errno 2] No such file or directory: 'docs/a.txt'"].
Proof. repeat split; vm_compute; reflexivity. Qed.

(** The two Office strategies on a file of their own type and a
    foreign one. *)
Example docx_merge_runs :
  let r := FileProcessor.merge_as_docx (Scenario.world true Scenario.never)
             ["memo.docx"; "a.txt"] "all.docx" Scenario.fresh in
  r.1 = FileProcessor.Finished
  /\ FileProcessor.disk r.2 !! "all.docx"
     = Some (FileProcessor.DocxFile
               [FileProcessor.Heading "Consolidated Document" 0;
                FileProcessor.Heading "Content from: memo.docx" 1;
                FileProcessor.SectPr;
                FileProcessor.Element "<w:p>memo</w:p>"])
  /\ FileProcessor.processing_errors r.2 = ["Skipped non-DOCX file: a.txt"].
Proof. repeat split; vm_compute; reflexivity. Qed.

Example pptx_merge_runs :
  let r := FileProcessor.merge_as_pptx (Scenario.world true Scenario.never)
             ["talk.pptx"; "memo.docx"] "all.pptx" Scenario.fresh in
  r.1 = FileProcessor.Finished
  /\ FileProcessor.disk r.2 !! "all.pptx"
     = Some (FileProcessor.PptxFile
               [FileProcessor.NewSlide "Title Slide"
                  [FileProcessor.TextBox (0, 0, 100, 50)%Z "Welcome"]])
  /\ FileProcessor.processing_errors r.2 = ["Skipped non-PPTX file: memo.docx"].
Proof. repeat split; vm_compute; reflexivity. Qed.

(** A PDF merge that sees the flag set at its second round writes no
    output. *)
Example pdf_merge_cancelled :
  let r := FileProcessor.merge_as_pdf (Scenario.world true (Scenario.from 1))
             ["report.pdf"; "report.pdf"] "all.pdf" Scenario.fresh in
  r.1 = FileProcessor.CancelSeen
  /\ FileProcessor.disk r.2 = ∅
  /\ writes (FileProcessor.log r.2) = [].
Proof. repeat split; vm_compute; reflexivity. Qed.

(** On an object that had the four merge functions as attributes, the
    selector [TXT] would run the text strategy. *)
Example dispatch_with_four_attributes :
  let w := Scenario.world false Scenario.never in
  let r := FileProcessor.process_files_with w
             [("merge_as_text", FileProcessor.merge_as_text w);
              ("merge_as_pdf", FileProcessor.merge_as_pdf w);
              ("merge_as_docx", FileProcessor.merge_as_docx w);
              ("merge_as_pptx", FileProcessor.merge_as_pptx w)]
             ["a.txt"; "b.txt"] "out.txt" "TXT" Scenario.fresh in
  r.1 = FileProcessor.Finished
  /\ FileProcessor.disk r.2 !! "out.txt"
     = Some (FileProcessor.TextFile
               ("alpha" +:+ FileProcessor.nl +:+ "beta" +:+ FileProcessor.nl))
  /\ FileProcessor.processing_queue r.2
     = [FileProcessor.MaxProgress 2;
        FileProcessor.Status "Processing: a.txt"; FileProcessor.Progress 1;
        FileProcessor.Status "Processing: b.txt"; FileProcessor.Progress 2;
        FileProcessor.Status "Finished. Consolidated 2 files.";
        FileProcessor.Done ["a.txt"; "b.txt"] "out.txt"].
Proof. repeat split; vm_compute; reflexivity. Qed.

(** As the class is laid out, every run ends in the handler of line 34. *)
Example dispatch_as_laid_out :
  let r := FileProcessor.process_files (Scenario.world false Scenario.never)
             ["a.txt"; "b.txt"] "out.txt" "TXT" Scenario.fresh in
  FileProcessor.outcome r.1 = FileProcessor.Failed
  /\ FileProcessor.disk r.2 = ∅
  /\ FileProcessor.processing_errors r.2
     = ["A critical error occurred: 'FileProcessor' object has no attribute 'merge_as_pdf'"].
Proof. repeat split; vm_compute; reflexivity. Qed.

(** A cancelled PDF merge on a machine with Office: the first round has
    Word save [memo_0.pdf] and reads it, the second round sees the
    flag, and the temporary file is removed; the output is not
    opened. *)
Example pdf_merge_cancelled_with_office :
  let r := FileProcessor.merge_as_pdf (Scenario.office_world true (Scenario.from 1))
             ["memo.docx"; "report.pdf"] "all.pdf" Scenario.fresh in
  r.1 = FileProcessor.CancelSeen
  /\ FileProcessor.log r.2
     = [FileProcessor.OpenRead "memo_0.pdf"; FileProcessor.Remove "memo_0.pdf"]
  /\ FileProcessor.disk r.2 !! "memo_0.pdf" = None
  /\ FileProcessor.disk r.2 !! "all.pdf" = None
  /\ FileProcessor.processing_errors r.2 = [].
Proof. repeat split; vm_compute; reflexivity. Qed.
